(* ===== verification/_CoqProject ===== *)
-Q . S2P
Prelude.v
Cbuf.v
Ctext.v
CsdbKey.v
CsdbState.v
Csdb.v
CsdbSpec.v
CsdbRep.v
CsdbRead.v
CsdbWrite.v
CsdbRemove.v
CsdbRefine.v
CsdbUpdate.v
CsdbDump.v
CsdbStore.v
CsdbTrace.v
CsdbBin.v
CsdbBinWrite.v
Csp.v
Csd.v
CsdProps.v
Csm.v
CsmProps.v
Csc.v
CscProps.v
CsdLoop.v
CsdThreads.v
CsdNet.v
Csda.v
CsdaProps.v
Ikcp.v
Ikcq.v
IkcqRep.v
IkcqProps.v
Dkmctl.v
DkmctlInv.v
DkmctlProps.v
DkmctlSafety.v
DkmctlSignal.v
IkcState.v
Ikcbl.v
IkcblRep.v
Ikcd.v
IkcdIn.v
IkcdCollect.v
IkcdOut.v
Remote.v
CsdaMsq.v
IkcdMain.v
IkcdRace.v
IkcdThreads.v
ForkPid.v
ForkUid.v
ForkUidRep.v
ForkUidProps.v
ExecArgs.v
ExecArgsProps.v
ExecBinfmt.v
ExecBinfmtProps.v
ExecFile.v
ExecCreds.v
TaskRes.v
ForkCopy.v
ForkCopyProps.v
ForkFilesProps.v
ForkMm.v
ForkMmProps.v
ForkExit.v
Fork.v
ForkParts.v
ForkProps.v
ForkVfork.v
ExecFlush.v
ExecFlushProps.v
Exec.v
ExecProps.v
Examples.v
ExamplesKernel.v
ExamplesFork.v
ExamplesMain.v
