(* ===== verification/Prelude.v ===== *)
(** * DKM: distributed kernel machine, cluster daemons and kernel interface

    This library models the C program under src/src and proves what its parts do.  DKM
    runs programs of one Linux 2.2 machine on another.  Its parts are

    - csd, on every node: a tree database of what is known of the nodes of the cluster
      (csd/csdb.c), the packets with which it is read, written and exchanged
      (csd/csp.c), the collector of the values of this node and of its peers
      (csd/csc.c), the daemon with its threads (csd/csd.c), and an arbiter that chooses
      the best node for an application (csd/csda.c);
    - csm, the terminal client of csd (csm/csm.c);
    - the kernel (dkmke/dkmctl.c, and the changed fork.c and exec.c of Linux 2.2.13): a
      process that executes a file asks for the best node, and for a process on that
      node, and sleeps until the system call dkmctl brings the answer;
    - ikcd, on every node: fetches these requests from its kernel, asks csda for the
      best node, sends process creation requests to the ikcd of another node, and
      serves those of others (ikcd/ikcd.c, ikcr.c, ikcp.c, ikcq.c, ikcbl.c).

    ** How the code is modelled

    A function of the source is a function into the state and fault monad [M] of this
    file: [Ok s a], or [Stop f] where [f] is what a C program does wrong (a NULL or
    dangling pointer, an access outside a buffer, an uninitialised value, a lock that is
    taken twice), the end of the fuel, or a call of exit.  Memory that is shared and
    linked is a heap ([gmap] from locations to records); a [char*] with a size is a
    [buf], whose accesses are checked; integers have the width of the i386 ABI with the
    wrap-around written out ([u8], [u16], [u32], [s8], [s32]).  What is not under src/ is
    a parameter: the kernel's network, the resolver, message queues, files, the output
    of the dynamic linker, the environment, and the contents of memory that has not been
    written ([stack], [slack], [junk]).

    ** The files

    - Prelude (monad, total correctness [runs], [refines], bytes), Cbuf (buffers,
      memcpy, integers in packets), Ctext (strtok, sprintf into a buffer, sscanf).
    - csdb.c: CsdbKey (keys, [csdb_parse_key]), CsdbState (entries, heap, mutex), Csdb
      (every operation), CsdbSpec (the abstract tree), CsdbRep (what it means that the
      heap holds a tree), CsdbRead, CsdbWrite, CsdbRemove, CsdbRefine, CsdbUpdate,
      CsdbDump (each operation refines the one of the tree), CsdbStore (the interface
      [CsStore] between the database and its users, its instances and the contract
      [StoreRefinement]), CsdbTrace (sequences of operations).  CsdbBin, CsdbBinWrite: the
      build with binary search, where it differs.
    - csp.c: Csp.  csd.c: Csd (packet handlers), CsdProps, CsdLoop (the other threads,
      the start), CsdThreads (how the daemon ends, a step relation over its threads).
      csc.c: Csc, CscProps.  csda.c: Csda, CsdaProps, CsdaMsq (the message queue between
      it and ikcd).  csm.c: Csm, CsmProps.  CsdNet: several daemons that exchange packets.
    - dkmctl.c, dkm.h, fork.c lines 693-708, exec.c lines 849-860: Dkmctl, DkmctlInv (the
      kernel as a step relation, and its invariant), DkmctlProps, DkmctlSafety, DkmctlSignal
      (when the kernel signals ikcd).
    - fork.c: ForkPid ([get_pid]), ForkUid, ForkUidRep, ForkUidProps (the users), TaskRes
      (what tasks share: the heaps, the reference counts and their invariant [rinv]),
      ForkCopy, ForkCopyProps, ForkFilesProps (open files, signal table, file system
      context), ForkMm, ForkMmProps (the memory), Fork, ForkExit, ForkParts, ForkProps
      ([do_fork] and its clean-up, made of these and of Dkmctl), ForkVfork (vfork and
      [mm_release], a step relation over the tasks).
    - exec.c: ExecArgs, ExecArgsProps (the strings), ExecBinfmt, ExecBinfmtProps, ExecFile
      (binary formats and files), ExecCreds (user and capabilities), ExecFlush, ExecFlushProps
      ([flush_old_exec], on the state of TaskRes), Exec, ExecProps ([do_execve], made of
      these and of Dkmctl).
    - ikcp.c and the request numbers of ikcr.c: Ikcp.  ikcq.c: Ikcq, IkcqRep, IkcqProps.
      ikc.h and the memory of ikcd: IkcState.  ikcbl.c: Ikcbl, IkcblRep.  ikcd.c and the
      rest of ikcr.c: Ikcd (the threads; the kernel is the interface [DkmctlCall]),
      IkcdIn, IkcdCollect, IkcdOut, IkcdRace, IkcdThreads (the workers of a queue with
      their condition variable, as a step relation on the queue of Ikcq), IkcdMain (the
      main thread with its signals, together with the kernel).
    - Remote: a process executes a file on another host, through all of the parts above.
    - Examples, ExamplesKernel, ExamplesFork, ExamplesMain: properties at concrete inputs.

    The users of the database are written against [CsStore] and run on the code of csdb.c
    and on the abstract database; their refinement (the lemmas with names in [_refines])
    carries what is proved on the tree over to the heap.  In the same way the client is
    written against [CsdCall], whose instance [csd_server] is the daemon, and ikcd against
    [DkmctlCall], whose instance [kernel_dkmctl] is the system call of Dkmctl.

    ** What is proved

    - The database: after [csdb_init] every sequence of operations returns what the
      abstract tree says and leaves a heap that represents it (so that no operation
      leaks a reachable entry or touches freed memory), or stops with the same fault;
      what a set, a remove and the list of children do as seen by gets; which keys
      [csdb_parse_key] terminates on, and that it is the reference splitter there; that a
      failed get leaves the mutex locked.  The binary-search build: its search finds what
      the linear one finds; linking and unlinking keep the order and the count.
    - Packets and daemon: round trips of packets, also through the receive loop with a
      buffer in any state; the session of a client; the load of a node arrives at a
      peer; default requests copy exactly the values of the peers; dump and restore.
      The daemon can end after a signal to its main thread, with at most one round of
      each other thread; it can no longer end after one that a thread gets while it holds
      the mutex of the database.
    - The arbiter returns a capable and alive node with the greatest benchmark, and
      blocks for ever if the load of such a node is missing; ikcd gets this node over the
      message queue.
    - The kernel: in every reachable state no two tasks share a [dkm_struct] and a
      request is pending exactly while its process sleeps; requests are reported once, to
      the right process; the exchange of a request runs to its end.  The errors: an ikcd
      that died, the [dkm_struct]s that [do_fork] exchanges.  The main thread of ikcd does
      not sleep while a process waits to be served (but for a signal that comes before
      the first [sigsuspend]).
    - fork: in every reachable state the pids differ while forks do not overlap, and two
      tasks can have one pid when they do; the hash table of users is well-formed and
      counts the processes of each user; every reference count is the number of the
      references, on every path of [do_fork], which makes a whole task, with copies of
      what it does not share, or leaves what tasks share as it was.
      A parent in vfork goes on when its child has released the memory, and not before.
    - exec: the strings of the caller reach the stack of the program (and are lost in one
      case); the list of formats and its first order; a file is opened as a whole or not
      at all; which rights a set-uid program gives, and to whom it is refused; before the point
      of no return an error of [flush_old_exec] changes nothing; a file that may not be
      executed is asked for at ikcd all the same.
    - ikcd: the queues are first-in first-out lists; packets are answered in the order of
      their arrival and, by one worker, executed at most once ([executed] records what is
      executed); the service of the kernel; what a lost answer does.  With several threads:
      each request is handled by one worker, or is still queued and then, once the threads
      are at rest, a signal has come when no worker waited; and the two faults that
      interleavings cause (a use after free with a second execution, a lost wake-up).
    - All together: a process executes a file on the node that csd names, also when an
      answer is lost on the way; the other host proceeds the request once, but with the
      name of its host for the name of the file.

    ** Bounds and fuel

    Loops over linked lists take [heap_fuel] (one more than the number of entries of the
    heap), which the refinement theorems show to be enough in every state that
    represents a database.  [csdb_parse_key] takes twice the length of the key and one
    more; that more fuel does not help where this is not enough is
    [csdb_parse_key_terminates].  Loops over a text take its length and one more (each round consumes a character); for the
    client that is [csd_cli_total].  The workers of ikcd take the length of the queue and
    one more.  [get_pid] has twice the range of the ids, enough while at most 10822 tasks
    exist ([get_pid_unused]; the kernel has 512).  The list of binary formats has its size
    and one more, [flush_old_files] the size of the table, a word of descriptors its bits.
    The binary search has 33 rounds, enough for every count below 2^31 ([bin_find_linear]).
    Loops that walk a list that is known when they start are structural.

    ** Assumptions

    - malloc succeeds, and kmalloc in dkmctl.c; allocations of fork.c and exec.c can fail.
      The address of a client has the size of a
      [sockaddr_in]; [recvfrom] into the buffer of ikcd delivers the packet whose size
      was peeked.
    - A handler of csd runs under the mutexes it takes; handlers of different threads are
      not interleaved (csd takes the mutex of the database in every operation but the
      list of children).
    - SIGTERM and SIGINT of csd: a second signal during a handler is left out.
    - Semaphores and mutexes are atomic; the kernel is not preempted and runs on one
      processor.
    - The rest of the kernel is a parameter of the definitions of fork.c and exec.c, with a
      law for what it promises: page tables, the areas of a memory, larger descriptor
      tables, closing a file, dropping a reference at the end of a task, free slots.
      ExamplesFork, and the end of ExecFile, have functions that keep these laws.
    - Doubles have 53 bits; the x87 unit of the i386 may keep 64 in registers.
    - Mapped files are followed by a zero byte (their size is no multiple of the page).
    - The source copies sizeof(struct sockaddr_in) bytes to an address of four bytes.  In
      ikcr.c (line 170) this is an access outside the buffer unless the parameter
      [servaddr_room] leaves room behind the address, which the theorems assume; in csd.c
      (lines 105 and 189) only the four bytes are modelled.

    ** Not modelled

    Sockets, select, fork and setsid, the creation of threads and the calls that install
    signal handlers; logging (csd/csl.c, ikcd/ikcl.c); the message queues of the system (a
    queue is what [msgrcv] returns and [msgsnd] is called with); test programs (csd/cst.c,
    [csdb_test]) and csd/cspp.c; the functions that are empty in the source; of csdb.c the
    code under CSDB_BINARY_SEARCH_XX, a name that nothing defines; of dkmke/fork.c the
    timers and statistics of a new task and the creation of caches; of dkmke/exec.c the
    formats that only the alpha has; the entry of the system call (dkmke/entry.S) and its
    stub (ikcd/dkmctl_sys.c). *)

From Stdlib Require Import ZArith Lia Strings.Byte.
From stdpp Require Import base list gmap strings.

(** * Faults

    What a C step can do other than continue.  [NullDeref] and [BadPtr] are
    the dereference of [NULL] and of memory that is not (or no longer)
    allocated, [OutOfBounds] a read or write past the end of a buffer,
    [Deadlock] the acquisition of a mutex that is already held (the daemons use
    fast mutexes, so the caller blocks for ever), [OutOfFuel] a loop that has
    not finished within the given number of iterations, and [Exit] the call of [exit]
    after an error message. *)
Inductive fault : Set :=
  NullDeref | BadPtr | OutOfBounds | Uninit | Deadlock | OutOfFuel | Exit.

#[export] Instance fault_eq_dec : EqDecision fault.
Proof. solve_decision. Defined.

(** * The state and fault monad *)
Inductive outcome (S A : Type) : Type :=
  | Ok (s : S) (a : A)
  | Stop (f : fault).
Arguments Ok {S A} s a.
Arguments Stop {S A} f.

Definition M (S A : Type) : Type := S → outcome S A.

#[export] Instance M_ret {S} : MRet (M S) := λ A a s, Ok s a.
#[export] Instance M_bind {S} : MBind (M S) := λ A B k m s,
  match m s with Ok s' a => k a s' | Stop f => Stop f end.

Definition stop {S A} (f : fault) : M S A := λ _, Stop f.
Definition gets {S A} (g : S → A) : M S A := λ s, Ok s (g s).
Definition modify {S} (g : S → S) : M S unit := λ s, Ok (g s) ().
(** [if(b) m] *)
Definition when {S} (b : bool) (m : M S unit) : M S unit :=
  if b then m else mret ().

Lemma bind_Ok {S A B} (m : M S A) (k : A → M S B) s s' a :
  m s = Ok s' a → (m ≫= k) s = k a s'.
Proof. intros H. unfold mbind, M_bind. by rewrite H. Qed.

Lemma bind_inv {S A B} (m : M S A) (k : A → M S B) s s' b :
  (m ≫= k) s = Ok s' b → ∃ s1 a, m s = Ok s1 a ∧ k a s1 = Ok s' b.
Proof. unfold mbind, M_bind. destruct (m s) as [s1 a|]; [|done]. eauto. Qed.

Lemma bind_Stop {S A B} (m : M S A) (k : A → M S B) s f :
  m s = Stop f → (m ≫= k) s = Stop f.
Proof. intros H. unfold mbind, M_bind. by rewrite H. Qed.

(** ** Total correctness: [m] run in [s] neither faults nor runs out of fuel, and
    [Q] holds of what it leaves. *)
Definition runs {S A} (m : M S A) (s : S) (Q : S → A → Prop) : Prop :=
  match m s with Ok s' a => Q s' a | Stop _ => False end.

Section runs.
Context {S : Type}.
Implicit Types s : S.

Lemma runs_ret {A} (a : A) s (Q : S → A → Prop) : Q s a → runs (mret a) s Q.
Proof. done. Qed.

Lemma runs_bind {A B} (m : M S A) (k : A → M S B) s (Q : S → B → Prop) :
  runs m s (λ s' a, runs (k a) s' Q) → runs (m ≫= k) s Q.
Proof. unfold runs, mbind, M_bind. by destruct (m s). Qed.

Lemma runs_gets {A} (g : S → A) s (Q : S → A → Prop) : Q s (g s) → runs (gets g) s Q.
Proof. done. Qed.

Lemma runs_modify (g : S → S) s (Q : S → unit → Prop) :
  Q (g s) () → runs (modify g) s Q.
Proof. done. Qed.

Lemma runs_mono {A} (m : M S A) s (P Q : S → A → Prop) :
  runs m s P → (∀ s' a, P s' a → Q s' a) → runs m s Q.
Proof. unfold runs. destruct (m s); naive_solver. Qed.

Lemma runs_eq {A} (m : M S A) s s' a (Q : S → A → Prop) :
  m s = Ok s' a → Q s' a → runs m s Q.
Proof. unfold runs. by intros ->. Qed.

Lemma runs_inv {A} (m : M S A) s (Q : S → A → Prop) :
  runs m s Q → ∃ s' a, m s = Ok s' a ∧ Q s' a.
Proof. unfold runs. destruct (m s); naive_solver. Qed.
End runs.

(** One step of symbolic execution of a goal [runs m s Q]. *)
Ltac runs_step :=
  lazymatch goal with
  | |- runs (_ ≫= _) _ _ => apply runs_bind
  | |- runs (mret _) _ _ => apply runs_ret
  | |- runs (gets _) _ _ => apply runs_gets
  | |- runs (modify _) _ _ => apply runs_modify
  end.
Ltac runs_auto := repeat (runs_step; simpl).

(** Closed facts that can be decided. *)
Ltac by_decision := by apply (bool_decide_unpack _); vm_compute.

(** ** Refinement: started in related states, [m] does what [m'] does: it stops with
    the same fault, or returns the same value in a related state. *)
Definition refines {S T A} (R : S → T → Prop) (m : M S A) (m' : M T A) : Prop :=
  ∀ s t, R s t →
    match m' t with
    | Ok t' a => ∃ s', m s = Ok s' a ∧ R s' t'
    | Stop f => m s = Stop f
    end.

Section refines.
Context {S T : Type} (R : S → T → Prop).

Lemma refines_ret {A} (a : A) : refines R (mret a) (mret a).
Proof. intros s t HR. by exists s. Qed.

Lemma refines_stop {A} f : refines R (stop f : M S A) (stop f).
Proof. by intros s t HR. Qed.

Lemma refines_bind {A B} (m : M S A) m' (k : A → M S B) k' :
  refines R m m' → (∀ a, refines R (k a) (k' a)) → refines R (m ≫= k) (m' ≫= k').
Proof.
  intros Hm Hk s t HR. specialize (Hm s t HR). unfold mbind, M_bind.
  destruct (m' t) as [t' a|f]; [|by rewrite Hm].
  destruct Hm as (s' & -> & HR'). by apply Hk.
Qed.

(** What is proved of the abstract program holds of the concrete one. *)
Lemma refines_runs {A} (m : M S A) m' s t (Q : T → A → Prop) :
  refines R m m' → R s t → runs m' t Q → runs m s (λ s' a, ∃ t', R s' t' ∧ Q t' a).
Proof.
  intros Hm HR. specialize (Hm s t HR). unfold runs.
  destruct (m' t); [|done]. destruct Hm as (s' & -> & ?). eauto.
Qed.
End refines.

Create HintDb refine discriminated.
#[export] Hint Resolve refines_ret refines_stop refines_bind : refine.

(** Reads of a map that has been written to. *)
Ltac map_reads :=
  repeat first [ rewrite lookup_insert_eq | rewrite lookup_delete_eq
               | rewrite lookup_insert_ne by (done || congruence)
               | rewrite lookup_delete_ne by (done || congruence) ].

(** A store to an element that is there. *)
Lemma insert_alter_eq {A} (m : gmap positive A) l x g :
  m !! l = Some x → <[l := g x]> m = alter g l m.
Proof.
  intros Hl. apply map_eq. intros i. destruct (decide (i = l)) as [->|].
  - by rewrite lookup_insert_eq, lookup_alter_eq, Hl.
  - by rewrite lookup_insert_ne, lookup_alter_ne.
Qed.

(** A list without an element that occurs once. *)
Lemma list_difference_middle {A} `{EqDecision A} (a b : list A) x :
  x ∉ a → x ∉ b → list_difference (a ++ x :: b) [x] = a ++ b.
Proof.
  intros Ha Hb. assert (∀ l, x ∉ l → list_difference l [x] = l) as Hl.
  { induction l as [|y l IH]; [done|]. intros [Hy Hl]%not_elem_of_cons. cbn.
    case_decide as Hd; [by apply list_elem_of_singleton in Hd|]. by rewrite IH. }
  induction a as [|y a IH]; cbn.
  - case_decide as Hd; [by apply Hl|]. destruct Hd. by left.
  - apply not_elem_of_cons in Ha as [Hy Ha]. case_decide as Hd; [by apply list_elem_of_singleton in Hd|].
    by rewrite IH.
Qed.

(** Different locations that are allocated are at most as many as the heap has. *)
Lemma nodup_size {A} (ls : list positive) (h : gmap positive A) :
  NoDup ls → (∀ l, l ∈ ls → is_Some (h !! l)) → length ls ≤ size h.
Proof.
  intros Hn Hd. rewrite <- size_dom, <- (size_list_to_set (C := gset positive)) by done.
  apply subseteq_size. intros l. rewrite elem_of_list_to_set, elem_of_dom. auto.
Qed.

(** * C strings and bytes

    A C string is the list of its bytes before the terminating NUL. *)
Abbreviation byte := Init.Byte.byte.
#[export] Instance byte_eq_dec : EqDecision byte := Byte.byte_eq_dec.
Abbreviation cstr := (list byte).

(** A string literal of the source. *)
Definition lit (s : string) : cstr := String.list_byte_of_string s.

Definition NUL : byte := "000"%byte.
Definition dot : byte := "."%byte.
Definition space : byte := " "%byte.
Definition NL : byte := "010"%byte.
Definition underscore : byte := "_"%byte.
Definition slash : byte := "/"%byte.
Definition equals : byte := "="%byte.
Definition minus : byte := "-"%byte.

(** ** Fixed-width integers of the i386 ABI *)
Definition u8 (z : Z) : Z := z `mod` 2 ^ 8.
Definition u16 (z : Z) : Z := z `mod` 2 ^ 16.
Definition u32 (z : Z) : Z := z `mod` 2 ^ 32.
Definition s8 (z : Z) : Z := (z + 2 ^ 7) `mod` 2 ^ 8 - 2 ^ 7.
Definition s32 (z : Z) : Z := (z + 2 ^ 31) `mod` 2 ^ 32 - 2 ^ 31.

Definition byte_val (b : byte) : Z := Z.of_N (Byte.to_N b).
Definition byte_of (z : Z) : byte :=
  default NUL (Byte.of_N (Z.to_N (u8 z))).

Lemma byte_val_range b : (0 ≤ byte_val b < 256)%Z.
Proof. unfold byte_val. pose proof (Byte.to_N_bounded b). lia. Qed.

Lemma byte_val_of z : byte_val (byte_of z) = u8 z.
Proof.
  unfold byte_of, byte_val, u8.
  pose proof (Z.mod_pos_bound z (2 ^ 8) ltac:(lia)).
  destruct (Byte.of_N _) as [b|] eqn:E; simpl.
  - apply Byte.to_of_N in E. rewrite E. lia.
  - apply Byte.of_N_None_iff in E. lia.
Qed.

Lemma byte_of_val b : byte_of (byte_val b) = b.
Proof.
  unfold byte_of, byte_val, u8.
  pose proof (Byte.to_N_bounded b).
  rewrite Z.mod_small by lia. by rewrite N2Z.id, Byte.of_to_N.
Qed.

Lemma byte_val_inj b1 b2 : byte_val b1 = byte_val b2 → b1 = b2.
Proof. intros H. by rewrite <- (byte_of_val b1), H, byte_of_val. Qed.
