(* ===== verification/Cbuf.v ===== *)
(** Byte buffers: the memory a [char*] of the C code points to, with its size.

    Every access names the offset and is checked against the size; an access outside
    the buffer has no result.  The i386 stores integers with the low byte first. *)

From Stdlib Require Import ZArith Lia.
From stdpp Require Import base list gmap strings.
From S2P Require Import Prelude.

Abbreviation buf := (list byte).

(** * Accesses *)

(** [n] bytes from offset [i]; a negative count is a huge [size_t]. *)
Definition buf_read (m : buf) (i n : Z) : option (list byte) :=
  if decide (0 ≤ i ∧ 0 ≤ n ∧ i + n ≤ Z.of_nat (length m))%Z
  then Some (take (Z.to_nat n) (drop (Z.to_nat i) m)) else None.

Definition buf_write (m : buf) (i : Z) (l : list byte) : option buf :=
  if decide (0 ≤ i ∧ i + Z.of_nat (length l) ≤ Z.of_nat (length m))%Z
  then Some (take (Z.to_nat i) m ++ l ++ drop (Z.to_nat i + length l) m) else None.

Definition buf_get (m : buf) (i : Z) : option byte :=
  if decide (0 ≤ i)%Z then m !! Z.to_nat i else None.

Definition buf_put (m : buf) (i : Z) (b : byte) : option buf := buf_write m i [b].

(** The bytes before the first NUL. *)
Fixpoint until_nul (l : list byte) : option cstr :=
  match l with
  | [] => None
  | b :: l => if decide (b = NUL) then Some [] else cons b <$> until_nul l
  end.

(** The C string at offset [i]. *)
Definition buf_str (m : buf) (i : Z) : option cstr :=
  if decide (0 ≤ i)%Z then until_nul (drop (Z.to_nat i) m) else None.

(** A fault of the program where an access has no result. *)
Definition access {S A} (o : option A) : M S A :=
  match o with Some a => mret a | None => stop OutOfBounds end.

(** [memcpy(_, s, n)] out of the string [s] and its NUL *)
Definition memcpy_src (s : cstr) (n : Z) : option (list byte) := buf_read (s ++ [NUL]) 0 n.

(** [strncpy(_, s, n)]: the string, filled up with NULs *)
Definition strncpy_bytes (s : cstr) (n : nat) : list byte := take n (s ++ replicate n NUL).

(** ** Integers *)

Fixpoint le_bytes (n : nat) (z : Z) : list byte :=
  match n with 0 => [] | S n => byte_of z :: le_bytes n (z / 256) end.

Fixpoint le_val (l : list byte) : Z :=
  match l with [] => 0 | b :: l => byte_val b + 256 * le_val l end%Z.

Definition buf_get16 (m : buf) (i : Z) : option Z := le_val <$> buf_read m i 2.
Definition buf_get32 (m : buf) (i : Z) : option Z := le_val <$> buf_read m i 4.
Definition buf_put16 (m : buf) (i z : Z) : option buf := buf_write m i (le_bytes 2 z).
Definition buf_put32 (m : buf) (i z : Z) : option buf := buf_write m i (le_bytes 4 z).

(** A [char] as a signed number. *)
Definition schar (b : byte) : Z := s8 (byte_val b).

(** * Laws *)

Lemma length_le_bytes n z : length (le_bytes n z) = n.
Proof. revert z. induction n; intros z; simpl; auto. Qed.

Lemma le_val_bytes n z : le_val (le_bytes n z) = (z `mod` 256 ^ Z.of_nat n)%Z.
Proof.
  revert z. induction n as [|n IH]; intros z; simpl; [by rewrite Z.mod_1_r|].
  rewrite byte_val_of, IH. unfold u8. change (2 ^ 8)%Z with 256%Z.
  replace (256 ^ Z.of_nat (S n))%Z with (256 * 256 ^ Z.of_nat n)%Z
    by (rewrite Nat2Z.inj_succ, Z.pow_succ_r; lia).
  rewrite Z.rem_mul_r; lia.
Qed.

Lemma le_val_bytes_small n z :
  (0 ≤ z < 256 ^ Z.of_nat n)%Z → le_val (le_bytes n z) = z.
Proof. intros. by rewrite le_val_bytes, Z.mod_small. Qed.

Lemma le_val_range l : (0 ≤ le_val l < 256 ^ Z.of_nat (length l))%Z.
Proof.
  induction l as [|b l IH]; [simpl; lia|]. cbn [le_val length].
  pose proof (byte_val_range b). rewrite Nat2Z.inj_succ, Z.pow_succ_r by lia. nia.
Qed.

Lemma schar_of z : (-128 ≤ z < 128)%Z → schar (byte_of z) = z.
Proof.
  intros. unfold schar, s8. rewrite byte_val_of. unfold u8.
  rewrite Zplus_mod_idemp_l, Z.mod_small; lia.
Qed.

(** Reading and writing in the middle of a buffer that is known piece by piece. *)
Lemma buf_read_app pre l post i n :
  i = Z.of_nat (length pre) → n = Z.of_nat (length l) →
  buf_read (pre ++ l ++ post) i n = Some l.
Proof.
  intros -> ->. unfold buf_read. rewrite decide_True by (rewrite !length_app; lia).
  rewrite !Nat2Z.id, drop_app_length. by rewrite take_app_length.
Qed.

Lemma buf_write_app pre old l post i :
  i = Z.of_nat (length pre) → length old = length l →
  buf_write (pre ++ old ++ post) i l = Some (pre ++ l ++ post).
Proof.
  intros -> Hl. unfold buf_write. rewrite decide_True by (rewrite !length_app; lia).
  rewrite Nat2Z.id, take_app_length, <- drop_drop, drop_app_length, <- Hl.
  by rewrite drop_app_length.
Qed.

Lemma buf_put_app pre b0 b post i :
  i = Z.of_nat (length pre) → buf_put (pre ++ b0 :: post) i b = Some (pre ++ b :: post).
Proof. intros. by apply (buf_write_app pre [b0] [b] post). Qed.

Lemma length_buf_write m i l m' : buf_write m i l = Some m' → length m' = length m.
Proof.
  unfold buf_write. case_decide; [|done]. intros [= <-].
  rewrite !length_app, length_take, length_drop. lia.
Qed.

Lemma buf_write_oob m i l :
  l ≠ [] → (Z.of_nat (length m) < i + Z.of_nat (length l))%Z → buf_write m i l = None.
Proof. intros. unfold buf_write. by rewrite decide_False by lia. Qed.

Lemma buf_read_oob m i n : (n < 0)%Z ∨ (Z.of_nat (length m) < i + n)%Z → buf_read m i n = None.
Proof. intros. unfold buf_read. by rewrite decide_False by lia. Qed.

Lemma buf_get_app pre b post i :
  i = Z.of_nat (length pre) → buf_get (pre ++ b :: post) i = Some b.
Proof.
  intros ->. unfold buf_get. rewrite decide_True by lia. rewrite Nat2Z.id.
  by apply list_lookup_middle.
Qed.

Lemma buf_get_hd b0 m : buf_get (b0 :: m) 0 = Some b0.
Proof. done. Qed.
Lemma buf_get_hd1 b0 b1 m : buf_get (b0 :: b1 :: m) 1 = Some b1.
Proof. done. Qed.
Lemma buf_get_hd2 b0 b1 b2 m : buf_get (b0 :: b1 :: b2 :: m) 2 = Some b2.
Proof. done. Qed.

Lemma buf_str_app pre s post i :
  i = Z.of_nat (length pre) → NUL ∉ s → buf_str (pre ++ s ++ NUL :: post) i = Some s.
Proof.
  intros -> Hs. unfold buf_str. rewrite decide_True by lia. rewrite Nat2Z.id, drop_app_length.
  induction s as [|b s IH]; simpl; [done|]. apply not_elem_of_cons in Hs as [? ?].
  rewrite decide_False by auto. by rewrite IH.
Qed.

Lemma memcpy_src_all s : memcpy_src s (Z.of_nat (length s)) = Some s.
Proof. apply (buf_read_app [] s [NUL]); done. Qed.

Lemma strncpy_bytes_all s : strncpy_bytes s (length s) = s.
Proof. unfold strncpy_bytes. by rewrite take_app_length. Qed.

Lemma length_strncpy_bytes s n : length (strncpy_bytes s n) = n.
Proof. unfold strncpy_bytes. rewrite length_take, length_app, length_replicate. lia. Qed.

(** Cutting a buffer of known size into pieces. *)
Lemma split_len {A} n (m : list A) :
  n ≤ length m → ∃ a b, m = a ++ b ∧ length a = n.
Proof.
  intros H. exists (take n m), (drop n m). rewrite take_drop, length_take. split; [done|lia].
Qed.

(** [split_buf m n as a b]: the first [n] bytes of [m] are [a], the others [b]. *)
Tactic Notation "split_buf" hyp(m) constr(n) "as" ident(a) ident(b) ident(Ha) :=
  let H := fresh in
  assert (∃ a b, m = a ++ b ∧ length a = n) as H by (apply split_len; simpl in *; lia);
  destruct H as (a & b & -> & Ha); rewrite ?length_app in *.

(** * Filling a buffer from its start

    [pre] has been written, [rest] is still as it was. *)

Lemma buf_write_next pre rest l i :
  i = Z.of_nat (length pre) → length l ≤ length rest →
  buf_write (pre ++ rest) i l = Some ((pre ++ l) ++ drop (length l) rest).
Proof.
  intros Hi Hl. rewrite <- (take_drop (length l) rest) at 1.
  rewrite (buf_write_app pre _ l) by (done || rewrite length_take; lia).
  by rewrite (assoc_L (++)).
Qed.

Lemma buf_put_next pre rest b i :
  i = Z.of_nat (length pre) → 1 ≤ length rest →
  buf_put (pre ++ rest) i b = Some ((pre ++ [b]) ++ drop 1 rest).
Proof. intros. by apply (buf_write_next pre rest [b]). Qed.

Lemma buf_put16_next pre rest z i :
  i = Z.of_nat (length pre) → 2 ≤ length rest →
  buf_put16 (pre ++ rest) i z = Some ((pre ++ le_bytes 2 z) ++ drop 2 rest).
Proof. intros. by apply (buf_write_next pre rest (le_bytes 2 z)). Qed.

Lemma buf_put32_next pre rest z i :
  i = Z.of_nat (length pre) → 4 ≤ length rest →
  buf_put32 (pre ++ rest) i z = Some ((pre ++ le_bytes 4 z) ++ drop 4 rest).
Proof. intros. by apply (buf_write_next pre rest (le_bytes 4 z)). Qed.

Lemma buf_get16_app pre z post i :
  i = Z.of_nat (length pre) → (0 ≤ z < 2 ^ 16)%Z →
  buf_get16 (pre ++ le_bytes 2 z ++ post) i = Some z.
Proof.
  intros Hi Hz. unfold buf_get16. rewrite buf_read_app by done. simpl.
  f_equal. by apply (le_val_bytes_small 2).
Qed.

Lemma buf_get32_app pre z post i :
  i = Z.of_nat (length pre) → (0 ≤ z < 2 ^ 32)%Z →
  buf_get32 (pre ++ le_bytes 4 z ++ post) i = Some z.
Proof.
  intros Hi Hz. unfold buf_get32. rewrite buf_read_app by done. simpl.
  f_equal. by apply (le_val_bytes_small 4).
Qed.

(** Side conditions on the lengths of buffers. *)
Ltac buf_len :=
  repeat first [ rewrite length_app | rewrite length_drop | rewrite length_le_bytes
               | rewrite length_take | rewrite length_cons | rewrite length_nil
               | rewrite length_replicate ];
  try lia.

(** The next write or read of a packing or unpacking function. *)
Ltac buf_step :=
  first [ rewrite buf_put_next by (simpl; buf_len)
        | rewrite buf_put16_next by (simpl; buf_len)
        | rewrite buf_put32_next by (simpl; buf_len)
        | rewrite buf_write_next by (simpl; buf_len) ];
  cbn [mbind option_bind].
