(* ===== verification/Ctext.v ===== *)
(** The text functions of the C library that the daemons use: [strtok], [sprintf] into a
    buffer of known size, the [%s] and [%d] conversions. *)

From Stdlib Require Import ZArith Lia.
From stdpp Require Import base list gmap strings.
From S2P Require Import Prelude Cbuf.

(** * strtok *)

(** The tokens of a text: the longest pieces without a delimiter.  [tok] is the piece
    that has been read so far. *)
Fixpoint strtok_loop (delims : list byte) (tok s : cstr) : list cstr :=
  match s with
  | [] => if decide (tok = []) then [] else [tok]
  | c :: s =>
    if decide (c ∈ delims) then
      if decide (tok = []) then strtok_loop delims [] s
      else tok :: strtok_loop delims [] s
    else strtok_loop delims (tok ++ [c]) s
  end.

(** What successive calls of [strtok(s, delims)] return. *)
Definition strtok (delims : list byte) (s : cstr) : list cstr := strtok_loop delims [] s.

(** The text that is made of words with a delimiter after each. *)
Definition spaced (d : byte) (ws : list cstr) : cstr := ws ≫= λ w, w ++ [d].

Lemma strtok_loop_app delims w s : ∀ tok,
  Forall (λ c, c ∉ delims) w → strtok_loop delims tok (w ++ s) = strtok_loop delims (tok ++ w) s.
Proof.
  induction w as [|c w IH]; intros tok Hw; simpl; [by rewrite app_nil_r|].
  apply Forall_cons in Hw as [Hc Hw]. rewrite decide_False by done.
  rewrite IH by done. by rewrite <- (assoc_L (++)).
Qed.

(** A word: not empty, and without a delimiter. *)
Definition word (delims : list byte) (w : cstr) : Prop := w ≠ [] ∧ Forall (λ c, c ∉ delims) w.

#[export] Instance word_dec delims w : Decision (word delims w).
Proof. unfold word. apply _. Defined.

Lemma strtok_spaced delims d ws :
  d ∈ delims → Forall (word delims) ws → strtok delims (spaced d ws) = ws.
Proof.
  intros Hd. unfold strtok. induction 1 as [|w ws [Hn Hw] _ IH]; [done|].
  cbn [spaced mbind list_bind]. rewrite <- (assoc_L (++)), strtok_loop_app by done. simpl.
  rewrite decide_True by done. rewrite decide_False by done. f_equal. apply IH.
Qed.

Lemma strtok_loop_words delims s : ∀ tok,
  Forall (λ c, c ∉ delims) tok → Forall (word delims) (strtok_loop delims tok s).
Proof.
  induction s as [|c s IH]; intros tok Ht; simpl.
  - case_decide; [done|]. by repeat constructor.
  - repeat case_decide; [by apply IH| |].
    + constructor; [done|]. by apply IH.
    + apply IH, Forall_app_2; [done|]. by repeat constructor.
Qed.

Lemma strtok_words delims s : Forall (word delims) (strtok delims s).
Proof. by apply strtok_loop_words. Qed.

(** * sprintf *)

(** [sprintf] of a text into a buffer of [size] bytes: the text and its NUL must fit. *)
Definition sprintf {S} (size : Z) (text : cstr) : M S cstr :=
  if decide (Z.of_nat (length text) < size)%Z then mret text else stop OutOfBounds.

Lemma sprintf_Ok {S} size text (s : S) :
  (Z.of_nat (length text) < size)%Z → sprintf size text s = Ok s text.
Proof. intros. unfold sprintf. by rewrite decide_True. Qed.

(** [%d] of a number that is not negative *)
Definition digit (z : Z) : byte := byte_of (48 + z `mod` 10).

Fixpoint decimal_loop (fuel : nat) (z : Z) (acc : cstr) : cstr :=
  match fuel with
  | 0 => acc
  | S fuel =>
    let acc := digit z :: acc in
    if decide (z / 10 = 0)%Z then acc else decimal_loop fuel (z / 10) acc
  end.

Definition decimal (z : Z) : cstr := decimal_loop 20 z [].

(** * scanf *)

Definition is_space (c : byte) : bool :=
  bool_decide (c = space) || bool_decide (byte_val c = 9)%Z || bool_decide (byte_val c = 10)%Z ||
  bool_decide (byte_val c = 11)%Z || bool_decide (byte_val c = 12)%Z || bool_decide (byte_val c = 13)%Z.

Fixpoint skip_space (s : cstr) : cstr :=
  match s with c :: s' => if is_space c then skip_space s' else s | [] => [] end.

(** The longest prefix of bytes that satisfy [p], and what follows. *)
Fixpoint span (p : byte → bool) (s : cstr) : cstr * cstr :=
  match s with
  | [] => ([], [])
  | c :: s' => if p c then let '(a, b) := span p s' in (c :: a, b) else ([], s)
  end.

(** A [%s] conversion: skip white space, then a token that is not empty. *)
Definition scan_s (s : cstr) : option (cstr * cstr) :=
  match span (λ c, negb (is_space c)) (skip_space s) with
  | ([], _) => None
  | (tok, rest) => Some (tok, rest)
  end.

(** ** Formats *)

Inductive directive : Type :=
  | DSpace                        (* white space: skip any amount of it *)
  | DLit (s : cstr)               (* other text: must be there *)
  | DStr (store : bool)           (* %s, or %*s *)
  | DSet (p : byte → bool) (width : option nat) (store : bool). (* a set of characters *)

(** At most [w] characters of a set. *)
Fixpoint span_width (p : byte → bool) (w : nat) (s : cstr) : cstr * cstr :=
  match w, s with
  | S w, c :: s' => if p c then let '(a, b) := span_width p w s' in (c :: a, b) else ([], s)
  | _, _ => ([], s)
  end.

Fixpoint strip_prefix (p s : cstr) : option cstr :=
  match p, s with
  | [], _ => Some s
  | a :: p, b :: s => if decide (a = b) then strip_prefix p s else None
  | _ :: _, [] => None
  end.

(** What [sscanf] stores, up to the first conversion that fails, and the rest of the
    text. *)
Fixpoint sscanf (fmt : list directive) (s : cstr) : list cstr * cstr :=
  match fmt with
  | [] => ([], s)
  | DSpace :: fmt => sscanf fmt (skip_space s)
  | DLit p :: fmt =>
    match strip_prefix p s with Some s' => sscanf fmt s' | None => ([], s) end
  | DStr store :: fmt =>
    match scan_s s with
    | Some (tok, s') =>
      let '(vs, r) := sscanf fmt s' in ((if store then [tok] else []) ++ vs, r)
    | None => ([], s)
    end
  | DSet p w store :: fmt =>
    match (match w with Some w => span_width p w s | None => span p s end) with
    | ([], _) => ([], s)
    | (tok, s') =>
      let '(vs, r) := sscanf fmt s' in ((if store then [tok] else []) ++ vs, r)
    end
  end.

Definition not_char (b : byte) : byte → bool := λ c, negb (bool_decide (c = b)).

(** A token: not empty, no white space. *)
Definition token (w : cstr) : Prop := w ≠ [] ∧ Forall (λ c, is_space c = false) w.

#[export] Instance token_dec w : Decision (token w).
Proof. unfold token. apply _. Defined.

Lemma span_app p w s :
  Forall (λ c, p c = true) w → (∀ c, head s = Some c → p c = false) → span p (w ++ s) = (w, s).
Proof.
  induction 1 as [|c w Hc _ IH]; intros Hs; simpl.
  - destruct s as [|c s]; [done|]. simpl. by rewrite (Hs c).
  - rewrite Hc. by rewrite IH.
Qed.

Lemma scan_token w s :
  token w → (∀ c, head s = Some c → is_space c = true) → scan_s (w ++ s) = Some (w, s).
Proof.
  intros [Hn Hw] Hs. unfold scan_s.
  assert (skip_space (w ++ s) = w ++ s) as ->.
  { destruct w as [|c w]; [done|]. apply Forall_cons in Hw as [Hc _]. simpl. by rewrite Hc. }
  rewrite span_app.
  - by destruct w.
  - eapply Forall_impl; [exact Hw|]. simpl. by intros c ->.
  - intros c Hc. by rewrite Hs.
Qed.

Lemma skip_space_token w s : token w → skip_space (space :: w ++ s) = w ++ s.
Proof.
  intros [Hn Hw]. destruct w as [|c w]; [done|]. apply Forall_cons in Hw as [Hc _].
  simpl. by rewrite Hc.
Qed.
