(* ===== verification/CsdbKey.v ===== *)
(** Keys of the cs database (src/src/csd/csdb.c, lines 135-236).

    A key is a C string such as [.node.defiant.load.avg1].  The database never
    stores it: [csdb_parse_key] cuts it at the dots and the parts name the
    entries on the path from the root.  [key_parts] is the reference splitter
    the C state machine is proved equal to, [print_key] its inverse. *)

From Stdlib Require Import ZArith Lia.
From stdpp Require Import base list gmap strings.
From S2P Require Import Prelude.

(** * The code *)

(** [csdb_is_valid_key]: starts with a dot and does not end with one, or is the
    root key.  On the empty key [key[0]] is the terminating NUL. *)
Definition csdb_is_valid_key (key : cstr) : bool :=
  let ret := bool_decide (head key = Some dot) && bool_decide (last key ≠ Some dot) in
  if bool_decide (head key = Some dot) && (length key =? 1) then true else ret.

Fixpoint count_delims (c : cstr) : nat :=
  match c with
  | [] => 0
  | ch :: c => if decide (ch = dot) then S (count_delims c) else count_delims c
  end.

(** [csdb_check_key]: the result and what it stores in [*nof_delims]. *)
Definition csdb_check_key (key : cstr) : Z * nat :=
  let nof_delims := count_delims key in
  (if (nof_delims =? 0) || negb (csdb_is_valid_key key) then (-1)%Z else 0%Z, nof_delims).

(** The loop of [csdb_parse_key].  [tok] is the text between the pointers
    [begin] and [c], [c] what is left of the key, [keys] what is stored below
    [next_key]; [None] is a loop that is still running when the fuel is used up. *)
Fixpoint parse_loop (fuel : nat) (in_token : bool) (tok c : cstr) (keys : list cstr)
    : option (list cstr) :=
  match fuel with
  | 0 => None
  | S fuel =>
    match c with
    | [] => Some keys
    | ch :: c' =>
      if in_token then
        let '(tok1, c1) := if decide (ch ≠ dot) then (tok ++ [ch], c') else (tok, c) in
        if decide (head c1 = Some dot ∨ c1 = [])
        then parse_loop fuel false [] c1 (keys ++ [tok1])
        else parse_loop fuel true tok1 c1 keys
      else if decide (ch = dot)
        then parse_loop fuel true (drop 1 (tok ++ [ch])) c' keys
        else parse_loop fuel false tok c keys
    end
  end.

(** [csdb_parse_key] run for at most [fuel] iterations: [None] when the loop has not
    ended, [Some None] for the result [NULL], [Some (Some keys)] for a
    NULL-terminated vector of names. *)
Definition csdb_parse_key_n (fuel : nat) (key : cstr) : option (option (list cstr)) :=
  let nof_delims := (csdb_check_key key).2 in
  if nof_delims <=? 0 then Some None
  else if (nof_delims =? 1) && (length key =? 1) then Some (Some [key])
  else Some <$> parse_loop fuel false [] key [].

(** Two iterations per character are enough, see [csdb_parse_key_spec]. *)
Definition csdb_parse_key (key : cstr) : option (option (list cstr)) :=
  csdb_parse_key_n (S (2 * length key)) key.

(** * The reference *)

(** The parts of the text that follows the leading dot; an empty last part is
    dropped. *)
Fixpoint parts (tok c : cstr) : list cstr :=
  match c with
  | [] => if decide (tok = []) then [] else [tok]
  | ch :: c => if decide (ch = dot) then tok :: parts [] c else parts (tok ++ [ch]) c
  end.

Definition key_parts (key : cstr) : list cstr :=
  if decide (key = [dot]) then [[dot]] else parts [] (tail key).

Definition print_key (names : list cstr) : cstr := names ≫= cons dot.

Definition dot_free (name : cstr) : Prop := dot ∉ name.

(** A path that can be written as a key. *)
Definition good_path (names : list cstr) : Prop :=
  names ≠ [] ∧ Forall dot_free names ∧ last names ≠ Some [].

#[export] Instance dot_free_dec name : Decision (dot_free name).
Proof. unfold dot_free. apply _. Defined.

#[export] Instance good_path_dec names : Decision (good_path names).
Proof. unfold good_path. apply _. Defined.

(** * The state machine computes the reference *)

Lemma parse_loop_gap fuel c keys :
  parse_loop (S fuel) false [] (dot :: c) keys = parse_loop fuel true [] c keys.
Proof. reflexivity. Qed.

Lemma parse_loop_token n : ∀ c fuel tok keys,
  length c ≤ n → c ≠ [] ∨ tok = [] → 2 * length c < fuel →
  parse_loop fuel true tok c keys = Some (keys ++ parts tok c).
Proof.
  induction n as [|n IH]; intros [|ch c] fuel tok keys Hn Htok Hf; simpl in Hn, Hf; try lia;
    (destruct fuel as [|fuel]; [lia|]).
  1,2: destruct Htok as [?| ->]; [done|]; simpl; by rewrite app_nil_r.
  cbn [parse_loop parts]. destruct (decide (ch = dot)) as [->|Hch].
  - case_decide; [done|]. case_decide; [|naive_solver]. destruct fuel as [|fuel]; [lia|].
    rewrite parse_loop_gap, IH by (auto; lia). by rewrite <- (assoc_L (++)).
  - case_decide; [|done]. destruct c as [|d c]; simpl in Hn, Hf.
    + case_decide; [|naive_solver]. destruct fuel as [|fuel]; [lia|]. simpl.
      case_decide; [by destruct tok|done].
    + destruct (decide (d = dot)) as [->|Hd].
      * case_decide; [|naive_solver]. destruct fuel as [|fuel]; [lia|].
        rewrite parse_loop_gap, IH by (auto; lia). simpl.
        by rewrite <- (assoc_L (++)).
      * case_decide; [naive_solver|]. by rewrite IH by (simpl; auto; lia).
Qed.

(** A key that does not start with a dot is never finished: the state [not in
    token] does not advance [c]. *)
Lemma parse_loop_stuck fuel ch c keys :
  ch ≠ dot → parse_loop fuel false [] (ch :: c) keys = None.
Proof.
  intros Hch. induction fuel as [|fuel IH]; [done|]. cbn [parse_loop].
  by rewrite decide_False.
Qed.

Lemma count_delims_pos c : dot ∈ c ↔ 0 < count_delims c.
Proof.
  induction c as [|ch c IH]; cbn [count_delims]; [split; [by intros ?%elem_of_nil|lia]|].
  rewrite elem_of_cons. case_decide; naive_solver lia.
Qed.

Lemma length_parts c : ∀ tok,
  length (parts tok c) ≤ S (count_delims c).
Proof.
  induction c as [|ch c IH]; intros tok; cbn [parts count_delims].
  - case_decide; simpl; lia.
  - case_decide; simpl; [specialize (IH []); lia|apply IH].
Qed.

Lemma parts_nonempty c : ∀ tok, c ≠ [] → parts tok c ≠ [].
Proof.
  induction c as [|ch [|d c] IH]; intros tok Hc; [done| |]; cbn [parts].
  - case_decide; [done|]. by rewrite decide_False by (by destruct tok).
  - case_decide; [done|]. by apply IH.
Qed.

Lemma parts_dot_free c : ∀ tok, dot_free tok → Forall dot_free (parts tok c).
Proof.
  unfold dot_free.
  induction c as [|ch c IH]; intros tok Ht; cbn [parts]; case_decide; auto.
  - constructor; [done|]. apply IH, not_elem_of_nil.
  - apply IH. rewrite elem_of_app, list_elem_of_singleton. naive_solver.
Qed.

Lemma parts_app name c : ∀ tok,
  dot_free name → parts tok (name ++ c) = parts (tok ++ name) c.
Proof.
  induction name as [|ch name IH]; intros tok Hd; simpl; [by rewrite app_nil_r|].
  unfold dot_free in *. rewrite elem_of_cons in Hd.
  rewrite decide_False by naive_solver.
  rewrite IH by naive_solver. by rewrite <- (assoc_L (++)).
Qed.

Lemma parts_print names : ∀ name,
  good_path (name :: names) → parts [] (name ++ print_key names) = name :: names.
Proof.
  unfold good_path. induction names as [|name' names IH]; intros name (_ & Hd & Hlast);
    apply Forall_cons in Hd as [Hn Hd]; rewrite parts_app by done; simpl.
  - rewrite decide_False; [done|]. intros ->. done.
  - f_equal. apply IH. split_and!; [done..|]. by rewrite last_cons_cons in Hlast.
Qed.

Lemma parts_snoc m c : ∀ tok,
  (c = [] → tok ≠ []) → last c ≠ Some dot → parts tok (c ++ dot :: m) = parts tok c ++ parts [] m.
Proof.
  induction c as [|ch c IH]; intros tok Ht Hl; simpl.
  - by rewrite decide_False by auto.
  - destruct c as [|d c].
    + simpl in Hl. rewrite !(decide_False (P := ch = dot)) by naive_solver. simpl.
      by rewrite decide_False by (by destruct tok).
    + case_decide; rewrite IH; done.
Qed.

Lemma parse_key_dot c :
  c ≠ [] → csdb_parse_key (dot :: c) = Some (Some (parts [] c)).
Proof.
  intros Hc. unfold csdb_parse_key, csdb_parse_key_n.
  assert ((length (dot :: c) =? 1) = false) as -> by (by destruct c).
  rewrite andb_false_r. cbn [csdb_check_key snd count_delims].
  rewrite decide_True by done. cbn [Nat.leb].
  rewrite parse_loop_gap, (parse_loop_token (length c)) by (simpl; auto; lia). done.
Qed.

(** Every key that starts with a dot is parsed: the loop ends within two
    iterations per character and computes the reference splitter, and the names and
    the terminating [NULL] fit the [nof_delims + 1] pointers that were allocated. *)
Lemma csdb_parse_key_spec key :
  head key = Some dot →
  csdb_parse_key key = Some (Some (key_parts key)) ∧
  length (key_parts key) ≤ (csdb_check_key key).2 ∧ key_parts key ≠ [].
Proof.
  destruct key as [|ch c]; intros Hd; simpl in Hd; simplify_eq.
  unfold key_parts. destruct (decide (c = [])) as [->|Hc].
  { split_and!; [done|simpl; lia|done]. }
  rewrite decide_False by naive_solver. rewrite parse_key_dot by done.
  split_and!; [done|apply (length_parts c)|by apply parts_nonempty].
Qed.

(** A key that holds a dot but does not start with one is never parsed: whatever
    the number of iterations, the loop has not ended. *)
Lemma csdb_parse_key_diverges fuel key :
  dot ∈ key → head key ≠ Some dot → csdb_parse_key_n fuel key = None.
Proof.
  intros Hd Hh. apply count_delims_pos in Hd. unfold csdb_parse_key_n, csdb_check_key. simpl.
  destruct (Nat.leb_spec (count_delims key) 0); [lia|].
  destruct key as [|ch c]; [simpl in *; lia|].
  assert (ch ≠ dot) by (by intros ->). rewrite parse_loop_stuck by done.
  case_match eqn:E; [|done].
  apply andb_true_iff in E as [E1%Nat.eqb_eq E2%Nat.eqb_eq]. simpl in *.
  rewrite decide_False in E1 by done. destruct c; simpl in *; lia.
Qed.

(** The keys the request handlers accept are parsed. *)
Lemma csdb_valid_key_head key : csdb_is_valid_key key = true → head key = Some dot.
Proof.
  unfold csdb_is_valid_key. destruct (bool_decide_reflect (head key = Some dot)); [done|].
  by simpl.
Qed.

(** * What [csdb_parse_key] does *)

(** C6: [csdb_parse_key] returns exactly for the keys that start with a dot and for
    those without any dot; for every other key its loop never ends. *)
Theorem csdb_parse_key_terminates key :
  (∃ fuel, csdb_parse_key_n fuel key ≠ None) ↔ (dot ∈ key → head key = Some dot).
Proof.
  split.
  - intros [fuel Hf] Hd. destruct (decide (head key = Some dot)); [done|].
    by rewrite csdb_parse_key_diverges in Hf.
  - intros H. exists (S (2 * length key)). destruct (decide (dot ∈ key)) as [Hd|Hd].
    + destruct (csdb_parse_key_spec key (H Hd)) as [Hs _]. unfold csdb_parse_key in Hs.
      by rewrite Hs.
    + rewrite count_delims_pos in Hd. unfold csdb_parse_key_n. simpl.
      by destruct (Nat.leb_spec (count_delims key) 0); [|lia].
Qed.

(** C7: when it returns a vector of names, these are the parts of the key between its
    dots, at least one, none of them with a dot in it unless the key is the root key,
    and they fit with the terminating [NULL] into the [nof_delims + 1] pointers that
    were allocated for them. *)
Theorem csdb_parse_key_names key names :
  csdb_parse_key key = Some (Some names) →
  names = key_parts key ∧ names ≠ [] ∧ (key = [dot] ∨ Forall dot_free names) ∧
  length names + 1 ≤ (csdb_check_key key).2 + 1.
Proof.
  intros Hp. assert (dot ∈ key) as Hin.
  { rewrite count_delims_pos. revert Hp. unfold csdb_parse_key, csdb_parse_key_n. simpl.
    destruct (Nat.leb_spec (count_delims key) 0); [done|lia]. }
  destruct (decide (head key = Some dot)) as [Hh|Hh]; cycle 1.
  { unfold csdb_parse_key in Hp. by rewrite csdb_parse_key_diverges in Hp. }
  destruct (csdb_parse_key_spec key Hh) as (Hs & Hl & Hn).
  rewrite Hs in Hp. injection Hp as <-.
  split_and!; [done|done| |lia]. unfold key_parts. case_decide; [by left|right].
  apply parts_dot_free, not_elem_of_nil.
Qed.

Lemma key_parts_print names : good_path names → key_parts (print_key names) = names.
Proof.
  destruct names as [|name names]; intros Hg; [by destruct Hg|].
  pose proof (parts_print names name Hg) as Hp.
  unfold key_parts. simpl. rewrite decide_False; [by rewrite Hp|].
  intros [= E]. apply app_nil in E as [-> E].
  destruct names; [by destruct Hg as (_ & _ & ?)|done].
Qed.

(** printing a path and parsing the key gives the path back. *)
Theorem csdb_parse_print_key names :
  good_path names → csdb_parse_key (print_key names) = Some (Some names).
Proof.
  intros Hg. destruct (csdb_parse_key_spec (print_key names)) as [-> _].
  - destruct names; [by destruct Hg|done].
  - by rewrite key_parts_print.
Qed.

Lemma csdb_parse_key_names_witness :
  csdb_parse_key (lit ".alive.defiant") = Some (Some [lit "alive"; lit "defiant"]) ∧
  Forall dot_free [lit "alive"; lit "defiant"].
Proof.
  split; [reflexivity|].
  by destruct (csdb_parse_key_names (lit ".alive.defiant") [lit "alive"; lit "defiant"] eq_refl)
    as (_ & _ & [?|?] & _).
Defined.

Lemma csdb_parse_print_key_witness :
  csdb_parse_key (print_key [lit "a"; []; lit "b"]) = Some (Some [lit "a"; []; lit "b"]).
Proof. apply csdb_parse_print_key. by apply (bool_decide_unpack _). Defined.
