(* ===== verification/CsdbState.v ===== *)
(** The memory of the cs database: entries, the heap they live in, the mutex
    (src/src/csd/csdb.h lines 16-30, src/src/csd/csdb.c lines 40-41).

    Entries are linked by pointers as in the C structure; an entry is addressed by
    a location of the heap.  The [name] and [value] buffers are each owned by
    exactly one entry (they are always copied when they are set or returned), so
    they are kept in the entry, with the state a [char*] field can be in. *)

From Stdlib Require Import ZArith Lia.
From stdpp Require Import base list gmap strings.
From S2P Require Import Prelude.

Abbreviation loc := positive.
(** [NULL] is [None]. *)
Abbreviation ptr := (option positive).

(** A [char*] field: [NULL], an allocated string, or a pointer to freed memory. *)
Inductive cbuf : Type := BNull | BStr (s : cstr) | BFreed.

#[export] Instance cbuf_eq_dec : EqDecision cbuf.
Proof. solve_decision. Defined.

Record csdbe : Type := Csdbe {
  name : cbuf;        (* the entrys name *)
  value : cbuf;       (* the entrys value *)
  childs : ptr;       (* its childs *)
  parent : ptr;       (* its parent *)
  next : ptr;         (* the next entry on the same level *)
  prev : ptr;         (* the previous entry on the same level *)
  mtime : Z;          (* time of last modification *)
  dumpit : Z;         (* dump the entry and its childs on shutdown *)
  is_leaf : bool      (* its a leaf or not *)
}.

Definition set_name_f (v : cbuf) (e : csdbe) : csdbe :=
  Csdbe v (value e) (childs e) (parent e) (next e) (prev e) (mtime e) (dumpit e) (is_leaf e).
Definition set_value_f (v : cbuf) (e : csdbe) : csdbe :=
  Csdbe (name e) v (childs e) (parent e) (next e) (prev e) (mtime e) (dumpit e) (is_leaf e).
Definition set_childs (v : ptr) (e : csdbe) : csdbe :=
  Csdbe (name e) (value e) v (parent e) (next e) (prev e) (mtime e) (dumpit e) (is_leaf e).
Definition set_parent (v : ptr) (e : csdbe) : csdbe :=
  Csdbe (name e) (value e) (childs e) v (next e) (prev e) (mtime e) (dumpit e) (is_leaf e).
Definition set_next (v : ptr) (e : csdbe) : csdbe :=
  Csdbe (name e) (value e) (childs e) (parent e) v (prev e) (mtime e) (dumpit e) (is_leaf e).
Definition set_prev (v : ptr) (e : csdbe) : csdbe :=
  Csdbe (name e) (value e) (childs e) (parent e) (next e) v (mtime e) (dumpit e) (is_leaf e).
Definition set_mtime (v : Z) (e : csdbe) : csdbe :=
  Csdbe (name e) (value e) (childs e) (parent e) (next e) (prev e) v (dumpit e) (is_leaf e).
Definition set_is_leaf (v : bool) (e : csdbe) : csdbe :=
  Csdbe (name e) (value e) (childs e) (parent e) (next e) (prev e) (mtime e) (dumpit e) v.

(** [memset(csdbe_new, 0, sizeof(struct csdbe))] *)
Definition csdbe_zero : csdbe := Csdbe BNull BNull None None None None 0 0 false.

(** The globals of csdb.c, the heap, and the time [time(NULL)] returns. *)
Record csdb : Type := Csdb {
  csdb_root : ptr;
  csdb_root_mutex : bool;
  entries : gmap loc csdbe;
  next_loc : loc;
  clock : Z
}.

Definition with_root (p : ptr) (s : csdb) : csdb :=
  Csdb p (csdb_root_mutex s) (entries s) (next_loc s) (clock s).
Definition with_mutex (b : bool) (s : csdb) : csdb :=
  Csdb (csdb_root s) b (entries s) (next_loc s) (clock s).
Definition with_entries (h : gmap loc csdbe) (s : csdb) : csdb :=
  Csdb (csdb_root s) (csdb_root_mutex s) h (next_loc s) (clock s).
Definition with_next (l : loc) (s : csdb) : csdb :=
  Csdb (csdb_root s) (csdb_root_mutex s) (entries s) l (clock s).
Definition with_clock (t : Z) (s : csdb) : csdb :=
  Csdb (csdb_root s) (csdb_root_mutex s) (entries s) (next_loc s) t.

(** * Memory accesses *)

(** [p->...] read *)
Definition deref (p : ptr) : M csdb csdbe :=
  match p with
  | None => stop NullDeref
  | Some l => λ s, match entries s !! l with Some e => Ok s e | None => Stop BadPtr end
  end.

(** [p->field = ...] *)
Definition store (p : ptr) (g : csdbe → csdbe) : M csdb unit :=
  match p with
  | None => stop NullDeref
  | Some l => λ s,
    match entries s !! l with
    | Some e => Ok (with_entries (<[l := g e]> (entries s)) s) ()
    | None => Stop BadPtr
    end
  end.

(** [malloc] and [memset] of an entry; [malloc] does not fail. *)
Definition malloc_entry : M csdb ptr := λ s,
  let l := next_loc s in
  Ok (with_next (Pos.succ l) (with_entries (<[l := csdbe_zero]> (entries s)) s)) (Some l).

(** [free(p)] of an entry *)
Definition free_entry (p : ptr) : M csdb unit :=
  match p with
  | None => mret ()
  | Some l => λ s,
    match entries s !! l with
    | Some _ => Ok (with_entries (delete l (entries s)) s) ()
    | None => Stop BadPtr
    end
  end.

(** The string a [char*] points to. *)
Definition read_str (b : cbuf) : M csdb cstr :=
  match b with
  | BStr s => mret s
  | BNull => stop NullDeref
  | BFreed => stop BadPtr
  end.

(** [free(b)] of a buffer, and what the pointer is then. *)
Definition free_buf (b : cbuf) : M csdb cbuf :=
  match b with
  | BStr _ => mret BFreed
  | BNull => mret BNull
  | BFreed => stop BadPtr
  end.

Definition lock_root : M csdb unit := λ s,
  if csdb_root_mutex s then Stop Deadlock else Ok (with_mutex true s) ().
Definition unlock_root : M csdb unit := modify (with_mutex false).

(** One more than the number of allocated entries: enough for every walk over a
    well-formed database. *)
Definition heap_fuel (s : csdb) : nat := S (size (entries s)).
