(* ===== verification/Csdb.v ===== *)
(** The operations of the cs database (src/src/csd/csdb.c), in the linear-search
    build that the Makefile selects (-DCSDB_LINEAR_SEARCH). *)

From Stdlib Require Import ZArith Lia.
From stdpp Require Import base list gmap strings.
From S2P Require Import Prelude CsdbKey CsdbState.

(** Results of the operations (src/src/include/cs.h, lines 46-50). *)
Definition ECS_NOENTRY : Z := 1.
Definition ECS_NOLEAF : Z := 4.
Definition ECS_INVALIDKEY : Z := 5.

(** * Finding entries *)

Fixpoint find_loop (fuel : nat) (sear_ptr : ptr) (nm : cstr) : M csdb ptr :=
  match fuel with
  | 0 => stop OutOfFuel
  | S fuel =>
    match sear_ptr with
    | None => mret None
    | Some _ =>
      e ← deref sear_ptr;
      n ← read_str (name e);
      if decide (n = nm) then mret sear_ptr else find_loop fuel (next e) nm
    end
  end.

Definition csdb_find_child (root : ptr) (nm : cstr) : M csdb ptr :=
  e ← deref root;
  if decide (nm = [dot]) then gets csdb_root
  else fuel ← gets heap_fuel; find_loop fuel (childs e) nm.

(** [while(entry && *name) { entry = csdb_find_child(entry, *name); name++; }] *)
Fixpoint walk (entry : ptr) (names : list cstr) : M csdb ptr :=
  match entry, names with
  | None, _ => mret None
  | _, [] => mret entry
  | _, n :: names => entry ← csdb_find_child entry n; walk entry names
  end.

(** A key that is not parsed is a loop in [csdb_parse_key]; on the result [NULL] the
    first [*name] dereferences it, unless there is no root yet. *)
Definition parse_key (key : cstr) : M csdb (option (list cstr)) :=
  match csdb_parse_key key with
  | None => stop OutOfFuel
  | Some r => mret r
  end.

Definition csdb_get_entry (key : cstr) : M csdb ptr :=
  keys ← parse_key key;
  entry ← gets csdb_root;
  match entry, keys with
  | None, _ => mret None
  | Some _, None => stop NullDeref
  | Some _, Some names => walk entry names
  end.

Definition csdb_key_exist (key : cstr) : M csdb bool :=
  _ ← lock_root;
  entry ← csdb_get_entry key;
  _ ← unlock_root;
  mret (bool_decide (entry ≠ None)).

Definition csdb_get_mtime_for_key (key : cstr) : M csdb Z :=
  _ ← lock_root;
  entry ← csdb_get_entry key;
  t ← match entry with Some _ => e ← deref entry; mret (mtime e) | None => mret 0%Z end;
  _ ← unlock_root;
  mret t.

(** The two error returns leave the mutex locked. *)
Definition csdb_get_value_for_key (key : cstr) : M csdb (Z * option cstr) :=
  if negb (csdb_is_valid_key key) then mret (- ECS_INVALIDKEY, None)%Z
  else
    _ ← lock_root;
    entry ← csdb_get_entry key;
    match entry with
    | None => mret (- ECS_INVALIDKEY, None)%Z
    | Some _ =>
      e ← deref entry;
      if negb (is_leaf e) then mret (- ECS_NOLEAF, None)%Z
      else
        v ← read_str (value e);
        _ ← unlock_root;
        mret (0%Z, Some v)
    end.

(** * Building entries *)

Definition csdb_set_name (entry : ptr) (nm : option cstr) : M csdb unit :=
  match nm with
  | None => mret ()
  | Some nm =>
    e ← deref entry;
    _ ← free_buf (name e);
    store entry (λ e, set_is_leaf false (set_name_f (BStr nm) e))
  end.

Definition csdb_set_value (entry : ptr) (val : option cstr) : M csdb unit :=
  e ← deref entry;
  _ ← free_buf (value e);
  _ ← match val with
      | Some v => store entry (λ e, set_is_leaf true (set_value_f (BStr v) e))
      | None => store entry (set_value_f BNull)
      end;
  t ← gets clock;
  store entry (set_mtime t).

Definition csdb_create_entry (nm : cstr) (val : option cstr) : M csdb ptr :=
  csdbe_new ← malloc_entry;
  _ ← csdb_set_name csdbe_new (Some nm);
  _ ← csdb_set_value csdbe_new val;
  mret csdbe_new.

Definition csdb_append_child (entry child : ptr) : M csdb unit :=
  e ← deref entry;
  _ ← store child (set_next (childs e));
  _ ← store child (set_prev None);
  _ ← store child (set_parent entry);
  _ ← match childs e with
      | Some _ => store (childs e) (set_prev child)
      | None => mret ()
      end;
  store entry (set_childs child).

Fixpoint set_loop (entry : ptr) (names : list cstr) (val : option cstr) : M csdb unit :=
  match names with
  | [] => mret ()
  | n :: names =>
    new_entry ← csdb_find_child entry n;
    entry ← match new_entry with
            | None =>
              new_entry ← csdb_create_entry n None;
              _ ← csdb_append_child entry new_entry;
              mret new_entry
            | Some _ => mret new_entry
            end;
    _ ← match names with [] => csdb_set_value entry val | _ => mret () end;
    set_loop entry names val
  end.

Definition csdb_set_value_for_key (key : cstr) (val : option cstr) : M csdb Z :=
  keys ← parse_key key;
  match keys with
  | None => mret (-1)%Z
  | Some names =>
    _ ← lock_root;
    entry ← gets csdb_root;
    _ ← set_loop entry names val;
    _ ← unlock_root;
    mret 0%Z
  end.

(** [realloc] does not fail, so the branch that would lose the buffer is not
    taken. *)
Definition csdb_append_value_for_key (key : cstr) (val btwn : option cstr) : M csdb Z :=
  _ ← lock_root;
  entry ← csdb_get_entry key;
  err ← match entry, val with
        | None, _ | _, None => mret (-1)%Z
        | Some _, Some v =>
          e ← deref entry;
          if negb (is_leaf e) then mret (-1)%Z
          else
            match value e with
            | BNull => _ ← csdb_set_value entry (Some v); mret 0%Z
            | b =>
              old ← read_str b;
              _ ← store entry (set_value_f (BStr (old ++ default [] btwn ++ v)));
              mret 0%Z
            end
        end;
  _ ← unlock_root;
  mret err.

Definition csdb_init : M csdb Z :=
  _ ← lock_root;
  root ← csdb_create_entry [dot] None;
  _ ← modify (with_root root);
  _ ← store root (set_parent root);
  _ ← unlock_root;
  mret 0%Z.

(** * Removing *)

(** The loop of [__csdb_remove_from_entry]; the recursive call on [entry] is the loop
    over [entry->childs]. *)
Fixpoint remove_loop (fuel : nat) (entry : ptr) : M csdb unit :=
  match fuel with
  | 0 => stop OutOfFuel
  | S fuel =>
    match entry with
    | None => mret ()
    | Some _ =>
      e ← deref entry;
      _ ← match childs e with Some _ => remove_loop fuel (childs e) | None => mret () end;
      n ← free_buf (name e);
      v ← free_buf (value e);
      _ ← store entry (λ e, set_value_f v (set_name_f n e));
      e ← deref entry;
      _ ← match next e with
          | Some _ =>
            en ← deref (next e);
            match prev en with Some _ => free_entry (prev en) | None => mret () end
          | None => mret ()
          end;
      remove_loop fuel (next e)
    end
  end.

Definition csdb_remove_from_entry (root : ptr) : M csdb Z :=
  e ← deref root;
  fuel ← gets heap_fuel;
  _ ← remove_loop fuel (childs e);
  mret 0%Z.

Definition csdb_remove_from_key (key : cstr) : M csdb Z :=
  if decide (key = [dot]) then mret (-1)%Z
  else
    _ ← lock_root;
    root ← csdb_get_entry key;
    match root with
    | None => _ ← unlock_root; mret (- ECS_NOENTRY)%Z
    | Some _ =>
      ret ← csdb_remove_from_entry root;
      e ← deref root;
      _ ← match prev e with
          | Some _ => store (prev e) (set_next (next e))
          | None => store (parent e) (set_childs (next e))
          end;
      _ ← match next e with
          | Some _ => store (next e) (set_prev (prev e))
          | None => mret ()
          end;
      _ ← free_buf (name e);
      _ ← free_buf (value e);
      _ ← free_entry root;
      _ ← unlock_root;
      mret ret
    end.

(** * Listing and dumping *)

Fixpoint names_loop (fuel : nat) (sear_entry : ptr) : M csdb (list cstr) :=
  match fuel with
  | 0 => stop OutOfFuel
  | S fuel =>
    match sear_entry with
    | None => mret []
    | Some _ =>
      e ← deref sear_entry;
      n ← read_str (name e);
      ns ← names_loop fuel (next e);
      mret (n :: ns)
    end
  end.


(** The names, each followed by a space. *)
Definition names_as_string (names : list cstr) : cstr := names ≫= λ n, n ++ [space].

(** [child_names] and [as_string] tell which out-parameters are not [NULL]; the
    results are what is stored in them.  The mutex is not taken. *)
Definition csdb_get_child_names_for_key (key : cstr) (child_names as_string : bool)
    : M csdb (Z * option (list cstr) * option cstr) :=
  entry ← csdb_get_entry key;
  match entry with
  | None => mret (-1, None, None)%Z
  | Some _ =>
    e ← deref entry;
    if is_leaf e then mret (-1, None, None)%Z
    else
      match childs e with
      | None => mret (-1, None, None)%Z
      | Some _ =>
        fuel ← gets heap_fuel;
        names ← names_loop fuel (childs e);
        mret (Z.of_nat (length names),
              if child_names then Some names else None,
              if as_string then Some (names_as_string names) else None)
      end
  end.

(** What is written for the path from the root down to [from].  The comparison of
    the [name] pointers is one of the entries, since every entry owns its name. *)
Fixpoint csdb_list_parents_names (fuel : nat) (from : ptr) : M csdb cstr :=
  match fuel with
  | 0 => stop OutOfFuel
  | S fuel =>
    e ← deref from;
    root ← gets csdb_root;
    _ ← deref root;
    out ← if decide (from ≠ root) then csdb_list_parents_names fuel (parent e)
          else mret [];
    if decide (from ≠ root) then n ← read_str (name e); mret (out ++ [dot] ++ n)
    else mret out
  end.


Definition dump_line (path : cstr) (v : cbuf) : M csdb cstr :=
  val ← match v with BNull => mret (lit "(null)") | b => read_str b end;
  mret (path ++ lit "=" ++ val ++ [NL]).

Fixpoint csdb_dump_from_entry (fuel : nat) (root : ptr) : M csdb cstr :=
  match fuel with
  | 0 => stop OutOfFuel
  | S fuel =>
    match root with
    | None => mret []
    | Some _ =>
      e ← deref root;
      line ← if is_leaf e then
               n ← gets heap_fuel;
               path ← csdb_list_parents_names n root;
               dump_line path (value e)
             else mret [];
      below ← match childs e with
              | Some _ => csdb_dump_from_entry fuel (childs e)
              | None => mret []
              end;
      after ← csdb_dump_from_entry fuel (next e);
      mret (line ++ below ++ after)
    end
  end.

(** The result and what is written to [fd]. *)
Definition csdb_dump_from_key (key : cstr) : M csdb (Z * cstr) :=
  _ ← lock_root;
  entry ← csdb_get_entry key;
  out ← match entry with
        | Some _ =>
          e ← deref entry;
          fuel ← gets heap_fuel;
          csdb_dump_from_entry fuel (childs e)
        | None => mret []
        end;
  _ ← unlock_root;
  mret (0%Z, out).
