(* ===== verification/CsdbSpec.v ===== *)
(** The abstract cs database: a tree of named entries, and what the operations of
    src/src/csd/csdb.c do to it.

    The children of an entry are kept in the order of the linked list (the most
    recently added first), as a first-child/next-sibling forest.  The same type
    serves for the abstract tree ([A] is the data of an entry) and, in CsdbRep, for
    the tree with the location of each entry. *)

From Stdlib Require Import ZArith Lia.
From stdpp Require Import base list gmap strings.
From S2P Require Import Prelude CsdbKey.

Inductive forest (A : Type) : Type :=
  | FNil
  | FNode (a : A) (ks ss : forest A).
Arguments FNil {A}.
Arguments FNode {A} a ks ss.

(** What an entry holds beside its links. *)
Record edata : Type := EData {
  ename : cstr;
  evalue : option cstr;
  eleaf : bool;
  emtime : Z;
  edump : Z
}.

#[export] Instance edata_eq_dec : EqDecision edata.
Proof. solve_decision. Defined.

(** Interface: data that carries the name of an entry. *)
Class Named (A : Type) : Type := name_of : A → cstr.
#[export] Instance edata_named : Named edata := ename.
#[export] Instance located_named {L} : Named (L * edata) := λ x, ename x.2.

(** A node: its data and its children. *)
Abbreviation node A := (A * forest A)%type.
Abbreviation tree := (edata * forest edata)%type.

Section forest.
Context {A : Type} `{!Named A}.
Implicit Types (f ks ss : forest A) (a : A) (n : cstr) (x : node A).

(** The first child with the given name. *)
Fixpoint fchild n f : option (node A) :=
  match f with
  | FNil => None
  | FNode a ks ss => if decide (name_of a = n) then Some (a, ks) else fchild n ss
  end.

Fixpoint freplace n (c : node A) f : forest A :=
  match f with
  | FNil => FNil
  | FNode a ks ss =>
    if decide (name_of a = n) then FNode c.1 c.2 ss else FNode a ks (freplace n c ss)
  end.

Fixpoint fremove n f : forest A :=
  match f with
  | FNil => FNil
  | FNode a ks ss =>
    if decide (name_of a = n) then ss else FNode a ks (fremove n ss)
  end.

(** Replace the child of that name, or add one in front. *)
Definition fput n (c : node A) f : forest A :=
  match fchild n f with Some _ => freplace n c f | None => FNode c.1 c.2 f end.

(** The entry at a path below a node. *)
Fixpoint nlookup (names : list cstr) x : option (node A) :=
  match names with
  | [] => Some x
  | n :: names => c ← fchild n x.2; nlookup names c
  end.

(** Remove the entry at a path with all that is below it. *)
Fixpoint nremove (names : list cstr) x : node A :=
  match names with
  | [] => x
  | [n] => (x.1, fremove n x.2)
  | n :: names =>
    match fchild n x.2 with
    | Some c => (x.1, freplace n (nremove names c) x.2)
    | None => x
    end
  end.

(** Change the data of the entry at a path. *)
Fixpoint nupdate (names : list cstr) (g : A → A) x : node A :=
  match names with
  | [] => (g x.1, x.2)
  | n :: names =>
    match fchild n x.2 with
    | Some c => (x.1, freplace n (nupdate names g c) x.2)
    | None => x
    end
  end.

(** No two siblings have the same name. *)
Fixpoint uniq f : Prop :=
  match f with
  | FNil => True
  | FNode a ks ss => fchild (name_of a) ss = None ∧ uniq ks ∧ uniq ss
  end.

Fixpoint fnames f : list cstr :=
  match f with FNil => [] | FNode a _ ss => name_of a :: fnames ss end.

Lemma fchild_name n f c : fchild n f = Some c → name_of c.1 = n.
Proof. induction f; simpl; [done|]. case_decide; naive_solver. Qed.

Lemma fchild_replace n c f m :
  name_of c.1 = n →
  fchild m (freplace n c f) =
  if decide (m = n) then (λ _, c) <$> fchild n f else fchild m f.
Proof.
  intros Hc. induction f as [|a ks _ ss IH]; simpl; [by case_decide|].
  repeat case_decide; simplify_eq/=; repeat case_decide; simplify_eq/=; by destruct c.
Qed.

Lemma fchild_put n c f m :
  name_of c.1 = n →
  fchild m (fput n c f) = if decide (m = n) then Some c else fchild m f.
Proof.
  intros Hc. unfold fput. destruct (fchild n f) eqn:E.
  - rewrite fchild_replace, E by done. done.
  - simpl. repeat case_decide; simplify_eq; by destruct c.
Qed.

Lemma fchild_remove n f m :
  uniq f → fchild m (fremove n f) = if decide (m = n) then None else fchild m f.
Proof.
  induction f as [|a ks _ ss IH]; simpl; intros Hu; [by case_decide|].
  destruct Hu as (Ha & _ & Hu). specialize (IH Hu).
  repeat case_decide; simplify_eq/=; repeat case_decide; simplify_eq/=; try done.
Qed.

Lemma uniq_replace n c f :
  name_of c.1 = n → uniq f → uniq c.2 → uniq (freplace n c f).
Proof.
  intros Hc. induction f as [|a ks _ ss IH]; simpl; [done|]. intros (Ha & Hk & Hs) Hu.
  case_decide; simpl; split_and!; try done; subst.
  - congruence.
  - rewrite fchild_replace by done. by rewrite decide_False.
  - auto.
Qed.

Lemma uniq_put n c f : name_of c.1 = n → uniq f → uniq c.2 → uniq (fput n c f).
Proof.
  intros Hc Hf Hu. unfold fput. destruct (fchild n f) eqn:E.
  - by apply uniq_replace.
  - simpl. subst. done.
Qed.

Lemma uniq_remove n f : uniq f → uniq (fremove n f).
Proof.
  induction f as [|a ks _ ss IH]; simpl; [done|]. intros (Ha & Hk & Hs).
  case_decide; simpl; [done|]. split_and!; auto.
  rewrite fchild_remove by done. by case_decide.
Qed.

Lemma uniq_child n f c : uniq f → fchild n f = Some c → uniq c.2.
Proof.
  induction f as [|a ks _ ss IH]; simpl; [done|]. intros (_ & Hk & Hs) ?.
  case_decide; simplify_eq/=; auto.
Qed.

Lemma uniq_nodup f : uniq f → NoDup (fnames f).
Proof.
  assert (∀ n f, fchild n f = None → n ∉ fnames f) as Hin.
  { intros n g. induction g; simpl; [intros _ ?%elem_of_nil; done|].
    case_decide; [done|]. rewrite not_elem_of_cons. naive_solver. }
  induction f as [|a ks _ ss IH]; simpl; [constructor|].
  intros (Ha & _ & Hs). constructor; auto.
Qed.

Lemma nlookup_app p q x : nlookup (p ++ q) x = nlookup p x ≫= nlookup q.
Proof.
  revert x. induction p as [|n p IH]; intros x; [done|]. simpl.
  destruct (fchild n x.2); simpl; auto.
Qed.
Lemma nremove_cons n m p x :
  nremove (n :: m :: p) x =
  match fchild n x.2 with
  | Some c => (x.1, freplace n (nremove (m :: p) c) x.2)
  | None => x
  end.
Proof. done. Qed.

Lemma nremove_one n x : nremove [n] x = (x.1, fremove n x.2).
Proof. done. Qed.

Lemma nremove_data p x : (nremove p x).1 = x.1.
Proof.
  destruct p as [|n [|m p]]; [done..|]. rewrite nremove_cons. by destruct (fchild n x.2).
Qed.
End forest.

(** * The operations on the tree *)

Definition new_data (n : cstr) (t : Z) : edata := EData n None false t 0.

Definition put_value (v : cstr) (t : Z) (d : edata) : edata :=
  EData (ename d) (Some v) true t (edump d).

(** Put a value at a path, adding the entries that are missing. *)
Fixpoint nset (names : list cstr) (v : cstr) (t : Z) (x : tree) : tree :=
  match names with
  | [] => (put_value v t x.1, x.2)
  | n :: names =>
    let c := default (new_data n t, FNil) (fchild n x.2) in
    (x.1, fput n (nset names v t c) x.2)
  end.

(** The path a key denotes. *)
Definition key_path (key : cstr) : list cstr :=
  if decide (key = [dot]) then [] else key_parts key.

(** * Laws *)

Definition tdata (x : tree) (p : list cstr) : option edata := fst <$> nlookup p x.

Lemma nset_name p v t x : ename (nset p v t x).1 = ename x.1.
Proof. by destruct p. Qed.

Lemma nset_child_name n p v t c :
  name_of c.1 = n → name_of (nset p v t c).1 = n.
Proof. intros <-. apply nset_name. Qed.

Lemma nset_default_name n p v t (o : option tree) :
  (∀ c, o = Some c → name_of c.1 = n) →
  name_of (nset p v t (default (new_data n t, FNil) o)).1 = n.
Proof. intros H. apply nset_child_name. destruct o; [by apply H|done]. Qed.

Lemma nset_uniq p v t x : uniq x.2 → uniq (nset p v t x).2.
Proof.
  revert x. induction p as [|n p IH]; intros x Hu; [done|]. simpl.
  apply uniq_put; [apply nset_default_name, fchild_name|done|].
  apply IH. destruct (fchild n x.2) eqn:E; simpl; [by eapply uniq_child|done].
Qed.

Lemma nremove_name p (x : tree) : name_of (nremove p x).1 = name_of x.1.
Proof. by rewrite nremove_data. Qed.

#[local] Arguments nremove : simpl never.

Lemma nremove_uniq p (x : tree) : uniq x.2 → uniq (nremove p x).2.
Proof.
  revert x. induction p as [|n p IH]; intros x Hu; [done|].
  destruct p as [|m p]; [by apply uniq_remove|].
  rewrite nremove_cons. destruct (fchild n x.2) as [c|] eqn:E; [|done].
  apply uniq_replace; [|done|].
  - rewrite <- (fchild_name _ _ _ E). apply nremove_name.
  - apply IH. by eapply uniq_child.
Qed.

Lemma tdata_cons n p x : tdata x (n :: p) = fchild n x.2 ≫= λ c, tdata c p.
Proof. unfold tdata. simpl. by destruct (fchild n x.2). Qed.

Lemma tdata_bare a q : tdata (a, FNil) q = if decide (q = []) then Some a else None.
Proof. by destruct q. Qed.

Lemma last_cons_default {A} (a b : A) l : default b (last (a :: l)) = default a (last l).
Proof. rewrite last_cons. by destruct (last l). Qed.

(** What every path holds after a value is set at [p]: the value and the time at
    [p], a bare entry at the prefixes of [p] that were missing, and what was there
    before at every other path. *)
Lemma tdata_nset p q v t x :
  tdata (nset p v t x) q =
  if decide (q = p) then
    Some (put_value v t (default (new_data (default [] (last p)) t) (tdata x p)))
  else match tdata x q with
       | Some d => Some d
       | None => if decide (q `prefix_of` p) then Some (new_data (default [] (last q)) t)
                 else None
       end.
Proof.
  revert q x. induction p as [|n p IH]; intros q x.
  { destruct q as [|m q]; [done|]. case_decide; [done|]. simpl. rewrite !tdata_cons.
    simpl. by destruct (_ ≫= _). }
  destruct q as [|m q]; [done|]. simpl. rewrite !tdata_cons. simpl.
  rewrite fchild_put by apply nset_default_name, fchild_name.
  destruct (decide (m = n)) as [->|Hmn]; simpl.
  2:{ rewrite decide_False by congruence. rewrite (decide_False (P:=_ `prefix_of` _)).
      - by destruct (_ ≫= _).
      - by intros ?%prefix_cons_inv_1. }
  rewrite IH, !last_cons_default.
  rewrite (decide_ext (q = p) (n :: q = n :: p)) by naive_solver.
  rewrite (decide_ext (q `prefix_of` p) (n :: q `prefix_of` n :: p))
    by (split; [apply prefix_cons|apply prefix_cons_inv_2]).
  destruct (fchild n x.2) as [c|] eqn:E; simpl.
  - destruct p, q; cbn [last]; rewrite ?last_cons_default; done.
  - rewrite !tdata_bare. destruct p, q; rewrite ?last_cons_default; try done;
      repeat case_decide; simplify_eq; try done; exfalso; eauto using prefix_cons, prefix_nil.
Qed.

(** After a removal at [p] nothing is found at [p] or below it, and every other
    path is as before. *)
Lemma tdata_nremove p q x :
  uniq x.2 → p ≠ [] →
  tdata (nremove p x) q = if decide (p `prefix_of` q) then None else tdata x q.
Proof.
  revert q x. induction p as [|n p IH]; intros q x Hu Hp; [done|].
  destruct q as [|m q].
  { rewrite decide_False by (by intros ?%prefix_nil_inv).
    destruct p; [done|]. rewrite nremove_cons. by destruct (fchild n x.2). }
  destruct p as [|k p]; [rewrite nremove_one|rewrite nremove_cons]; rewrite ?tdata_cons.
  - simpl. rewrite fchild_remove by done. destruct (decide (m = n)) as [->|].
    + rewrite decide_True; [done|]. by exists q.
    + rewrite decide_False; [done|]. by intros ?%prefix_cons_inv_1.
  - destruct (decide (m = n)) as [->|]; cycle 1.
    { rewrite decide_False by (by intros ?%prefix_cons_inv_1).
      destruct (fchild n x.2) as [c|] eqn:E; [|done]. simpl.
      rewrite fchild_replace; [by rewrite decide_False|].
      rewrite <- (fchild_name _ _ _ E). apply nremove_name. }
    destruct (fchild n x.2) as [c|] eqn:E; simpl; [|rewrite E; by case_decide].
    rewrite fchild_replace, E, decide_True; [|done|].
    2:{ rewrite <- (fchild_name _ _ _ E). apply nremove_name. }
    simpl. rewrite IH by (done || by eapply uniq_child).
    by rewrite (decide_ext (k :: p `prefix_of` q) (n :: k :: p `prefix_of` n :: q))
      by (split; [apply prefix_cons|apply prefix_cons_inv_2]).
Qed.

(** * Well-formed databases *)

(** A property of the data of every entry. *)
Fixpoint fall (P : edata → Prop) (f : forest edata) : Prop :=
  match f with FNil => True | FNode a ks ss => P a ∧ fall P ks ∧ fall P ss end.

(** A leaf has a value: [csdb_get_value_for_key] copies it without a check. *)
Definition has_value (d : edata) : Prop := eleaf d = true → evalue d ≠ None.

(** A well-formed abstract database: siblings have different names, leaves have
    values, and the root is called [.]. *)
Definition wf (x : tree) : Prop :=
  uniq x.2 ∧ fall has_value x.2 ∧ has_value x.1 ∧ ename x.1 = [dot].

Lemma fall_child P n f c : fall P f → fchild n f = Some c → P c.1 ∧ fall P c.2.
Proof.
  induction f as [|a ks _ ss IH]; simpl; [done|]. intros (Ha & Hk & Hs) ?.
  case_decide; simplify_eq/=; auto.
Qed.

Lemma fall_replace P n c f :
  fall P f → P c.1 → fall P c.2 → fall P (freplace n c f).
Proof.
  induction f as [|a ks _ ss IH]; simpl; [done|]. intros (Ha & Hk & Hs) ??.
  case_decide; simpl; auto.
Qed.

Lemma fall_put P n c f : fall P f → P c.1 → fall P c.2 → fall P (fput n c f).
Proof. intros. unfold fput. destruct (fchild n f); [by apply fall_replace|done]. Qed.

Lemma fall_remove P n f : fall P f → fall P (fremove n f).
Proof.
  induction f as [|a ks _ ss IH]; simpl; [done|]. intros (Ha & Hk & Hs).
  case_decide; simpl; auto.
Qed.

Lemma nset_valued p v t x :
  fall has_value x.2 → has_value x.1 →
  fall has_value (nset p v t x).2 ∧ has_value (nset p v t x).1.
Proof.
  revert x. induction p as [|n p IH]; intros x Hk Hx; [done|]. simpl. split; [|done].
  destruct (fchild n x.2) as [c|] eqn:E; simpl.
  - destruct (fall_child _ _ _ _ Hk E) as [??].
    destruct (IH c) as [??]; [done..|]. by apply fall_put.
  - destruct (IH (new_data n t, FNil)) as [??]; [done|by intros ?|]. by apply fall_put.
Qed.

Lemma nremove_valued p x :
  fall has_value x.2 → has_value x.1 →
  fall has_value (nremove p x).2 ∧ has_value (nremove p x).1.
Proof.
  revert x. induction p as [|n [|m p] IH]; intros x Hk Hx; [done| |].
  - rewrite nremove_one. split; [by apply fall_remove|done].
  - rewrite nremove_cons. destruct (fchild n x.2) as [c|] eqn:E; [|done].
    destruct (fall_child _ _ _ _ Hk E) as [??].
    destruct (IH c) as [??]; [done..|]. split; [by apply fall_replace|done].
Qed.

Lemma nset_wf p v t x : wf x → wf (nset p v t x).
Proof.
  intros (Hu & Hk & Hx & Hn). destruct (nset_valued p v t x Hk Hx) as [??].
  split_and!; [by apply nset_uniq|done..|by rewrite nset_name].
Qed.

Lemma nremove_wf p x : wf x → wf (nremove p x).
Proof.
  intros (Hu & Hk & Hx & Hn). destruct (nremove_valued p x Hk Hx) as [??].
  split_and!; [by apply nremove_uniq|done..|by rewrite nremove_data].
Qed.

(** What is found below a well-formed database has a value if it is a leaf. *)
Lemma wf_lookup x p c : wf x → nlookup p x = Some c → has_value c.1.
Proof.
  intros (_ & Hk & Hx & _). revert x Hk Hx.
  induction p as [|n p IH]; intros x Hk Hx; simpl; [by intros [= <-]|].
  destruct (fchild n x.2) as [c'|] eqn:E; [|done]. simpl.
  destruct (fall_child _ _ _ _ Hk E). by apply IH.
Qed.
