(* ===== verification/CsdbRep.v ===== *)
(** How the heap represents the abstract database.

    A located forest carries the location of every entry.  [rep] says that the heap
    holds its entries with the links of src/src/csd/csdb.h (lines 33-51): [childs]
    to the first child, [next] and [prev] along a level, [parent] up.  [db_rep] is
    the invariant of csdb.c. *)

From Stdlib Require Import ZArith Lia.
From stdpp Require Import base list gmap strings.
From S2P Require Import Prelude CsdbKey CsdbState CsdbSpec.

Abbreviation lforest := (forest (loc * edata)).

Fixpoint locs (f : lforest) : list loc :=
  match f with FNil => [] | FNode a ks ss => a.1 :: locs ks ++ locs ss end.

Fixpoint strip (f : lforest) : forest edata :=
  match f with FNil => FNil | FNode a ks ss => FNode a.2 (strip ks) (strip ss) end.

Definition fptr (f : lforest) : ptr :=
  match f with FNil => None | FNode a _ _ => Some a.1 end.

Definition value_buf (v : option cstr) : cbuf :=
  match v with Some v => BStr v | None => BNull end.

Definition cell (d : edata) (par prv ch nxt : ptr) : csdbe :=
  Csdbe (BStr (ename d)) (value_buf (evalue d)) ch par nxt prv (emtime d) (edump d) (eleaf d).

Fixpoint rep (h : gmap loc csdbe) (par prv : ptr) (f : lforest) : Prop :=
  match f with
  | FNil => True
  | FNode a ks ss =>
    h !! a.1 = Some (cell a.2 par prv (fptr ks) (fptr ss)) ∧
    rep h (Some a.1) None ks ∧ rep h par (Some a.1) ss
  end.

(** One entry with what is below it. *)
Definition repn (h : gmap loc csdbe) (par prv nxt : ptr) (l : loc) (d : edata)
    (ks : lforest) : Prop :=
  h !! l = Some (cell d par prv (fptr ks) nxt) ∧ rep h (Some l) None ks.

(** All allocated locations are below [next_loc]. *)
Definition bounded (s : csdb) : Prop :=
  ∀ l, is_Some (entries s !! l) → (l < next_loc s)%positive.

(** The root entry is its own parent and has no siblings, and the entries reachable
    from it are [d] and [ks], each at its own location. *)
Definition lrep (s : csdb) (r : loc) (d : edata) (ks : lforest) : Prop :=
  csdb_root s = Some r ∧ repn (entries s) (Some r) None None r d ks ∧
  NoDup (r :: locs ks) ∧ bounded s.

(** The state [s] holds the database [x]. *)
Definition db_rep (s : csdb) (x : tree) : Prop :=
  ∃ r ks, lrep s r x.1 ks ∧ strip ks = x.2 ∧ wf x.

(** * Locations *)

Lemma name_of_located (l : loc) (d : edata) : name_of (l, d) = name_of d.
Proof. done. Qed.

Lemma name_of_edata (d : edata) : name_of d = ename d.
Proof. done. Qed.

Lemma strip_child n f :
  fchild n (strip f) = (λ c, (c.1.2, strip c.2)) <$> fchild n f.
Proof.
  induction f as [|[l d] ks _ ss IH]; simpl; [done|].
  rewrite name_of_located. case_decide; [done|apply IH].
Qed.

Lemma strip_replace n c f :
  strip (freplace n c f) = freplace n (c.1.2, strip c.2) (strip f).
Proof.
  induction f as [|[l d] ks _ ss IH]; simpl; [done|].
  rewrite name_of_located. case_decide; simpl; [done|by rewrite IH].
Qed.

Lemma strip_remove n f : strip (fremove n f) = fremove n (strip f).
Proof.
  induction f as [|[l d] ks _ ss IH]; simpl; [done|].
  rewrite name_of_located. case_decide; simpl; [done|by rewrite IH].
Qed.

Lemma fptr_replace n f l d ks d' ks' :
  fchild n f = Some ((l, d), ks) → fptr (freplace n ((l, d'), ks') f) = fptr f.
Proof. destruct f; simpl; [done|]. case_decide; naive_solver. Qed.

Lemma fptr_elem f l : fptr f = Some l → l ∈ locs f.
Proof. destruct f; simpl; [done|]. intros [= <-]. left. Qed.

(** Where the locations of a child are, and what replacing or removing it does to
    them. *)
Lemma locs_child n f l d ks :
  fchild n f = Some ((l, d), ks) →
  ∃ rest, locs f ≡ₚ l :: locs ks ++ rest ∧ locs (fremove n f) ≡ₚ rest ∧
    ∀ d' ks', locs (freplace n ((l, d'), ks') f) ≡ₚ l :: locs ks' ++ rest.
Proof.
  induction f as [|[m e] us _ ss IH]; simpl; [done|]. case_decide as E.
  - intros [= -> -> ->]. exists (locs ss). split_and!; [done|done|by intros].
  - intros Hc. destruct (IH Hc) as (rest & H1 & H2 & H3).
    exists (m :: locs us ++ rest). simpl. split_and!.
    + rewrite H1. solve_Permutation.
    + by rewrite H2.
    + intros d' ks'. rewrite H3. solve_Permutation.
Qed.

Lemma locs_child_in n f l d ks :
  fchild n f = Some ((l, d), ks) → l ∈ locs f ∧ locs ks ⊆ locs f.
Proof.
  intros (rest & H & _)%locs_child. rewrite H. set_solver.
Qed.

(** * Frame *)

Lemma rep_frame h h' par prv f :
  rep h par prv f → (∀ l, l ∈ locs f → h' !! l = h !! l) → rep h' par prv f.
Proof.
  revert par prv. induction f as [|[m e] ks IHk ss IHs]; intros par prv; simpl; [done|].
  intros (Hm & Hk & Hs) Heq. split_and!.
  - by rewrite Heq by set_solver.
  - apply IHk; [done|]. intros. apply Heq. set_solver.
  - apply IHs; [done|]. intros. apply Heq. set_solver.
Qed.

Lemma rep_dom h par prv f l : rep h par prv f → l ∈ locs f → is_Some (h !! l).
Proof.
  revert par prv. induction f as [|[m e] ks IHk ss IHs]; intros par prv; simpl.
  { by intros _ ?%elem_of_nil. }
  intros (Hm & Hk & Hs). rewrite elem_of_cons, elem_of_app. naive_solver.
Qed.

(** A well-formed level is never longer than the fuel of the loops. *)
Lemma rep_size h par prv f :
  rep h par prv f → NoDup (locs f) → length (locs f) ≤ size h.
Proof. intros Hr Hn. apply nodup_size; [done|]. eauto using rep_dom. Qed.

(** * Opening the representation at a child *)

(** The child called [n], and how to close the representation around a new version
    of it at the same location. *)
Lemma rep_child h par f n l d ks : ∀ prv,
  rep h par prv f → NoDup (locs f) → fchild n f = Some ((l, d), ks) →
  ∃ prv' nxt', repn h par prv' nxt' l d ks ∧
    ∀ h' d' ks',
      (∀ m, m ∈ locs f → m ≠ l → m ∉ locs ks → h' !! m = h !! m) →
      repn h' par prv' nxt' l d' ks' →
      rep h' par prv (freplace n ((l, d'), ks') f).
Proof.
  induction f as [|[m e] us _ ss IH]; intros prv; simpl; [done|].
  intros (Hm & Hu & Hs) (Hni & Hnd)%NoDup_cons. apply NoDup_app in Hnd as (Hn1 & Hn2 & Hn3).
  case_decide as E.
  - intros [= -> -> ->]. exists prv, (fptr ss). split; [done|].
    intros h' d' ks' Hfr [Hl Hk]. simpl. split_and!; [done..|].
    apply (rep_frame h); [done|]. intros. apply Hfr; set_solver.
  - intros Hc. destruct (IH _ Hs Hn3 Hc) as (prv' & nxt' & Hr & Hw).
    destruct (locs_child_in _ _ _ _ _ Hc) as [Hl1 Hl2].
    exists prv', nxt'. split; [done|]. intros h' d' ks' Hfr Hr'. simpl. split_and!.
    + rewrite Hfr; [|set_solver..]. by erewrite fptr_replace.
    + apply (rep_frame h); [done|]. intros. apply Hfr; set_solver.
    + apply Hw; [|done]. intros. apply Hfr; set_solver.
Qed.

(** * Unlinking a child *)

(** What [csdb_remove_from_key] does to the entry at [m] when it takes an entry with
    the links [prv] and [nxt] out of its level. *)
Definition relink (prv nxt : ptr) (m : loc) (e : csdbe) : csdbe :=
  let e := if decide (prv = Some m) then set_next nxt e else e in
  if decide (nxt = Some m) then set_prev prv e else e.

Lemma relink_id prv nxt m e : prv ≠ Some m → nxt ≠ Some m → relink prv nxt m e = e.
Proof. intros. unfold relink. by rewrite !decide_False. Qed.

Lemma rep_frame_relink h h' prv nxt par q f :
  rep h par q f →
  (∀ l, l ∈ locs f → h' !! l = relink prv nxt l <$> h !! l) →
  (∀ l, l ∈ locs f → prv ≠ Some l) → (∀ l, l ∈ locs f → nxt ≠ Some l) →
  rep h' par q f.
Proof.
  intros Hr Hh Hp Hn. apply (rep_frame h); [done|]. intros l Hl. rewrite Hh by done.
  destruct (h !! l); simpl; [|done]. by rewrite relink_id by auto.
Qed.

(** Taking the head out of a level. *)
Lemma rep_unlink_head h h' par prv l f :
  rep h par (Some l) f → NoDup (locs f) → (∀ q, prv = Some q → q ∉ locs f) →
  (∀ m, m ∈ locs f → h' !! m = relink prv (fptr f) m <$> h !! m) →
  rep h' par prv f.
Proof.
  destruct f as [|[q dq] kq sq]; [done|]. simpl.
  intros (Hq & Hk & Hs) (Hni & Hnd)%NoDup_cons Hprv Hh.
  apply NoDup_app in Hnd as (Hn1 & Hn2 & Hn3). split_and!.
  - rewrite Hh by set_solver. rewrite Hq. simpl. unfold relink.
    rewrite decide_True by done. rewrite decide_False; [done|].
    intros ->. by eapply Hprv; [|left].
  - eapply rep_frame_relink; [done|intros; apply Hh; set_solver| |set_solver].
    intros k Hin ->. apply (Hprv k); [done|set_solver].
  - eapply rep_frame_relink; [done|intros; apply Hh; set_solver| |set_solver].
    intros k Hin ->. apply (Hprv k); [done|set_solver].
Qed.

Lemma rep_unlink h par f n l d ks : ∀ prv,
  rep h par prv f → NoDup (locs f) → (∀ q, prv = Some q → q ∉ locs f) →
  fchild n f = Some ((l, d), ks) →
  ∃ prv' nxt', repn h par prv' nxt' l d ks ∧
    (prv' = prv ∧ fptr (fremove n f) = nxt' ∨
     (∃ q, prv' = Some q ∧ q ∈ locs f ∧ q ≠ l ∧ q ∉ locs ks) ∧
     fptr (fremove n f) = fptr f) ∧
    (∀ q, nxt' = Some q → q ∈ locs f ∧ q ≠ l ∧ q ∉ locs ks) ∧
    ∀ h', (∀ m, m ∈ locs f → m ≠ l → m ∉ locs ks →
             h' !! m = relink prv' nxt' m <$> h !! m) →
      rep h' par prv (fremove n f).
Proof.
  induction f as [|[m e] us _ ss IH]; intros prv; simpl; [done|].
  intros (Hm & Hu & Hs) (Hni & Hnd)%NoDup_cons Hprv. apply NoDup_app in Hnd as (Hn1 & Hn2 & Hn3).
  case_decide as E.
  - intros [= -> -> ->]. exists prv, (fptr ss).
    split_and!; [done|by left| |].
    + intros q Hq%fptr_elem. set_solver.
    + intros h' Hh. eapply rep_unlink_head; [done..|set_solver|].
      intros k Hk. apply Hh; set_solver.
  - intros Hc. destruct (locs_child_in _ _ _ _ _ Hc) as [Hl1 Hl2].
    destruct (IH (Some m)) as (prv' & nxt' & Hr & Hpos & Hnxt & Hw); [done..|set_solver|done|].
    exists prv', nxt'.
    assert (∃ q, prv' = Some q ∧ (q = m ∨ q ∈ locs ss) ∧ q ≠ l ∧ q ∉ locs ks) as Hprv'.
    { destruct Hpos as [(-> & _)|((q & -> & ?) & _)]; [exists m|exists q]; set_solver. }
    destruct Hprv' as (q & -> & Hq1 & Hq2 & Hq3).
    split_and!; [done| | |].
    + right. split; [exists q; set_solver|done].
    + intros k ?%Hnxt. set_solver.
    + intros h' Hh. simpl. split_and!.
      * rewrite Hh by set_solver. rewrite Hm. simpl. f_equal. unfold relink.
        rewrite (decide_False (P := nxt' = Some m)).
        2:{ intros ->. destruct (Hnxt m eq_refl). set_solver. }
        destruct Hpos as [([= ->] & <-)|((q' & [= ->] & ?) & ->)].
        -- by rewrite decide_True.
        -- rewrite decide_False; [done|]. intros [= ->]. set_solver.
      * eapply rep_frame_relink; [done| | |].
        -- intros k Hk. apply Hh; set_solver.
        -- intros k Hk [= ->]. set_solver.
        -- intros k Hk ->. specialize (Hnxt k eq_refl). set_solver.
      * apply Hw. intros k Hk ??. apply Hh; set_solver.
Qed.
