(* ===== verification/CsdbRead.v ===== *)
(** The read-only operations of csdb.c compute what the abstract database says. *)

From Stdlib Require Import ZArith Lia.
From stdpp Require Import base list gmap strings.
From S2P Require Import Prelude CsdbKey CsdbState Csdb CsdbSpec CsdbRep.

Definition loc_of (c : node (loc * edata)) : loc := c.1.1.

Lemma deref_Ok s l e : entries s !! l = Some e → deref (Some l) s = Ok s e.
Proof. intros H. simpl. by rewrite H. Qed.

Lemma read_name_Ok d par prv ch nxt s :
  read_str (name (cell d par prv ch nxt)) s = Ok s (ename d).
Proof. done. Qed.

Lemma unlock_lock s :
  csdb_root_mutex s = false → with_mutex false (with_mutex true s) = s.
Proof. destruct s; simpl. by intros ->. Qed.

Lemma lock_Ok s : csdb_root_mutex s = false → lock_root s = Ok (with_mutex true s) ().
Proof. unfold lock_root. by intros ->. Qed.

Lemma lock_Stop s : csdb_root_mutex s = true → lock_root s = Stop Deadlock.
Proof. unfold lock_root. by intros ->. Qed.

Lemma lrep_mutex s r d ks b : lrep s r d ks → lrep (with_mutex b s) r d ks.
Proof. done. Qed.

Lemma db_rep_mutex s x b : db_rep s x → db_rep (with_mutex b s) x.
Proof. done. Qed.

(** * Searching *)

Lemma find_loop_spec s n f par : ∀ fuel prv,
  rep (entries s) par prv f → length (locs f) < fuel →
  find_loop fuel (fptr f) n s = Ok s (loc_of <$> fchild n f).
Proof.
  induction f as [|[l d] ks _ ss IH]; intros [|fuel] prv Hr Hf; simpl in Hf; try lia; [done|].
  destruct Hr as (Hl & _ & Hs). cbn [find_loop fptr fst].
  erewrite bind_Ok by (by apply deref_Ok). erewrite bind_Ok by apply read_name_Ok.
  cbn [fchild fst snd]. change (name_of (l, d)) with (ename d). case_decide; [done|].
  cbn [next cell]. eapply IH; [done|]. rewrite length_app in Hf. lia.
Qed.

Lemma csdb_find_child_spec s par prv nxt l d ks n :
  repn (entries s) par prv nxt l d ks → NoDup (locs ks) → n ≠ [dot] →
  csdb_find_child (Some l) n s = Ok s (loc_of <$> fchild n ks).
Proof.
  intros [Hl Hk] Hn Hd. unfold csdb_find_child.
  erewrite bind_Ok by (by apply deref_Ok). rewrite decide_False by done.
  erewrite bind_Ok by done. cbn [childs cell].
  eapply find_loop_spec; [done|]. unfold heap_fuel.
  pose proof (rep_size _ _ _ _ Hk Hn). lia.
Qed.

Lemma child_nodup n (f : lforest) l d ks :
  fchild n f = Some ((l, d), ks) → NoDup (locs f) → NoDup (l :: locs ks).
Proof.
  intros (rest & H & _)%locs_child. rewrite H.
  by intros [? _]%(NoDup_app (_ :: _)).
Qed.

Lemma walk_spec s names : ∀ par prv nxt l d ks,
  repn (entries s) par prv nxt l d ks → NoDup (l :: locs ks) →
  Forall (λ n, n ≠ [dot]) names →
  walk (Some l) names s = Ok s (loc_of <$> nlookup names ((l, d), ks)).
Proof.
  induction names as [|n names IH]; intros par prv nxt l d ks Hr Hn Hf; [done|].
  apply Forall_cons in Hf as [Hnd Hf]. cbn [walk nlookup snd].
  erewrite bind_Ok by (eapply csdb_find_child_spec; [done|by inversion Hn|done]).
  destruct (fchild n ks) as [[[m e] us]|] eqn:E; [|by destruct names].
  destruct Hr as [_ Hk]. apply NoDup_cons in Hn as [_ Hn].
  destruct (rep_child _ _ _ _ _ _ _ _ Hk Hn E) as (p' & n' & Hr' & _).
  simpl. eapply IH; [done| |done]. by eapply child_nodup.
Qed.

Lemma key_path_names key : Forall (λ n, n ≠ [dot]) (key_path key).
Proof.
  unfold key_path, key_parts. case_decide; [constructor|].
  eapply Forall_impl; [apply parts_dot_free, not_elem_of_nil|].
  intros n Hn ->. apply Hn. left.
Qed.

Lemma walk_root s r : csdb_root s = Some r → is_Some (entries s !! r) →
  walk (Some r) [[dot]] s = Ok s (Some r).
Proof.
  intros Hr [e He]. cbn [walk]. unfold csdb_find_child.
  erewrite bind_Ok; [|erewrite bind_Ok by (by apply deref_Ok)]; [|by rewrite decide_True].
  by rewrite Hr.
Qed.

(** [csdb_get_entry] finds the entry at the path of the key. *)
Lemma csdb_get_entry_spec s r d ks key :
  lrep s r d ks → head key = Some dot →
  csdb_get_entry key s = Ok s (loc_of <$> nlookup (key_path key) ((r, d), ks)).
Proof.
  intros (Hroot & Hr & Hn & _) Hh. unfold csdb_get_entry, parse_key.
  destruct (csdb_parse_key_spec key Hh) as (-> & _ & _).
  erewrite bind_Ok by done. erewrite bind_Ok by done. rewrite Hroot.
  pose proof (key_path_names key) as Hf. unfold key_path in *. case_decide as Ek.
  - unfold key_parts. rewrite decide_True by done.
    apply walk_root; [done|]. destruct Hr as [-> _]. by eexists.
  - by eapply walk_spec.
Qed.

(** The located tree and the abstract one are searched alike. *)
Lemma nlookup_strip p : ∀ (c : node (loc * edata)),
  nlookup p (c.1.2, strip c.2) = (λ c, (c.1.2, strip c.2)) <$> nlookup p c.
Proof.
  induction p as [|n p IH]; intros c; [done|]. cbn [nlookup snd].
  rewrite strip_child. destruct (fchild n c.2) as [c'|]; [|done]. simpl. apply IH.
Qed.

Lemma nlookup_repn s p : ∀ par prv nxt l d ks c,
  repn (entries s) par prv nxt l d ks → NoDup (l :: locs ks) →
  nlookup p ((l, d), ks) = Some c →
  ∃ par' prv' nxt', repn (entries s) par' prv' nxt' (loc_of c) c.1.2 c.2 ∧
    NoDup (loc_of c :: locs c.2).
Proof.
  induction p as [|n p IH]; intros par prv nxt l d ks c Hr Hn; cbn [nlookup snd].
  { intros [= <-]. naive_solver. }
  destruct (fchild n ks) as [[[m e] us]|] eqn:E; [|done]. simpl.
  destruct Hr as [_ Hk]. apply NoDup_cons in Hn as [_ Hn].
  destruct (rep_child _ _ _ _ _ _ _ _ Hk Hn E) as (p' & n' & Hr' & _).
  eapply IH; [done|]. by eapply child_nodup.
Qed.

(** [csdb_get_entry] on the abstract database: what is found, and what the entry
    holds. *)
Lemma csdb_get_entry_db s x key :
  db_rep s x → head key = Some dot →
  match nlookup (key_path key) x with
  | None => csdb_get_entry key s = Ok s None
  | Some c => ∃ l par prv nxt ks,
      csdb_get_entry key s = Ok s (Some l) ∧ strip ks = c.2 ∧
      repn (entries s) par prv nxt l c.1 ks ∧ NoDup (l :: locs ks)
  end.
Proof.
  intros (r & ks & Hl & Hs & Hw) Hh. pose proof Hl as (_ & Hr & Hn & _).
  rewrite (csdb_get_entry_spec s r x.1 ks) by done.
  destruct x as [d f]; simpl in *. subst f.
  rewrite (nlookup_strip _ ((r, d), ks)).
  destruct (nlookup (key_path key) ((r, d), ks)) as [c|] eqn:E; simpl; [|done].
  destruct (nlookup_repn _ _ _ _ _ _ _ _ _ Hr Hn E) as (par & prv & nxt & Hc & Hnc).
  by exists (loc_of c), par, prv, nxt, c.2.
Qed.
