(* ===== verification/CsdbWrite.v ===== *)
(** Setting a value: [csdb_set_value_for_key] implements [nset] on the heap. *)

From Stdlib Require Import ZArith Lia.
From stdpp Require Import base list gmap strings.
From S2P Require Import Prelude CsdbKey CsdbState Csdb CsdbSpec CsdbRep CsdbRead.

(** * Framed steps *)

(** From [s] to [s'] at most the entries at [ls] and new ones have changed. *)
Definition touches (s s' : csdb) (ls : list loc) : Prop :=
  csdb_root s' = csdb_root s ∧ csdb_root_mutex s' = csdb_root_mutex s ∧
  clock s' = clock s ∧ (next_loc s ≤ next_loc s')%positive ∧ bounded s' ∧
  ∀ k, k ∉ ls → (k < next_loc s)%positive → entries s' !! k = entries s !! k.

(** The locations [ls'] are among [ls] or new. *)
Definition grows (s : csdb) (ls ls' : list loc) : Prop :=
  ∀ k, k ∈ ls' → k ∈ ls ∨ (next_loc s ≤ k)%positive.

Lemma touches_refl s ls : bounded s → touches s s ls.
Proof. intros. unfold touches. by split_and!. Qed.

Lemma touches_trans s s' s'' ls ls' :
  touches s s' ls → touches s' s'' ls' → grows s ls ls' → touches s s'' ls.
Proof.
  intros (?&?&?&?&?&Ha) (?&?&?&?&?&Hb) Hg. unfold touches. split_and!; [congruence..|lia|done|].
  - intros k Hk Hlt. rewrite Hb, Ha; [done..| |lia].
    intros [?|?]%Hg; [done|lia].
Qed.

Lemma touches_weaken s s' ls ls' : touches s s' ls → ls ⊆ ls' → touches s s' ls'.
Proof.
  intros (?&?&?&?&?&Ha) Hs. unfold touches. split_and!; try done.
  intros k Hk. apply Ha. set_solver.
Qed.

Lemma grows_trans s s' ls ls' ls'' :
  grows s ls ls' → (next_loc s ≤ next_loc s')%positive → grows s' ls' ls'' → grows s ls ls''.
Proof. intros H1 ? H2 k Hk. destruct (H2 k Hk) as [?%H1|?]; [done|right; lia]. Qed.

(** The node at [l] has become [d'] and [ks'], with its own links as they were, and
    nothing else has changed. *)
Definition node_step (s s' : csdb) (par prv nxt : ptr) (l : loc) (ks : lforest)
    (d' : edata) (ks' : lforest) : Prop :=
  repn (entries s') par prv nxt l d' ks' ∧ NoDup (l :: locs ks') ∧
  grows s (locs ks) (locs ks') ∧ touches s s' (l :: locs ks).

Lemma rep_bounded s par prv f l :
  bounded s → rep (entries s) par prv f → l ∈ locs f → (l < next_loc s)%positive.
Proof. intros Hb Hr Hl. apply Hb. by eapply rep_dom. Qed.

(** A step of a child is a step of its parent. *)
Lemma node_step_child s s' par prv nxt l d ks n m e us pv nx e' us' :
  repn (entries s) par prv nxt l d ks → NoDup (l :: locs ks) → bounded s →
  fchild n ks = Some ((m, e), us) →
  repn (entries s) (Some l) pv nx m e us →
  (∀ h' d' ks', (∀ k, k ∈ locs ks → k ≠ m → k ∉ locs us → h' !! k = entries s !! k) →
      repn h' (Some l) pv nx m d' ks' →
      rep h' (Some l) None (freplace n ((m, d'), ks') ks)) →
  node_step s s' (Some l) pv nx m us e' us' →
  node_step s s' par prv nxt l ks d (freplace n ((m, e'), us') ks).
Proof.
  intros [Hl Hk] Hn Hb Hc Hm Hw (Hr' & Hn' & Hg & Ht).
  destruct (locs_child _ _ _ _ _ Hc) as (rest & Hp & _ & Hp').
  pose proof Ht as (_ & _ & _ & _ & _ & Hfr).
  assert (∀ k, k ∈ locs ks → (k < next_loc s)%positive) as Hlt by eauto using rep_bounded.
  assert (l < next_loc s)%positive as Hll by (apply Hb; by eexists).
  assert (∀ k, k ∈ locs ks ↔ (k = m ∨ k ∈ locs us) ∨ k ∈ rest) as Hel.
  { intros k. rewrite Hp, elem_of_cons, elem_of_app. tauto. }
  specialize (Hp' e' us').
  assert (∀ k, k ∈ locs (freplace n ((m, e'), us') ks) ↔ (k = m ∨ k ∈ locs us') ∨ k ∈ rest) as Hel'.
  { intros k. rewrite Hp', elem_of_cons, elem_of_app. tauto. }
  apply NoDup_cons in Hn as [Hni Hn]. rewrite Hel in Hni.
  rewrite Hp in Hn. apply (NoDup_app (m :: locs us)) in Hn as (Hn1 & Hn2 & Hn3).
  setoid_rewrite elem_of_cons in Hn2. clear Hp.
  split; [split|split_and!].
  - erewrite fptr_replace by done. rewrite Hfr; [done| |done].
    rewrite elem_of_cons. naive_solver.
  - apply Hw; [|done]. intros k Hk1 Hk2 Hk3. apply Hfr; [|by apply Hlt].
    by apply not_elem_of_cons.
  - apply NoDup_cons. rewrite Hel'. split.
    + intros [[->|[?|?]%Hg]|?]; [naive_solver..|lia|naive_solver].
    + rewrite Hp'. apply (NoDup_app (m :: locs us')). split_and!; [done| |done].
      intros k [->|[?|?]%Hg]%elem_of_cons Hk2; [naive_solver..|].
      assert (k < next_loc s)%positive by (apply Hlt, Hel; by right). lia.
  - intros k. rewrite Hel', Hel. intros [[->|[?|?]%Hg]|?]; auto.
  - eapply touches_weaken; [done|]. intros k. rewrite !elem_of_cons, Hel. naive_solver.
Qed.

(** * The primitive writes *)

Lemma store_Ok s l e g :
  entries s !! l = Some e →
  store (Some l) g s = Ok (with_entries (<[l := g e]> (entries s)) s) ().
Proof. intros H. simpl. by rewrite H. Qed.

Lemma csdb_create_entry_spec s n :
  csdb_create_entry n None s =
  Ok (with_next (Pos.succ (next_loc s))
       (with_entries (<[next_loc s := cell (new_data n (clock s)) None None None None]>
          (entries s)) s)) (Some (next_loc s)).
Proof.
  unfold csdb_create_entry, malloc_entry, csdb_set_name, csdb_set_value, gets, mbind, M_bind.
  repeat (simpl; rewrite ?lookup_insert_eq, ?insert_insert_eq). done.
Qed.

Lemma csdb_set_value_spec s l d par prv ch nxt v :
  entries s !! l = Some (cell d par prv ch nxt) →
  csdb_set_value (Some l) (Some v) s =
  Ok (with_entries (<[l := cell (put_value v (clock s) d) par prv ch nxt]> (entries s)) s) ().
Proof.
  intros H. unfold csdb_set_value, gets, mbind, M_bind.
  assert (∀ s', ∃ b, free_buf (value (cell d par prv ch nxt)) s' = Ok s' b) as Hf.
  { intros s'. simpl. destruct (evalue d); by eexists. }
  simpl. rewrite H. destruct (Hf s) as [b ->].
  repeat (simpl; rewrite ?H, ?lookup_insert_eq, ?insert_insert_eq). done.
Qed.

(** [csdb_append_child] puts the new entry in front of the children. *)
Lemma csdb_append_child_spec s par prv nxt l d ks m dm :
  repn (entries s) par prv nxt l d ks → NoDup (l :: locs ks) → m ∉ l :: locs ks →
  entries s !! m = Some (cell dm None None None None) →
  runs (csdb_append_child (Some l) (Some m)) s (λ s' _,
    s' = with_entries (entries s') s ∧
    repn (entries s') par prv nxt l d (FNode (m, dm) FNil ks) ∧
    (∀ k, k ∉ m :: l :: locs ks → entries s' !! k = entries s !! k)).
Proof.
  intros [Hl Hk] Hn Hm Hem. apply NoDup_cons in Hn as [Hni Hn].
  apply not_elem_of_cons in Hm as [Hml Hmk].
  unfold csdb_append_child. apply runs_bind. eapply runs_eq; [by apply deref_Ok|].
  apply runs_bind. eapply runs_eq; [by apply store_Ok|].
  apply runs_bind. eapply runs_eq; [apply store_Ok; apply lookup_insert_eq|].
  apply runs_bind. eapply runs_eq; [apply store_Ok; simpl; apply lookup_insert_eq|].
  simpl. rewrite !insert_insert_eq. apply runs_bind.
  destruct ks as [|[q dq] kq sq]; cbn [fptr fst].
  - apply runs_ret. eapply runs_eq; [apply store_Ok; simpl; by map_reads|].
    simpl. split_and!; [done|split; [apply lookup_insert_eq|]|].
    + simpl. split_and!; [|done..]. by map_reads.
    + intros k Hk'. rewrite !lookup_insert_ne by set_solver. done.
  - simpl in Hni, Hmk, Hn, Hk. destruct Hk as (Hq & Hkq & Hsq).
    apply NoDup_cons in Hn as [Hqn Hn].
    apply not_elem_of_cons in Hni as [Hlq Hni]. apply not_elem_of_cons in Hmk as [Hmq Hmk].
    eapply runs_eq; [apply store_Ok; simpl; by map_reads|].
    eapply runs_eq; [apply store_Ok; simpl; by map_reads|].
    simpl. split_and!; [done|split; [apply lookup_insert_eq|simpl; split_and!]|].
    + by map_reads.
    + done.
    + by map_reads.
    + eapply rep_frame; [done|]. intros k Hk'. rewrite !lookup_insert_ne by set_solver. done.
    + eapply rep_frame; [done|]. intros k Hk'. rewrite !lookup_insert_ne by set_solver. done.
    + intros k Hk'. rewrite !lookup_insert_ne by set_solver. done.
Qed.

Lemma bounded_insert s l e :
  bounded s → (l < next_loc s)%positive → bounded (with_entries (<[l:=e]> (entries s)) s).
Proof.
  intros Hb Hl k. simpl. rewrite lookup_insert_is_Some. naive_solver.
Qed.

Lemma fresh_next s : bounded s → entries s !! next_loc s = None.
Proof.
  intros Hb. destruct (entries s !! next_loc s) eqn:E; [|done].
  assert (next_loc s < next_loc s)%positive by (apply Hb; by eexists). lia.
Qed.

(** A missing child is created and appended. *)
Definition create_child (entry : ptr) (n : cstr) : M csdb ptr :=
  new_entry ← csdb_create_entry n None;
  _ ← csdb_append_child entry new_entry;
  mret new_entry.

Lemma create_child_spec s par prv nxt l d ks n :
  repn (entries s) par prv nxt l d ks → NoDup (l :: locs ks) → bounded s →
  runs (create_child (Some l) n) s (λ s' p,
    p = Some (next_loc s) ∧
    node_step s s' par prv nxt l ks d (FNode (next_loc s, new_data n (clock s)) FNil ks)).
Proof.
  intros [Hl Hk] Hn Hb. unfold create_child.
  apply runs_bind. eapply runs_eq; [apply csdb_create_entry_spec|].
  set (m := next_loc s). set (dm := new_data n (clock s)).
  set (s1 := with_next _ _).
  assert (∀ k, k ∈ l :: locs ks → (k < m)%positive) as Hlt.
  { intros k [->|Hk']%elem_of_cons; [apply Hb; by eexists|by eapply rep_bounded]. }
  assert (m ∉ l :: locs ks) as Hm by (intros ?%Hlt; lia).
  apply runs_bind. eapply runs_mono.
  { eapply (csdb_append_child_spec s1 par prv nxt l d ks m dm); [|done|done|].
    - split; simpl; [rewrite lookup_insert_ne; [done|by set_solver]|].
      eapply rep_frame; [done|]. intros k Hk'. rewrite lookup_insert_ne; [done|]. set_solver.
    - simpl. apply lookup_insert_eq. }
  intros s2 _ (Hs2 & Hr2 & Hf2). apply runs_ret. split; [done|].
  assert (∀ k, k ≠ m → k ∉ l :: locs ks → entries s2 !! k = entries s !! k) as Hf.
  { intros k Hkm Hkl. rewrite Hf2 by by apply not_elem_of_cons. simpl. by rewrite lookup_insert_ne. }
  split; [done|]. split_and!.
  - simpl. apply NoDup_cons in Hn as [? ?]. apply not_elem_of_cons in Hm as [??].
    constructor; [by apply not_elem_of_cons|by constructor].
  - intros k [->|?]%elem_of_cons; [right; simpl; subst m; lia|by left].
  - rewrite Hs2. unfold touches; simpl. split_and!; [done..|subst m; lia| |].
    + intros k. simpl. destruct (decide (k ∈ m :: l :: locs ks)) as [Hin|Hin].
      * intros _. apply elem_of_cons in Hin as [->|Hin%Hlt]; subst m; lia.
      * apply not_elem_of_cons in Hin as [??]. rewrite Hf by done.
        intros ?%Hb. lia.
    + intros k Hk1 Hk2. apply Hf; [subst m; lia|done].
Qed.

Lemma node_step_trans s s' s'' par prv nxt l ks d' ks' d'' ks'' :
  node_step s s' par prv nxt l ks d' ks' → node_step s' s'' par prv nxt l ks' d'' ks'' →
  (l < next_loc s)%positive → node_step s s'' par prv nxt l ks d'' ks''.
Proof.
  intros (Hr & Hn & Hg & Ht) (Hr' & Hn' & Hg' & Ht') Hl.
  pose proof Ht as (_&_&_&?&_). split; [done|]. split_and!; [done| |].
  - by eapply grows_trans.
  - eapply touches_trans; [done..|]. intros k [->|Hk%Hg]%elem_of_cons; set_solver.
Qed.

Lemma set_value_node s par prv nxt l d ks v :
  repn (entries s) par prv nxt l d ks → NoDup (l :: locs ks) → bounded s →
  runs (csdb_set_value (Some l) (Some v)) s (λ s' _,
    node_step s s' par prv nxt l ks (put_value v (clock s) d) ks).
Proof.
  intros [Hl Hk] Hn Hb. eapply runs_eq; [by apply csdb_set_value_spec|].
  assert (l < next_loc s)%positive by (apply Hb; by eexists).
  apply NoDup_cons in Hn as [Hni Hn].
  split; [split; simpl|split_and!].
  - apply lookup_insert_eq.
  - eapply rep_frame; [done|]. intros k Hk'. rewrite lookup_insert_ne; [done|]. set_solver.
  - by constructor.
  - intros k ?. by left.
  - unfold touches; simpl. split_and!; [done..| |].
    + by apply bounded_insert.
    + intros k Hk' _. rewrite lookup_insert_ne; [done|]. set_solver.
Qed.

(** * The loop over the key parts *)

(** The body of the loop after the child has been found or created. *)
Definition set_tail (entry : ptr) (names : list cstr) (v : option cstr) : M csdb unit :=
  _ ← match names with [] => csdb_set_value entry v | _ => mret () end;
  set_loop entry names v.

Lemma set_loop_cons entry n names v :
  set_loop entry (n :: names) v =
  (new_entry ← csdb_find_child entry n;
   entry ← match new_entry with
           | None => create_child entry n
           | Some _ => mret new_entry
           end;
   set_tail entry names v).
Proof. done. Qed.

(** What [set_tail] has to do with the node at [l]. *)
Definition sets (names : list cstr) (v : cstr) : Prop := ∀ s par prv nxt l d ks,
  repn (entries s) par prv nxt l d ks → NoDup (l :: locs ks) → bounded s →
  runs (set_tail (Some l) names (Some v)) s (λ s' _, ∃ d' ks',
    node_step s s' par prv nxt l ks d' ks' ∧
    (d', strip ks') = nset names v (clock s) (d, strip ks)).

Lemma set_tail_child names v s par prv nxt l d ks n m e us :
  sets names v →
  repn (entries s) par prv nxt l d ks → NoDup (l :: locs ks) → bounded s →
  fchild n ks = Some ((m, e), us) →
  runs (set_tail (Some m) names (Some v)) s (λ s' _, ∃ ks',
    node_step s s' par prv nxt l ks d ks' ∧
    strip ks' = freplace n (nset names v (clock s) (e, strip us)) (strip ks)).
Proof.
  intros IH Hr Hn Hb Hc. pose proof Hr as [Hl Hk]. pose proof Hn as [_ Hnk]%NoDup_cons.
  destruct (rep_child _ _ _ _ _ _ _ _ Hk Hnk Hc) as (pv & nx & Hm & Hw).
  eapply runs_mono; [eapply IH; [done|by eapply child_nodup|done]|].
  intros s' _ (e' & us' & Hstep & Heq). exists (freplace n ((m, e'), us') ks). split.
  - by eapply node_step_child.
  - rewrite strip_replace. simpl. by rewrite Heq.
Qed.

Lemma sets_all names v : Forall (λ n, n ≠ [dot]) names → sets names v.
Proof.
  induction 1 as [|n names Hn Hns IH]; intros s par prv nxt l d ks Hr Hnd Hb.
  { unfold set_tail. apply runs_bind. eapply runs_mono; [by apply set_value_node|].
    intros s' ? Hs. apply runs_ret. by exists (put_value v (clock s) d), ks. }
  unfold set_tail. apply runs_bind, runs_ret. rewrite set_loop_cons. apply runs_bind.
  eapply runs_eq; [eapply csdb_find_child_spec; [done|by inversion Hnd|done]|].
  assert (l < next_loc s)%positive by (apply Hb; destruct Hr as [-> _]; by eexists).
  apply runs_bind. cbn [nset snd fst]. rewrite strip_child.
  destruct (fchild n ks) as [[[m e] us]|] eqn:E; simpl.
  - apply runs_ret. eapply runs_mono; [by eapply set_tail_child|].
    intros s' _ (ks' & Hs & Heq). exists d, ks'. split; [done|].
    rewrite Heq. unfold fput. rewrite strip_child, E. done.
  - eapply runs_mono; [by eapply create_child_spec|].
    intros s1 p (-> & Hs1). pose proof Hs1 as (Hr1 & Hn1 & _ & Ht1).
    pose proof Ht1 as (_ & _ & Hck & _ & Hb1 & _).
    eapply runs_mono; [eapply set_tail_child; [done..|]|].
    { simpl. change (name_of _) with n. by rewrite decide_True. }
    intros s' _ (ks' & Hs & Heq). exists d, ks'. split; [by eapply node_step_trans|].
    rewrite Heq, Hck. unfold fput. rewrite strip_child, E. simpl.
    change (name_of _) with n. by rewrite decide_True.
Qed.

(** [set_loop] below the root. *)
Lemma set_loop_spec s par prv nxt l d ks names v :
  repn (entries s) par prv nxt l d ks → NoDup (l :: locs ks) → bounded s →
  names ≠ [] → Forall (λ n, n ≠ [dot]) names →
  runs (set_loop (Some l) names (Some v)) s (λ s' _, ∃ d' ks',
    node_step s s' par prv nxt l ks d' ks' ∧
    (d', strip ks') = nset names v (clock s) (d, strip ks)).
Proof.
  intros Hr Hn Hb Hne Hf. destruct names as [|n names]; [done|].
  by apply (sets_all (n :: names) v Hf s).
Qed.
