(* ===== verification/CsdbRemove.v ===== *)
(** Removing: [csdb_remove_from_key] implements [nremove] on the heap, and frees no
    entry that is still reachable. *)

From Stdlib Require Import ZArith Lia.
From stdpp Require Import base list gmap strings.
From S2P Require Import Prelude CsdbKey CsdbState Csdb CsdbSpec CsdbRep CsdbRead.
From S2P Require Import CsdbWrite.

(** A step that allocates nothing and leaves the entries outside [ls] alone. *)
Definition shrinks (s s' : csdb) (ls : list loc) : Prop :=
  s' = with_entries (entries s') s ∧
  (∀ k, is_Some (entries s' !! k) → is_Some (entries s !! k)) ∧
  ∀ k, k ∉ ls → entries s' !! k = entries s !! k.

Lemma shrinks_refl s ls : shrinks s s ls.
Proof. split_and!; [by destruct s|done..]. Qed.

Lemma shrinks_frame s s' ls k : shrinks s s' ls → k ∉ ls → entries s' !! k = entries s !! k.
Proof. intros (_ & _ & H). apply H. Qed.

Lemma shrinks_trans s s' s'' ls ls' ls'' :
  shrinks s s' ls → shrinks s' s'' ls' → ls ⊆ ls'' → ls' ⊆ ls'' → shrinks s s'' ls''.
Proof.
  intros (H1 & H2 & H3) (H1' & H2' & H3') Hs Hs'. split_and!.
  - rewrite H1', H1. by destruct s.
  - intros k ?%H2'%H2. done.
  - intros k Hk. rewrite H3', H3 by set_solver. done.
Qed.

Lemma shrinks_store s l e g ls :
  entries s !! l = Some e → l ∈ ls →
  store (Some l) g s = Ok (with_entries (<[l:=g e]> (entries s)) s) () ∧
  shrinks s (with_entries (<[l:=g e]> (entries s)) s) ls.
Proof.
  intros He Hl. split; [by apply store_Ok|]. split_and!; [by destruct s| |]; simpl.
  - intros k. rewrite lookup_insert_is_Some'. intros [<-|?]; [by eexists|done].
  - intros k Hk. rewrite lookup_insert_ne; [done|]. set_solver.
Qed.

Lemma shrinks_free s l e ls :
  entries s !! l = Some e → l ∈ ls →
  free_entry (Some l) s = Ok (with_entries (delete l (entries s)) s) () ∧
  shrinks s (with_entries (delete l (entries s)) s) ls.
Proof.
  intros He Hl. split; [simpl; by rewrite He|]. split_and!; [by destruct s| |]; simpl.
  - intros k [v [_ Hv]%lookup_delete_Some]. by eexists.
  - intros k Hk. rewrite lookup_delete_ne; [done|]. set_solver.
Qed.

Lemma free_name_Ok d s : free_buf (BStr (ename d)) s = Ok s BFreed.
Proof. done. Qed.

Lemma free_value_Ok d s : ∃ b, free_buf (value_buf (evalue d)) s = Ok s b.
Proof. destruct (evalue d); by eexists. Qed.

(** [__csdb_remove_from_entry] below one level: it neither faults nor touches
    anything outside the level and what is below it. *)
Lemma remove_loop_spec f : ∀ fuel s par prv,
  rep (entries s) par prv f → NoDup (locs f) → length (locs f) < fuel →
  runs (remove_loop fuel (fptr f)) s (λ s' _, shrinks s s' (locs f)).
Proof.
  induction f as [|[l d] ks IHk ss IHs]; intros [|fuel] s par prv Hr Hn Hf; simpl in Hf; try lia.
  { apply runs_ret, shrinks_refl. }
  destruct Hr as (Hl & Hk & Hs). simpl in Hl, Hn, Hk, Hs. rewrite length_app in Hf.
  apply NoDup_cons in Hn as [Hni Hn]. apply NoDup_app in Hn as (Hn1 & Hn2 & Hn3).
  apply not_elem_of_app in Hni as [Hni1 Hni2].
  cbn [remove_loop fptr fst]. apply runs_bind. eapply runs_eq; [by apply deref_Ok|].
  cbn [childs cell]. apply runs_bind. apply (runs_mono _ _ (λ s' _, shrinks s s' (locs ks))).
  { destruct ks as [|a us vs]; [apply runs_ret, shrinks_refl|].
    eapply IHk; [done..|simpl in *; lia]. }
  intros s1 _ Hs1. pose proof Hs1 as (_ & _ & Hf1).
  assert (entries s1 !! l = Some (cell d par prv (fptr ks) (fptr ss))) as Hl1 by by rewrite Hf1.
  cbn [name value cell]. apply runs_bind. eapply runs_eq; [apply free_name_Ok|].
  apply runs_bind. destruct (free_value_Ok d s1) as [b Hb]. eapply runs_eq; [done|].
  set (g := λ e : csdbe, set_value_f b (set_name_f BFreed e)).
  destruct (shrinks_store s1 l _ g [l] Hl1 ltac:(by left)) as [Hst Hs2].
  apply runs_bind. eapply runs_eq; [done|].
  apply runs_bind. eapply runs_eq; [apply deref_Ok; simpl; apply lookup_insert_eq|].
  cbn [g next set_value_f set_name_f cell]. clear Hst.
  set (s2 := with_entries (<[l:=_]> _) s1) in *.
  assert (∀ k, k ∉ l :: locs ks → entries s2 !! k = entries s !! k) as Hf2.
  { intros k Hk'. rewrite (shrinks_frame _ _ _ _ Hs2), (shrinks_frame _ _ _ _ Hs1); set_solver. }
  assert (shrinks s s2 (l :: locs ks)) as Hs12 by (eapply shrinks_trans; [done..|set_solver|set_solver]).
  destruct ss as [|[q dq] kq sq].
  { apply runs_bind, runs_ret. destruct fuel as [|fuel]; [lia|]. apply runs_ret.
    eapply shrinks_trans; [exact Hs12|apply shrinks_refl|set_solver|]. apply list_subseteq_nil. }
  assert (entries s2 !! q = Some (cell dq par (Some l) (fptr kq) (fptr sq))) as Hq.
  { simpl in Hs. rewrite Hf2; [by destruct Hs|]. set_solver. }
  destruct (shrinks_free s2 l (g (cell d par prv (fptr ks) (Some q))) [l]) as [Hfr Hs3];
    [apply lookup_insert_eq|by left|].
  apply runs_bind. cbn [fptr fst]. eapply (runs_eq _ _ (with_entries (delete l (entries s2)) s2) ()).
  { erewrite bind_Ok by (by apply deref_Ok). done. }
  set (s3 := with_entries (delete l _) s2) in *.
  eapply runs_mono; [eapply (IHs fuel s3 par (Some l)); [|done|lia]|].
  - eapply rep_frame; [done|]. intros k Hk'.
    rewrite (shrinks_frame _ _ _ _ Hs3); [apply Hf2|]; set_solver.
  - intros s4 ? Hs4. eapply shrinks_trans; [exact Hs12| |set_solver|reflexivity].
    eapply shrinks_trans; [exact Hs3|exact Hs4|set_solver|set_solver].
Qed.

(** * Unlinking an entry below a node *)

(** What [csdb_remove_from_key] does to the entry at [m] when it takes the entry with
    the parent [pl] and the links [prv] and [nxt] out. *)
Definition unlink_eff (pl : loc) (prv nxt : ptr) (m : loc) (e : csdbe) : csdbe :=
  relink prv nxt m (if decide (prv = None ∧ pl = m) then set_childs nxt e else e).

Lemma unlink_eff_id pl prv nxt m e :
  pl ≠ m → prv ≠ Some m → nxt ≠ Some m → unlink_eff pl prv nxt m e = e.
Proof. intros. unfold unlink_eff. rewrite relink_id, decide_False; naive_solver. Qed.

(** The parent [pl] and the siblings [prv] and [nxt] are in [dom] and survive the
    removal of [l] and of [us]. *)
Definition survives (dom : list loc) (l : loc) (us : list loc) (q : loc) : Prop :=
  q ∈ dom ∧ q ≠ l ∧ q ∉ us.

Definition unlinkable (h : gmap loc csdbe) (dom : list loc) (pl : loc) (prv nxt : ptr)
    (l : loc) (d : edata) (us : lforest) : Prop :=
  repn h (Some pl) prv nxt l d us ∧ survives dom l (locs us) pl ∧
  (∀ q, prv = Some q → survives dom l (locs us) q) ∧
  (∀ q, nxt = Some q → survives dom l (locs us) q) ∧
  l ∈ dom ∧ locs us ⊆ dom.

Lemma unlinkable_weaken h dom dom' pl prv nxt l d us :
  unlinkable h dom pl prv nxt l d us → dom ⊆ dom' → unlinkable h dom' pl prv nxt l d us.
Proof.
  unfold unlinkable, survives. intros (Hr & (?&?&?) & Hp & Hn & Hl & Hu) Hs.
  split_and!; [done|by apply Hs|done|done| | |by apply Hs|by etrans].
  - intros q (?&?&?)%Hp. auto.
  - intros q (?&?&?)%Hn. auto.
Qed.

(** Closing the representation of the node at [l0] after the entry at [l] has been
    unlinked. *)
Definition unlink_closes (h : gmap loc csdbe) (par0 prv0 nxt0 : ptr) (l0 : loc)
    (ks : lforest) (pl : loc) (prv nxt : ptr) (l : loc) (us : lforest) (x' : node (loc * edata))
    : Prop := ∀ h',
  (∀ m, m ∈ l0 :: locs ks → m ≠ l → m ∉ locs us →
     h' !! m = (unlink_eff pl prv nxt m <$> h !! m)) →
  repn h' par0 prv0 nxt0 l0 x'.1.2 x'.2.

Lemma unlink_child h par0 prv0 nxt0 l0 d0 ks n l d us :
  repn h par0 prv0 nxt0 l0 d0 ks → NoDup (l0 :: locs ks) →
  fchild n ks = Some ((l, d), us) →
  ∃ prv nxt, unlinkable h (l0 :: locs ks) l0 prv nxt l d us ∧
    unlink_closes h par0 prv0 nxt0 l0 ks l0 prv nxt l us ((l0, d0), fremove n ks).
Proof.
  intros [Hl Hk] [Hni Hn]%NoDup_cons Hc.
  destruct (rep_unlink _ _ _ _ _ _ _ _ Hk Hn ltac:(done) Hc)
    as (prv & nxt & Hr & Hpos & Hnxt & Hw).
  destruct (locs_child_in _ _ _ _ _ Hc) as [Hin1 Hin2].
  assert (l0 ≠ l) as Hl0 by by intros ->.
  assert (∀ q, prv = Some q → q ∈ locs ks ∧ q ≠ l ∧ q ∉ locs us) as Hprv.
  { intros q ->. by destruct Hpos as [[? _]|[(q' & [= ->] & ?) _]]. }
  exists prv, nxt. split.
  - unfold unlinkable, survives. split_and!; [done|by left|done| | | |by right|].
    + intros ?%Hin2. done.
    + intros q (?&?&?)%Hprv. split_and!; [by right|done..].
    + intros q (?&?&?)%Hnxt. split_and!; [by right|done..].
    + intros k ?%Hin2. by right.
  - intros h' Hh'. split; simpl.
    + rewrite Hh', Hl; [|by left|done|by intros ?%Hin2]. simpl. f_equal.
      unfold unlink_eff. rewrite relink_id; [|intros (?&?&?)%Hprv; done|intros (?&?&?)%Hnxt; done].
      destruct Hpos as [[-> <-]|[(q & -> & _) ->]]; [by rewrite decide_True|].
      rewrite decide_False; [done|]. by intros [? _].
    + apply Hw. intros m Hm ??. rewrite Hh' by (by right || done).
      destruct (h !! m); [|done]. simpl. f_equal. unfold unlink_eff.
      rewrite (decide_False (P := _ ∧ _)); [done|]. by intros [_ ->].
Qed.

Lemma unlink_path h p : ∀ par0 prv0 nxt0 l0 d0 ks l d us,
  repn h par0 prv0 nxt0 l0 d0 ks → NoDup (l0 :: locs ks) → p ≠ [] →
  nlookup p ((l0, d0), ks) = Some ((l, d), us) →
  ∃ pl prv nxt, unlinkable h (l0 :: locs ks) pl prv nxt l d us ∧
    unlink_closes h par0 prv0 nxt0 l0 ks pl prv nxt l us (nremove p ((l0, d0), ks)).
Proof.
  induction p as [|n p IH]; intros par0 prv0 nxt0 l0 d0 ks l d us Hr Hn Hne Hlk; [done|].
  cbn [nlookup snd] in Hlk.
  destruct (fchild n ks) as [[[l1 d1] us1]|] eqn:E; [simpl in Hlk|done].
  destruct p as [|m p].
  { simplify_eq/=. destruct (unlink_child _ _ _ _ _ _ _ _ _ _ _ Hr Hn E) as (prv & nxt & ? & ?).
    by exists l0, prv, nxt. }
  destruct Hr as [Hl Hk]. apply NoDup_cons in Hn as [Hni Hn].
  destruct (rep_child _ _ _ _ _ _ _ _ Hk Hn E) as (pv & nx & Hm & Hw).
  destruct (locs_child_in _ _ _ _ _ E) as [Hin1 Hin2].
  assert (l1 :: locs us1 ⊆ locs ks) as Hin by (intros k [->|?]%elem_of_cons; auto).
  destruct (IH _ _ _ _ _ _ _ _ _ Hm (child_nodup _ _ _ _ _ E Hn) ltac:(done) Hlk)
    as (pl & prv & nxt & Hu & Hcl). clear IH.
  pose proof Hu as (_ & (Hpl & _) & Hprv & Hnxt & Hl' & Hus').
  assert (∀ k, (k ∉ l1 :: locs us1) → k ≠ l ∧ (k ∉ locs us) ∧
    (∀ e, unlink_eff pl prv nxt k e = e)) as Hout.
  { intros k Hk'. split_and!; [by intros ->|by intros ?%Hus'|]. intros e.
    apply unlink_eff_id; [by intros ->|by intros (?&?)%Hprv|by intros (?&?)%Hnxt]. }
  exists pl, prv, nxt. split.
  { eapply unlinkable_weaken; [done|]. intros k ?%Hin. by right. }
  intros h' Hh'. rewrite nremove_cons. cbn [snd fst]. rewrite E.
  pose proof (nremove_data (m :: p) ((l1, d1), us1)) as Hnd.
  destruct (nremove (m :: p) ((l1, d1), us1)) as [ld1' us1'] eqn:En. simpl in Hnd. subst ld1'.
  split; simpl.
  - destruct (Hout l0) as (?&?&Hid); [by intros ?%Hin|].
    rewrite Hh', Hl by (by left || done). simpl. rewrite Hid.
    by erewrite fptr_replace.
  - apply Hw.
    + intros k Hk1 Hk2 Hk3. destruct (Hout k) as (?&?&Hid); [by apply not_elem_of_cons|].
      rewrite Hh' by (by right || done). destruct (h !! k); [|done]. simpl. by rewrite Hid.
    + apply (Hcl h'). intros k Hk'. apply Hh'. right. by apply Hin.
Qed.
