(* ===== verification/CsdbRefine.v ===== *)
(** The operations of csdb.c refine the abstract database: from a state that holds a
    database with the mutex free, each of them runs without a fault, returns what
    the specification says and leaves a state that holds the specified database. *)

From Stdlib Require Import ZArith Lia.
From stdpp Require Import base list gmap strings.
From S2P Require Import Prelude CsdbKey CsdbState Csdb CsdbSpec CsdbRep CsdbRead.
From S2P Require Import CsdbWrite CsdbRemove.

(** * Closing the invariant *)

Lemma node_step_db s s' r d ks d' ks' x' :
  lrep s r d ks → node_step s s' (Some r) None None r ks d' ks' →
  d' = x'.1 → strip ks' = x'.2 → wf x' → db_rep s' x'.
Proof.
  intros (Hroot & _ & _ & _) (Hr & Hn & _ & Hroot' & _ & _ & _ & Hb & _) -> ??.
  exists r, ks'. split; [|done]. split_and!; [congruence|done..].
Qed.

Lemma strip_nremove p : ∀ (c : node (loc * edata)),
  (λ c : node (loc * edata), (c.1.2, strip c.2)) (nremove p c) = nremove p (c.1.2, strip c.2).
Proof.
  induction p as [|n [|m p] IH]; intros c; [done| |].
  - rewrite !nremove_one. simpl. by rewrite strip_remove.
  - rewrite !nremove_cons. cbn [snd]. rewrite strip_child.
    destruct (fchild n c.2) as [c'|]; [|done]. cbn [fmap option_fmap option_map fst snd].
    by rewrite strip_replace, <- IH.
Qed.

Lemma locs_nremove p : ∀ (c : node (loc * edata)), locs (nremove p c).2 ⊆+ locs c.2.
Proof.
  induction p as [|n p IH]; intros [a f]; [done|].
  destruct (fchild n f) as [[[l d] us]|] eqn:E.
  - destruct (locs_child _ _ _ _ _ E) as (rest & H1 & H2 & H3). destruct p as [|m p].
    + rewrite nremove_one. simpl. rewrite H1, H2.
      by apply submseteq_cons, submseteq_inserts_l.
    + rewrite nremove_cons. cbn [snd]. rewrite E.
      pose proof (nremove_data (m :: p) ((l, d), us)) as Hd.
      specialize (IH ((l, d), us)).
      destruct (nremove (m :: p) ((l, d), us)) as [ld us']. simpl in Hd, IH. subst ld.
      simpl. rewrite H1, H3. by apply submseteq_skip, submseteq_skips_r.
  - destruct p as [|m p]; [rewrite nremove_one|rewrite nremove_cons; cbn [snd]; by rewrite E].
    simpl. clear IH. induction f as [|[l d] us _ ss IHf]; simpl in *; [done|].
    case_decide; [done|]. simpl. apply submseteq_skip, submseteq_skips_l. auto.
Qed.

Lemma submseteq_nodup {A} (l k : list A) : l ⊆+ k → NoDup k → NoDup l.
Proof. intros [k' ->]%submseteq_Permutation. by intros [? _]%NoDup_app. Qed.

(** * Setting *)

(** [csdb_set_value_for_key] with a key that starts with a dot returns 0 and
    leaves the database in which the value is stored at the path of the key, the
    missing entries on the path have been added, and nothing else has changed; the
    mutex is free again. *)
Lemma csdb_set_value_for_key_refines s x key v :
  db_rep s x → csdb_root_mutex s = false → head key = Some dot →
  runs (csdb_set_value_for_key key (Some v)) s (λ s' ret,
    ret = 0%Z ∧ db_rep s' (nset (key_path key) v (clock s) x) ∧
    csdb_root_mutex s' = false ∧ clock s' = clock s).
Proof.
  intros (r & ks & Hl & Hs & Hw) Hm Hh. unfold csdb_set_value_for_key, parse_key.
  destruct (csdb_parse_key_spec key Hh) as (-> & _ & _).
  apply runs_bind, runs_ret, runs_bind. eapply runs_eq; [by apply lock_Ok|].
  apply runs_bind, runs_gets, runs_bind.
  apply (lrep_mutex _ _ _ _ true) in Hl. set (s1 := with_mutex true s) in *.
  pose proof Hl as (Hroot & Hr & Hn & Hb). rewrite Hroot.
  apply (runs_mono _ _ (λ s' _, ∃ d' ks',
    node_step s1 s' (Some r) None None r ks d' ks' ∧
    (d', strip ks') = nset (key_path key) v (clock s) (x.1, strip ks))).
  { pose proof (key_path_names key) as Hf. unfold key_path in *. case_decide as Ek.
    - subst key. unfold key_parts. rewrite decide_True by done. simpl.
      apply runs_bind. eapply runs_eq.
      { unfold csdb_find_child. erewrite bind_Ok; [by rewrite decide_True|].
        apply deref_Ok, Hr. }
      rewrite Hroot. apply runs_bind, runs_ret, runs_bind.
      eapply runs_mono; [by apply set_value_node|].
      intros s' ? Hst. apply runs_ret. by exists (put_value v (clock s) x.1), ks.
    - apply (set_loop_spec s1); [done..| |done].
      by destruct (csdb_parse_key_spec key Hh) as (_ & _ & ?). }
  intros s2 _ (d' & ks' & Hst & Heq). apply runs_bind, runs_modify, runs_ret.
  pose proof Hst as (_ & _ & _ & Hroot' & _ & Hc & _).
  rewrite Hs, <- surjective_pairing in Heq.
  split_and!; [done| |done|done]. apply db_rep_mutex.
  eapply node_step_db; [done..| | |by apply nset_wf]; by rewrite <- Heq.
Qed.

(** * Looking up *)

Lemma runs_lock_get_entry {A} s x key (k : ptr → M csdb A) (Q : csdb → A → Prop) :
  db_rep s x → csdb_root_mutex s = false → head key = Some dot →
  match nlookup (key_path key) x with
  | None => runs (k None) (with_mutex true s) Q
  | Some c => ∀ l par prv nxt ks, strip ks = c.2 →
      repn (entries s) par prv nxt l c.1 ks → NoDup (l :: locs ks) →
      runs (k (Some l)) (with_mutex true s) Q
  end →
  runs (_ ← lock_root; entry ← csdb_get_entry key; k entry) s Q.
Proof.
  intros Hx Hm Hh Hk. apply runs_bind. eapply runs_eq; [by apply lock_Ok|].
  apply runs_bind. pose proof (csdb_get_entry_db (with_mutex true s) x key Hx Hh) as Hg.
  destruct (nlookup (key_path key) x) as [c|].
  - destruct Hg as (l & par & prv & nxt & ks & Hg & ? & ? & ?).
    eapply runs_eq; [done|]. by eapply Hk.
  - by eapply runs_eq.
Qed.

Lemma db_rep_wf s x : db_rep s x → wf x.
Proof. by intros (?&?&?&?&?). Qed.

(** [csdb_get_value_for_key] on a valid key, branch by branch: the value of a leaf,
    with the mutex free again, or an error; both errors leave the mutex locked. *)
Lemma csdb_get_value_for_key_spec s x key :
  db_rep s x → csdb_root_mutex s = false → csdb_is_valid_key key = true →
  csdb_get_value_for_key key s =
  match tdata x (key_path key) with
  | None => Ok (with_mutex true s) (- ECS_INVALIDKEY, None)%Z
  | Some d => if eleaf d then Ok s (0%Z, evalue d)
              else Ok (with_mutex true s) (- ECS_NOLEAF, None)%Z
  end.
Proof.
  intros Hx Hm Hv. pose proof (csdb_valid_key_head _ Hv) as Hh.
  unfold csdb_get_value_for_key. rewrite Hv. cbn [negb].
  erewrite bind_Ok by (by apply lock_Ok).
  pose proof (csdb_get_entry_db (with_mutex true s) x key Hx Hh) as Hg.
  unfold tdata. destruct (nlookup (key_path key) x) as [c|] eqn:E; simpl.
  - destruct Hg as (l & par & prv & nxt & ks & Hg & _ & [Hl _] & _).
    erewrite bind_Ok by done. cbn beta iota. erewrite bind_Ok by (by apply deref_Ok).
    cbn [is_leaf value cell]. pose proof (wf_lookup _ _ _ (db_rep_wf _ _ Hx) E) as Hval.
    destruct (eleaf c.1) eqn:El; cbn [negb]; [|done].
    destruct (evalue c.1) as [v|] eqn:Ev; [|by destruct (Hval El)].
    erewrite bind_Ok by done. erewrite bind_Ok by done. by rewrite unlock_lock.
  - by erewrite bind_Ok by done.
Qed.

(** [csdb_key_exist] tells whether the path of the key is there, and changes
    nothing. *)
Lemma csdb_key_exist_spec s x key :
  db_rep s x → csdb_root_mutex s = false → head key = Some dot →
  csdb_key_exist key s = Ok s (bool_decide (is_Some (tdata x (key_path key)))).
Proof.
  intros Hx Hm Hh. unfold csdb_key_exist. erewrite bind_Ok by (by apply lock_Ok).
  pose proof (csdb_get_entry_db (with_mutex true s) x key Hx Hh) as Hg.
  unfold tdata. destruct (nlookup (key_path key) x) as [c|]; simpl.
  - destruct Hg as (l & par & prv & nxt & ks & Hg & _).
    erewrite bind_Ok by done. erewrite bind_Ok by done. by rewrite unlock_lock.
  - erewrite bind_Ok by done. erewrite bind_Ok by done. by rewrite unlock_lock.
Qed.

(** * Removing *)

Lemma store_alter s q g :
  is_Some (entries s !! q) →
  store (Some q) g s = Ok (with_entries (alter g q (entries s)) s) ().
Proof.
  intros [e He]. rewrite (store_Ok _ _ e) by done. do 2 f_equal. apply map_eq. intros k.
  rewrite lookup_alter. case_decide as E; [subst; by rewrite lookup_insert_eq, He|].
  by rewrite lookup_insert_ne.
Qed.

Definition unlink_heap (pl : loc) (prv nxt : ptr) (h : gmap loc csdbe) : gmap loc csdbe :=
  let h1 := match prv with
            | Some q => alter (set_next nxt) q h
            | None => alter (set_childs nxt) pl h
            end in
  match nxt with Some q => alter (set_prev prv) q h1 | None => h1 end.

Lemma unlink_heap_lookup pl prv nxt h m :
  unlink_heap pl prv nxt h !! m = unlink_eff pl prv nxt m <$> h !! m.
Proof.
  assert (∀ g q (h : gmap loc csdbe) k, alter g q h !! k =
    (λ e, if decide (q = k) then g e else e) <$> h !! k) as Ha.
  { intros g q h' k. rewrite lookup_alter. case_decide; subst; by destruct (h' !! _). }
  unfold unlink_heap, unlink_eff, relink.
  destruct prv as [p|], nxt as [q|]; rewrite ?Ha; destruct (h !! m); simpl; try done;
    f_equal; repeat case_decide; naive_solver.

Qed.

(** The part of [csdb_remove_from_key] after the entries below [root] are gone. *)
Definition unlink_and_free (root : ptr) (ret : Z) : M csdb Z :=
  e ← deref root;
  _ ← match prev e with
      | Some _ => store (prev e) (set_next (next e))
      | None => store (parent e) (set_childs (next e))
      end;
  _ ← match next e with
      | Some _ => store (next e) (set_prev (prev e))
      | None => mret ()
      end;
  _ ← free_buf (name e);
  _ ← free_buf (value e);
  _ ← free_entry root;
  _ ← unlock_root;
  mret ret.

Lemma unlink_and_free_spec s l d pl prv nxt ch ret :
  entries s !! l = Some (cell d (Some pl) prv ch nxt) →
  pl ≠ l → is_Some (entries s !! pl) →
  (∀ q, prv = Some q ∨ nxt = Some q → q ≠ l ∧ is_Some (entries s !! q)) →
  unlink_and_free (Some l) ret s =
  Ok (with_mutex false (with_entries (delete l (unlink_heap pl prv nxt (entries s))) s)) ret.
Proof.
  intros Hl Hpl Hpls Hq. unfold unlink_and_free.
  erewrite bind_Ok by (by apply deref_Ok). cbn [prev next parent name value cell].
  set (h1 := match prv with Some q => alter (set_next nxt) q (entries s)
             | None => alter (set_childs nxt) pl (entries s) end).
  erewrite (bind_Ok _ _ _ (with_entries h1 s)); cycle 1.
  { destruct prv as [q|]; apply store_alter; [|done]. by apply Hq; left. }
  erewrite (bind_Ok _ _ _ (with_entries (unlink_heap pl prv nxt (entries s)) s)); cycle 1.
  { unfold unlink_heap. fold h1. destruct nxt as [q|]; [|done].
    apply (store_alter (with_entries h1 s)). simpl. destruct (Hq q) as [? ?]; [by right|].
    subst h1. destruct prv; by apply lookup_alter_is_Some. }
  erewrite bind_Ok by done. destruct (free_value_Ok d
    (with_entries (unlink_heap pl prv nxt (entries s)) s)) as [b Hb].
  erewrite bind_Ok by done.
  erewrite bind_Ok; cycle 1.
  { simpl. rewrite unlink_heap_lookup, Hl. done. }
  done.
Qed.

(** A heap that holds the located tree without an entry holds the database without it. *)
Lemma db_rep_nremove s r ks p x :
  csdb_root s = Some r → NoDup (r :: locs ks) → strip ks = x.2 → wf x →
  repn (entries s) (Some r) None None r x.1 (nremove p ((r, x.1), ks)).2 → bounded s →
  db_rep s (nremove p x).
Proof.
  intros Hroot Hn Hs Hw Hr Hb.
  pose proof (nremove_data p ((r, x.1), ks)) as Hnd.
  pose proof (locs_nremove p ((r, x.1), ks)) as Hln.
  pose proof (strip_nremove p ((r, x.1), ks)) as Hsn.
  simpl in Hsn. rewrite Hs, <- surjective_pairing in Hsn.
  exists r, (nremove p ((r, x.1), ks)).2. split; [|split; [|by apply nremove_wf]].
  - split_and!; [done| | |done].
    + rewrite <- Hsn. simpl. by rewrite Hnd.
    + apply NoDup_cons in Hn as [Hni Hn]. constructor.
      * intros Hin. apply Hni. by eapply elem_of_submseteq.
      * by eapply submseteq_nodup.
  - by rewrite <- Hsn.
Qed.

(** [csdb_remove_from_key] on a key that is there returns 0, leaves the database
    without the entry and all that was below it, and uses no freed memory. *)
Lemma csdb_remove_from_key_refines s x key :
  db_rep s x → csdb_root_mutex s = false → head key = Some dot → key ≠ [dot] →
  is_Some (tdata x (key_path key)) →
  runs (csdb_remove_from_key key) s (λ s' ret,
    ret = 0%Z ∧ db_rep s' (nremove (key_path key) x) ∧
    csdb_root_mutex s' = false ∧ clock s' = clock s).
Proof.
  intros (r & ks & Hl & Hs & Hw) Hm Hh Hk Hsome. unfold csdb_remove_from_key.
  rewrite decide_False by done.
  apply runs_bind. eapply runs_eq; [by apply lock_Ok|].
  apply (lrep_mutex _ _ _ _ true) in Hl. set (s1 := with_mutex true s) in *.
  pose proof Hl as (Hroot & Hr & Hn & Hb).
  assert (nlookup (key_path key) x =
    (λ c : node (loc * edata), (c.1.2, strip c.2)) <$> nlookup (key_path key) ((r, x.1), ks)) as Hlk.
  { rewrite <- nlookup_strip. simpl. by rewrite Hs, <- surjective_pairing. }
  unfold tdata in Hsome. rewrite Hlk in Hsome.
  destruct (nlookup (key_path key) ((r, x.1), ks)) as [[[l d] us]|] eqn:E; [|by destruct Hsome].
  clear Hsome Hlk. assert (key_path key ≠ []) as Hne.
  { unfold key_path. rewrite decide_False by done. by apply csdb_parse_key_spec. }
  destruct (unlink_path _ _ _ _ _ _ _ _ _ _ _ Hr Hn Hne E) as (pl & prv & nxt & Hu & Hcl).
  destruct Hu as ([Hel Hus] & (Hpl1 & Hpl2 & Hpl3) & Hprv & Hnxt & Hdl & Hdus).
  apply runs_bind. eapply runs_eq; [by eapply csdb_get_entry_spec|]. rewrite E. simpl.
  change (loc_of (l, d, us)) with l.
  apply runs_bind. unfold csdb_remove_from_entry.
  apply runs_bind. eapply runs_eq; [by apply deref_Ok|]. apply runs_bind, runs_gets.
  destruct (nlookup_repn _ _ _ _ _ _ _ _ _ Hr Hn E) as (_ & _ & _ & _ & Hnl).
  apply NoDup_cons in Hnl as [Hlus Hnus].
  cbn [childs cell]. apply runs_bind. eapply runs_mono.
  { eapply (remove_loop_spec us); [done..|]. unfold heap_fuel.
    pose proof (rep_size _ _ _ _ Hus Hnus). lia. }
  intros s2 ? (Hs2 & Hd2 & Hf2). apply runs_ret.
  assert (∀ q, q ∈ r :: locs ks → is_Some (entries s1 !! q)) as Hdom.
  { intros q [->|Hq]%elem_of_cons; [destruct Hr as [-> _]; by eexists|].
    destruct Hr as [_ Hr']. eapply rep_dom; [exact Hr'|done]. }
  eapply runs_eq.
  { eapply (unlink_and_free_spec s2 l d pl prv nxt); [by rewrite Hf2|done|rewrite Hf2; auto|].
    intros q [(?&?&?)%Hprv|(?&?&?)%Hnxt]; rewrite Hf2 by done; auto. }
  split_and!; [done| |done|by rewrite Hs2]. rewrite Hs2. apply db_rep_mutex.
  apply (db_rep_nremove _ r ks); try done.
  - change x.1 with ((r, x.1), ks).1.2 at 1. rewrite <- (nremove_data (key_path key) ((r, x.1), ks)).
    apply Hcl. intros m Hm1 Hm2 Hm3. simpl.
    by rewrite lookup_delete_ne, unlink_heap_lookup, Hf2 by done.
  - intros k [e He]. simpl in *. apply lookup_delete_Some in He as [_ He].
    rewrite unlink_heap_lookup in He. apply Hb, Hd2.
    destruct (entries s2 !! k); [by eexists|done].
Qed.

(** The other branches of [csdb_remove_from_key]: the root is never removed, and a
    key that is not there is an error; neither changes anything. *)
Lemma csdb_remove_from_key_errors s x key :
  db_rep s x → csdb_root_mutex s = false → head key = Some dot →
  key = [dot] ∨ tdata x (key_path key) = None →
  csdb_remove_from_key key s = Ok s (-1)%Z.
Proof.
  intros Hx Hm Hh Hk. unfold csdb_remove_from_key. case_decide; [done|].
  destruct Hk as [?|Hk]; [done|]. erewrite bind_Ok by (by apply lock_Ok).
  pose proof (csdb_get_entry_db (with_mutex true s) x key Hx Hh) as Hg.
  unfold tdata in Hk. destruct (nlookup (key_path key) x); [done|].
  erewrite bind_Ok by done. cbn beta iota. erewrite bind_Ok by done. by rewrite unlock_lock.
Qed.
