(* ===== verification/CsdbUpdate.v ===== *)
(** Refinement of the operations of csdb.c that leave the shape of the database as it
    is: appending to a value, the modification time, the names of the children; and
    of [csdb_init], which makes the first database. *)

From Stdlib Require Import ZArith Lia.
From stdpp Require Import base list gmap strings.
From S2P Require Import Prelude CsdbKey CsdbState Csdb CsdbSpec CsdbRep CsdbRead.
From S2P Require Import CsdbWrite CsdbRemove CsdbRefine.

(** * Changing the data of one entry *)

Section update.
Implicit Types (p : list cstr) (g : edata → edata).

Lemma nupdate_name p g x : ename (g x.1) = ename x.1 → ename (nupdate p g x).1 = ename x.1.
Proof. destruct p; simpl; [done|]. by destruct (fchild _ x.2). Qed.

Lemma nupdate_uniq p g x :
  (∀ d, ename (g d) = ename d) → uniq x.2 → uniq (nupdate p g x).2.
Proof.
  intros Hg. revert x. induction p as [|n p IH]; intros x Hu; [done|]. simpl.
  destruct (fchild n x.2) as [c|] eqn:E; [|done]. simpl.
  apply uniq_replace; [|done|apply IH; by eapply uniq_child].
  rewrite <- (fchild_name _ _ _ E). by apply nupdate_name.
Qed.

Lemma nupdate_fall P p g x :
  (∀ d, P d → P (g d)) → fall P x.2 → P x.1 →
  fall P (nupdate p g x).2 ∧ P (nupdate p g x).1.
Proof.
  intros Hg. revert x. induction p as [|n p IH]; intros x Hk Hx; [by split; [|apply Hg]|]. simpl.
  destruct (fchild n x.2) as [c|] eqn:E; [|done]. simpl. split; [|done].
  destruct (fall_child _ _ _ _ Hk E). destruct (IH c); [done..|]. by apply fall_replace.
Qed.

Lemma nupdate_wf p g x :
  (∀ d, ename (g d) = ename d) → (∀ d, has_value d → has_value (g d)) →
  wf x → wf (nupdate p g x).
Proof.
  intros Hg Hv (Hu & Hk & Hx & Hn). destruct (nupdate_fall has_value p g x) as [??]; [done..|].
  split_and!; [by apply nupdate_uniq|done..|by rewrite nupdate_name].
Qed.

Lemma tdata_nupdate p q g x :
  (∀ d, ename (g d) = ename d) →
  tdata (nupdate p g x) q = if decide (q = p) then g <$> tdata x q else tdata x q.
Proof.
  intros Hg. revert q x. induction p as [|n p IH]; intros q x.
  { destruct q as [|m q]; [done|]. case_decide; [done|]. by rewrite !tdata_cons. }
  destruct q as [|m q]; [by simpl; destruct (fchild n x.2)|]. simpl.
  destruct (fchild n x.2) as [c|] eqn:E; rewrite !tdata_cons; simpl.
  - rewrite fchild_replace.
    2:{ rewrite <- (fchild_name _ _ _ E). by apply nupdate_name. }
    destruct (decide (m = n)) as [->|]; [|rewrite decide_False by congruence; done].
    rewrite E. simpl. rewrite IH. by rewrite (decide_ext (q = p) (n :: q = n :: p))
      by naive_solver.
  - case_decide; [|done]. simplify_eq. by rewrite E.
Qed.
End update.

(** The data of a located entry. *)
Definition at_loc (g : edata → edata) (a : loc * edata) : loc * edata := (a.1, g a.2).

Lemma strip_nupdate g p : ∀ (c : node (loc * edata)),
  ((nupdate p (at_loc g) c).1.2, strip (nupdate p (at_loc g) c).2) =
  nupdate p g (c.1.2, strip c.2).
Proof.
  induction p as [|n p IH]; intros c; [done|]. simpl. rewrite strip_child.
  destruct (fchild n c.2) as [c'|]; [|done]. simpl. by rewrite strip_replace, <- IH.
Qed.

Lemma nupdate_loc g p (c : node (loc * edata)) : loc_of (nupdate p (at_loc g) c) = loc_of c.
Proof. destruct p; simpl; [done|]. by destruct (fchild _ c.2). Qed.

Lemma locs_replace_same n (f : lforest) c c' :
  fchild n f = Some c → loc_of c' = loc_of c → locs c'.2 = locs c.2 →
  locs (freplace n c' f) = locs f.
Proof.
  unfold loc_of. intros Hc Hl Hk. induction f as [|[m e] us _ ss IH]; simpl in *; [done|].
  case_decide; [|simpl; by rewrite IH]. injection Hc as <-. simpl in *. by rewrite Hl, Hk.
Qed.

Lemma locs_nupdate g p : ∀ c : node (loc * edata), locs (nupdate p (at_loc g) c).2 = locs c.2.
Proof.
  induction p as [|n p IH]; intros c; [done|]. simpl.
  destruct (fchild n c.2) as [c'|] eqn:E; [|done]. simpl.
  by eapply locs_replace_same; [|apply nupdate_loc|].
Qed.

(** Storing new data at the location of the entry at [p]. *)
Lemma rep_nupdate h g p : ∀ par prv nxt l d ks m e us,
  repn h par prv nxt l d ks → NoDup (l :: locs ks) → nlookup p ((l, d), ks) = Some ((m, e), us) →
  ∃ pm vm nm, repn h pm vm nm m e us ∧ ∀ h',
    (∀ k, k ≠ m → h' !! k = h !! k) → h' !! m = Some (cell (g e) pm vm (fptr us) nm) →
    repn h' par prv nxt l (nupdate p (at_loc g) ((l, d), ks)).1.2
      (nupdate p (at_loc g) ((l, d), ks)).2.
Proof.
  induction p as [|n p IH]; intros par prv nxt l d ks m e us Hr Hn Hp.
  { simpl in Hp. simplify_eq. exists par, prv, nxt. split; [done|]. intros h' Hh Hm.
    split; [done|]. destruct Hr as [_ Hk]. apply NoDup_cons in Hn as [Hn _].
    eapply rep_frame; [done|]. intros k Hk'. apply Hh. by intros ->. }
  simpl in Hp. destruct (fchild n ks) as [[[m' e'] us']|] eqn:E; [|done]. simpl in Hp.
  destruct Hr as [Hl Hk]. pose proof Hn as [Hni Hnk]%NoDup_cons.
  destruct (rep_child _ _ _ _ _ _ _ _ Hk Hnk E) as (pv & nx & Hm & Hw).
  destruct (IH (Some l) pv nx m' e' us' m e us Hm) as (pm & vm & nm & Hm' & Hw');
    [by eapply child_nodup|done|].
  exists pm, vm, nm. split; [done|]. intros h' Hh Hcell. simpl. rewrite E.
  pose proof (nupdate_loc g p ((m', e'), us')) as Hloc. unfold loc_of in Hloc.
  specialize (Hw' h' Hh Hcell).
  destruct (nupdate p (at_loc g) ((m', e'), us')) as [[m1 e1] us1] eqn:En. simpl in *. subst m1.
  assert (m ∈ m' :: locs us') as Hin.
  { clear -Hp. revert m' e' us' Hp. induction p as [|q p IHp]; intros m' e' us' Hp; simpl in Hp.
    - simplify_eq. left.
    - destruct (fchild q us') as [[[m2 e2] us2]|] eqn:E; [|done]. simpl in Hp.
      apply IHp in Hp. destruct (locs_child_in _ _ _ _ _ E). set_solver. }
  destruct (locs_child_in _ _ _ _ _ E) as [Hin1 Hin2].
  split.
  - rewrite Hh, Hl by set_solver. do 2 f_equal. simpl. symmetry. by eapply fptr_replace.
  - apply Hw; [|done]. intros k Hk1 Hk2 Hk3. apply Hh. set_solver.
Qed.

(** The database after data [g] has been stored at the entry a key denotes. *)
Lemma db_rep_update s x key g :
  db_rep s x → head key = Some dot → is_Some (tdata x (key_path key)) →
  (∀ d, ename (g d) = ename d) → (∀ d, has_value d → has_value (g d)) →
  ∃ m e pm vm ch nm,
    csdb_get_entry key s = Ok s (Some m) ∧ tdata x (key_path key) = Some e ∧
    entries s !! m = Some (cell e pm vm ch nm) ∧
    db_rep (with_entries (<[m := cell (g e) pm vm ch nm]> (entries s)) s)
      (nupdate (key_path key) g x).
Proof.
  intros (r & ks & Hl & Hs & Hw) Hh [e He] Hg Hv.
  pose proof Hl as (Hroot & Hr & Hn & Hb).
  rewrite (csdb_get_entry_spec s r x.1 ks) by done.
  pose proof (nlookup_strip (key_path key) ((r, x.1), ks)) as Hst. simpl in Hst.
  rewrite Hs, <- surjective_pairing in Hst. unfold tdata in *. rewrite Hst in He |- *.
  destruct (nlookup (key_path key) ((r, x.1), ks)) as [[[m e'] us]|] eqn:E; [|done].
  simpl in He. simplify_eq.
  destruct (rep_nupdate _ g _ _ _ _ _ _ _ _ _ _ Hr Hn E) as (pm & vm & nm & [Hm _] & Hcl).
  exists m, e, pm, vm, (fptr us), nm. split_and!; [done..|].
  set (h' := <[m := _]> _).
  specialize (Hcl h').
  pose proof (strip_nupdate g (key_path key) ((r, x.1), ks)) as Hsn.
  pose proof (locs_nupdate g (key_path key) ((r, x.1), ks)) as Hln.
  pose proof (nupdate_loc g (key_path key) ((r, x.1), ks)) as Hlo.
  unfold loc_of in *. simpl in Hsn, Hln, Hlo. rewrite Hs, <- surjective_pairing in Hsn.
  exists r, (nupdate (key_path key) (at_loc g) ((r, x.1), ks)).2.
  split; [|split; [by rewrite <- Hsn|by apply nupdate_wf]].
  split_and!; [done| | |].
  - rewrite <- Hsn. cbn [fst snd]. apply Hcl.
    + intros k Hk. subst h'. by rewrite lookup_insert_ne.
    + subst h'. by rewrite lookup_insert_eq.
  - by rewrite Hln.
  - intros k Hk. apply Hb. simpl in Hk. subst h'.
    apply lookup_insert_is_Some in Hk as [<-|[_ ?]]; [by eexists|done].
Qed.

(** * Appending *)

(** What appending does to the data of a leaf; the time is not changed. *)
Definition append_value (v : cstr) (btwn : option cstr) (d : edata) : edata :=
  EData (ename d) ((λ old, old ++ default [] btwn ++ v) <$> evalue d) (eleaf d)
    (emtime d) (edump d).

Lemma append_value_has v btwn d : has_value d → has_value (append_value v btwn d).
Proof. unfold has_value. simpl. intros H Hl. by destruct (evalue d); [|destruct (H Hl)]. Qed.

Definition is_leaf_at (x : tree) (p : list cstr) : bool :=
  match tdata x p with Some d => eleaf d | None => false end.

(** [csdb_append_value_for_key] appends the separator and the value to the value of
    a leaf and changes nothing else; on a key that is missing or no leaf it returns
    -1 and changes nothing. *)
Lemma csdb_append_value_for_key_refines s x key v btwn :
  db_rep s x → csdb_root_mutex s = false → head key = Some dot →
  runs (csdb_append_value_for_key key (Some v) btwn) s (λ s' ret,
    csdb_root_mutex s' = false ∧ clock s' = clock s ∧
    if is_leaf_at x (key_path key)
    then ret = 0%Z ∧ db_rep s' (nupdate (key_path key) (append_value v btwn) x)
    else ret = (-1)%Z ∧ s' = s).
Proof.
  intros Hx Hm Hh. unfold csdb_append_value_for_key, is_leaf_at.
  apply runs_bind. eapply runs_eq; [by apply lock_Ok|]. set (s1 := with_mutex true s).
  assert (db_rep s1 x) as Hx1 by by apply db_rep_mutex.
  apply runs_bind. destruct (tdata x (key_path key)) as [d|] eqn:E; cycle 1.
  { pose proof (csdb_get_entry_db s1 x key Hx1 Hh) as Hg. unfold tdata in E.
    destruct (nlookup (key_path key) x); [done|]. eapply runs_eq; [done|].
    apply runs_bind, runs_ret, runs_bind, runs_modify, runs_ret.
    subst s1. rewrite unlock_lock by done. done. }
  destruct (db_rep_update s1 x key (append_value v btwn) Hx1 Hh) as
    (m & e & pm & vm & ch & nm & Hg & He & Hc & Hr); [by eexists|done|apply append_value_has|].
  rewrite E in He. injection He as ->. eapply runs_eq; [done|]. apply runs_bind, runs_bind.
  eapply runs_eq; [by apply deref_Ok|]. cbn [is_leaf value cell].
  destruct (eleaf e) eqn:El; cbn [negb]; cycle 1.
  { apply runs_ret, runs_bind, runs_modify, runs_ret. subst s1. by rewrite unlock_lock. }
  assert (has_value e) as Hv.
  { unfold tdata in E. destruct (nlookup (key_path key) x) as [c|] eqn:Ec; [|done].
    simpl in E. injection E as <-. exact (wf_lookup _ _ _ (db_rep_wf _ _ Hx) Ec). }
  destruct (evalue e) as [old|] eqn:Ev; [|by destruct (Hv El)]. cbn [value_buf].
  apply runs_bind, runs_ret, runs_bind. eapply runs_eq; [by apply store_Ok|].
  apply runs_ret, runs_bind, runs_modify, runs_ret.
  split_and!; [done..|]. apply db_rep_mutex. revert Hr. unfold cell, append_value.
  by rewrite Ev.
Qed.

(** * Reading *)

(** [csdb_get_mtime_for_key] returns the time of the last modification, 0 for a key
    that is missing. *)
Lemma csdb_get_mtime_for_key_spec s x key :
  db_rep s x → csdb_root_mutex s = false → head key = Some dot →
  csdb_get_mtime_for_key key s = Ok s (default 0%Z (emtime <$> tdata x (key_path key))).
Proof.
  intros Hx Hm Hh. unfold csdb_get_mtime_for_key. erewrite bind_Ok by (by apply lock_Ok).
  pose proof (csdb_get_entry_db (with_mutex true s) x key Hx Hh) as Hg.
  unfold tdata. destruct (nlookup (key_path key) x) as [c|]; cbn [fmap option_fmap option_map].
  - destruct Hg as (l & par & prv & nxt & ks & Hg & _ & [Hl _] & _).
    erewrite bind_Ok by done. erewrite bind_Ok.
    2:{ erewrite bind_Ok by (by apply deref_Ok). done. }
    erewrite bind_Ok by done. by rewrite unlock_lock.
  - erewrite bind_Ok by done. erewrite bind_Ok by done. erewrite bind_Ok by done.
    by rewrite unlock_lock.
Qed.

Lemma names_loop_spec s f par : ∀ fuel prv,
  rep (entries s) par prv f → length (locs f) < fuel →
  names_loop fuel (fptr f) s = Ok s (fnames (strip f)).
Proof.
  induction f as [|[l d] ks _ ss IH]; intros [|fuel] prv Hr Hf; simpl in Hf; try lia; [done|].
  destruct Hr as (Hl & _ & Hs). cbn [names_loop fptr fst].
  erewrite bind_Ok by (by apply deref_Ok). erewrite bind_Ok by apply read_name_Ok.
  cbn [next cell]. erewrite bind_Ok; [done|].
  eapply IH; [done|]. rewrite length_app in Hf. lia.
Qed.

(** The children of an inner entry are listed in the order of the list, the last
    one added first; a leaf, an entry without children and a missing key give -1. *)
Lemma csdb_get_child_names_for_key_spec s x key cn sn :
  db_rep s x → head key = Some dot →
  csdb_get_child_names_for_key key cn sn s = Ok s
    match nlookup (key_path key) x with
    | Some (d, FNode a ks ss) =>
      if eleaf d then (-1, None, None)%Z
      else let names := fnames (FNode a ks ss) in
           (Z.of_nat (length names), if cn then Some names else None,
            if sn then Some (names_as_string names) else None)
    | _ => (-1, None, None)%Z
    end.
Proof.
  intros Hx Hh. unfold csdb_get_child_names_for_key.
  pose proof (csdb_get_entry_db s x key Hx Hh) as Hg.
  destruct (nlookup (key_path key) x) as [[d f]|]; [|by erewrite bind_Ok by done].
  destruct Hg as (l & par & prv & nxt & ks & Hg & Hs & [Hl Hk] & Hn).
  erewrite bind_Ok by done. cbn beta iota. erewrite bind_Ok by (by apply deref_Ok).
  cbn [is_leaf childs cell]. cbn [fst snd] in *. subst f.
  apply NoDup_cons in Hn as [_ Hn]. pose proof (rep_size _ _ _ _ Hk Hn) as Hsz.
  destruct ks as [|[m e] us ss]; cbn [strip fptr fst snd]; [by destruct (eleaf d)|].
  destruct (eleaf d); [done|]. erewrite bind_Ok by done.
  erewrite bind_Ok.
  2:{ eapply (names_loop_spec s (FNode (m, e) us ss)); [done|]. unfold heap_fuel. lia. }
  done.
Qed.

(** * The first database *)

Definition csdb_empty (t : Z) : csdb := Csdb None false ∅ 1 t.

(** [csdb_init] makes the database that has only its root, with the mutex free. *)
Lemma csdb_init_spec t :
  runs csdb_init (csdb_empty t) (λ s' ret,
    ret = 0%Z ∧ db_rep s' (new_data [dot] t, FNil) ∧
    csdb_root_mutex s' = false ∧ clock s' = t).
Proof.
  unfold csdb_init. apply runs_bind. eapply runs_eq; [done|].
  apply runs_bind. eapply runs_eq; [apply csdb_create_entry_spec|].
  apply runs_bind, runs_modify, runs_bind.
  eapply runs_eq; [apply store_Ok, lookup_insert_eq|].
  apply runs_bind, runs_modify, runs_ret. split_and!; [done| |done..].
  exists 1%positive, FNil. split; [|split; [done|]].
  - split_and!; [done| |apply NoDup_singleton|].
    + split; [|done]. simpl. by rewrite lookup_insert_eq.
    + intros k. simpl. intros [e He]. rewrite insert_insert_eq in He.
      apply lookup_insert_Some in He as [[<- _]|[_ He]]; [simpl; lia|done].
  - split_and!; [done..| |done]. by intros ?.
Qed.
