(* ===== verification/CsdbDump.v ===== *)
(** Refinement of [csdb_dump_from_key]: what is written to the file is one line
    [.a.b=value] for every leaf below the entry, in the order of the lists. *)

From Stdlib Require Import ZArith Lia.
From stdpp Require Import base list gmap strings.
From S2P Require Import Prelude CsdbKey CsdbState Csdb CsdbSpec CsdbRep CsdbRead.

(** * The text of a database *)

Definition data_line (path : cstr) (d : edata) : cstr :=
  if eleaf d then path ++ lit "=" ++ default (lit "(null)") (evalue d) ++ [NL] else [].

Fixpoint fdump (pre : cstr) (f : forest edata) : cstr :=
  match f with
  | FNil => []
  | FNode a ks ss =>
    let path := pre ++ dot :: ename a in
    data_line path a ++ fdump path ks ++ fdump pre ss
  end.

(** * The path that is printed *)

(** From [p] up to the root there are [n] links, and their names are [pre]. *)
Definition prints (s : csdb) (p : ptr) (n : nat) (pre : cstr) : Prop :=
  ∀ fuel, n < fuel → csdb_list_parents_names fuel p s = Ok s pre.

Lemma prints_root s r e :
  csdb_root s = Some r → entries s !! r = Some e → prints s (Some r) 0 [].
Proof.
  intros Hr He [|fuel] Hf; [lia|]. cbn [csdb_list_parents_names].
  erewrite bind_Ok by (by apply deref_Ok). erewrite bind_Ok by done. rewrite Hr.
  erewrite bind_Ok by (by apply deref_Ok). rewrite decide_False by auto.
  erewrite bind_Ok by done. cbn beta. by rewrite decide_False by auto.
Qed.

Lemma prints_step s r e l d par prv ch nxt n pre :
  csdb_root s = Some r → entries s !! r = Some e → l ≠ r →
  entries s !! l = Some (cell d par prv ch nxt) → prints s par n pre →
  prints s (Some l) (S n) (pre ++ dot :: ename d).
Proof.
  intros Hr He Hlr Hl Hp [|fuel] Hf; [lia|]. cbn [csdb_list_parents_names].
  erewrite bind_Ok by (by apply deref_Ok). erewrite bind_Ok by done. rewrite Hr.
  erewrite bind_Ok by (by apply deref_Ok). cbn [parent cell].
  assert (Some l ≠ Some r) as Hne by congruence. rewrite decide_True by done.
  erewrite bind_Ok by (apply Hp; lia). cbn beta. rewrite decide_True by done.
  by erewrite bind_Ok by apply read_name_Ok.
Qed.

Lemma dump_line_spec s path d :
  eleaf d = true →
  dump_line path (value_buf (evalue d)) s = Ok s (data_line path d).
Proof. intros Hl. unfold dump_line, data_line. rewrite Hl. by destruct (evalue d). Qed.

(** * The walk *)

Lemma dump_entry_spec s r e f : ∀ fuel par prv n pre,
  csdb_root s = Some r → entries s !! r = Some e → r ∉ locs f →
  rep (entries s) par prv f → prints s par n pre →
  n + length (locs f) ≤ size (entries s) → length (locs f) < fuel →
  csdb_dump_from_entry fuel (fptr f) s = Ok s (fdump pre (strip f)).
Proof.
  induction f as [|[l d] ks IHk ss IHs]; intros [|fuel] par prv n pre Hr He Hni Hf Hp Hn Hfu;
    simpl in Hfu; try lia; [done|].
  simpl in Hn. rewrite length_app in Hn, Hfu. cbn [locs fst] in Hni.
  apply not_elem_of_cons in Hni as [Hrl [Hnk Hns]%not_elem_of_app].
  destruct Hf as (Hl & Hk & Hs). cbn [fptr fst snd strip fdump csdb_dump_from_entry].
  assert (prints s (Some l) (S n) (pre ++ dot :: ename d)) as Hp'
    by by eapply prints_step.
  erewrite bind_Ok by (by apply deref_Ok). cbn [is_leaf childs next value cell fst snd].
  erewrite (bind_Ok _ _ s s (data_line (pre ++ dot :: ename d) d)); cycle 1.
  { destruct (eleaf d) eqn:El; [|unfold data_line; by rewrite El].
    erewrite bind_Ok by done. erewrite bind_Ok by (apply Hp'; unfold heap_fuel; lia).
    by apply dump_line_spec. }
  erewrite (bind_Ok _ _ s s (fdump (pre ++ dot :: ename d) (strip ks))); cycle 1.
  { destruct ks as [|a us vs]; [done|]. cbn [fptr].
    eapply (IHk fuel (Some l) None (S n)); [done..|lia|lia]. }
  erewrite bind_Ok by (eapply IHs; [done..|lia|lia]). done.
Qed.

(** The entry a path denotes, with what is printed for it. *)
Lemma nlookup_prints s r e0 p : ∀ par prv nxt l d ks c n pre,
  csdb_root s = Some r → entries s !! r = Some e0 → r ∉ locs ks →
  repn (entries s) par prv nxt l d ks → NoDup (l :: locs ks) →
  prints s (Some l) n pre → S n + length (locs ks) ≤ size (entries s) →
  nlookup p ((l, d), ks) = Some c →
  ∃ par' prv' nxt' n', repn (entries s) par' prv' nxt' (loc_of c) c.1.2 c.2 ∧
    (r ∉ locs c.2) ∧ prints s (Some (loc_of c)) n' (pre ++ print_key p) ∧
    S n' + length (locs c.2) ≤ size (entries s).
Proof.
  induction p as [|m p IH]; intros par prv nxt l d ks c n pre Hr He Hni Hrep Hn Hp Hsz Hc.
  { simpl in Hc. simplify_eq. exists par, prv, nxt, n. by rewrite app_nil_r. }
  simpl in Hc. destruct (fchild m ks) as [[[l' d'] us]|] eqn:E; [|done]. simpl in Hc.
  destruct Hrep as [_ Hk]. apply NoDup_cons in Hn as [_ Hn].
  destruct (rep_child _ _ _ _ _ _ _ _ Hk Hn E) as (pv & nx & Hrep' & _).
  destruct (locs_child_in _ _ _ _ _ E) as [Hin1 Hin2].
  pose proof (fchild_name _ _ _ E) as Hname.
  destruct (locs_child _ _ _ _ _ E) as (rest & Hperm & _).
  apply Permutation_length in Hperm. simpl in Hperm. rewrite length_app in Hperm.
  destruct (IH (Some l) pv nx l' d' us c (S n) (pre ++ dot :: m)) as
    (par' & prv' & nxt' & n' & ? & ? & Hp' & ?).
  - done.
  - done.
  - set_solver.
  - done.
  - by eapply child_nodup.
  - replace m with (ename d') by done. eapply prints_step; [done|done| |by destruct Hrep'|done].
    set_solver.
  - lia.
  - done.
  - exists par', prv', nxt', n'. split_and!; [done..| |done].
    revert Hp'. by rewrite <- (assoc_L (++)).
Qed.

(** A dump of a key writes the lines of the leaves below its entry, each with its
    full path, writes nothing for a key that is missing, and changes nothing. *)
Lemma csdb_dump_from_key_spec s x key :
  db_rep s x → csdb_root_mutex s = false → head key = Some dot →
  csdb_dump_from_key key s = Ok s
    (0%Z, match nlookup (key_path key) x with
          | Some c => fdump (print_key (key_path key)) c.2
          | None => []
          end).
Proof.
  intros (r & ks & Hl & Hs & Hw) Hm Hh. unfold csdb_dump_from_key.
  erewrite bind_Ok by (by apply lock_Ok). apply (lrep_mutex _ _ _ _ true) in Hl.
  pose proof Hl as (Hroot & Hr & Hn & Hb).
  erewrite bind_Ok by (by apply (csdb_get_entry_spec _ r x.1 ks)).
  pose proof (nlookup_strip (key_path key) ((r, x.1), ks)) as Hst. simpl in Hst.
  rewrite Hs, <- surjective_pairing in Hst. rewrite Hst.
  destruct (nlookup (key_path key) ((r, x.1), ks)) as [c|] eqn:E; cbn [fmap option_fmap option_map].
  - pose proof Hr as [Her Hrep]. pose proof Hn as [Hnr Hnk]%NoDup_cons.
    assert (S (length (locs ks)) ≤ size (entries (with_mutex true s))) as Hsz.
    { apply (nodup_size (r :: locs ks)); [done|]. intros l [->|Hin]%elem_of_cons.
      - by eexists. - by eapply rep_dom. }
    pose proof (prints_root _ _ _ Hroot Her) as Hp0.
    destruct (nlookup_prints _ r _ _ _ _ _ _ _ _ _ 0 [] Hroot Her Hnr Hr Hn Hp0 Hsz E)
      as (par & prv & nxt & n & [Hc1 Hc2] & Hnc & Hp & Hsz').
    erewrite bind_Ok.
    2:{ erewrite bind_Ok by (by apply deref_Ok). erewrite bind_Ok by done. cbn [childs cell].
        eapply dump_entry_spec; [done..|lia|unfold heap_fuel; lia]. }
    erewrite bind_Ok by done. rewrite unlock_lock by done. done.
  - erewrite bind_Ok by done. erewrite bind_Ok by done. by rewrite unlock_lock.
Qed.
