(* ===== verification/CsdbStore.v ===== *)
(** The interface between the cs database and the rest of the daemon.

    [CsStore] lists the operations of csdb.h that csd.c, csc.c and csda.c call.  It has
    two instances: the code of csdb.c on the heap, and the abstract database, a tree
    with the flag that says whether the mutex is held.  The client components are
    written against the class; [StoreRefinement] is what an implementation promises to
    them, and [csdb_refinement] discharges it for csdb.c without any condition on the
    keys or on the state of the mutex. *)

From Stdlib Require Import ZArith Lia.
From stdpp Require Import base list gmap strings.
From S2P Require Import Prelude CsdbKey CsdbState Csdb CsdbSpec CsdbRep CsdbRead.
From S2P Require Import CsdbWrite CsdbRemove CsdbRefine CsdbUpdate CsdbDump.

Class CsStore (S : Type) : Type := {
  db_get : cstr → M S (Z * option cstr);
  db_set : cstr → cstr → M S Z;
  db_append : cstr → cstr → option cstr → M S Z;
  db_remove : cstr → M S Z;
  db_exist : cstr → M S bool;
  db_names : cstr → bool → bool → M S (Z * option (list cstr) * option cstr);
  db_mtime : cstr → M S Z;
  db_dump : cstr → M S (Z * cstr)
}.

(** The code: no caller passes [NULL] as a value. *)
#[export] Instance csdb_store : CsStore csdb := {
  db_get := csdb_get_value_for_key;
  db_set key v := csdb_set_value_for_key key (Some v);
  db_append key v := csdb_append_value_for_key key (Some v);
  db_remove := csdb_remove_from_key;
  db_exist := csdb_key_exist;
  db_names := csdb_get_child_names_for_key;
  db_mtime := csdb_get_mtime_for_key;
  db_dump := csdb_dump_from_key
}.

(** * The abstract database *)

Record adb : Type := Adb { atree : tree; alocked : bool; aclock : Z }.

Definition with_tree (x : tree) (a : adb) : adb := Adb x (alocked a) (aclock a).
Definition with_locked (b : bool) (a : adb) : adb := Adb (atree a) b (aclock a).

Definition a_lock : M adb unit := λ a,
  if alocked a then Stop Deadlock else Ok (with_locked true a) ().
Definition a_unlock : M adb unit := modify (with_locked false).

(** A key without a dot is not cut into names, a key that does not start with its
    first dot is never done with. *)
Definition a_entry (key : cstr) : M adb (option tree) :=
  if decide (head key = Some dot) then gets (λ a, nlookup (key_path key) (atree a))
  else if decide (dot ∈ key) then stop OutOfFuel else stop NullDeref.

Definition a_get (key : cstr) : M adb (Z * option cstr) :=
  if negb (csdb_is_valid_key key) then mret (- ECS_INVALIDKEY, None)%Z
  else
    _ ← a_lock;
    c ← a_entry key;
    match c with
    | None => mret (- ECS_INVALIDKEY, None)%Z
    | Some c =>
      if eleaf c.1 then _ ← a_unlock; mret (0%Z, evalue c.1)
      else mret (- ECS_NOLEAF, None)%Z
    end.

Definition a_set (key v : cstr) : M adb Z :=
  if decide (head key = Some dot) then
    _ ← a_lock;
    _ ← modify (λ a, with_tree (nset (key_path key) v (aclock a) (atree a)) a);
    _ ← a_unlock;
    mret 0%Z
  else if decide (dot ∈ key) then stop OutOfFuel else mret (-1)%Z.

Definition a_append (key v : cstr) (btwn : option cstr) : M adb Z :=
  _ ← a_lock;
  c ← a_entry key;
  ret ← match c with
        | Some c =>
          if eleaf c.1 then
            _ ← modify (λ a, with_tree (nupdate (key_path key) (append_value v btwn) (atree a)) a);
            mret 0%Z
          else mret (-1)%Z
        | None => mret (-1)%Z
        end;
  _ ← a_unlock;
  mret ret.

Definition a_remove (key : cstr) : M adb Z :=
  if decide (key = [dot]) then mret (-1)%Z
  else
    _ ← a_lock;
    c ← a_entry key;
    ret ← match c with
          | Some _ =>
            _ ← modify (λ a, with_tree (nremove (key_path key) (atree a)) a);
            mret 0%Z
          | None => mret (-1)%Z
          end;
    _ ← a_unlock;
    mret ret.

Definition a_exist (key : cstr) : M adb bool :=
  _ ← a_lock; c ← a_entry key; _ ← a_unlock; mret (bool_decide (is_Some c)).

Definition a_names (key : cstr) (cn sn : bool)
    : M adb (Z * option (list cstr) * option cstr) :=
  c ← a_entry key;
  mret match c with
       | Some (d, FNode a ks ss) =>
         if eleaf d then (-1, None, None)%Z
         else let names := fnames (FNode a ks ss) in
              (Z.of_nat (length names), if cn then Some names else None,
               if sn then Some (names_as_string names) else None)
       | _ => (-1, None, None)%Z
       end.

Definition a_mtime (key : cstr) : M adb Z :=
  _ ← a_lock; c ← a_entry key; _ ← a_unlock; mret (default 0%Z ((emtime ∘ fst) <$> c)).

Definition a_dump (key : cstr) : M adb (Z * cstr) :=
  _ ← a_lock; c ← a_entry key; _ ← a_unlock;
  mret (0%Z, match c with Some c => fdump (print_key (key_path key)) c.2 | None => [] end).

#[export] Instance adb_store : CsStore adb := {
  db_get := a_get;
  db_set := a_set;
  db_append := a_append;
  db_remove := a_remove;
  db_exist := a_exist;
  db_names := a_names;
  db_mtime := a_mtime;
  db_dump := a_dump
}.

(** * The contract *)

(** What an implementation promises: its operations do what the abstract ones do, in
    every related pair of states and for every argument. *)
Class StoreRefinement (S : Type) `{!CsStore S} : Type := {
  holds : S → adb → Prop;
  get_refines key : refines holds (db_get key) (a_get key);
  set_refines key v : refines holds (db_set key v) (a_set key v);
  append_refines key v b : refines holds (db_append key v b) (a_append key v b);
  remove_refines key : refines holds (db_remove key) (a_remove key);
  exist_refines key : refines holds (db_exist key) (a_exist key);
  names_refines key cn sn : refines holds (db_names key cn sn) (a_names key cn sn);
  mtime_refines key : refines holds (db_mtime key) (a_mtime key);
  dump_refines key : refines holds (db_dump key) (a_dump key)
}.
#[export] Hint Resolve get_refines set_refines append_refines remove_refines exist_refines
  names_refines mtime_refines dump_refines : refine.

(** ** csdb.c keeps it *)

Definition csdb_holds (s : csdb) (a : adb) : Prop :=
  db_rep s (atree a) ∧ csdb_root_mutex s = alocked a ∧ clock s = aclock a.

Lemma parse_bad_key key :
  head key ≠ Some dot →
  csdb_parse_key key = if decide (dot ∈ key) then None else Some None.
Proof.
  intros Hh. case_decide as Hd.
  - by apply csdb_parse_key_diverges.
  - rewrite count_delims_pos in Hd. unfold csdb_parse_key, csdb_parse_key_n. simpl.
    by destruct (Nat.leb_spec (count_delims key) 0); [|lia].
Qed.

Lemma get_entry_bad_key s x key :
  db_rep s x → head key ≠ Some dot →
  csdb_get_entry key s = if decide (dot ∈ key) then Stop OutOfFuel else Stop NullDeref.
Proof.
  intros (r & ks & (Hr & _) & _) Hh. unfold csdb_get_entry, parse_key.
  rewrite parse_bad_key by done. case_decide; [done|].
  erewrite bind_Ok by done. erewrite bind_Ok by done. by rewrite Hr.
Qed.

Lemma a_lock_entry {A} (k : option tree → M adb A) key a :
  alocked a = false → head key = Some dot →
  (_ ← a_lock; c ← a_entry key; k c) a =
  k (nlookup (key_path key) (atree a)) (with_locked true a).
Proof.
  intros Hl Hh. erewrite (bind_Ok a_lock) by (unfold a_lock; by rewrite Hl).
  unfold a_entry. by rewrite decide_True.
Qed.

(** The cases of an operation that takes the mutex and looks the key up: only a free
    mutex and a key that starts with a dot are left. *)
Lemma locked_refines {A} (m : M csdb A) m' k k' key :
  m = (_ ← lock_root; p ← csdb_get_entry key; k p) →
  m' = (_ ← a_lock; c ← a_entry key; k' c) →
  (∀ s a, db_rep s (atree a) → csdb_root_mutex s = false → clock s = aclock a →
     alocked a = false → head key = Some dot →
     match k' (nlookup (key_path key) (atree a)) (with_locked true a) with
     | Ok a' v => ∃ s', m s = Ok s' v ∧ csdb_holds s' a'
     | Stop f => m s = Stop f
     end) →
  refines csdb_holds m m'.
Proof.
  intros Em -> H s a (Hx & Hm & Hc). destruct (alocked a) eqn:El.
  - rewrite Em. unfold a_lock, mbind, M_bind. rewrite El. by rewrite (lock_Stop s) by done.
  - destruct (decide (head key = Some dot)) as [Hh|Hh].
    { rewrite a_lock_entry by done. by apply H. }
    rewrite Em. erewrite (bind_Ok lock_root) by (by apply lock_Ok).
    erewrite (bind_Ok a_lock) by (unfold a_lock; by rewrite El).
    apply (db_rep_mutex _ _ true) in Hx. pose proof (get_entry_bad_key _ _ key Hx Hh) as Hg.
    unfold a_entry. rewrite (decide_False (P := head key = Some dot)) by done.
    revert Hg. case_decide; intros Hg; by apply bind_Stop.
Qed.

Lemma with_locked_id a : alocked a = false → with_locked false (with_locked true a) = a.
Proof. by destruct a; simpl; intros ->. Qed.

(** An operation of which a total correctness statement is known. *)
Lemma holds_step {A} (m : M csdb A) s a' v (Q : csdb → A → Prop) :
  runs m s Q →
  (∀ s' v', Q s' v' → v' = v ∧ csdb_holds s' a') →
  ∃ s', m s = Ok s' v ∧ csdb_holds s' a'.
Proof.
  intros (s' & v' & Hr & HQ)%runs_inv Hh. destruct (Hh _ _ HQ) as [-> ?]. by exists s'.
Qed.

(** An operation that changes nothing. *)
Lemma holds_same {A} (m : M csdb A) s a v :
  db_rep s (atree a) → csdb_root_mutex s = false → clock s = aclock a → alocked a = false →
  m s = Ok s v → ∃ s', m s = Ok s' v ∧ csdb_holds s' (with_locked false (with_locked true a)).
Proof.
  intros Hx Hm Hc Hl Hs. exists s. rewrite with_locked_id by done. split; [done|].
  split_and!; [done|congruence|done].
Qed.

Lemma csdb_exist_refines key :
  refines csdb_holds (csdb_key_exist key) (a_exist key).
Proof.
  eapply locked_refines; [done..|]. intros s a Hx Hm Hc Hl Hh. simpl.
  apply holds_same; [done..|]. rewrite (csdb_key_exist_spec s (atree a)) by done.
  f_equal. apply bool_decide_ext. unfold tdata. by rewrite fmap_is_Some.
Qed.

Lemma csdb_mtime_refines key :
  refines csdb_holds (csdb_get_mtime_for_key key) (a_mtime key).
Proof.
  eapply locked_refines; [done..|]. intros s a Hx Hm Hc Hl Hh. simpl.
  apply holds_same; [done..|]. rewrite (csdb_get_mtime_for_key_spec s (atree a)) by done.
  unfold tdata. by rewrite <- option_fmap_compose.
Qed.

Lemma csdb_dump_refines key :
  refines csdb_holds (csdb_dump_from_key key) (a_dump key).
Proof.
  eapply locked_refines; [done..|]. intros s a Hx Hm Hc Hl Hh. simpl.
  apply holds_same; [done..|]. by rewrite (csdb_dump_from_key_spec s (atree a)).
Qed.

Lemma csdb_append_refines key v b :
  refines csdb_holds (csdb_append_value_for_key key (Some v) b) (a_append key v b).
Proof.
  eapply locked_refines; [done..|]. intros s a Hx Hm Hc Hl Hh.
  pose proof (csdb_append_value_for_key_refines s (atree a) key v b Hx Hm Hh) as He.
  unfold is_leaf_at, tdata in He.
  destruct (nlookup (key_path key) (atree a)) as [c|]; simpl in *;
    [destruct (eleaf c.1); simpl|]; (eapply holds_step; [exact He|]); simpl.
  - intros s' ret (? & ? & -> & ?). split; [done|]. split_and!; [done..|simpl; congruence].
  - intros s' ret (? & ? & -> & ->). by split.
  - intros s' ret (? & ? & -> & ->). by split.
Qed.

Lemma csdb_remove_refines key :
  refines csdb_holds (csdb_remove_from_key key) (a_remove key).
Proof.
  destruct (decide (key = [dot])) as [->|Hk]; [apply refines_ret|].
  eapply locked_refines.
  { unfold csdb_remove_from_key. by rewrite decide_False by done. }
  { unfold a_remove. by rewrite decide_False by done. }
  intros s a Hx Hm Hc Hl Hh.
  pose proof (csdb_remove_from_key_refines s (atree a) key Hx Hm Hh Hk) as He.
  pose proof (csdb_remove_from_key_errors s (atree a) key Hx Hm Hh) as He'.
  unfold tdata in He, He'. rewrite fmap_is_Some in He.
  destruct (nlookup (key_path key) (atree a)) as [c|]; simpl.
  - eapply holds_step; [apply He; by eexists|]. simpl.
    intros s' ret (-> & ? & ? & ?). split; [done|]. split_and!; [done..|simpl; congruence].
  - apply holds_same; [done..|]. apply He'. by right.
Qed.

Lemma csdb_get_refines key :
  refines csdb_holds (csdb_get_value_for_key key) (a_get key).
Proof.
  destruct (csdb_is_valid_key key) eqn:Hv.
  2:{ unfold csdb_get_value_for_key, a_get. rewrite Hv. apply refines_ret. }
  eapply locked_refines.
  { unfold csdb_get_value_for_key. by rewrite Hv. }
  { unfold a_get. by rewrite Hv. }
  intros s a Hx Hm Hc Hl Hh.
  pose proof (csdb_get_value_for_key_spec s (atree a) key Hx Hm Hv) as He. unfold tdata in He.
  assert (csdb_holds (with_mutex true s) (with_locked true a)) as Hb.
  { split_and!; [by apply db_rep_mutex|done..]. }
  destruct (nlookup (key_path key) (atree a)) as [c|]; simpl in *; [|by eauto].
  destruct (eleaf c.1); simpl; [by apply holds_same|by eauto].
Qed.

Lemma csdb_set_refines key v :
  refines csdb_holds (csdb_set_value_for_key key (Some v)) (a_set key v).
Proof.
  intros s a (Hx & Hm & Hc). unfold a_set. case_decide as Hh.
  - destruct (alocked a) eqn:Hl.
    + erewrite bind_Stop by (unfold a_lock; by rewrite Hl).
      unfold csdb_set_value_for_key, parse_key.
      destruct (csdb_parse_key_spec key Hh) as (-> & _ & _). erewrite bind_Ok by done.
      cbn beta iota. by erewrite bind_Stop by (by apply lock_Stop).
    + erewrite bind_Ok by (unfold a_lock; by rewrite Hl).
      erewrite bind_Ok by done. erewrite bind_Ok by done. simpl.
      eapply holds_step; [by apply (csdb_set_value_for_key_refines s (atree a))|]. simpl.
      intros s' ret (-> & Hr & ? & ?). split; [done|].
      split_and!; [by rewrite <- Hc|done|simpl; congruence].
  - unfold csdb_set_value_for_key, parse_key. rewrite parse_bad_key by done.
    case_decide; [done|]. by exists s.
Qed.

Lemma csdb_names_refines key cn sn :
  refines csdb_holds (csdb_get_child_names_for_key key cn sn) (a_names key cn sn).
Proof.
  intros s a Ha. pose proof Ha as (Hx & Hm & Hc). unfold a_names, a_entry.
  destruct (decide (head key = Some dot)) as [Hh|Hh].
  - erewrite bind_Ok by done. exists s. split; [|done].
    by rewrite (csdb_get_child_names_for_key_spec s (atree a)).
  - unfold csdb_get_child_names_for_key.
    pose proof (get_entry_bad_key s (atree a) key Hx Hh) as Hg.
    destruct (decide (dot ∈ key)); by rewrite (bind_Stop _ _ _ _ Hg).
Qed.

#[export] Instance csdb_refinement : StoreRefinement csdb := {
  holds := csdb_holds;
  get_refines := csdb_get_refines;
  set_refines := csdb_set_refines;
  append_refines := csdb_append_refines;
  remove_refines := csdb_remove_refines;
  exist_refines := csdb_exist_refines;
  names_refines := csdb_names_refines;
  mtime_refines := csdb_mtime_refines;
  dump_refines := csdb_dump_refines
}.
