(* ===== verification/CsdbTrace.v ===== *)
(** What the callers of the cs database can rely on: every sequence of operations
    behaves as on the abstract database, and the effect of each operation as it is
    seen through the others. *)

From Stdlib Require Import ZArith Lia.
From stdpp Require Import base list gmap strings.
From S2P Require Import Prelude CsdbKey CsdbState Csdb CsdbSpec CsdbRep CsdbRead.
From S2P Require Import CsdbRefine CsdbUpdate CsdbStore.

(** * Sequences of operations *)

Inductive db_op : Type :=
  | OpGet (key : cstr)
  | OpSet (key v : cstr)
  | OpAppend (key v : cstr) (btwn : option cstr)
  | OpRemove (key : cstr)
  | OpExist (key : cstr)
  | OpNames (key : cstr) (cn sn : bool)
  | OpMtime (key : cstr)
  | OpDump (key : cstr).

Inductive db_reply : Type :=
  | RInt (z : Z)
  | RBool (b : bool)
  | RValue (r : Z * option cstr)
  | RNames (r : Z * option (list cstr) * option cstr)
  | RText (r : Z * cstr).

Section exec.
Context {S : Type} `{!CsStore S}.

Definition exec_op (op : db_op) : M S db_reply :=
  match op with
  | OpGet key => r ← db_get key; mret (RValue r)
  | OpSet key v => r ← db_set key v; mret (RInt r)
  | OpAppend key v btwn => r ← db_append key v btwn; mret (RInt r)
  | OpRemove key => r ← db_remove key; mret (RInt r)
  | OpExist key => r ← db_exist key; mret (RBool r)
  | OpNames key cn sn => r ← db_names key cn sn; mret (RNames r)
  | OpMtime key => r ← db_mtime key; mret (RInt r)
  | OpDump key => r ← db_dump key; mret (RText r)
  end.

Fixpoint exec_ops (ops : list db_op) : M S (list db_reply) :=
  match ops with
  | [] => mret []
  | op :: ops => r ← exec_op op; rs ← exec_ops ops; mret (r :: rs)
  end.
End exec.

Section exec_refines.
Context {S : Type} `{!CsStore S, !StoreRefinement S}.

Lemma exec_op_refines op : refines holds (exec_op (S := S) op) (exec_op op).
Proof. destruct op; simpl; eauto with refine. Qed.
#[local] Hint Resolve exec_op_refines : refine.

Lemma exec_ops_refines ops : refines holds (exec_ops (S := S) ops) (exec_ops ops).
Proof. induction ops; simpl; eauto with refine. Qed.
End exec_refines.

(** The abstract database after [csdb_init]. *)
Definition adb_init (t : Z) : adb := Adb (new_data [dot] t, FNil) false t.

Lemma csdb_init_holds t :
  ∃ s, csdb_init (csdb_empty t) = Ok s 0%Z ∧ csdb_holds s (adb_init t).
Proof.
  destruct (runs_inv _ _ _ (csdb_init_spec t)) as (s & r & Hs & -> & ? & ? & ?).
  exists s. split; [done|]. by split_and!.
Qed.

(** C1: after [csdb_init] every sequence of database operations, with whatever keys
    and values, returns the results of the abstract database and leaves a heap that
    represents it, or stops with the fault the abstract database stops with: the
    mutex that an earlier failed get has kept, a key that is never parsed, or a key
    without a dot. *)
Theorem csdb_trace_refines t ops :
  match exec_ops ops (adb_init t) with
  | Ok a rs => ∃ s, (csdb_init ≫= λ _, exec_ops ops) (csdb_empty t) = Ok s rs ∧ csdb_holds s a
  | Stop f => (csdb_init ≫= λ _, exec_ops ops) (csdb_empty t) = Stop f
  end.
Proof.
  destruct (csdb_init_holds t) as (s & Hs & Hh).
  erewrite bind_Ok by done. exact (exec_ops_refines ops s (adb_init t) Hh).
Qed.

(** * Effects *)

(** What a get returns, from what the path of its key holds. *)
Definition get_result (s : csdb) (o : option edata) : outcome csdb (Z * option cstr) :=
  match o with
  | None => Ok (with_mutex true s) (- ECS_INVALIDKEY, None)%Z
  | Some d => if eleaf d then Ok s (0%Z, evalue d)
              else Ok (with_mutex true s) (- ECS_NOLEAF, None)%Z
  end.

(** A state with its database, the mutex free. *)
Definition db_at (s : csdb) (x : tree) : Prop := db_rep s x ∧ csdb_root_mutex s = false.

Lemma db_at_get s x key :
  db_at s x → csdb_is_valid_key key = true →
  csdb_get_value_for_key key s = get_result s (tdata x (key_path key)).
Proof. intros [Hx Hm] Hv. by apply csdb_get_value_for_key_spec. Qed.

Lemma db_at_exist s x key :
  db_at s x → csdb_is_valid_key key = true →
  csdb_key_exist key s = Ok s (bool_decide (is_Some (tdata x (key_path key)))).
Proof. intros [Hx Hm] Hv. apply csdb_key_exist_spec; [done..|by apply csdb_valid_key_head]. Qed.

Lemma valid_key_path key : csdb_is_valid_key key = true → key ≠ [dot] → key_path key ≠ [].
Proof.
  intros Hv Hk. unfold key_path. rewrite decide_False by done.
  by destruct (csdb_parse_key_spec key (csdb_valid_key_head _ Hv)) as (_ & _ & ?).
Qed.

Lemma get_result_Ok s x key w :
  db_at s x → csdb_is_valid_key key = true →
  csdb_get_value_for_key key s = Ok s (0%Z, Some w) →
  ∃ d, tdata x (key_path key) = Some d ∧ eleaf d = true ∧ evalue d = Some w.
Proof.
  intros Hx Hv. rewrite (db_at_get s x) by done.
  destruct (tdata x (key_path key)) as [d|]; simpl; [|done].
  destruct (eleaf d) eqn:E; [|done]. intros [= ?]. by exists d.
Qed.

(** C3: set and get.  A set on a valid key returns 0; a get of a key with the same path
    then returns the value; a get of any other key that returned a value before still
    returns it; and the keys that exist are those that did and the path of the key
    with its prefixes. *)
Theorem csdb_set_get s x key v :
  db_at s x → csdb_is_valid_key key = true →
  runs (csdb_set_value_for_key key (Some v)) s (λ s' ret, ret = 0%Z ∧
    ∀ key', csdb_is_valid_key key' = true →
      (key_path key' = key_path key → csdb_get_value_for_key key' s' = Ok s' (0%Z, Some v)) ∧
      (∀ w, key_path key' ≠ key_path key →
         csdb_get_value_for_key key' s = Ok s (0%Z, Some w) →
         csdb_get_value_for_key key' s' = Ok s' (0%Z, Some w)) ∧
      csdb_key_exist key' s' = Ok s' (bool_decide
        (is_Some (tdata x (key_path key')) ∨ key_path key' `prefix_of` key_path key))).
Proof.
  intros [Hx Hm] Hv. eapply runs_mono.
  { apply csdb_set_value_for_key_refines; [done..|by apply csdb_valid_key_head]. }
  intros s' ret (-> & Hx' & Hm' & _). split; [done|]. intros key' Hv'.
  assert (db_at s' (nset (key_path key) v (clock s) x)) as Hat by done.
  rewrite (db_at_get s' _ key' Hat Hv'), (db_at_exist s' _ key' Hat Hv'), tdata_nset. split_and!.
  - intros ->. by rewrite decide_True.
  - intros w Hne Hw. rewrite decide_False by done.
    destruct (get_result_Ok s x key' w) as (d & -> & Hd & Hw'); [done..|].
    unfold get_result. by rewrite Hd, Hw'.
  - f_equal. apply bool_decide_ext. case_decide as E; [by rewrite E; naive_solver|].
    destruct (tdata x (key_path key')); [naive_solver|].
    case_decide; naive_solver.
Qed.

(** C4: remove.  Removing a valid key that exists, other than the root, returns 0;
    afterwards a key exists exactly if it existed before and its path is not at or
    below the removed one, and every value outside the removed part is still there. *)
Theorem csdb_remove_exist s x key :
  db_at s x → csdb_is_valid_key key = true → key ≠ [dot] →
  is_Some (tdata x (key_path key)) →
  runs (csdb_remove_from_key key) s (λ s' ret, ret = 0%Z ∧
    ∀ key', csdb_is_valid_key key' = true →
      csdb_key_exist key' s' = Ok s' (bool_decide
        (is_Some (tdata x (key_path key')) ∧ ¬ key_path key `prefix_of` key_path key')) ∧
      (∀ w, ¬ key_path key `prefix_of` key_path key' →
         csdb_get_value_for_key key' s = Ok s (0%Z, Some w) →
         csdb_get_value_for_key key' s' = Ok s' (0%Z, Some w))).
Proof.
  intros [Hx Hm] Hv Hk Hs. eapply runs_mono.
  { apply csdb_remove_from_key_refines; [done..|by apply csdb_valid_key_head|done|done]. }
  intros s' ret (-> & Hx' & Hm' & _). split; [done|]. intros key' Hv'.
  assert (db_at s' (nremove (key_path key) x)) as Hat by done.
  pose proof (db_rep_wf _ _ Hx) as (Hu & _).
  rewrite (db_at_get s' _ key' Hat Hv'), (db_at_exist s' _ key' Hat Hv').
  rewrite tdata_nremove by (done || by apply valid_key_path). split.
  - f_equal. apply bool_decide_ext. case_decide; [|naive_solver].
    split; [by intros [??]|naive_solver].
  - intros w Hne Hw. rewrite decide_False by done.
    destruct (get_result_Ok s x key' w) as (d & -> & Hd & Hw'); [done..|].
    unfold get_result. by rewrite Hd, Hw'.
Qed.

(** append.  If a get returns a value, appending to the key returns 0 and a get
    then returns the old value, the separator and the new text; the gets of the other
    keys are as before. *)
Theorem csdb_append_get s x key old v btwn :
  db_at s x → csdb_is_valid_key key = true →
  csdb_get_value_for_key key s = Ok s (0%Z, Some old) →
  runs (csdb_append_value_for_key key (Some v) btwn) s (λ s' ret, ret = 0%Z ∧
    ∀ key' w, csdb_is_valid_key key' = true →
      csdb_get_value_for_key key' s = Ok s (0%Z, Some w) →
      csdb_get_value_for_key key' s' = Ok s' (0%Z, Some
        (if decide (key_path key' = key_path key) then old ++ default [] btwn ++ v else w))).
Proof.
  intros Hat Hv Hold. destruct (get_result_Ok s x key old) as (d & Hd & Hl & Hw); [done..|].
  pose proof Hat as [Hx Hm]. eapply runs_mono.
  { apply csdb_append_value_for_key_refines; [done..|by apply csdb_valid_key_head]. }
  intros s' ret (Hm' & _ & Hr). revert Hr. unfold is_leaf_at. rewrite Hd, Hl.
  intros [-> Hx']. split; [done|]. intros key' w Hv' Hg.
  destruct (get_result_Ok s x key' w) as (d' & Hd' & Hl' & Hw'); [done..|].
  rewrite (db_at_get s' (nupdate (key_path key) (append_value v btwn) x)) by done.
  rewrite tdata_nupdate by done. case_decide as E; rewrite Hd'; simpl.
  - rewrite E, Hd in Hd'. injection Hd' as <-. by rewrite Hl, Hw.
  - by rewrite Hl', Hw'.
Qed.

(** ** The mutex that a failed get keeps *)

(** The operations that acquire the mutex before they return. *)
Definition takes_mutex (op : db_op) : bool :=
  match op with
  | OpGet key => csdb_is_valid_key key
  | OpSet key _ => bool_decide (head key = Some dot)
  | OpRemove key => bool_decide (key ≠ [dot])
  | OpAppend _ _ _ | OpExist _ | OpMtime _ | OpDump _ => true
  | OpNames _ _ _ => false
  end.

Lemma locked_bind {A} (k : () → M adb A) a : alocked a = true → (a_lock ≫= k) a = Stop Deadlock.
Proof. intros Hl. apply bind_Stop. unfold a_lock. by rewrite Hl. Qed.

Lemma a_locked_op op a :
  alocked a = true →
  match exec_op op a with
  | Ok a' _ => takes_mutex op = false ∧ a' = a
  | Stop f => takes_mutex op = true → f = Deadlock
  end.
Proof.
  intros Hl. destruct op; cbn [exec_op takes_mutex db_get db_set db_append db_remove db_exist
    db_names db_mtime db_dump adb_store].
  - unfold a_get. destruct (csdb_is_valid_key key); simpl; [|by split].
    rewrite (bind_Stop _ _ _ _ (locked_bind _ a Hl)). done.
  - unfold a_set. destruct (decide (head key = Some dot)) as [Hh|Hh].
    { by rewrite (bind_Stop _ _ _ _ (locked_bind _ a Hl)). }
    rewrite (bool_decide_eq_false_2 _ Hh). by destruct (decide (dot ∈ key)).
  - unfold a_append. by rewrite (bind_Stop _ _ _ _ (locked_bind _ a Hl)).
  - unfold a_remove. case_decide; simpl; [by rewrite bool_decide_eq_false_2 by auto|].
    rewrite (bind_Stop _ _ _ _ (locked_bind _ a Hl)). done.
  - unfold a_exist. by rewrite (bind_Stop _ _ _ _ (locked_bind _ a Hl)).
  - unfold a_names, a_entry. repeat case_decide; done.
  - unfold a_mtime. by rewrite (bind_Stop _ _ _ _ (locked_bind _ a Hl)).
  - unfold a_dump. by rewrite (bind_Stop _ _ _ _ (locked_bind _ a Hl)).
Qed.

Lemma a_locked_ops ops a :
  alocked a = true → Exists (λ op, takes_mutex op = true) ops → ∃ f, exec_ops ops a = Stop f.
Proof.
  intros Hl. induction 1 as [op ops Hop|op ops _ IH]; cbn [exec_ops].
  - pose proof (a_locked_op op a Hl) as Ho. destruct (exec_op op a) as [a' r|f] eqn:E.
    + destruct Ho as [Ho _]. congruence.
    + exists f. by apply bind_Stop.
  - pose proof (a_locked_op op a Hl) as Ho. destruct (exec_op op a) as [a' r|f] eqn:E.
    + destruct Ho as [_ ->]. rewrite (bind_Ok _ _ _ _ _ E). destruct IH as [f Hf].
      exists f. by apply bind_Stop.
    + exists f. by apply bind_Stop.
Qed.

(** C5: a get of a valid key that is missing or is no leaf returns an error with the
    mutex locked; after it every operation that needs the mutex blocks, and so does
    every sequence of operations with one of them. *)
Theorem csdb_get_value_error_blocks s x key :
  db_at s x → csdb_is_valid_key key = true →
  (∀ d, tdata x (key_path key) = Some d → eleaf d = false) →
  ∃ s' err, csdb_get_value_for_key key s = Ok s' (err, None) ∧ (err < 0)%Z ∧
    (∀ op, takes_mutex op = true → exec_op op s' = Stop Deadlock) ∧
    (∀ ops, Exists (λ op, takes_mutex op = true) ops → ∃ f, exec_ops ops s' = Stop f).
Proof.
  intros Hat Hv Hd. pose proof Hat as [Hx Hm]. exists (with_mutex true s).
  assert (csdb_holds (with_mutex true s) (Adb x true (clock s))) as Hh.
  { split_and!; [by apply db_rep_mutex|done..]. }
  assert (∃ err, (err < 0)%Z ∧
    get_result s (tdata x (key_path key)) = Ok (with_mutex true s) (err, None)) as (err & ? & He).
  { unfold get_result. destruct (tdata x (key_path key)) as [d|].
    - rewrite (Hd d) by done. by exists (- ECS_NOLEAF)%Z.
    - by exists (- ECS_INVALIDKEY)%Z. }
  exists err. rewrite (db_at_get s x key Hat Hv). split_and!; [done..| |].
  - intros op Hop. pose proof (exec_op_refines op _ _ Hh) as Hr.
    pose proof (a_locked_op op (Adb x true (clock s)) eq_refl) as Ho.
    destruct (exec_op op (Adb x true (clock s))); [naive_solver congruence|].
    by rewrite <- (Ho Hop).
  - intros ops Hops. pose proof (exec_ops_refines ops _ _ Hh) as Hr.
    destruct (a_locked_ops ops (Adb x true (clock s)) eq_refl Hops) as [f Hf].
    rewrite Hf in Hr. by exists f.
Qed.

(** ** The names of the children *)

(** The key of a child. *)
Definition child_key (key name : cstr) : cstr :=
  if decide (key = [dot]) then dot :: name else key ++ dot :: name.

Lemma key_path_child key name :
  csdb_is_valid_key key = true → dot_free name → name ≠ [] →
  key_path (child_key key name) = key_path key ++ [name].
Proof.
  intros Hv Hd Hn. pose proof (csdb_valid_key_head _ Hv) as Hh.
  assert (parts [] name = [name]) as Hp.
  { pose proof (parts_app name [] [] Hd) as H. rewrite app_nil_r in H. rewrite H. simpl.
    by rewrite decide_False. }
  unfold child_key, key_path, key_parts.
  destruct (decide (key = [dot])) as [->|Hk].
  - rewrite decide_False by naive_solver. simpl. by rewrite decide_False by naive_solver.
  - destruct key as [|ch c]; [done|]. simpl in Hh. simplify_eq.
    assert (c ≠ []) as Hc by naive_solver. simpl.
    rewrite !decide_False by (by destruct c). rewrite parts_snoc; [by rewrite Hp|done|].
    unfold csdb_is_valid_key in Hv. intros Hl. destruct c as [|d c]; [done|].
    rewrite last_cons_cons in Hv. simpl in Hv. by rewrite Hl in Hv.
Qed.

Lemma elem_of_fnames n (f : forest edata) : n ∈ fnames f ↔ is_Some (fchild n f).
Proof.
  induction f as [|a ks _ ss IH]; simpl; [split; [by intros ?%elem_of_nil|by intros []]|].
  rewrite elem_of_cons, IH. case_decide; [split; [by eexists|auto]|]. naive_solver.
Qed.

Lemma nlookup_uniq p (x c : tree) : uniq x.2 → nlookup p x = Some c → uniq c.2.
Proof.
  revert x. induction p as [|n p IH]; intros x Hu; simpl; [by intros [= <-]|].
  destruct (fchild n x.2) as [c'|] eqn:E; simpl; [|done]. apply IH. by eapply uniq_child.
Qed.

Lemma valid_child_key key name :
  csdb_is_valid_key key = true → dot_free name → name ≠ [] →
  csdb_is_valid_key (child_key key name) = true.
Proof.
  intros Hv Hd Hn. pose proof (csdb_valid_key_head _ Hv) as Hh.
  assert (∀ c, last (c ++ dot :: name) ≠ Some dot) as Hl.
  { intros c. rewrite last_app, last_cons. destruct (last name) as [b|] eqn:E.
    - intros [= ->]. apply last_Some_elem_of in E. done.
    - by apply last_None in E. }
  unfold child_key, csdb_is_valid_key. case_decide as Hk.
  - rewrite (bool_decide_eq_true_2 (head _ = _)) by done.
    rewrite (bool_decide_eq_true_2 (last _ ≠ _)) by (apply (Hl [])). by case_match.
  - rewrite (bool_decide_eq_true_2 (head _ = _)) by (by destruct key).
    rewrite (bool_decide_eq_true_2 (last _ ≠ _)) by (apply Hl). by case_match.
Qed.

(** when the names of the children of a valid key are returned, their number is
    the result, no name occurs twice, and a name is among them exactly if the key
    extended by it exists. *)
Theorem csdb_child_names_exist s x key sn n names str :
  db_at s x → csdb_is_valid_key key = true →
  csdb_get_child_names_for_key key true sn s = Ok s (n, Some names, str) →
  n = Z.of_nat (length names) ∧ NoDup names ∧
  (∀ m, dot_free m → m ≠ [] →
     csdb_key_exist (child_key key m) s = Ok s (bool_decide (m ∈ names))) ∧
  (sn = true → str = Some (names_as_string names)).
Proof.
  intros Hat Hv. pose proof Hat as [Hx _]. pose proof (csdb_valid_key_head _ Hv) as Hh.
  rewrite (csdb_get_child_names_for_key_spec s x) by done.
  destruct (nlookup (key_path key) x) as [[d [|a ks ss]]|] eqn:E; [done| |done].
  destruct (eleaf d); [done|]. intros [= <- <- <-].
  pose proof (db_rep_wf _ _ Hx) as (Hu & _). pose proof (nlookup_uniq _ _ _ Hu E) as Huf.
  split_and!; [done|by apply uniq_nodup in Huf| |by intros ->].
  intros m Hd Hm. rewrite (db_at_exist s x) by (done || by apply valid_child_key).
  rewrite key_path_child by done. f_equal. apply bool_decide_ext.
  change (name_of a :: fnames ss) with (fnames (FNode a ks ss)).
  rewrite elem_of_fnames. unfold tdata. rewrite nlookup_app, E.
  cbn [nlookup mbind option_bind snd]. destruct (fchild m (FNode a ks ss)); simpl; naive_solver.
Qed.

(** * A small database *)

Definition example_ops : list db_op :=
  [OpSet (lit ".alive.defiant.loadavg1") (lit "0.5"); OpSet (lit ".config.def_db_req") (lit ".load.avg1")].

Definition example_db : csdb :=
  match (csdb_init ≫= λ _, exec_ops example_ops) (csdb_empty 0) with
  | Ok s _ => s
  | Stop _ => csdb_empty 0
  end.

Definition example_tree : tree :=
  match exec_ops example_ops (adb_init 0) with Ok a _ => atree a | Stop _ => atree (adb_init 0) end.

Lemma example_at : db_at example_db example_tree.
Proof.
  destruct (csdb_init_holds 0) as (s & Hs & Hh).
  pose proof (exec_ops_refines example_ops s (adb_init 0) Hh) as Hr.
  unfold example_db, example_tree. rewrite (bind_Ok _ _ _ _ _ Hs).
  destruct (exec_ops example_ops (adb_init 0)) as [a rs|f] eqn:E; [|done].
  destruct Hr as (s' & -> & (? & Hm & _)). split; [done|]. rewrite Hm.
  vm_compute in E. by injection E as <- _.
Qed.

Lemma csdb_set_get_witness :
  csdb_is_valid_key (lit ".alive.defiant.loadavg1") = true ∧
  runs (csdb_set_value_for_key (lit ".alive.defiant.loadavg1") (Some (lit "0.7"))) example_db
    (λ s' ret, ret = 0%Z ∧
       csdb_get_value_for_key (lit ".alive.defiant.loadavg1") s' = Ok s' (0%Z, Some (lit "0.7"))).
Proof.
  split; [reflexivity|].
  eapply runs_mono; [eapply csdb_set_get; [apply example_at|reflexivity]|].
  intros s' ret [-> H]. split; [done|].
  destruct (H (lit ".alive.defiant.loadavg1") eq_refl) as [Hg _]. by apply Hg.
Defined.

Lemma csdb_remove_exist_witness :
  is_Some (tdata example_tree (key_path (lit ".alive.defiant"))) ∧
  runs (csdb_remove_from_key (lit ".alive.defiant")) example_db (λ s' ret, ret = 0%Z ∧
    csdb_key_exist (lit ".alive.defiant.loadavg1") s' = Ok s' false ∧
    csdb_key_exist (lit ".alive") s' = Ok s' true).
Proof.
  split; [by eexists|]. eapply runs_mono.
  - eapply csdb_remove_exist; [apply example_at|reflexivity|done|by eexists].
  - intros s' ret [-> H]. split; [done|]. split.
    + by destruct (H (lit ".alive.defiant.loadavg1") eq_refl) as [-> _].
    + by destruct (H (lit ".alive") eq_refl) as [-> _].
Defined.

Lemma csdb_append_get_witness :
  runs (csdb_append_value_for_key (lit ".config.def_db_req") (Some (lit ".cpu.nrcpu"))
          (Some (lit " "))) example_db (λ s' ret, ret = 0%Z ∧
    csdb_get_value_for_key (lit ".config.def_db_req") s' =
    Ok s' (0%Z, Some (lit ".load.avg1 .cpu.nrcpu"))).
Proof.
  eapply runs_mono.
  - apply (csdb_append_get _ example_tree _ (lit ".load.avg1")); [apply example_at|reflexivity|].
    vm_compute. reflexivity.
  - intros s' ret [-> H]. split; [done|].
    specialize (H (lit ".config.def_db_req") (lit ".load.avg1") eq_refl). rewrite H; [done|].
    vm_compute. reflexivity.
Defined.

Lemma csdb_get_value_error_blocks_witness :
  ∃ s' err, csdb_get_value_for_key (lit ".alive") example_db = Ok s' (err, None) ∧
    exec_op (OpExist (lit ".config")) s' = Stop Deadlock.
Proof.
  destruct (csdb_get_value_error_blocks example_db example_tree (lit ".alive") example_at eq_refl)
    as (s' & err & H & _ & Hop & _); [by intros d [= <-]|].
  exists s', err. split; [exact H|]. apply (Hop (OpExist (lit ".config"))). reflexivity.
Defined.

Lemma csdb_child_names_exist_witness :
  csdb_get_child_names_for_key [dot] true true example_db =
    Ok example_db (2%Z, Some [lit "config"; lit "alive"], Some (lit "config alive ")) ∧
  NoDup [lit "config"; lit "alive"] ∧ csdb_key_exist (lit ".alive") example_db = Ok example_db true.
Proof.
  assert (csdb_get_child_names_for_key [dot] true true example_db =
    Ok example_db (2%Z, Some [lit "config"; lit "alive"], Some (lit "config alive "))) as H
    by (vm_compute; reflexivity).
  destruct (csdb_child_names_exist example_db example_tree [dot] _ _ _ _ example_at eq_refl H)
    as (_ & Hn & He & _).
  split_and!; [done..|]. apply (He (lit "alive")); [|done]. by apply (bool_decide_unpack _).
Defined.
