(* ===== verification/CsdbBin.v ===== *)
(** The binary-search build of the cs database (-DCSDB_BINARY_SEARCH, the line of
    src/src/csd/Makefile that is commented out): the parts of src/src/csd/csdb.c that
    differ.  The children of an entry are kept in the order of [strcmp], and an entry
    counts them ([level]).  The search finds what the linear search of the other build
    finds. *)

From Stdlib Require Import ZArith Lia.
From stdpp Require Import base list gmap strings.
From S2P Require Import Prelude.
From S2P Require Import CsdbState.
From S2P Require Csdb.
Open Scope Z_scope.

(** [strcmp], which compares the bytes as unsigned char; only its sign is used. *)
Fixpoint strcmp (a b : cstr) : comparison :=
  match a, b with
  | [], [] => Eq
  | [], _ => Lt
  | _, [] => Gt
  | x :: a, y :: b => match byte_val x ?= byte_val y with Eq => strcmp a b | c => c end
  end.

(** [struct csdbe] with the field of this build (csdb.h line 28). *)
Record bentry : Type := Bentry { base : csdbe; nbr_entries : Z }.

(** The globals and the heap; the mutex and the clock are as in the other build. *)
Record bdb : Type := Bdb { broot : ptr; bentries : gmap loc bentry }.

Definition set_base (g : csdbe → csdbe) (e : bentry) : bentry := Bentry (g (base e)) (nbr_entries e).
Definition set_nbr_entries (n : Z) (e : bentry) : bentry := Bentry (base e) n.

Definition bderef (p : ptr) : M bdb bentry :=
  match p with
  | None => stop NullDeref
  | Some l => λ s, match bentries s !! l with Some e => Ok s e | None => Stop BadPtr end
  end.

Definition bstore (p : ptr) (g : bentry → bentry) : M bdb unit :=
  match p with
  | None => stop NullDeref
  | Some l => λ s,
    match bentries s !! l with
    | Some e => Ok (Bdb (broot s) (<[l := g e]> (bentries s))) ()
    | None => Stop BadPtr
    end
  end.

Definition bnext (p : ptr) : M bdb ptr := e ← bderef p; mret (next (base e)).
Definition bprev (p : ptr) : M bdb ptr := e ← bderef p; mret (prev (base e)).
Definition bchilds (p : ptr) : M bdb ptr := e ← bderef p; mret (childs (base e)).
Definition bparent (p : ptr) : M bdb ptr := e ← bderef p; mret (parent (base e)).
Definition bname (p : ptr) : M bdb cstr :=
  e ← bderef p;
  match name (base e) with BStr s => mret s | BNull => stop NullDeref | BFreed => stop BadPtr end.
Definition bnbr (p : ptr) : M bdb Z := e ← bderef p; mret (nbr_entries e).

(** [for(hopsi=1; hopsi < hops && hop_entry != NULL && hop_entry->next != NULL; hopsi++)] *)
Fixpoint seek_loop (fuel : nat) (hop_entry : ptr) (hopsi hops : Z) : M bdb ptr :=
  if hopsi <? hops then
    match hop_entry with
    | None => mret None
    | Some _ =>
      n ← bnext hop_entry;
      match n, fuel with
      | None, _ => mret hop_entry
      | Some _, O => stop OutOfFuel
      | Some _, S fuel => seek_loop fuel n (u32 (hopsi + 1)) hops
      end
    end
  else mret hop_entry.

(** [hops] is unsigned, so that [hops < 0] never holds. *)
Definition csdb_seek (entry : ptr) (hops : Z) : M bdb ptr :=
  seek_loop (Z.to_nat hops) entry 1 hops.

(** The labels b2, b4 and b5 of both functions: the entry with the name [nm] under [cs],
    or the [l] with which the search ends. *)
Fixpoint b2 (fuel : nat) (cs : ptr) (nm : cstr) (l u : Z) : M bdb (loc + Z) :=
  match fuel with
  | O => stop OutOfFuel
  | S fuel =>
    let i := u32 (l + u) / 2 in
    to_find ← csdb_seek cs i;
    if u <? l then mret (inr l)
    else
      n ← bname to_find;
      match strcmp nm n, to_find with
      | Lt, _ => b2 fuel cs nm l (u32 (i - 1))
      | Gt, _ => b2 fuel cs nm (u32 (i + 1)) u
      | Eq, Some p => mret (inl p)
      | Eq, None => stop NullDeref
      end
  end.

(** An unsigned int has 32 bits and each round halves what is left. *)
Definition b2_fuel : nat := 33.

Definition csdb_find_child (root : ptr) (nm : cstr) : M bdb ptr :=
  if decide (nm = [dot]) then gets broot
  else
    cs ← bchilds root;
    match cs with
    | None => mret None
    | Some _ =>
      u ← bnbr root;
      r ← b2 b2_fuel cs nm 1 u;
      mret (match r with inl p => Some p | inr _ => None end)
    end.

(** The returned 0 is left out, as in the other build. *)
Definition csdb_append_child (entry child : ptr) : M bdb unit :=
  cs ← bchilds entry;
  match cs with
  | None =>
    _ ← bstore entry (set_base (set_childs child));
    _ ← bstore child (set_base (set_prev None));
    _ ← bstore child (set_base (set_next None));
    _ ← bstore child (set_base (set_parent entry));
    bstore entry (λ e, set_nbr_entries (u32 (nbr_entries e + 1)) e)
  | Some _ =>
    u ← bnbr entry;
    nm ← bname child;
    r ← b2 b2_fuel cs nm 1 u;
    match r with
    | inl _ => mret ()
    | inr l =>
      to_find ← csdb_seek cs l;
      n ← bnbr entry;
      _ ← if l >? n then
            x ← bnext to_find;
            _ ← bstore child (set_base (set_next x));
            _ ← bstore child (set_base (set_prev to_find));
            bstore to_find (set_base (set_next child))
          else
            _ ← bstore child (set_base (set_next to_find));
            p ← bprev to_find;
            _ ← bstore child (set_base (set_prev p));
            _ ← match p with Some _ => bstore p (set_base (set_next child)) | None => mret () end;
            _ ← bstore to_find (set_base (set_prev child));
            cs ← bchilds entry;
            if decide (cs = to_find) then bstore entry (set_base (set_childs child)) else mret ();
      _ ← bstore child (set_base (set_parent entry));
      bstore entry (λ e, set_nbr_entries (u32 (nbr_entries e + 1)) e)
    end
  end.

(** The part of [csdb_remove_from_key] that takes an entry out of its level. *)
Definition csdb_unlink (root : ptr) : M bdb unit :=
  p ← bprev root;
  n ← bnext root;
  par ← bparent root;
  _ ← match p with
      | Some _ => bstore p (set_base (set_next n))
      | None => bstore par (set_base (set_childs n))
      end;
  _ ← bstore par (λ e, set_nbr_entries (u32 (nbr_entries e - 1)) e);
  match n with Some _ => bstore n (set_base (set_prev p)) | None => mret () end.

(** * The order *)

Lemma strcmp_refl a : strcmp a a = Eq.
Proof. induction a as [|x a IH]; [done|]. cbn. by rewrite Z.compare_refl. Qed.

Lemma strcmp_eq a b : strcmp a b = Eq → a = b.
Proof.
  revert b. induction a as [|x a IH]; intros [|y b]; cbn; try done.
  destruct (byte_val x ?= byte_val y) eqn:E; try done. intros H. apply Z.compare_eq, byte_val_inj in E.
  f_equal; auto.
Qed.

Lemma strcmp_antisym a b : strcmp b a = CompOpp (strcmp a b).
Proof.
  revert b. induction a as [|x a IH]; intros [|y b]; cbn; try done.
  rewrite Z.compare_antisym. destruct (byte_val x ?= byte_val y); cbn; auto.
Qed.

Lemma strcmp_trans a b c : strcmp a b = Lt → strcmp b c = Lt → strcmp a c = Lt.
Proof.
  revert b c. induction a as [|x a IH]; intros [|y b] [|z c]; cbn; try done.
  destruct (Z.compare_spec (byte_val x) (byte_val y)), (Z.compare_spec (byte_val y) (byte_val z)),
    (Z.compare_spec (byte_val x) (byte_val z)); try done; try lia; eauto.
Qed.

Lemma strcmp_gt a b : strcmp a b = Gt ↔ strcmp b a = Lt.
Proof. rewrite (strcmp_antisym a b). by destruct (strcmp a b). Qed.

(** * The children of an entry *)

(** What [prev] of the child number [i] is. *)
Definition pred_of (xs : list (loc * cstr)) (i : nat) : ptr :=
  match i with O => None | S i => fst <$> xs !! i end.

Definition bcell (e : bentry) (nm : cstr) (par prv nxt : ptr) : Prop :=
  name (base e) = BStr nm ∧ parent (base e) = par ∧ prev (base e) = prv ∧ next (base e) = nxt.

Record level (s : bdb) (r : loc) (xs : list (loc * cstr)) : Prop := Level {
  lv_nodup : NoDup xs.*1;
  lv_root : r ∉ xs.*1;
  lv_sorted : ∀ i j x y, (i < j)%nat → xs !! i = Some x → xs !! j = Some y → strcmp x.2 y.2 = Lt;
  lv_size : Z.of_nat (length xs) < 2 ^ 31;
  lv_parent : ∃ e, bentries s !! r = Some e ∧ childs (base e) = fst <$> xs !! 0%nat ∧
    nbr_entries e = Z.of_nat (length xs);
  lv_cells : ∀ i x, xs !! i = Some x →
    ∃ e, bentries s !! x.1 = Some e ∧ bcell e x.2 (Some r) (pred_of xs i) (fst <$> xs !! S i)
}.

(** The child with the name [nm]. *)
Fixpoint named (nm : cstr) (xs : list (loc * cstr)) : ptr :=
  match xs with [] => None | x :: xs => if decide (x.2 = nm) then Some x.1 else named nm xs end.

Lemma level_inj s r xs i j x y :
  level s r xs → xs !! i = Some x → xs !! j = Some y → x.1 = y.1 → i = j.
Proof.
  intros Hl Hi Hj E. apply (NoDup_lookup xs.*1 i j x.1); [apply Hl| |].
  - by rewrite list_lookup_fmap, Hi.
  - rewrite list_lookup_fmap, Hj. cbn. by rewrite E.
Qed.

Lemma level_names s r xs i j x y :
  level s r xs → xs !! i = Some x → xs !! j = Some y → x.2 = y.2 → i = j.
Proof.
  intros Hl Hi Hj E. destruct (lt_eq_lt_dec i j) as [[Hij| ->]|Hij]; [|done|].
  - pose proof (lv_sorted _ _ _ Hl i j x y Hij Hi Hj) as H. by rewrite E, strcmp_refl in H.
  - pose proof (lv_sorted _ _ _ Hl j i y x Hij Hj Hi) as H. by rewrite E, strcmp_refl in H.
Qed.

Lemma named_Some nm xs i p :
  (∀ j x, (j < i)%nat → xs !! j = Some x → x.2 ≠ nm) → xs !! i = Some (p, nm) → named nm xs = Some p.
Proof.
  revert i. induction xs as [|y xs IH]; intros [|i] Hn Hi; try done; cbn in *.
  - injection Hi as ->. cbn. by rewrite decide_True.
  - rewrite decide_False by (apply (Hn 0%nat); [lia|done]). apply (IH i); [|done].
    intros j x Hj. apply (Hn (S j)). lia.
Qed.

Lemma named_None nm xs : (∀ j x, xs !! j = Some x → x.2 ≠ nm) → named nm xs = None.
Proof.
  induction xs as [|y xs IH]; intros Hn; [done|]. cbn. rewrite decide_False by by apply (Hn 0%nat).
  apply IH. intros j. apply (Hn (S j)).
Qed.

(** * Reading *)

Section reading.
Context (s : bdb) (r : loc) (xs : list (loc * cstr)) (Hlv : level s r xs).

Lemma bnext_level i x : xs !! i = Some x → bnext (Some x.1) s = Ok s (fst <$> xs !! S i).
Proof. intros (e & He & _ & _ & _ & Hn)%(lv_cells _ _ _ Hlv). unfold bnext, mbind, M_bind. cbn. by rewrite He, Hn. Qed.

Lemma bprev_level i x : xs !! i = Some x → bprev (Some x.1) s = Ok s (pred_of xs i).
Proof. intros (e & He & _ & _ & Hn & _)%(lv_cells _ _ _ Hlv). unfold bprev, mbind, M_bind. cbn. by rewrite He, Hn. Qed.

Lemma bname_level i x : xs !! i = Some x → bname (Some x.1) s = Ok s x.2.
Proof. intros (e & He & Hn & _)%(lv_cells _ _ _ Hlv). unfold bname, mbind, M_bind. cbn. by rewrite He, Hn. Qed.

Lemma bparent_level i x : xs !! i = Some x → bparent (Some x.1) s = Ok s (Some r).
Proof. intros (e & He & _ & Hn & _)%(lv_cells _ _ _ Hlv). unfold bparent, mbind, M_bind. cbn. by rewrite He, Hn. Qed.

Lemma bchilds_level : bchilds (Some r) s = Ok s (fst <$> xs !! 0%nat).
Proof. destruct (lv_parent _ _ _ Hlv) as (e & He & Hc & _). unfold bchilds, mbind, M_bind. cbn. by rewrite He, Hc. Qed.

Lemma bnbr_level : bnbr (Some r) s = Ok s (Z.of_nat (length xs)).
Proof. destruct (lv_parent _ _ _ Hlv) as (e & He & _ & Hc). unfold bnbr, mbind, M_bind. cbn. by rewrite He, Hc. Qed.

(** The walk ends at the child number [hops], or at the last one. *)
Lemma seek_loop_level fuel : ∀ k hops,
  (k < length xs)%nat → hops <= Z.of_nat k + 1 + Z.of_nat fuel →
  seek_loop fuel (fst <$> xs !! k) (Z.of_nat k + 1) hops s =
    Ok s (fst <$> xs !! min (length xs - 1) (max k (Z.to_nat (hops - 1)))).
Proof.
  pose proof (lv_size _ _ _ Hlv) as Hsz.
  assert (∀ k hops, (k < length xs)%nat → hops <= Z.of_nat k + 1 ∨ k = (length xs - 1)%nat →
    (fst <$> xs !! k) = (fst <$> xs !! min (length xs - 1) (max k (Z.to_nat (hops - 1))))) as Hhere.
  { intros k hops Hk Hh. do 2 f_equal. lia. }
  induction fuel as [|fuel IH]; intros k hops Hk Hf; cbn [seek_loop]; destruct (Z.ltb_spec (Z.of_nat k + 1) hops) as [Hlt|Hge];
    [lia|by rewrite <- Hhere by auto| |by rewrite <- Hhere by auto].
  destruct (lookup_lt_is_Some_2 xs k Hk) as [x Hx]. rewrite Hx. cbn [fmap option_fmap option_map].
  rewrite (bind_Ok _ _ _ _ _ (bnext_level k x Hx)).
  destruct (xs !! S k) as [y|] eqn:Ey; cbn [fmap option_fmap option_map].
  - pose proof (lookup_lt_Some _ _ _ Ey). specialize (IH (S k) hops). rewrite Ey in IH. cbn [fmap option_fmap option_map] in IH.
    replace (u32 (Z.of_nat k + 1 + 1)) with (Z.of_nat (S k) + 1) by (unfold u32; rewrite Z.mod_small; lia).
    rewrite IH by lia. do 3 f_equal. lia.
  - apply lookup_ge_None in Ey. rewrite <- Hhere by lia. by rewrite Hx.
Qed.

Lemma csdb_seek_level hops :
  (0 < length xs)%nat →
  csdb_seek (fst <$> xs !! 0%nat) hops s = Ok s (fst <$> xs !! min (length xs - 1) (Z.to_nat (hops - 1))).
Proof.
  intros Hn. unfold csdb_seek. pose proof (seek_loop_level (Z.to_nat hops) 0 hops Hn) as H.
  change (Z.of_nat 0 + 1) with 1 in H. rewrite H by lia. do 3 f_equal.
Qed.

(** * The search *)

(** The children before the number [l] are less than [nm], those after [u] are greater;
    numbers start at 1. *)
Definition split_at (nm : cstr) (l u : Z) : Prop :=
  (∀ i x, xs !! i = Some x → Z.of_nat i + 1 < l → strcmp nm x.2 = Gt) ∧
  (∀ i x, xs !! i = Some x → u < Z.of_nat i + 1 → strcmp nm x.2 = Lt).

Definition b2_result (nm : cstr) (o : loc + Z) : Prop :=
  match o with
  | inl p => ∃ i, xs !! i = Some (p, nm)
  | inr l => 1 <= l <= Z.of_nat (length xs) + 1 ∧ split_at nm l (l - 1)
  end.

Lemma split_at_lt nm l u i x :
  split_at nm l u → xs !! i = Some x → strcmp nm x.2 = Lt → split_at nm l (Z.of_nat i).
Proof.
  intros [Hl Hu] Hi Hlt. split; [done|]. intros j y Hj Hij.
  destruct (decide (i = j)) as [->|]; [congruence|].
  eapply strcmp_trans; [exact Hlt|]. eapply (lv_sorted _ _ _ Hlv i j); [lia|done..].
Qed.

Lemma split_at_gt nm l u i x :
  split_at nm l u → xs !! i = Some x → strcmp nm x.2 = Gt → split_at nm (Z.of_nat i + 2) u.
Proof.
  intros [Hl Hu] Hi Hgt. split; [|done]. intros j y Hj Hij. apply strcmp_gt in Hgt. apply strcmp_gt.
  destruct (decide (i = j)) as [->|]; [congruence|].
  eapply strcmp_trans; [|exact Hgt]. eapply (lv_sorted _ _ _ Hlv j i); [lia|done..].
Qed.

(** Each round halves what is between [l] and [u]: [fuel] rounds are enough for less than
    [2 ^ (fuel - 1)] children. *)
Lemma b2_level nm fuel : ∀ l u,
  1 <= l <= u + 1 → u <= Z.of_nat (length xs) → (0 < length xs)%nat → u + 1 - l < 2 ^ Z.of_nat fuel →
  split_at nm l u → ∃ o, b2 (S fuel) (fst <$> xs !! 0%nat) nm l u s = Ok s o ∧ b2_result nm o.
Proof.
  pose proof (lv_size _ _ _ Hlv) as Hsz.
  induction fuel as [|fuel IH]; intros l u Hl Hu Hn Hf Hsp; cbn [b2].
  all: rewrite (bind_Ok _ _ _ _ _ (csdb_seek_level _ Hn)).
  all: destruct (Z.ltb_spec u l) as [Hul|Hul];
    [exists (inr l); split; [done|split; [lia|by replace (l - 1) with u by lia]]|].
  { change (2 ^ Z.of_nat 0) with 1 in Hf. lia. }
  set (i := u32 (l + u) / 2). assert (i = (l + u) / 2) as Ei by (unfold i, u32; rewrite Z.mod_small; lia).
  assert (l <= i <= u) as Hi by (rewrite Ei; split; [apply Z.div_le_lower_bound|apply Z.div_le_upper_bound]; lia).
  assert (i * 2 <= l + u < i * 2 + 2) as Hhalf by (rewrite Ei; pose proof (Z.div_mod (l + u) 2); pose proof (Z.mod_pos_bound (l + u) 2); lia).
  clearbody i. clear Ei. replace (min (length xs - 1) (Z.to_nat (i - 1))) with (Z.to_nat (i - 1)) by lia.
  destruct (lookup_lt_is_Some_2 xs (Z.to_nat (i - 1))) as [x Hx]; [lia|]. rewrite Hx. cbn [fmap option_fmap option_map].
  rewrite (bind_Ok _ _ _ _ _ (bname_level _ x Hx)).
  assert (2 ^ Z.of_nat (S fuel) = 2 * 2 ^ Z.of_nat fuel) as E2 by (rewrite Nat2Z.inj_succ, Z.pow_succ_r; lia).
  destruct (strcmp nm x.2) eqn:E.
  - exists (inl x.1). split; [done|]. apply strcmp_eq in E. subst. exists (Z.to_nat (i - 1)). by destruct x.
  - replace (u32 (i - 1)) with (i - 1) by (unfold u32; rewrite Z.mod_small; lia).
    apply IH; [lia..|]. replace (i - 1) with (Z.of_nat (Z.to_nat (i - 1))) by lia. by eapply split_at_lt.
  - replace (u32 (i + 1)) with (i + 1) by (unfold u32; rewrite Z.mod_small; lia).
    apply IH; [lia..|]. replace (i + 1) with (Z.of_nat (Z.to_nat (i - 1)) + 2) by lia. by eapply split_at_gt.
Qed.

Lemma b2_all nm :
  (0 < length xs)%nat →
  ∃ o, b2 b2_fuel (fst <$> xs !! 0%nat) nm 1 (Z.of_nat (length xs)) s = Ok s o ∧ b2_result nm o.
Proof.
  intros Hn. pose proof (lv_size _ _ _ Hlv). apply b2_level; [lia..| |].
  - change (2 ^ Z.of_nat 32) with (2 ^ 32). lia.
  - split; intros i x Hi; [lia|]. apply lookup_lt_Some in Hi. lia.
Qed.

Lemma b2_named nm o :
  b2_result nm o → named nm xs = match o with inl p => Some p | inr _ => None end.
Proof.
  destruct o as [p|l].
  - intros [i Hi]. apply (named_Some nm xs i p); [|done]. intros j x Hj Hx E.
    assert (j = i) by (eapply level_names; [exact Hlv|exact Hx|exact Hi|done]). lia.
  - intros [_ [Hl Hu]]. apply named_None. intros j x Hx E.
    destruct (Z.lt_ge_cases (Z.of_nat j + 1) l).
    + specialize (Hl j x Hx ltac:(done)). rewrite E, strcmp_refl in Hl. done.
    + specialize (Hu j x Hx ltac:(lia)). rewrite E, strcmp_refl in Hu. done.
Qed.

Lemma csdb_find_child_level nm :
  csdb_find_child (Some r) nm s = Ok s (if decide (nm = [dot]) then broot s else named nm xs).
Proof.
  unfold csdb_find_child. case_decide; [done|].
  rewrite (bind_Ok _ _ _ _ _ bchilds_level).
  destruct (xs !! 0%nat) as [x|] eqn:Ex; cbn [fmap option_fmap option_map].
  - pose proof (lookup_lt_Some _ _ _ Ex) as Hn.
    rewrite (bind_Ok _ _ _ _ _ bnbr_level).
    destruct (b2_all nm Hn) as (o & Ho & Hr). rewrite Ex in Ho. cbn [fmap option_fmap option_map] in Ho.
    rewrite (bind_Ok _ _ _ _ _ Ho). rewrite (b2_named nm o Hr). by destruct o.
  - destruct xs; [|done]. done.
Qed.

(** * The linear search *)

(** The same memory in the other build. *)
Definition erase (mutex : bool) (nl : loc) (t : Z) (s : bdb) : csdb :=
  Csdb (broot s) mutex (base <$> bentries s) nl t.

Lemma linear_loop_level mutex nl t nm fuel : ∀ k,
  (length xs - k < fuel)%nat →
  Csdb.find_loop fuel (fst <$> xs !! k) nm (erase mutex nl t s) = Ok (erase mutex nl t s) (named nm (drop k xs)).
Proof.
  induction fuel as [|fuel IH]; intros k Hf; [lia|]. cbn [Csdb.find_loop].
  destruct (xs !! k) as [x|] eqn:Ex; cbn [fmap option_fmap option_map].
  - destruct (lv_cells _ _ _ Hlv k x Ex) as (e & He & Hn & _ & _ & Hx).
    rewrite (drop_S _ _ _ Ex). cbn [named]. unfold mbind, M_bind. cbn.
    rewrite lookup_fmap, He. cbn. rewrite Hn, Hx. cbn. case_decide; [done|]. apply IH.
    apply lookup_lt_Some in Ex. lia.
  - by rewrite drop_ge by by apply lookup_ge_None.
Qed.

Lemma linear_find_child_level mutex nl t nm :
  Csdb.csdb_find_child (Some r) nm (erase mutex nl t s) =
  Ok (erase mutex nl t s) (if decide (nm = [dot]) then broot s else named nm xs).
Proof.
  destruct (lv_parent _ _ _ Hlv) as (e & He & Hc & _). unfold Csdb.csdb_find_child, mbind, M_bind.
  cbn -[Csdb.find_loop heap_fuel]. rewrite lookup_fmap, He. cbn -[Csdb.find_loop heap_fuel].
  case_decide; [done|]. cbn -[Csdb.find_loop heap_fuel]. rewrite Hc. apply (linear_loop_level mutex nl t nm _ 0).
  unfold heap_fuel. cbn. rewrite map_size_fmap, <- (length_fmap fst). apply Nat.lt_succ_r.
  transitivity (length xs.*1); [lia|]. apply nodup_size; [apply Hlv|].
  intros l Hl. apply list_elem_of_fmap in Hl as (x & -> & [i Hi]%list_elem_of_lookup).
  destruct (lv_cells _ _ _ Hlv i x Hi) as (e' & He' & _). eauto.
Qed.
End reading.

(** C8: on children that are in order the binary search of [csdb_find_child] returns what
    the linear search of the other build returns on the same entries, for every name, and
    changes nothing.  Its 33 rounds are enough for every count below 2^31. *)
Theorem bin_find_linear s r xs nm mutex nl t :
  level s r xs →
  ∃ p, csdb_find_child (Some r) nm s = Ok s p ∧
    Csdb.csdb_find_child (Some r) nm (erase mutex nl t s) = Ok (erase mutex nl t s) p.
Proof.
  intros Hlv. eexists. split; [by apply csdb_find_child_level|by apply linear_find_child_level].
Qed.
