(* ===== verification/CsdbBinWrite.v ===== *)
(** The changes of a level in the binary-search build of csdb.c: linking a new child keeps
    the order of [strcmp] and the count, and so does unlinking one.  At the end three
    concrete children, and a fourth one put between them. *)

From Stdlib Require Import ZArith Lia.
From stdpp Require Import base list gmap strings.
From S2P Require Import Prelude.
From S2P Require Import CsdbState.
From S2P Require Import CsdbBin.
From S2P Require Csdb.
Open Scope Z_scope.

(** * Lists *)

(** A list with [y] before the element number [k]. *)
Definition put_at (k : nat) (y : loc * cstr) (xs : list (loc * cstr)) : list (loc * cstr) :=
  take k xs ++ y :: drop k xs.

(** Where [y] belongs. *)
Fixpoint sinsert (y : loc * cstr) (xs : list (loc * cstr)) : list (loc * cstr) :=
  match xs with
  | [] => [y]
  | x :: xs => match strcmp y.2 x.2 with Lt => y :: x :: xs | _ => x :: sinsert y xs end
  end.

Section put_at.
Context (k : nat) (y : loc * cstr) (xs : list (loc * cstr)) (Hk : (k <= length xs)%nat).

Lemma put_at_lt i : (i < k)%nat → put_at k y xs !! i = xs !! i.
Proof. intros. unfold put_at. rewrite lookup_app_l by (rewrite length_take; lia). by rewrite lookup_take_lt. Qed.

Lemma put_at_eq : put_at k y xs !! k = Some y.
Proof.
  unfold put_at. rewrite lookup_app_r by (rewrite length_take; lia). rewrite length_take.
  by replace (k - k `min` length xs)%nat with 0%nat by lia.
Qed.

Lemma put_at_gt i : (k <= i)%nat → put_at k y xs !! S i = xs !! i.
Proof.
  intros. unfold put_at. rewrite lookup_app_r by (rewrite length_take; lia). rewrite length_take.
  replace (S i - k `min` length xs)%nat with (S (i - k))%nat by lia.
  change ((y :: drop k xs) !! S (i - k)%nat) with (drop k xs !! (i - k)%nat). rewrite lookup_drop. f_equal. lia.
Qed.

Lemma put_at_length : length (put_at k y xs) = S (length xs).
Proof. unfold put_at. rewrite length_app, length_take. cbn. rewrite length_drop. lia. Qed.

(** The element number [i] is an old one or [y]. *)
Lemma put_at_inv i z :
  put_at k y xs !! i = Some z →
  (i < k)%nat ∧ xs !! i = Some z ∨ i = k ∧ z = y ∨ ∃ j, i = S j ∧ (k <= j)%nat ∧ xs !! j = Some z.
Proof.
  destruct (lt_eq_lt_dec i k) as [[Hi| ->]|Hi].
  - rewrite put_at_lt by done. auto.
  - rewrite put_at_eq. intros [= <-]. auto.
  - destruct i as [|j]; [lia|]. rewrite put_at_gt by lia. intros. right. right. exists j. split_and!; [done|lia|done].
Qed.

Lemma put_at_perm : put_at k y xs ≡ₚ y :: xs.
Proof. unfold put_at. by rewrite <- Permutation_middle, take_drop. Qed.
End put_at.

Lemma put_at_sinsert k y xs :
  (k <= length xs)%nat →
  (∀ i x, xs !! i = Some x → (i < k)%nat → strcmp y.2 x.2 = Gt) →
  (∀ i x, xs !! i = Some x → (k <= i)%nat → strcmp y.2 x.2 = Lt) →
  put_at k y xs = sinsert y xs.
Proof.
  revert k. induction xs as [|x xs IH]; intros k Hk Hb Ha; [by destruct k|].
  destruct k as [|k]; cbn in *.
  - by rewrite (Ha 0%nat x) by (done || lia).
  - rewrite (Hb 0%nat x) by (done || lia). f_equal. apply IH; [lia| |].
    + intros i z Hi ?. apply (Hb (S i)); [done|lia].
    + intros i z Hi ?. apply (Ha (S i)); [done|lia].
Qed.

(** * A level with one child more *)

Lemma level_put s s' r xs k c nm :
  level s r xs → (k <= length xs)%nat → c ∉ xs.*1 → c ≠ r → Z.of_nat (length xs) + 1 < 2 ^ 31 →
  (∀ i x, xs !! i = Some x → (i < k)%nat → strcmp nm x.2 = Gt) →
  (∀ i x, xs !! i = Some x → (k <= i)%nat → strcmp nm x.2 = Lt) →
  (∃ e, bentries s' !! c = Some e ∧ bcell e nm (Some r) (pred_of xs k) (fst <$> xs !! k)) →
  (∃ e, bentries s' !! r = Some e ∧ childs (base e) = (if decide (k = 0%nat) then Some c else fst <$> xs !! 0%nat) ∧
    nbr_entries e = Z.of_nat (length xs) + 1) →
  (∀ i x e, xs !! i = Some x → bentries s !! x.1 = Some e → ∃ e', bentries s' !! x.1 = Some e' ∧
    bcell e' x.2 (Some r) (if decide (i = k) then Some c else prev (base e))
      (if decide (S i = k) then Some c else next (base e))) →
  level s' r (put_at k (c, nm) xs).
Proof.
  intros Hlv Hk Hc Hcr Hsz Hb Ha Hnew (er & Her & Hch & Hnb) Hold. constructor.
  - rewrite (put_at_perm k (c, nm) xs). cbn. apply NoDup_cons. split; [done|apply Hlv].
  - rewrite (put_at_perm k (c, nm) xs). cbn. apply not_elem_of_cons. split; [done|apply Hlv].
  - intros i j x y Hij Hi Hj. pose proof (lv_sorted _ _ _ Hlv) as Hs.
    apply put_at_inv in Hi as [[Hi Hx]|[[-> ->]|(i' & -> & Hi & Hx)]]; [| | |done];
      apply put_at_inv in Hj as [[Hj Hy]|[[-> ->]|(j' & -> & Hj & Hy)]]; try done; try lia; cbn.
    + by eapply (Hs i j).
    + apply strcmp_gt. by eapply Hb.
    + eapply (Hs i j'); [lia|done..].
    + by eapply Ha.
    + eapply (Hs i' j'); [lia|done..].
  - rewrite put_at_length by done. lia.
  - exists er. rewrite put_at_length by done. split_and!; [done| |lia]. rewrite Hch. case_decide as E.
    + subst. by rewrite put_at_eq.
    + rewrite put_at_lt; [done..|lia].
  - intros i x Hi. apply put_at_inv in Hi as [[Hi Hx]|[[-> ->]|(j & -> & Hj & Hx)]]; [| | |done].
    + destruct (lv_cells _ _ _ Hlv i x Hx) as (e & He & _ & _ & Hp & Hn).
      destruct (Hold i x e Hx He) as (e' & He' & Hcell). exists e'. split; [done|].
      rewrite decide_False in Hcell by lia. rewrite Hp, Hn in Hcell.
      assert (pred_of (put_at k (c, nm) xs) i = pred_of xs i) as ->.
      { destruct i as [|i]; [done|]. cbn. rewrite put_at_lt; [done..|lia]. }
      case_decide as E; [subst k; by rewrite put_at_eq|]. rewrite put_at_lt; [done..|lia].
    + destruct Hnew as (e & He & Hcell). exists e. split; [done|]. rewrite put_at_gt by done.
      assert (pred_of (put_at k (c, nm) xs) k = pred_of xs k) as ->; [|done].
      destruct k as [|k']; [done|]. cbn. rewrite put_at_lt; [done..|lia].
    + destruct (lv_cells _ _ _ Hlv j x Hx) as (e & He & _ & _ & Hp & Hn).
      destruct (Hold j x e Hx He) as (e' & He' & Hcell). exists e'. split; [done|].
      rewrite (decide_False (P := S j = k)) in Hcell by lia. rewrite Hp, Hn in Hcell. rewrite put_at_gt by (done || lia).
      cbn [pred_of]. case_decide as E; [subst j; by rewrite put_at_eq|].
      destruct j as [|j]; [lia|]. rewrite put_at_gt by (done || lia). exact Hcell.
Qed.

(** * Running the code *)

Definition bwrite (l : loc) (g : bentry → bentry) (s : bdb) : bdb := Bdb (broot s) (alter g l (bentries s)).

Lemma runs_bdb_store l g s (Q : bdb → unit → Prop) :
  is_Some (bentries s !! l) → Q (bwrite l g s) () → runs (bstore (Some l) g) s Q.
Proof.
  intros [e He] HQ. unfold runs, bstore. rewrite He. unfold bwrite in HQ.
  assert (<[l:=g e]> (bentries s) = alter g l (bentries s)) as ->; [|done].
  by apply insert_alter_eq.
Qed.

Section reads.
Context (s : bdb) (l : loc) (e : bentry) (He : bentries s !! l = Some e).

Lemma runs_bnext Q : Q s (next (base e)) → runs (bnext (Some l)) s Q.
Proof. unfold runs, bnext, mbind, M_bind. cbn. by rewrite He. Qed.
Lemma runs_bprev Q : Q s (prev (base e)) → runs (bprev (Some l)) s Q.
Proof. unfold runs, bprev, mbind, M_bind. cbn. by rewrite He. Qed.
Lemma runs_bparent Q : Q s (parent (base e)) → runs (bparent (Some l)) s Q.
Proof. unfold runs, bparent, mbind, M_bind. cbn. by rewrite He. Qed.
Lemma runs_bchilds Q : Q s (childs (base e)) → runs (bchilds (Some l)) s Q.
Proof. unfold runs, bchilds, mbind, M_bind. cbn. by rewrite He. Qed.
Lemma runs_bnbr Q : Q s (nbr_entries e) → runs (bnbr (Some l)) s Q.
Proof. unfold runs, bnbr, mbind, M_bind. cbn. by rewrite He. Qed.
Lemma runs_bname nm Q : name (base e) = BStr nm → Q s nm → runs (bname (Some l)) s Q.
Proof. intros Hn. unfold runs, bname, mbind, M_bind. cbn. by rewrite He, Hn. Qed.
End reads.

(** The entry at a location after some writes. *)
Ltac blook :=
  cbn [bwrite bentries broot];
  repeat first [ rewrite lookup_alter_eq | rewrite lookup_alter_ne by congruence ];
  try match goal with H : ?m !! ?l = Some _ |- context [?m !! ?l] => rewrite H end.
Ltac bsome := cbn [bwrite bentries]; rewrite ?lookup_alter_is_Some; eauto.
(** One statement of the code. *)
Ltac bstep :=
  lazymatch goal with
  | |- runs (bstore _ _) _ _ => apply runs_bdb_store; [by bsome|]
  | |- runs (bnext _) _ _ => eapply runs_bnext; [by blook|]
  | |- runs (bprev _) _ _ => eapply runs_bprev; [by blook|]
  | |- runs (bparent _) _ _ => eapply runs_bparent; [by blook|]
  | |- runs (bchilds _) _ _ => eapply runs_bchilds; [by blook|]
  | |- runs (bnbr _) _ _ => eapply runs_bnbr; [by blook|]
  | |- runs (bname _) _ _ => eapply runs_bname; [by blook|done|]
  | |- runs (mret _) _ _ => apply runs_ret
  | |- runs (_ ≫= _) _ _ => apply runs_bind
  end; cbv beta.

(** Entries outside the level are not touched. *)
Definition bframe (s s' : bdb) (ls : list loc) : Prop :=
  broot s' = broot s ∧ ∀ l, l ∉ ls → bentries s' !! l = bentries s !! l.

Lemma elem_fst xs i (x : loc * cstr) l : xs !! i = Some x → l ∉ xs.*1 → x.1 ≠ l.
Proof. intros Hi Hl <-. apply Hl, list_elem_of_fmap. exists x. split; [done|by eapply list_elem_of_lookup_2]. Qed.

Section append.
Context (s : bdb) (r c : loc) (nm : cstr) (ec : bentry) (xs : list (loc * cstr)).
Context (Hlv : level s r xs) (Hec : bentries s !! c = Some ec) (Hnm : name (base ec) = BStr nm).
Context (Hc : c ∉ xs.*1) (Hcr : c ≠ r) (Hsz : Z.of_nat (length xs) + 1 < 2 ^ 31).

(** What is left when the new child has been put in its place. *)
Let done_at (s' : bdb) : Prop :=
  level s' r (sinsert (c, nm) xs) ∧ bframe s s' (r :: c :: xs.*1).

Lemma sinsert_ends k :
  (k <= length xs)%nat → split_at xs nm (Z.of_nat k + 1) (Z.of_nat k) → put_at k (c, nm) xs = sinsert (c, nm) xs.
Proof.
  intros Hk [Hb Ha]. apply put_at_sinsert; [done| |]; intros i x Hi ?; [eapply Hb|eapply Ha]; [exact Hi|lia|exact Hi|lia].
Qed.

Lemma child_ne i x : xs !! i = Some x → x.1 ≠ r ∧ x.1 ≠ c.
Proof. intros Hi. split; eapply elem_fst; try exact Hi; [apply Hlv|done]. Qed.

Lemma children_ne i j x y : xs !! i = Some x → xs !! j = Some y → i ≠ j → x.1 ≠ y.1.
Proof. intros Hi Hj Hn E. apply Hn. by eapply level_inj. Qed.

Lemma count_up : u32 (Z.of_nat (length xs) + 1) = Z.of_nat (length xs) + 1.
Proof. unfold u32. rewrite Z.mod_small; lia. Qed.

Let count (s : bdb) : bdb := bwrite r (λ e, set_nbr_entries (u32 (nbr_entries e + 1)) e) (bwrite c (set_base (set_parent (Some r))) s).
Let cset (f : ptr → csdbe → csdbe) (p : ptr) : bdb → bdb := bwrite c (set_base (f p)).

(** The four places of a new child. *)
Lemma put_empty :
  xs = [] →
  done_at (count (cset set_next None (cset set_prev None (bwrite r (set_base (set_childs (Some c))) s)))).
Proof.
  intros E. destruct (lv_parent _ _ _ Hlv) as (er & Her & _ & Hn). unfold done_at, count, cset. split.
  - change (sinsert (c, nm) xs) with (sinsert (c, nm) xs). rewrite <- (sinsert_ends 0); [|lia|by rewrite E].
    apply (level_put s); try done; try (by rewrite E); try lia.
    + eexists. split; [by blook|]. by rewrite E.
    + eexists. split; [by blook|]. cbn. rewrite Hn, count_up. done.
  - split; [done|]. intros l [? [? _]%not_elem_of_cons]%not_elem_of_cons. by blook.
Qed.

Lemma put_last k x :
  xs !! k = Some x → S k = length xs → split_at xs nm (Z.of_nat (S k) + 1) (Z.of_nat (S k)) →
  done_at (count (bwrite x.1 (set_base (set_next (Some c))) (cset set_prev (Some x.1) (cset set_next None s)))).
Proof.
  intros Hx Hk Hsp. destruct (lv_parent _ _ _ Hlv) as (er & Her & Hch & Hn). destruct (child_ne k x Hx) as [Hxr Hxc].
  unfold done_at, count, cset. split.
  - rewrite <- (sinsert_ends (S k)) by (done || lia). destruct Hsp as [Hb Ha].
    apply (level_put s); try done; try lia.
    + intros i y Hi ?. eapply Hb; [done|lia].
    + intros i y Hi ?. apply lookup_lt_Some in Hi. lia.
    + eexists. split; [by blook|]. unfold bcell. cbn. rewrite Hx. split_and!; [done..|].
      by rewrite lookup_ge_None_2 by lia.
    + eexists. split; [by blook|]. cbn. by rewrite Hn, count_up.
    + intros i y e Hi He. destruct (child_ne i y Hi) as [Hyr Hyc].
      destruct (lv_cells _ _ _ Hlv i y Hi) as (e' & He' & Hna & Hpa & _). rewrite He in He'. injection He' as <-.
      rewrite (decide_False (P := i = S k)) by (apply lookup_lt_Some in Hi; lia).
      destruct (decide (S i = S k)) as [[= ->]|Hne].
      * rewrite Hx in Hi. injection Hi as ->. eexists. split; [by blook|]. done.
      * pose proof (children_ne i k y x Hi Hx ltac:(lia)). eexists. split; [by blook|]. done.
  - split; [done|]. intros l [? [? Hl]%not_elem_of_cons]%not_elem_of_cons. pose proof (elem_fst _ _ _ _ Hx Hl). by blook.
Qed.

Lemma put_first x :
  xs !! 0%nat = Some x → split_at xs nm 1 0 →
  done_at (count (bwrite r (set_base (set_childs (Some c))) (bwrite x.1 (set_base (set_prev (Some c)))
    (cset set_prev None (cset set_next (Some x.1) s))))).
Proof.
  intros Hx Hsp. destruct (lv_parent _ _ _ Hlv) as (er & Her & Hch & Hn). destruct (child_ne 0 x Hx) as [Hxr Hxc].
  unfold done_at, count, cset. split.
  - rewrite <- (sinsert_ends 0) by (done || lia). destruct Hsp as [Hb Ha].
    apply (level_put s); try done; try lia.
    + intros i y Hi ?. eapply Ha; [done|lia].
    + eexists. split; [by blook|]. unfold bcell. cbn. by rewrite Hx.
    + eexists. split; [by blook|]. cbn. by rewrite Hn, count_up.
    + intros i y e Hi He. destruct (child_ne i y Hi) as [Hyr Hyc].
      destruct (lv_cells _ _ _ Hlv i y Hi) as (e' & He' & Hna & Hpa & _). rewrite He in He'. injection He' as <-.
      rewrite (decide_False (P := S i = 0%nat)) by lia.
      destruct (decide (i = 0%nat)) as [->|Hne].
      * rewrite Hx in Hi. injection Hi as ->. eexists. split; [by blook|]. done.
      * pose proof (children_ne i 0 y x Hi Hx Hne). eexists. split; [by blook|]. done.
  - split; [done|]. intros l [? [? Hl]%not_elem_of_cons]%not_elem_of_cons. pose proof (elem_fst _ _ _ _ Hx Hl). by blook.
Qed.

Lemma put_between k x y :
  xs !! k = Some x → xs !! S k = Some y → split_at xs nm (Z.of_nat (S k) + 1) (Z.of_nat (S k)) →
  done_at (count (bwrite y.1 (set_base (set_prev (Some c))) (bwrite x.1 (set_base (set_next (Some c)))
    (cset set_prev (Some x.1) (cset set_next (Some y.1) s))))).
Proof.
  intros Hx Hy Hsp. destruct (lv_parent _ _ _ Hlv) as (er & Her & Hch & Hn).
  destruct (child_ne k x Hx) as [Hxr Hxc], (child_ne (S k) y Hy) as [Hyr Hyc].
  pose proof (children_ne k (S k) x y Hx Hy ltac:(lia)) as Hxy. pose proof (lookup_lt_Some _ _ _ Hy).
  unfold done_at, count, cset. split.
  - rewrite <- (sinsert_ends (S k)) by (done || lia). destruct Hsp as [Hb Ha].
    apply (level_put s); try done; try lia.
    + intros i z Hi ?. eapply Hb; [done|lia].
    + intros i z Hi ?. eapply Ha; [done|lia].
    + eexists. split; [by blook|]. unfold bcell. cbn. by rewrite Hx, Hy.
    + eexists. split; [by blook|]. cbn. by rewrite Hn, count_up.
    + intros i z e Hi He. destruct (child_ne i z Hi) as [Hzr Hzc].
      destruct (lv_cells _ _ _ Hlv i z Hi) as (e' & He' & Hna & Hpa & _). rewrite He in He'. injection He' as <-.
      destruct (decide (i = S k)) as [->|Hn1]; [|destruct (decide (S i = S k)) as [[= ->]|Hn2]].
      * rewrite Hy in Hi. injection Hi as ->. rewrite decide_False by lia. eexists. split; [by blook|]. done.
      * rewrite Hx in Hi. injection Hi as ->. eexists. split; [by blook|]. done.
      * pose proof (children_ne i k z x Hi Hx ltac:(lia)). pose proof (children_ne i (S k) z y Hi Hy Hn1).
        eexists. split; [by blook|]. done.
  - split; [done|]. intros l [? [? Hl]%not_elem_of_cons]%not_elem_of_cons.
    pose proof (elem_fst _ _ _ _ Hx Hl). pose proof (elem_fst _ _ _ _ Hy Hl). by blook.
Qed.

(** [csdb_append_child] on any children: a child with a new name is put where it belongs,
    a name that is there changes nothing. *)
Lemma csdb_append_child_level :
  runs (csdb_append_child (Some r) (Some c)) s (λ s' _,
    match named nm xs with None => done_at s' | Some _ => s' = s end).
Proof.
  destruct (lv_parent _ _ _ Hlv) as (er & Her & Hch & Hn). unfold csdb_append_child.
  bstep. bstep. rewrite Hch. destruct (xs !! 0%nat) as [x|] eqn:Ex; cbn [fmap option_fmap option_map].
  2: { assert (xs = []) as Exs by (destruct xs; done). replace (named nm xs) with (@None loc) by by rewrite Exs. repeat bstep.
    by apply put_empty. }
  pose proof (lookup_lt_Some _ _ _ Ex) as Hlen. do 4 bstep. bstep. rewrite Hn.
  destruct (b2_all s r xs Hlv nm Hlen) as (o & Ho & Hres). rewrite Ex in Ho. cbn [fmap option_fmap option_map] in Ho.
  eapply runs_eq; [exact Ho|]. rewrite (b2_named s r xs Hlv nm o Hres). destruct o as [p|l]; [by bstep|].
  destruct Hres as [Hl Hsp]. bstep. pose proof (csdb_seek_level s r xs Hlv l Hlen) as Hseek. rewrite Ex in Hseek.
  eapply runs_eq; [exact Hseek|]. do 2 bstep. rewrite Hn. bstep. rewrite Z.gtb_ltb.
  destruct (Z.ltb_spec (Z.of_nat (length xs)) l) as [Hend|Hend].
  - replace (min (length xs - 1) (Z.to_nat (l - 1))) with (length xs - 1)%nat by lia.
    destruct (lookup_lt_is_Some_2 xs (length xs - 1)) as [y Hy]; [lia|].
    destruct (lv_cells _ _ _ Hlv _ y Hy) as (ey & Hey & _ & _ & _ & Hny). destruct (child_ne _ y Hy) as [Hyr Hyc].
    rewrite lookup_ge_None_2 in Hny by lia. rewrite Hy. cbn [fmap option_fmap option_map]. repeat bstep.
    rewrite Hny. apply (put_last (length xs - 1) y); [done|lia|].
    by replace (Z.of_nat (S (length xs - 1)) + 1) with l by lia; replace (Z.of_nat (S (length xs - 1))) with (l - 1) by lia.
  - replace (min (length xs - 1) (Z.to_nat (l - 1))) with (Z.to_nat (l - 1)) by lia.
    destruct (lookup_lt_is_Some_2 xs (Z.to_nat (l - 1))) as [y Hy]; [lia|].
    destruct (lv_cells _ _ _ Hlv _ y Hy) as (ey & Hey & _ & _ & Hpy & _). destruct (child_ne _ y Hy) as [Hyr Hyc].
    rewrite Hy. cbn [fmap option_fmap option_map].
    replace l with (Z.of_nat (Z.to_nat (l - 1)) + 1) in Hsp by lia. rewrite Z.add_simpl_r in Hsp.
    destruct (Z.to_nat (l - 1)) as [|k].
    + rewrite Ex in Hy. injection Hy as ->. repeat bstep. cbn in Hpy. rewrite Hpy. repeat bstep.
      rewrite Hch, decide_True by done. repeat bstep. by apply put_first.
    + destruct (lookup_lt_is_Some_2 xs k) as [z Hz]; [apply lookup_lt_Some in Hy; lia|].
      destruct (child_ne _ z Hz) as [Hzr Hzc]. pose proof (children_ne k (S k) z y Hz Hy ltac:(lia)) as Hzy.
      destruct (lv_cells _ _ _ Hlv _ z Hz) as (ez & Hez & _). cbn [pred_of] in Hpy. rewrite Hz in Hpy.
      cbn [fmap option_fmap option_map] in Hpy. repeat bstep. rewrite Hpy. repeat bstep. rewrite Hch.
      pose proof (children_ne 0 (S k) x y Ex Hy ltac:(lia)) as Hxy. rewrite decide_False by (cbn; congruence).
      repeat bstep. by apply (put_between k z y).
Qed.
End append.

(** * A level with one child less *)

Section remove.
Context (s : bdb) (r : loc) (xs : list (loc * cstr)) (Hlv : level s r xs).

Lemma delete_inv k i (z : loc * cstr) :
  delete k xs !! i = Some z → ∃ j, xs !! j = Some z ∧ j ≠ k ∧ i = (if decide (j < k)%nat then j else pred j).
Proof.
  intros Hi. destruct (decide (i < k)%nat) as [Hlt|Hge].
  - rewrite list_lookup_delete_lt in Hi by done. exists i. rewrite decide_True by done. split_and!; [done|lia|done].
  - rewrite list_lookup_delete_ge in Hi by lia. exists (S i). rewrite decide_False by lia. split_and!; [done|lia|done].
Qed.

Context (k : nat) (x : loc * cstr) (Hx : xs !! k = Some x).

Lemma level_del s' :
  (∃ e, bentries s' !! r = Some e ∧ childs (base e) = (if decide (k = 0%nat) then fst <$> xs !! 1%nat else fst <$> xs !! 0%nat) ∧
    nbr_entries e = Z.of_nat (length xs) - 1) →
  (∀ i y e, i ≠ k → xs !! i = Some y → bentries s !! y.1 = Some e → ∃ e', bentries s' !! y.1 = Some e' ∧
    bcell e' y.2 (Some r) (if decide (i = S k) then pred_of xs k else prev (base e))
      (if decide (S i = k) then fst <$> xs !! S k else next (base e))) →
  level s' r (delete k xs).
Proof.
  intros (er & Her & Hch & Hnb) Hold. pose proof (lookup_lt_Some _ _ _ Hx) as Hlen.
  pose proof (length_delete xs k ltac:(eauto)) as Hld.
  assert (x.1 :: (delete k xs).*1 ≡ₚ xs.*1) as Hperm by (rewrite (delete_Permutation xs k x) at 2 by done; done).
  pose proof (lv_nodup _ _ _ Hlv) as Hnd. pose proof (lv_root _ _ _ Hlv) as Hrt. rewrite <- Hperm in Hnd, Hrt.
  constructor.
  - by apply NoDup_cons in Hnd as [_ Hnd].
  - by apply not_elem_of_cons in Hrt as [_ Hrt].
  - intros i j y z Hij (i' & Hy & _ & ->)%delete_inv (j' & Hz & _ & ->)%delete_inv.
    apply (lv_sorted _ _ _ Hlv i' j'); [|done..]. repeat case_decide; lia.
  - pose proof (lv_size _ _ _ Hlv). lia.
  - exists er. split_and!; [done| |lia]. rewrite Hch. case_decide as E.
    + subst. by rewrite list_lookup_delete_ge.
    + by rewrite list_lookup_delete_lt by lia.
  - intros i y (j & Hy & Hj & ->)%delete_inv.
    destruct (lv_cells _ _ _ Hlv j y Hy) as (e & He & _ & _ & Hp & Hn).
    destruct (Hold j y e Hj Hy He) as (e' & He' & Hcell). exists e'. split; [done|]. rewrite Hp, Hn in Hcell.
    destruct (decide (j < k)%nat) as [E|E].
    + rewrite (decide_False (P := j = S k)) in Hcell by lia.
      assert (pred_of (delete k xs) j = pred_of xs j) as ->.
      { destruct j as [|j]; [done|]. cbn [pred_of]. by rewrite list_lookup_delete_lt by lia. }
      case_decide as E2; [subst k; by rewrite list_lookup_delete_ge|]. by rewrite list_lookup_delete_lt by lia.
    + destruct j as [|j]; [lia|]. rewrite (decide_False (P := S (S j) = k)) in Hcell by lia. cbn [pred].
      rewrite list_lookup_delete_ge by lia. case_decide as E2.
      * assert (j = k) as -> by lia. assert (pred_of (delete k xs) k = pred_of xs k) as ->; [|done].
        destruct k as [|k']; [done|]. cbn [pred_of]. by rewrite list_lookup_delete_lt by lia.
      * cbn [pred_of] in Hcell. destruct j as [|j]; [lia|]. cbn [pred_of]. by rewrite list_lookup_delete_ge by lia.
Qed.

Lemma count_down : u32 (Z.of_nat (length xs) - 1) = Z.of_nat (length xs) - 1.
Proof. pose proof (lookup_lt_Some _ _ _ Hx). pose proof (lv_size _ _ _ Hlv). unfold u32. rewrite Z.mod_small; lia. Qed.

(** The child before, or the parent, points to the child after. *)
Let unlink_left (s : bdb) : bdb :=
  match pred_of xs k with
  | Some p => bwrite p (set_base (set_next (fst <$> xs !! S k))) s
  | None => bwrite r (set_base (set_childs (fst <$> xs !! S k))) s
  end.
Let unlink_right (s : bdb) : bdb :=
  match fst <$> xs !! S k with Some n => bwrite n (set_base (set_prev (pred_of xs k))) s | None => s end.
Let unlinked : bdb :=
  unlink_right (bwrite r (λ e, set_nbr_entries (u32 (nbr_entries e - 1)) e) (unlink_left s)).

(** What [unlinked] has at [l]. *)
Lemma unlinked_at l :
  bentries unlinked !! l =
    (λ e, (if decide (fst <$> xs !! S k = Some l) then set_base (set_prev (pred_of xs k)) else id)
      ((if decide (l = r) then (λ e, set_nbr_entries (u32 (nbr_entries e - 1)) e) else id)
      ((if decide (pred_of xs k = Some l) then set_base (set_next (fst <$> xs !! S k)) else id)
      ((if decide (pred_of xs k = None ∧ l = r) then set_base (set_childs (fst <$> xs !! S k)) else id) e)))) <$>
    bentries s !! l.
Proof.
  assert (∀ (h : gmap loc bentry) m (g : bentry → bentry), alter g m h !! l = (if decide (m = l) then g else id) <$> h !! l) as Halt.
  { intros h m g. case_decide; [subst; by rewrite lookup_alter_eq|]. by rewrite lookup_alter_ne, option_fmap_id. }
  unfold unlinked, unlink_right, unlink_left.
  destruct (fst <$> xs !! S k) as [n|], (pred_of xs k) as [p|]; cbn [bwrite bentries]; rewrite !Halt;
    destruct (bentries s !! l) as [e|]; cbn [fmap option_fmap option_map]; try done; f_equal;
    repeat case_decide; simplify_eq; try done; naive_solver.
Qed.

Lemma index_is i j y : xs !! i = Some y → fst <$> xs !! j = Some y.1 ↔ i = j.
Proof.
  intros Hy. split; [|by intros <-; rewrite Hy]. destruct (xs !! j) as [z|] eqn:Hz; [|done].
  intros [= E]. by eapply level_inj.
Qed.

Lemma pred_is i y : xs !! i = Some y → pred_of xs k = Some y.1 ↔ S i = k.
Proof. intros Hy. destruct k as [|j]; cbn; [done|]. rewrite (index_is i j y Hy). lia. Qed.

Lemma pred_none : pred_of xs k = None ↔ k = 0%nat.
Proof.
  destruct k as [|j]; cbn; [done|]. split; [|done]. intros E%fmap_None%lookup_ge_None.
  pose proof (lookup_lt_Some _ _ _ Hx). lia.
Qed.

Lemma child_not_root i y : xs !! i = Some y → y.1 ≠ r.
Proof. intros Hy. eapply elem_fst; [exact Hy|apply Hlv]. Qed.

Lemma root_not_child i : fst <$> xs !! i ≠ Some r.
Proof. destruct (xs !! i) as [y|] eqn:Hy; [|done]. cbn. intros [= E]. by eapply child_not_root. Qed.

Lemma unlinked_level : level unlinked r (delete k xs).
Proof.
  destruct (lv_parent _ _ _ Hlv) as (er & Her & Hch & Hn). apply level_del.
  - rewrite unlinked_at, Her. eexists. split; [done|]. cbv beta.
    rewrite (decide_False (P := _ = Some r)) by apply root_not_child. rewrite decide_True by done.
    rewrite (decide_False (P := pred_of xs k = Some r)) by (destruct k; [done|apply root_not_child]).
    rewrite <- count_down, <- Hn. destruct (decide (k = 0%nat)) as [->|Hk].
    + by rewrite decide_True.
    + rewrite decide_False; [done|]. rewrite pred_none. tauto.
  - intros i y e Hi Hy He. destruct (lv_cells _ _ _ Hlv i y Hy) as (e' & He' & Hna & Hpa & _).
    rewrite He in He'. injection He' as <-. pose proof (child_not_root i y Hy) as Hyr.
    rewrite unlinked_at, He. eexists. split; [done|]. cbv beta.
    rewrite (decide_False (P := y.1 = r)), (decide_False (P := _ ∧ _)) by tauto.
    rewrite (decide_ext _ _ _ _ (index_is i (S k) y Hy)), (decide_ext _ _ _ _ (pred_is i y Hy)).
    repeat case_decide; split_and!; try done; lia.
Qed.

Lemma unlinked_frame : bframe s unlinked (r :: xs.*1).
Proof.
  split.
  - unfold unlinked, unlink_right, unlink_left. by destruct (fst <$> xs !! S k), (pred_of xs k).
  - intros l [Hr Hl]%not_elem_of_cons. assert (∀ i, fst <$> xs !! i ≠ Some l) as Hn.
    { intros i. destruct (xs !! i) as [y|] eqn:Hy; [|done]. cbn. intros [= E]. by eapply elem_fst. }
    rewrite unlinked_at, (decide_False (P := _ = Some l)) by apply Hn.
    rewrite (decide_False (P := l = r)) by done. rewrite (decide_False (P := _ ∧ _)) by tauto.
    rewrite decide_False by (destruct k; [done|apply Hn]). by destruct (bentries s !! l).
Qed.

(** The code does this. *)
Lemma csdb_unlink_level : runs (csdb_unlink (Some x.1)) s (λ s' _, s' = unlinked).
Proof.
  destruct (lv_cells _ _ _ Hlv k x Hx) as (e & He & _ & Hpa & Hp & Hn).
  destruct (lv_parent _ _ _ Hlv) as (er & Her & _). unfold csdb_unlink. repeat bstep. rewrite Hp, Hn, Hpa.
  assert (∀ i l, fst <$> xs !! i = Some l → is_Some (bentries s !! l)) as Hsome.
  { intros i l. destruct (xs !! i) as [y|] eqn:Hy; [|done]. intros [= <-].
    destruct (lv_cells _ _ _ Hlv i y Hy) as (ey & Hey & _). eauto. }
  assert (∀ l, pred_of xs k = Some l → is_Some (bentries s !! l)) as Hpred by (destruct k; [done|apply Hsome]).
  unfold unlinked, unlink_right, unlink_left.
  destruct (pred_of xs k) as [p|]; destruct (fst <$> xs !! S k) as [n|] eqn:En;
    repeat (bstep || (apply runs_bdb_store; [bsome|])); done.
Qed.
End remove.

(** C9: linking a new child keeps the children of an entry in the order of [strcmp], each
    linked to its neighbours and its parent and all of them counted: the child is put where
    it belongs.  A child with a name that is there is not linked, and nothing changes.
    Unlinking a child keeps all of this for the others.  No entry but the children and
    their parent is touched. *)
Theorem bin_level_kept s r xs :
  level s r xs →
  (∀ c nm ec, bentries s !! c = Some ec → name (base ec) = BStr nm → c ∉ xs.*1 → c ≠ r →
    Z.of_nat (length xs) + 1 < 2 ^ 31 →
    runs (csdb_append_child (Some r) (Some c)) s (λ s' _,
      match named nm xs with
      | None => level s' r (sinsert (c, nm) xs) ∧ bframe s s' (r :: c :: xs.*1)
      | Some _ => s' = s
      end)) ∧
  (∀ k x, xs !! k = Some x →
    runs (csdb_unlink (Some x.1)) s (λ s' _, level s' r (delete k xs) ∧ bframe s s' (r :: xs.*1))).
Proof.
  intros Hlv. split.
  - intros. by eapply csdb_append_child_level.
  - intros k x Hx. eapply runs_mono; [by eapply csdb_unlink_level|]. cbv beta. intros s' _ ->.
    split; [by eapply unlinked_level|by eapply unlinked_frame].
Qed.

Definition bnew (nm : string) : bentry := set_base (set_name_f (BStr (lit nm))) (Bentry csdbe_zero 0).

(** A root without children, and entries that are not linked yet. *)
Definition bstart : bdb :=
  Bdb (Some 1%positive)
    (<[1%positive := bnew "."]> (<[2%positive := bnew "mem"]> (<[3%positive := bnew "arch"]>
    (<[4%positive := bnew "os"]> (<[5%positive := bnew "load"]> ∅))))).

Definition bbuild : M bdb unit :=
  _ ← csdb_append_child (Some 1%positive) (Some 2%positive);
  _ ← csdb_append_child (Some 1%positive) (Some 3%positive);
  csdb_append_child (Some 1%positive) (Some 4%positive).

Definition bthree : bdb := match bbuild bstart with Ok s _ => s | Stop _ => bstart end.

Definition bchildren : list (loc * cstr) := [(3%positive, lit "arch"); (2%positive, lit "mem"); (4%positive, lit "os")].

Lemma bthree_level : level bthree 1%positive bchildren.
Proof.
  constructor.
  - by apply (bool_decide_unpack _); vm_compute.
  - by apply (bool_decide_unpack _); vm_compute.
  - intros [|[|[|i]]] [|[|[|j]]] x y Hij Hx Hy; try lia; try done; injection Hx as <-; injection Hy as <-; reflexivity.
  - reflexivity.
  - eexists. split; [vm_compute; reflexivity|]. split; reflexivity.
  - intros [|[|[|i]]] x Hx; try done; injection Hx as <-;
      (eexists; split; [vm_compute; reflexivity|]; repeat split).
Qed.

Lemma bin_find_linear_witness :
  ∃ p, csdb_find_child (Some 1%positive) (lit "os") bthree = Ok bthree p ∧
    Csdb.csdb_find_child (Some 1%positive) (lit "os") (erase true 6%positive 0 bthree) =
      Ok (erase true 6%positive 0 bthree) p.
Proof. exact (bin_find_linear bthree 1%positive bchildren (lit "os") true 6%positive 0 bthree_level). Defined.

(** The entry that both find. *)
Example bin_find_os : csdb_find_child (Some 1%positive) (lit "os") bthree = Ok bthree (Some 4%positive).
Proof. vm_compute. reflexivity. Qed.

Lemma bin_level_kept_witness :
  runs (csdb_append_child (Some 1%positive) (Some 5%positive)) bthree (λ s' _,
    level s' 1%positive (sinsert (5%positive, lit "load") bchildren) ∧
    bframe bthree s' (1%positive :: 5%positive :: bchildren.*1)) ∧
  runs (csdb_unlink (Some 2%positive)) bthree (λ s' _,
    level s' 1%positive [(3%positive, lit "arch"); (4%positive, lit "os")] ∧ bframe bthree s' (1%positive :: bchildren.*1)).
Proof.
  destruct (bin_level_kept bthree 1%positive bchildren bthree_level) as [Happ Hdel]. split.
  - refine (Happ 5%positive (lit "load") (bnew "load") _ _ _ _ _); [by vm_compute|by vm_compute| |done|done].
    by apply (bool_decide_unpack _); vm_compute.
  - exact (Hdel 1%nat (2%positive, lit "mem") eq_refl).
Defined.
