(* ===== verification/Csp.v ===== *)
(** The cs packets (src/src/csd/csp.c, and its copy src/src/csm/csp.c).

    The packing functions write into a buffer of the caller and return the length of
    the packet; the unpacking functions return offsets into the buffer and put NULs
    into it.  A result [None] is an access outside a buffer. *)

From Stdlib Require Import ZArith Lia.
From stdpp Require Import base list gmap strings.
From S2P Require Import Prelude Cbuf.

(** * Constants (src/src/include/cs.h) *)

Definition MAXLINE : Z := 4096.
Definition CSP_MAXPACKET_SIZE : Z := 65535.
Definition CS_HELLO : Z := 1.
Definition CS_REQ : Z := 2.
Definition CS_CAP : Z := 3.
Definition CS_VER : Z := 1.
Definition CS_SET : Z := 1.
Definition CS_GET : Z := 2.
Definition CS_DEL : Z := 3.
Definition CS_LS : Z := 4.
Definition CS_CAPEXEC : Z := 6.
Definition CS_RESP_SUCC : Z := 1.
Definition CS_RESP_ERR : Z := 2.
Definition CS_RESP_WDATA : Z := 3.
Definition CS_RESP_NDATA : Z := 4.
Definition CS_PACKET_HDR_SIZE : Z := 2.
Definition CSP_CAPREQ_HDR_SIZE : Z := 5.
Definition CSP_DBREQ_HDR_SIZE : Z := 5.

Definition strlen (s : cstr) : Z := Z.of_nat (length s).

(** * Packing *)

(** One field: its length as a [char], then as many bytes.  The length is read back
    as a signed number for the copy. *)
Definition hello_field (m : buf) (pos : Z) (s : cstr) : option (buf * Z) :=
  let val_len := s8 (strlen s) in
  m ← buf_put m pos (byte_of val_len);
  d ← memcpy_src s val_len;
  m ← buf_write m (pos + 1) d;
  mret (m, val_len).

Definition csp_pack_hello_packet (m : buf) (hostname : cstr)
    (loadavg1 loadavg5 loadavg15 : option cstr) : option (buf * Z) :=
  m ← buf_put m 0 (byte_of 1);
  m ← buf_put m 1 (byte_of CS_HELLO);
  match loadavg1, loadavg5, loadavg15 with
  | Some l1, Some l5, Some l15 =>
    '(m, n0) ← hello_field m 2 hostname;
    let p1 := (2 + n0 + 1)%Z in
    '(m, n1) ← hello_field m p1 l1;
    let p5 := (p1 + n1 + 1)%Z in
    '(m, n5) ← hello_field m p5 l5;
    let p15 := (p5 + n5 + 1)%Z in
    '(m, n15) ← hello_field m p15 l15;
    m ← buf_put m (p15 + n15 + 1) NUL;
    mret (m, 2 + n0 + n1 + n5 + n15 + 4)%Z
  | _, _, _ => mret (m, -1)%Z
  end.

Definition csp_pack_resp_packet (m : buf) (type err : Z) (resp_data : option cstr)
    : option (buf * Z) :=
  m ← buf_put m 0 (byte_of 1);
  m ← buf_put m 1 (byte_of type);
  m ← buf_put m 2 (byte_of err);
  if decide (type = CS_RESP_WDATA) then
    data ← resp_data;
    let data_len := u16 (strlen data) in
    let data_len := if decide (data_len >= CSP_MAXPACKET_SIZE - 3)%Z
                    then CSP_MAXPACKET_SIZE else data_len in
    m ← buf_put16 m 3 data_len;
    m ← buf_write m (3 + 2) (strncpy_bytes data (Z.to_nat data_len));
    mret (m, 3 + (data_len + 2))%Z
  else mret (m, 3)%Z.

Definition csp_pack_capreq_packet (m : buf) (type : Z) (data : cstr) : option (buf * Z) :=
  m ← buf_put m 0 (byte_of 1);
  m ← buf_put m 1 (byte_of CS_CAP);
  m ← buf_put m 2 (byte_of type);
  let data_len := u16 (strlen data) in
  m ← buf_put16 m 3 data_len;
  m ← buf_write m (3 + 2) (strncpy_bytes data (Z.to_nat data_len));
  mret (m, 3 + (data_len + 2))%Z.

(** [key] and [value] are [None] for [NULL]. *)
Definition csp_pack_dbreq_packet (m : buf) (key value : option cstr) (type : Z)
    : option (buf * Z) :=
  match key with
  | None => mret (m, -1)%Z
  | Some key =>
    let key_len := u16 (strlen key) in
    let val_len := match value with Some v => u16 (strlen v) | None => 0%Z end in
    let pack_len := u16 (3 + key_len + val_len + 3 * 2) in
    m ← buf_put m 0 (byte_of CS_VER);
    m ← buf_put m 1 (byte_of CS_REQ);
    m ← buf_put m 2 (byte_of type);
    '(m, packet_data) ←
      if decide (key_len > 0)%Z then
        m ← buf_put16 m 3 key_len;
        d ← memcpy_src key key_len;
        m ← buf_write m (3 + 2) d;
        m ← buf_put m (3 + 2 + key_len) NUL;
        mret (m, 3 + 2 + key_len)%Z
      else mret (m, 3%Z);
    m ← if decide (val_len > 0 ∧ type = CS_SET)%Z then
          m ← buf_put16 m packet_data val_len;
          d ← memcpy_src (default [] value) val_len;
          m ← buf_write m (packet_data + 2) d;
          buf_put m (packet_data + 2 + val_len) NUL
        else mret m;
    mret (m, pack_len)
  end.

(** * Unpacking *)

(** The type, the error and, if the packet has data, the offset of the data, which is
    NUL-terminated in the buffer.  Without data [*resp_data] is left as it is. *)
Definition csp_unpack_resp_packet (m : buf) : option (buf * (Z * Z * option Z)) :=
  type ← buf_get m 1;
  err ← buf_get m 2;
  if decide (schar type = CS_RESP_WDATA) then
    data_len ← buf_get16 m 3;
    m ← buf_put m (3 + 2 + data_len) NUL;
    mret (m, (schar type, schar err, Some (3 + 2)%Z))
  else mret (m, (schar type, schar err, None)).

Definition csp_det_packet_type (m : buf) : option (Z * Z) :=
  v ← buf_get m 0;
  t ← buf_get m 1;
  mret (schar v, schar t).

(** [req_packet] is the offset of the request in the buffer; the results are the
    offsets of the key and of the value. *)
Definition csp_unpack_dbreq_request (m : buf) (req_packet req_type : Z)
    : option (buf * (Z * option Z)) :=
  key_len ← buf_get16 m req_packet;
  let key_data := (req_packet + 2)%Z in
  if decide (req_type = CS_SET) then
    val_len ← buf_get16 m (key_data + key_len);
    m ← buf_put m (key_data + key_len) NUL;
    let val_data := (key_data + key_len + 2)%Z in
    m ← buf_put m (val_data + val_len) NUL;
    mret (m, (key_data, Some val_data))
  else mret (m, (key_data, None)).

(** * What the packets are *)

(** A copied string as a packet field. *)
Definition resp_bytes (type err : Z) (data : cstr) : list byte :=
  [byte_of 1; byte_of type; byte_of err] ++ le_bytes 2 (strlen data) ++ data.

Lemma csp_pack_resp_packet_data m type err data :
  type = CS_RESP_WDATA → (strlen data < CSP_MAXPACKET_SIZE - 3)%Z →
  5 + length data ≤ length m →
  csp_pack_resp_packet m type err (Some data) =
  Some (resp_bytes type err data ++ drop (5 + length data) m, 5 + strlen data)%Z.
Proof.
  intros -> Hd Hm. unfold csp_pack_resp_packet, strlen, CSP_MAXPACKET_SIZE in *.
  rewrite <- (app_nil_l m) at 1. do 3 buf_step. rewrite decide_True by done.
  cbn [mbind option_bind].
  assert (u16 (Z.of_nat (length data)) = Z.of_nat (length data)) as ->
    by (unfold u16; rewrite Z.mod_small; lia).
  rewrite decide_False by lia. buf_step.
  rewrite Nat2Z.id, strncpy_bytes_all. buf_step.
  cbn [mret option_ret]. do 2 f_equal; [|lia].
  unfold resp_bytes, strlen. rewrite <- !(assoc_L (++)). simpl. rewrite !drop_drop.
  do 5 f_equal.
Qed.

Lemma csp_unpack_resp_packet_data type err data junk rest :
  type = CS_RESP_WDATA → (-128 ≤ err < 128)%Z → NUL ∉ data → (strlen data < 2 ^ 16)%Z →
  csp_unpack_resp_packet (resp_bytes type err data ++ junk :: rest) =
    Some (resp_bytes type err data ++ NUL :: rest, (type, err, Some 5%Z)) ∧
  buf_str (resp_bytes type err data ++ NUL :: rest) 5 = Some data.
Proof.
  intros -> He Hd Hl. unfold csp_unpack_resp_packet, resp_bytes. split.
  - rewrite <- !(assoc_L (++)). set (post := junk :: rest).
    change (buf_get _ 1) with (Some (byte_of CS_RESP_WDATA)).
    change (buf_get _ 2) with (Some (byte_of err)). cbn [mbind option_bind].
    rewrite !schar_of by (unfold CS_RESP_WDATA; lia). rewrite decide_True by done.
    rewrite (buf_get16_app [_; _; _]) by (done || unfold strlen in *; lia).
    cbn [mbind option_bind]. unfold buf_put.
    rewrite !(assoc_L (++)). subst post.
    rewrite (buf_write_app _ [junk] [NUL] rest); [done| |done].
    unfold strlen. buf_len.
  - rewrite !(assoc_L (++)), <- (assoc_L (++) _ data). apply buf_str_app; [done|done].
Qed.

(** C10: a response with data that was packed into the 65535 byte buffer of the server
    and is received into a buffer with at least one byte to spare is unpacked to the
    same type, error and data, whatever the buffers held before. *)
Theorem csp_resp_roundtrip m r err data :
  Z.of_nat (length m) = CSP_MAXPACKET_SIZE → NUL ∉ data → (-128 ≤ err < 128)%Z →
  (strlen data < CSP_MAXPACKET_SIZE - 4)%Z → 5 + length data < length r →
  ∃ m' n r', csp_pack_resp_packet m CS_RESP_WDATA err (Some data) = Some (m', Z.of_nat n) ∧
    csp_unpack_resp_packet (take n m' ++ drop n r) =
      Some (r', (CS_RESP_WDATA, err, Some 5%Z)) ∧ buf_str r' 5 = Some data.
Proof.
  intros Hm Hn He Hd Hr. unfold CSP_MAXPACKET_SIZE, strlen in *.
  rewrite csp_pack_resp_packet_data by (done || unfold CSP_MAXPACKET_SIZE, strlen; lia).
  assert (length (resp_bytes CS_RESP_WDATA err data) = 5 + length data) as Hlen.
  { unfold resp_bytes. by buf_len. }
  destruct (drop (5 + length data) r) as [|junk rest] eqn:E.
  { apply (f_equal length) in E. rewrite length_drop in E. simpl in E. lia. }
  destruct (csp_unpack_resp_packet_data CS_RESP_WDATA err data junk rest) as [H1 H2];
    [done|done|done|unfold strlen; lia|].
  eexists _, (5 + length data), _. split_and!; [| |exact H2].
  - do 2 f_equal. unfold strlen. lia.
  - by rewrite <- Hlen at 1; rewrite take_app_length, E.
Qed.

(** a response of a length (modulo the 16 bits of the length field) from 65532 on is
    written past the end of the 65535 byte buffer: the check that should prevent it
    sets the length to the size of the whole buffer. *)
Theorem csp_resp_overflow m err data :
  Z.of_nat (length m) = CSP_MAXPACKET_SIZE →
  (CSP_MAXPACKET_SIZE - 3 <= strlen data `mod` 2 ^ 16)%Z →
  csp_pack_resp_packet m CS_RESP_WDATA err (Some data) = None.
Proof.
  intros Hm Hd. unfold csp_pack_resp_packet, CSP_MAXPACKET_SIZE in *.
  rewrite <- (app_nil_l m) at 1. do 3 buf_step. rewrite decide_True by done.
  cbn [mbind option_bind]. rewrite decide_True by (unfold u16; lia). buf_step.
  rewrite buf_write_oob; [done| |].
  - intros E. apply (f_equal length) in E. rewrite length_strncpy_bytes in E. simpl in E. lia.
  - rewrite length_strncpy_bytes. buf_len.
Qed.

(** ** Database requests *)

Definition dbreq_key (type : Z) (key : cstr) : list byte :=
  [byte_of CS_VER; byte_of CS_REQ; byte_of type] ++ le_bytes 2 (strlen key) ++ key.

(** The packet as it is laid out: a set has the value after the key. *)
Definition dbreq_bytes (type : Z) (key : cstr) (value : option cstr) : list byte :=
  dbreq_key type key ++
  match value with Some v => le_bytes 2 (strlen v) ++ v ++ [NUL] | None => [NUL] end.

Lemma u16_small z : (0 ≤ z < 2 ^ 16)%Z → u16 z = z.
Proof. intros. unfold u16. by rewrite Z.mod_small. Qed.

Lemma length_dbreq_key type key : length (dbreq_key type key) = 5 + length key.
Proof. unfold dbreq_key. by buf_len. Qed.

Lemma csp_pack_dbreq_packet_set m key value :
  key ≠ [] → value ≠ [] → (strlen key + strlen value + 9 < 2 ^ 16)%Z →
  8 + length key + length value ≤ length m →
  csp_pack_dbreq_packet m (Some key) (Some value) CS_SET =
  Some (dbreq_bytes CS_SET key (Some value) ++ drop (8 + length key + length value) m,
        9 + strlen key + strlen value)%Z.
Proof.
  intros Hk Hv Hs Hm. unfold csp_pack_dbreq_packet, strlen in *.
  assert (0 < length key) by (destruct key; simpl; [done|lia]).
  assert (0 < length value) by (destruct value; simpl; [done|lia]).
  rewrite (u16_small (Z.of_nat (length key))), (u16_small (Z.of_nat (length value))) by lia.
  rewrite u16_small by lia. rewrite <- (app_nil_l m) at 1. do 3 buf_step.
  rewrite decide_True by lia. buf_step.
  rewrite !memcpy_src_all. cbn [mbind option_bind default]. do 2 buf_step.
  cbn [mret option_ret mbind option_bind]. rewrite decide_True by (split; [lia|done]).
  cbn [mbind option_bind].
  unfold buf_put16, buf_put.
  rewrite <- (assoc_L (++) _ [NUL]). erewrite (buf_write_next _ _ (le_bytes 2 _)) by (simpl; buf_len).
  cbn [mbind option_bind default]. rewrite buf_write_next by (simpl; buf_len).
  cbn [mbind option_bind]. rewrite buf_write_next by (simpl; buf_len).
  cbn [mbind option_bind]. do 2 f_equal; [|lia].
  unfold dbreq_bytes, dbreq_key, strlen. rewrite <- !(assoc_L (++)).
  rewrite length_le_bytes. cbn [length drop app]. rewrite !drop_drop.
  repeat (apply (f_equal2 app) || apply (f_equal2 cons)); try done. f_equal. lia.
Qed.

(** Only a set packs its value; that of another request still counts for the length. *)
Lemma csp_pack_dbreq_packet_key m key value type :
  key ≠ [] → (type = CS_SET → value = None) →
  (strlen key + strlen (default [] value) + 9 < 2 ^ 16)%Z → 6 + length key ≤ length m →
  csp_pack_dbreq_packet m (Some key) value type =
  Some (dbreq_bytes type key None ++ drop (6 + length key) m,
        9 + strlen key + strlen (default [] value))%Z.
Proof.
  intros Hk Ht Hs Hm. unfold csp_pack_dbreq_packet, strlen in *.
  assert (0 < length key) by (destruct key; simpl; [done|lia]).
  assert (match value with Some v => u16 (Z.of_nat (length v)) | None => 0%Z end =
          Z.of_nat (length (default [] value))) as ->.
  { destruct value as [v|]; [|done]. simpl in *. apply u16_small. lia. }
  rewrite (u16_small (Z.of_nat (length key))) by lia.
  rewrite u16_small by lia. rewrite <- (app_nil_l m) at 1. do 3 buf_step.
  rewrite (decide_True (P := (Z.of_nat (length key) > 0)%Z)) by lia. buf_step.
  rewrite !memcpy_src_all. cbn [mbind option_bind]. do 2 buf_step.
  cbn [mret option_ret mbind option_bind]. rewrite decide_False.
  2:{ intros [Hv Hset]. rewrite (Ht Hset) in Hv. simpl in Hv. lia. }
  cbn [mbind option_bind]. apply (f_equal Some), (f_equal2 pair); [|lia].
  unfold dbreq_bytes, dbreq_key, strlen. rewrite <- !(assoc_L (++)).
  cbn [length drop app]. rewrite !drop_drop.
  repeat (apply (f_equal2 app) || apply (f_equal2 cons)); try done. f_equal. lia.
Qed.

Lemma csp_pack_dbreq_packet_other m key type :
  key ≠ [] → (strlen key + 9 < 2 ^ 16)%Z → 6 + length key ≤ length m →
  csp_pack_dbreq_packet m (Some key) None type =
  Some (dbreq_bytes type key None ++ drop (6 + length key) m, 9 + strlen key)%Z.
Proof.
  intros. rewrite csp_pack_dbreq_packet_key by (done || unfold strlen in *; simpl; lia).
  do 2 f_equal. unfold strlen. simpl. lia.
Qed.

(** The server finds the key and the value again, whatever follows the packet. *)
Lemma csp_unpack_dbreq_set key value post :
  NUL ∉ key → NUL ∉ value → (strlen key < 2 ^ 16)%Z → (strlen value < 2 ^ 16)%Z →
  ∃ m', csp_unpack_dbreq_request (dbreq_bytes CS_SET key (Some value) ++ post) 3 CS_SET =
      Some (m', (5, Some (7 + strlen key)))%Z ∧
    buf_str m' 5 = Some key ∧ buf_str m' (7 + strlen key) = Some value.
Proof.
  intros Hk Hv Hlk Hlv. unfold csp_unpack_dbreq_request, dbreq_bytes, strlen in *.
  set (hdr := [byte_of CS_VER; byte_of CS_REQ; byte_of CS_SET]).
  assert (length hdr = 3) as Hh by done.
  unfold dbreq_key. fold hdr. rewrite <- !(assoc_L (++)).
  rewrite (buf_get16_app hdr) by (done || unfold strlen; lia). cbn [mbind option_bind].
  rewrite decide_True by done.
  assert (∀ x, hdr ++ le_bytes 2 (strlen key) ++ key ++ x =
    ((hdr ++ le_bytes 2 (strlen key)) ++ key) ++ x) as Ha by (intros; by rewrite !(assoc_L (++))).
  rewrite Ha. unfold strlen in *.
  rewrite buf_get16_app by (buf_len; lia). cbn [mbind option_bind].
  cbn [le_bytes app].
  rewrite buf_put_app by (buf_len; simpl; lia).
  cbn [mbind option_bind app].
  set (hi := byte_of (Z.of_nat (length value) / 256)).
  assert (((hdr ++ [byte_of (Z.of_nat (length key)); byte_of (Z.of_nat (length key) / 256)]) ++ key) ++
     NUL :: hi :: value ++ NUL :: post =
     ((((hdr ++ le_bytes 2 (Z.of_nat (length key))) ++ key) ++ [NUL; hi]) ++ value) ++ NUL :: post)
    as -> by (by rewrite <- !(assoc_L (++))).
  cbn [app]. rewrite buf_put_app by (buf_len; simpl; lia).
  cbn [mbind option_bind]. eexists. split_and!.
  - apply (f_equal Some), (f_equal2 pair); [done|]. apply (f_equal2 pair); [done|]. f_equal. lia.
  - rewrite <- (assoc_L (++) _ value), <- (assoc_L (++) _ [NUL; hi]),
      <- (assoc_L (++) _ key). apply buf_str_app; [done|done].
  - rewrite <- (assoc_L (++) _ value). apply buf_str_app; [buf_len; simpl; lia|done].
Qed.

Lemma length_unpack_dbreq m p t m' r :
  csp_unpack_dbreq_request m p t = Some (m', r) → length m' = length m.
Proof.
  unfold csp_unpack_dbreq_request, buf_put.
  intros (k & _ & H)%bind_Some. case_decide; [|by injection H as <- _].
  apply bind_Some in H as (v & _ & H). apply bind_Some in H as (m1 & H1 & H).
  apply bind_Some in H as (m2 & H2 & [= <- _]).
  by rewrite (length_buf_write _ _ _ _ H2), (length_buf_write _ _ _ _ H1).
Qed.

Lemma csp_unpack_dbreq_other type key post :
  type ≠ CS_SET → NUL ∉ key → (strlen key < 2 ^ 16)%Z →
  csp_unpack_dbreq_request (dbreq_bytes type key None ++ post) 3 type =
    Some (dbreq_bytes type key None ++ post, (5%Z, None)) ∧
  buf_str (dbreq_bytes type key None ++ post) 5 = Some key.
Proof.
  intros Ht Hk Hlk. unfold csp_unpack_dbreq_request, dbreq_bytes, dbreq_key.
  rewrite <- !(assoc_L (++)). split.
  - rewrite (buf_get16_app [_; _; _]) by (done || unfold strlen in *; lia).
    cbn [mbind option_bind]. by rewrite decide_False.
  - rewrite (assoc_L (++) _ (le_bytes 2 _)). apply buf_str_app; [done|done].
Qed.

(** ** Hello packets *)

Definition hello_bytes (s : cstr) : list byte := byte_of (strlen s) :: s.

Definition hello_packet_bytes (hostname l1 l5 l15 : cstr) : list byte :=
  [byte_of 1; byte_of CS_HELLO] ++ hello_bytes hostname ++ hello_bytes l1 ++ hello_bytes l5 ++
  hello_bytes l15.

Lemma s8_small z : (-128 ≤ z < 128)%Z → s8 z = z.
Proof. intros. unfold s8. rewrite Z.mod_small; lia. Qed.

Lemma hello_field_next pre rest s pos :
  pos = Z.of_nat (length pre) → length s ≤ 127 → S (length s) ≤ length rest →
  hello_field (pre ++ rest) pos s =
  Some ((pre ++ hello_bytes s) ++ drop (S (length s)) rest, strlen s).
Proof.
  intros -> Hs Hr. unfold hello_field, strlen. rewrite s8_small by lia.
  buf_step. rewrite memcpy_src_all. cbn [mbind option_bind]. buf_step.
  cbn [mret option_ret]. unfold hello_bytes, strlen. rewrite drop_drop.
  by rewrite <- !(assoc_L (++)).
Qed.

Lemma csp_pack_hello_packet_spec m hostname l1 l5 l15 :
  Forall (λ s, length s ≤ 127) [hostname; l1; l5; l15] →
  7 + length hostname + length l1 + length l5 + length l15 ≤ length m →
  ∃ rest, csp_pack_hello_packet m hostname (Some l1) (Some l5) (Some l15) =
    Some (hello_packet_bytes hostname l1 l5 l15 ++ NUL :: rest,
          strlen hostname + strlen l1 + strlen l5 + strlen l15 + 6)%Z.
Proof.
  rewrite !Forall_cons. intros (? & ? & ? & ? & _) Hm. unfold csp_pack_hello_packet, strlen.
  eexists. rewrite <- (app_nil_l m) at 1. do 2 buf_step.
  assert (∀ s, length (hello_bytes s) = S (length s)) as Hb by done.
  rewrite hello_field_next by (buf_len; lia). cbn [mbind option_bind].
  do 3 (rewrite hello_field_next by (unfold strlen; buf_len; rewrite ?Hb; simpl; lia);
        cbn [mbind option_bind]).
  rewrite buf_put_next by (unfold strlen; buf_len; rewrite ?Hb; simpl; lia).
  cbn [mbind option_bind mret option_ret]. apply (f_equal Some), (f_equal2 pair).
  - unfold hello_packet_bytes. rewrite <- !(assoc_L (++)). done.
  - unfold strlen. lia.
Qed.
