(* ===== verification/Csd.v ===== *)
(** The packet handlers of the csd daemon (src/src/csd/csd.c), with the parts of the
    collector they call (src/src/csd/csc.c, lines 48-69 and 261-289).

    They are written against the database interface.  A packet is a buffer and an
    offset into it; what a handler sends is returned.  [stack] is what the response
    buffer on the stack holds before it is written. *)

From Stdlib Require Import ZArith Lia.
From stdpp Require Import base list gmap strings.
From S2P Require Import Prelude Cbuf Ctext CsdbKey CsdbSpec CsdbStore Csp.

Definition KSIZE : Z := 256.

Section handlers.
Context {S : Type} `{!CsStore S}.

(** * Alive nodes *)

Definition csc_node_is_alive (node_name : cstr) : M S bool :=
  key ← sprintf KSIZE (lit ".alive." ++ node_name);
  db_exist key.

Definition csc_node_not_alive (node_name : option cstr) : M S Z :=
  match node_name with
  | None => mret (-1)%Z
  | Some node_name =>
    key ← sprintf KSIZE (lit ".alive." ++ node_name);
    _ ← db_remove key;
    mret 0%Z
  end.

(** * Capabilities *)

(** The loop that replaces every dot by an underscore. *)
Definition replace_dots (s : cstr) : cstr :=
  (λ c, if decide (c = dot) then underscore else c) <$> s.

(** [while(tok != NULL && ok)]; [size] is the size of the buffer of the key. *)
Fixpoint cap_loop (size : Z) (toks : list cstr) (ok : bool) : M S bool :=
  match toks with
  | [] => mret ok
  | tok :: toks =>
    if ok then
      key ← sprintf size (lit ".lib." ++ tok);
      ok ← db_exist key;
      cap_loop size toks ok
    else mret ok
  end.

Definition csc_cap_to_exec (libs : cstr) : M S bool :=
  cap_loop (strlen libs + 1) (strtok [space; NL] (replace_dots libs)) true.

(** * Handlers *)

(** [sendto(_, packet, n, ...)] *)
Definition send (packet : buf) (n : Z) : M S (list byte) := access (buf_read packet 0 n).

(** One field of a hello packet: the string that is copied to an array of 127 bytes and
    terminated there, and the offset of the next field. *)
Definition hello_copy (m : buf) (len : Z) : M S (cstr * Z) :=
  l ← access (buf_get m len);
  d ← access (buf_read m (len + 1) (schar l));
  data ← access (buf_write (replicate 127 NUL) 0 d);
  data ← access (buf_put data (schar l) NUL);
  s ← access (buf_str data 0);
  mret (s, len + 1 + schar l)%Z.

(** The fields 1 to 3. *)
Fixpoint hello_loop (m : buf) (len : Z) (nodename : cstr) (fields : list cstr) : M S unit :=
  match fields with
  | [] => mret ()
  | f :: fields =>
    '(data, len) ← hello_copy m len;
    key ← sprintf KSIZE (lit ".alive." ++ nodename ++ f);
    _ ← db_set key data;
    hello_loop m len nodename fields
  end.

Definition cs_proceed_hello (m : buf) (hello_packet : Z) : M S Z :=
  '(nodename, len) ← hello_copy m hello_packet;
  _ ← csc_node_is_alive nodename;
  _ ← hello_loop m len nodename [lit ".loadavg1"; lit ".loadavg5"; lit ".loadavg15"];
  mret 0%Z.

(** The request in the database and the response packet with its length.  A request of
    another type, like a key that is not valid, leaves [resp_len] without a value. *)
Definition db_response (stack m : buf) (req_type : Z) (key : cstr) (value : option Z)
    : M S (buf * Z) :=
  if csdb_is_valid_key key then
    if decide (req_type = CS_SET) then
      v ← access (value ≫= buf_str m);
      if decide (v ≠ []) then
        _ ← db_set key v;
        access (csp_pack_resp_packet stack CS_RESP_NDATA CS_RESP_SUCC None)
      else access (csp_pack_resp_packet stack CS_RESP_NDATA CS_RESP_ERR None)
    else if decide (req_type = CS_GET) then
      '(err, response) ← db_get key;
      if decide (err >= 0)%Z
      then access (csp_pack_resp_packet stack CS_RESP_WDATA CS_RESP_SUCC response)
      else access (csp_pack_resp_packet stack CS_RESP_NDATA CS_RESP_ERR None)
    else if decide (req_type = CS_DEL) then
      err ← db_remove key;
      if decide (err < 0)%Z
      then access (csp_pack_resp_packet stack CS_RESP_NDATA CS_RESP_ERR None)
      else access (csp_pack_resp_packet stack CS_RESP_NDATA CS_RESP_SUCC None)
    else if decide (req_type = CS_LS) then
      '(ret, _, response) ← db_names key false true;
      if decide (ret <= 0)%Z
      then access (csp_pack_resp_packet stack CS_RESP_NDATA CS_RESP_ERR None)
      else access (csp_pack_resp_packet stack CS_RESP_WDATA CS_RESP_SUCC response)
    else stop Uninit
  else stop Uninit.

(** The buffer as the handler leaves it, and what is sent. *)
Definition cs_proceed_db_request (stack m : buf) (packet : Z) : M S (buf * list byte) :=
  t ← access (buf_get m packet);
  let req_type := schar t in
  '(m, (k, value)) ← access (csp_unpack_dbreq_request m (packet + 1) req_type);
  key ← access (buf_str m k);
  '(r, resp_len) ← db_response stack m req_type key value;
  out ← send r resp_len;
  mret (m, out).

(** [csc_cap_to_exec] returns 0 or 1; another type leaves [resp_len] without a value. *)
Definition cap_response (stack : buf) (req_type : Z) (req_data : cstr) : M S (buf * Z) :=
  if decide (req_type = CS_CAPEXEC) then
    ret ← csc_cap_to_exec req_data;
    access (csp_pack_resp_packet stack CS_RESP_WDATA CS_RESP_SUCC
              (Some (lit (if ret : bool then "1" else "0")%string)))
  else stop Uninit.

Definition cs_proceed_cap_request (stack m : buf) (packet : Z) : M S (list byte) :=
  t ← access (buf_get m packet);
  let req_packet := (packet + 1)%Z in
  data_len ← access (buf_get16 m req_packet);
  d ← access (buf_read m (req_packet + 2) data_len);
  req_data ← access (until_nul (d ++ [NUL]));
  '(r, resp_len) ← cap_response stack (schar t) req_data;
  send r resp_len.

(** The handler for the type of the packet; there is no [break] after the last one. *)
Definition cs_dispatch (stack packet : buf) (cs_version cs_type : Z) : M S (buf * list byte) :=
  if decide (cs_version ≠ CS_VER) then mret (packet, [])
  else if decide (cs_type = CS_HELLO) then
    _ ← cs_proceed_hello packet CS_PACKET_HDR_SIZE; mret (packet, [])
  else if decide (cs_type = CS_REQ) then
    cs_proceed_db_request stack packet CS_PACKET_HDR_SIZE
  else if decide (cs_type = CS_CAP) then
    out ← cs_proceed_cap_request stack packet CS_PACKET_HDR_SIZE; mret (packet, out)
  else mret (packet, []).

(** One round of the loop of [cs_receive_packets]: [recvd] is what [recvfrom] stores at
    the start of the buffer ([None]: it returns -1); the rest of the buffer is what
    earlier packets left there.  Returns the buffer and what is sent. *)
Definition cs_receive_packet (stack packet : buf) (recvd : option (list byte))
    : M S (buf * list byte) :=
  '(packet, n) ←
    match recvd with
    | Some bytes => p ← access (buf_write packet 0 bytes); mret (p, Z.of_nat (length bytes))
    | None => mret (packet, (-1)%Z)
    end;
  packet ← access (buf_put packet n NUL);
  '(cs_version, cs_type) ← access (csp_det_packet_type packet);
  cs_dispatch stack packet cs_version cs_type.

(** The packets one after the other. *)
Fixpoint cs_receive_packets (stack packet : buf) (recvds : list (option (list byte)))
    : M S (list (list byte)) :=
  match recvds with
  | [] => mret []
  | r :: recvds =>
    '(packet, out) ← cs_receive_packet stack packet r;
    outs ← cs_receive_packets stack packet recvds;
    mret (out :: outs)
  end.
End handlers.
