(* ===== verification/CsdProps.v ===== *)
(** What the packet handlers of csd.c do: they refine the same handlers on the abstract
    database, and the effect of a packet that was made by the packing functions. *)

From Stdlib Require Import ZArith Lia.
From stdpp Require Import base list gmap strings.
From S2P Require Import Prelude Cbuf Ctext CsdbKey CsdbState Csdb CsdbSpec CsdbRep.
From S2P Require Import CsdbStore CsdbTrace Csp Csd.

(** * The handlers refine their abstract version *)

Lemma refines_access {S T A} (R : S → T → Prop) (o : option A) :
  refines R (access o) (access o).
Proof. destruct o; simpl; eauto with refine. Qed.
#[export] Hint Resolve refines_access : refine.

Lemma refines_sprintf {S T} (R : S → T → Prop) size text :
  refines R (sprintf size text) (sprintf size text).
Proof. unfold sprintf. case_decide; eauto with refine. Qed.
#[export] Hint Resolve refines_sprintf : refine.

(** Take a handler apart: known calls, binds, pairs, conditions. *)
Ltac refine_step :=
  lazymatch goal with
  | |- refines _ (_ ≫= _) _ => apply refines_bind; [|intros ?]
  | |- refines _ (mret _) _ => apply refines_ret
  | |- refines _ (stop _) _ => apply refines_stop
  | |- refines _ (match ?x with _ => _ end) _ => destruct x
  | |- refines _ _ _ => solve [eauto 1 with refine]
  end.
Ltac refine_auto := repeat refine_step.

Section refine.
Context {S : Type} `{!CsStore S, !StoreRefinement S}.

Lemma csc_node_is_alive_refines n :
  refines holds (csc_node_is_alive (S := S) n) (csc_node_is_alive n).
Proof. unfold csc_node_is_alive. refine_auto. Qed.
Hint Resolve csc_node_is_alive_refines : refine.

Lemma csc_node_not_alive_refines n :
  refines holds (csc_node_not_alive (S := S) n) (csc_node_not_alive n).
Proof. unfold csc_node_not_alive. refine_auto. Qed.

Lemma csc_cap_to_exec_refines libs :
  refines holds (csc_cap_to_exec (S := S) libs) (csc_cap_to_exec libs).
Proof.
  unfold csc_cap_to_exec. generalize true as ok. generalize (strlen libs + 1)%Z as size.
  induction (strtok _ _) as [|tok toks IH]; intros size ok; simpl; refine_auto.
Qed.
Hint Resolve csc_cap_to_exec_refines : refine.

Lemma hello_copy_refines m len : refines holds (hello_copy (S := S) m len) (hello_copy m len).
Proof. unfold hello_copy. refine_auto. Qed.
Hint Resolve hello_copy_refines : refine.

Lemma hello_loop_refines m fields : ∀ len nodename,
  refines holds (hello_loop (S := S) m len nodename fields) (hello_loop m len nodename fields).
Proof. induction fields; intros len nodename; simpl; refine_auto. Qed.
Hint Resolve hello_loop_refines : refine.

Lemma cs_proceed_hello_refines m p :
  refines holds (cs_proceed_hello (S := S) m p) (cs_proceed_hello m p).
Proof. unfold cs_proceed_hello. refine_auto. Qed.
Hint Resolve cs_proceed_hello_refines : refine.

Lemma db_response_refines stack m t key value :
  refines holds (db_response (S := S) stack m t key value) (db_response stack m t key value).
Proof. unfold db_response. refine_auto. Qed.
Hint Resolve db_response_refines : refine.

Lemma cs_proceed_db_request_refines stack m p :
  refines holds (cs_proceed_db_request (S := S) stack m p) (cs_proceed_db_request stack m p).
Proof. unfold cs_proceed_db_request, send. refine_auto. Qed.
Hint Resolve cs_proceed_db_request_refines : refine.

Lemma cs_proceed_cap_request_refines stack m p :
  refines holds (cs_proceed_cap_request (S := S) stack m p) (cs_proceed_cap_request stack m p).
Proof. unfold cs_proceed_cap_request, cap_response, send. refine_auto. Qed.
Hint Resolve cs_proceed_cap_request_refines : refine.

Lemma cs_dispatch_refines stack packet v t :
  refines holds (cs_dispatch (S := S) stack packet v t) (cs_dispatch stack packet v t).
Proof. unfold cs_dispatch. refine_auto. Qed.
Hint Resolve cs_dispatch_refines : refine.

Lemma cs_receive_packet_refines stack packet r :
  refines holds (cs_receive_packet (S := S) stack packet r) (cs_receive_packet stack packet r).
Proof. unfold cs_receive_packet. refine_auto. Qed.
Hint Resolve cs_receive_packet_refines : refine.

Lemma cs_receive_packets_refines stack recvds : ∀ packet,
  refines holds (cs_receive_packets (S := S) stack packet recvds)
    (cs_receive_packets stack packet recvds).
Proof. induction recvds; intros packet; simpl; refine_auto. Qed.
End refine.

(** * Requests on the abstract database *)

Lemma a_set_Ok key v a :
  alocked a = false → head key = Some dot →
  a_set key v a = Ok (with_tree (nset (key_path key) v (aclock a) (atree a)) a) 0%Z.
Proof.
  intros Hl Hh. unfold a_set. rewrite decide_True by done.
  erewrite bind_Ok by (unfold a_lock; by rewrite Hl). do 2 erewrite bind_Ok by done.
  destruct a. simpl in *. by subst.
Qed.

Lemma a_get_leaf key a d :
  alocked a = false → csdb_is_valid_key key = true →
  tdata (atree a) (key_path key) = Some d → eleaf d = true → a_get key a = Ok a (0%Z, evalue d).
Proof.
  intros Hl Hv Hd Hleaf. unfold a_get. rewrite Hv. cbn [negb].
  rewrite a_lock_entry by (done || by apply csdb_valid_key_head).
  unfold tdata in Hd. destruct (nlookup (key_path key) (atree a)) as [c|]; [|done].
  simpl in Hd. injection Hd as <-. rewrite Hleaf. erewrite bind_Ok by done.
  by rewrite with_locked_id.
Qed.

Lemma a_exist_Ok key a :
  alocked a = false → head key = Some dot →
  a_exist key a = Ok a (bool_decide (is_Some (tdata (atree a) (key_path key)))).
Proof.
  intros Hl Hh. unfold a_exist. rewrite a_lock_entry by done. erewrite bind_Ok by done.
  rewrite with_locked_id by done. unfold mret, M_ret. f_equal. apply bool_decide_ext.
  unfold tdata. by rewrite fmap_is_Some.
Qed.

(** The response without data. *)
Definition resp_ndata (err : Z) : list byte := [byte_of 1; byte_of CS_RESP_NDATA; byte_of err].

Lemma pack_ndata stack err :
  Z.of_nat (length stack) = CSP_MAXPACKET_SIZE →
  ∃ r, csp_pack_resp_packet stack CS_RESP_NDATA err None = Some (r, 3%Z) ∧
    buf_read r 0 3 = Some (resp_ndata err).
Proof.
  intros Hs. unfold csp_pack_resp_packet, CSP_MAXPACKET_SIZE in *.
  change stack with ([] ++ stack) at 1. do 3 buf_step. rewrite decide_False by done.
  eexists. split; [done|]. rewrite <- !(assoc_L (++)). by apply (buf_read_app [] (resp_ndata err)).
Qed.

Lemma send_data stack err data :
  Z.of_nat (length stack) = CSP_MAXPACKET_SIZE → (strlen data < CSP_MAXPACKET_SIZE - 4)%Z →
  ∃ r, csp_pack_resp_packet stack CS_RESP_WDATA err (Some data) = Some (r, 5 + strlen data)%Z ∧
    buf_read r 0 (5 + strlen data) = Some (resp_bytes CS_RESP_WDATA err data).
Proof.
  intros Hs Hd. unfold CSP_MAXPACKET_SIZE, strlen in *.
  rewrite csp_pack_resp_packet_data by (done || unfold CSP_MAXPACKET_SIZE, strlen; lia).
  eexists. split; [done|]. apply (buf_read_app []); [done|].
  unfold resp_bytes, strlen. buf_len.
Qed.

Section requests.
Context (stack : buf).
Hypothesis Hstack : Z.of_nat (length stack) = CSP_MAXPACKET_SIZE.

Lemma request_set a key value post :
  alocked a = false → csdb_is_valid_key key = true → NUL ∉ key → NUL ∉ value → value ≠ [] →
  (strlen key < 2 ^ 16)%Z → (strlen value < 2 ^ 16)%Z →
  ∃ m', cs_proceed_db_request stack (dbreq_bytes CS_SET key (Some value) ++ post) 2 a =
    Ok (with_tree (nset (key_path key) value (aclock a) (atree a)) a)
       (m', resp_ndata CS_RESP_SUCC) ∧
    length m' = length (dbreq_bytes CS_SET key (Some value) ++ post).
Proof.
  intros Hl Hv Hk Hval Hne Hlk Hlv.
  destruct (csp_unpack_dbreq_set key value post) as (m' & Hu & Hsk & Hsv); [done..|].
  destruct (pack_ndata stack CS_RESP_SUCC Hstack) as (r & Hr & Hsend).
  exists m'. split; [|by eapply length_unpack_dbreq]. unfold cs_proceed_db_request.
  change (buf_get _ 2) with (Some (byte_of CS_SET)). erewrite bind_Ok by done.
  rewrite schar_of by done. change (2 + 1)%Z with 3%Z. rewrite Hu. erewrite bind_Ok by done.
  cbn beta iota. rewrite Hsk. erewrite bind_Ok by done. unfold db_response. rewrite Hv.
  rewrite decide_True by done. cbn [mbind option_bind]. rewrite Hsv.
  assert (head key = Some dot) as Hh by by apply csdb_valid_key_head.
  erewrite bind_Ok; [|erewrite bind_Ok by done; rewrite decide_True by done;
    erewrite bind_Ok by (by apply a_set_Ok); rewrite Hr; done].
  cbn beta iota. unfold send. rewrite Hsend. by erewrite bind_Ok.
Qed.

Lemma request_get a key d value post :
  alocked a = false → csdb_is_valid_key key = true → NUL ∉ key → (strlen key < 2 ^ 16)%Z →
  tdata (atree a) (key_path key) = Some d → eleaf d = true → evalue d = Some value →
  (strlen value < CSP_MAXPACKET_SIZE - 4)%Z →
  cs_proceed_db_request stack (dbreq_bytes CS_GET key None ++ post) 2 a =
    Ok a (dbreq_bytes CS_GET key None ++ post, resp_bytes CS_RESP_WDATA CS_RESP_SUCC value).
Proof.
  intros Hl Hv Hk Hlk Hd Hleaf Hval Hlv.
  destruct (csp_unpack_dbreq_other CS_GET key post) as (Hu & Hsk); [done..|].
  destruct (send_data stack CS_RESP_SUCC value Hstack Hlv) as (r & Hr & Hsend).
  unfold cs_proceed_db_request.
  change (buf_get _ 2) with (Some (byte_of CS_GET)). erewrite bind_Ok by done.
  rewrite schar_of by done. change (2 + 1)%Z with 3%Z. rewrite Hu. erewrite bind_Ok by done.
  cbn beta iota. rewrite Hsk. erewrite bind_Ok by done. unfold db_response. rewrite Hv.
  erewrite bind_Ok.
  2:{ rewrite decide_False by done. rewrite decide_True by done.
      erewrite bind_Ok by (by apply a_get_leaf). cbn beta iota. rewrite decide_True by done.
      rewrite Hval, Hr. done. }
  cbn beta iota. unfold send. rewrite Hsend. by erewrite bind_Ok.
Qed.

(** ** Received packets *)

Context (packet : buf).
Hypothesis Hpacket : Z.of_nat (length packet) = MAXLINE.

Lemma receive_bytes {S} `{!CsStore S} t bytes (s : S) :
  (strlen bytes < MAXLINE)%Z → (-128 ≤ t < 128)%Z →
  buf_get bytes 0 = Some (byte_of CS_VER) → buf_get bytes 1 = Some (byte_of t) →
  ∃ rest, cs_receive_packet stack packet (Some bytes) s =
      cs_dispatch stack (bytes ++ NUL :: rest) CS_VER t s ∧
    length (bytes ++ NUL :: rest) = length packet.
Proof.
  intros Hb Ht H0 H1. unfold MAXLINE, strlen in *.
  destruct (drop (length bytes) packet) as [|junk rest] eqn:E.
  { apply (f_equal length) in E. rewrite length_drop in E. simpl in E. lia. }
  exists rest. split; cycle 1.
  { apply (f_equal length) in E. rewrite length_drop in E. rewrite length_app. simpl in *. lia. }
  unfold cs_receive_packet. pose proof (buf_write_next [] packet bytes 0) as Hw.
  rewrite app_nil_l in Hw. rewrite Hw by (simpl; lia). rewrite E.
  erewrite bind_Ok; [|by erewrite bind_Ok by done]. cbn beta iota.
  rewrite app_nil_l, buf_put_app by done. erewrite bind_Ok by done.
  destruct bytes as [|b0 [|b1 bytes]]; [done..|]. unfold csp_det_packet_type.
  injection H0 as ->. injection H1 as ->.
  change (buf_get _ 0) with (Some (byte_of CS_VER)).
  change (buf_get _ 1) with (Some (byte_of t)). cbn [mbind option_bind].
  erewrite bind_Ok by done. cbn beta iota. by rewrite !schar_of.
Qed.

(** A database request that is received goes to its handler. *)
Lemma receive_request t key v post out a a' :
  (strlen (dbreq_bytes t key v ++ post) < MAXLINE)%Z →
  (∀ rest, length ((dbreq_bytes t key v ++ post) ++ NUL :: rest) = length packet →
     ∃ m, cs_proceed_db_request stack (dbreq_bytes t key v ++ post ++ NUL :: rest) 2 a =
       Ok a' (m, out) ∧ length m = length packet) →
  ∃ m, cs_receive_packet stack packet (Some (dbreq_bytes t key v ++ post)) a = Ok a' (m, out) ∧
    length m = length packet.
Proof.
  intros Hl Hreq.
  destruct (receive_bytes CS_REQ (dbreq_bytes t key v ++ post) a) as (r & Hrec & Hlen);
    [done|unfold CS_REQ; lia|done..|].
  destruct (Hreq r Hlen) as (m & Hm & Hlm). exists m. split; [|done].
  change (cs_dispatch _ _ _ _ a) with
    (cs_proceed_db_request stack ((dbreq_bytes t key v ++ post) ++ NUL :: r) 2 a) in Hrec.
  rewrite <- (assoc_L (++)) in Hrec. by rewrite Hrec, Hm.
Qed.

Lemma receive_get a key d value post :
  alocked a = false → csdb_is_valid_key key = true → NUL ∉ key → (strlen key < 2 ^ 16)%Z →
  tdata (atree a) (key_path key) = Some d → eleaf d = true → evalue d = Some value →
  (strlen value < CSP_MAXPACKET_SIZE - 4)%Z →
  (strlen (dbreq_bytes CS_GET key None ++ post) < MAXLINE)%Z →
  ∃ m, cs_receive_packet stack packet (Some (dbreq_bytes CS_GET key None ++ post)) a =
    Ok a (m, resp_bytes CS_RESP_WDATA CS_RESP_SUCC value) ∧ length m = length packet.
Proof.
  intros. apply receive_request; [done|]. intros rest Hlen. eexists.
  split; [by eapply request_get|]. by rewrite (assoc_L (++)).
Qed.

Lemma receive_set a key value post :
  alocked a = false → csdb_is_valid_key key = true → NUL ∉ key → NUL ∉ value → value ≠ [] →
  (strlen key < 2 ^ 16)%Z → (strlen value < 2 ^ 16)%Z →
  (strlen (dbreq_bytes CS_SET key (Some value) ++ post) < MAXLINE)%Z →
  ∃ m, cs_receive_packet stack packet (Some (dbreq_bytes CS_SET key (Some value) ++ post)) a =
    Ok (with_tree (nset (key_path key) value (aclock a) (atree a)) a) (m, resp_ndata CS_RESP_SUCC) ∧
    length m = length packet.
Proof.
  intros. apply receive_request; [done|]. intros rest Hlen.
  edestruct request_set as (m & Hm & Hlm); [done..|]. exists m. split; [exact Hm|].
  by rewrite Hlm, (assoc_L (++)).
Qed.
End requests.

(** C11: a client sets a key and then gets it.  The two packets are made by
    [csp_pack_dbreq_packet] in buffers with arbitrary contents, and received one after
    the other into the buffer of the daemon, whatever is in it: the daemon answers
    with success, and then with a packet that holds the value; its database is the
    one with the value at the path of the key. *)
Theorem cs_set_get_requests s x stack packet c1 c2 key value :
  db_at s x → Z.of_nat (length stack) = CSP_MAXPACKET_SIZE →
  Z.of_nat (length packet) = MAXLINE → Z.of_nat (length c1) = MAXLINE →
  Z.of_nat (length c2) = MAXLINE →
  csdb_is_valid_key key = true → NUL ∉ key → NUL ∉ value → value ≠ [] →
  (strlen key + strlen value + 9 < MAXLINE)%Z →
  ∃ b1 n1 b2 n2,
    csp_pack_dbreq_packet c1 (Some key) (Some value) CS_SET = Some (b1, Z.of_nat n1) ∧
    csp_pack_dbreq_packet c2 (Some key) None CS_GET = Some (b2, Z.of_nat n2) ∧
    runs (cs_receive_packets stack packet [Some (take n1 b1); Some (take n2 b2)]) s
      (λ s' outs,
         outs = [resp_ndata CS_RESP_SUCC; resp_bytes CS_RESP_WDATA CS_RESP_SUCC value] ∧
         db_rep s' (nset (key_path key) value (clock s) x)).
Proof.
  intros [Hx Hm] Hst Hp Hc1 Hc2 Hv Hk Hval Hne Hl. unfold MAXLINE, strlen in *.
  pose proof (csdb_valid_key_head _ Hv) as Hh.
  assert (key ≠ []) by (by intros ->).
  set (a := Adb x false (clock s)).
  eexists _, (9 + length key + length value), _, (9 + length key). split_and!.
  { rewrite csp_pack_dbreq_packet_set by (done || unfold strlen; lia). do 2 f_equal.
    unfold strlen. lia. }
  { rewrite csp_pack_dbreq_packet_other by (done || unfold strlen; lia). do 2 f_equal.
    unfold strlen. lia. }
  set (e1 := take _ (dbreq_bytes CS_SET _ _ ++ _)). set (e2 := take _ (dbreq_bytes CS_GET _ _ ++ _)).
  assert (∃ x1, e1 = dbreq_bytes CS_SET key (Some value) ++ x1 ∧ length e1 < 4096) as (x1 & He1 & Hl1).
  { subst e1. rewrite length_take. eexists. split; [|lia]. rewrite take_app_ge; [done|].
    unfold dbreq_bytes. rewrite length_app, length_dbreq_key. buf_len. simpl. lia. }
  assert (∃ x2, e2 = dbreq_bytes CS_GET key None ++ x2 ∧ length e2 < 4096) as (x2 & He2 & Hl2).
  { subst e2. rewrite length_take. eexists. split; [|lia]. rewrite take_app_ge; [done|].
    unfold dbreq_bytes. rewrite length_app, length_dbreq_key. simpl. lia. }
  clearbody e1 e2. subst e1 e2.
  set (x' := nset (key_path key) value (clock s) x).
  eapply runs_mono.
  - eapply (refines_runs holds _ _ s a (λ a' outs,
      outs = [resp_ndata CS_RESP_SUCC; resp_bytes CS_RESP_WDATA CS_RESP_SUCC value] ∧
      atree a' = x')); [apply (cs_receive_packets_refines (S := csdb))|done|].
    cbn [cs_receive_packets].
    destruct (receive_set stack Hst packet Hp a key value x1) as (m1 & Hset & Hm1);
      [done..|unfold strlen, MAXLINE; lia|unfold strlen; lia|unfold strlen, MAXLINE; lia|].
    apply runs_bind. eapply runs_eq; [exact Hset|]. cbn beta iota. apply runs_bind.
    destruct (receive_get stack Hst m1 ltac:(by rewrite Hm1) (with_tree x' a) key
      (put_value value (clock s) (default (new_data (default [] (last (key_path key))) (clock s))
         (tdata x (key_path key)))) value x2) as (m2 & Hget & _);
      [done..|unfold strlen; lia| |done|done|unfold strlen, CSP_MAXPACKET_SIZE; lia
      |unfold strlen, MAXLINE; lia|].
    { simpl. subst x'. rewrite tdata_nset. by rewrite decide_True. }
    apply runs_bind. eapply runs_eq; [exact Hget|]. cbn beta iota.
    by do 3 runs_step.
  - intros s' outs (a' & (Hx' & _) & -> & Ha'). split; [done|]. by rewrite <- Ha'.
Qed.

(** a request with a key that is not valid, or of a type that is none of set, get,
    del and ls, makes the daemon send a packet whose length was never set. *)
Theorem cs_db_request_uninit {S} `{!CsStore S} (s : S) stack m p t m' k v key :
  buf_get m p = Some t → csp_unpack_dbreq_request m (p + 1) (schar t) = Some (m', (k, v)) →
  buf_str m' k = Some key →
  csdb_is_valid_key key = false ∨ (schar t < CS_SET)%Z ∨ (CS_LS < schar t)%Z →
  cs_proceed_db_request stack m p s = Stop Uninit.
Proof.
  intros Ht Hu Hk Hbad. unfold cs_proceed_db_request. rewrite Ht. erewrite bind_Ok by done.
  rewrite Hu. erewrite bind_Ok by done. cbn beta iota. rewrite Hk. erewrite bind_Ok by done.
  apply bind_Stop. unfold db_response. destruct (csdb_is_valid_key key); [|done].
  unfold CS_SET, CS_GET, CS_DEL, CS_LS in *. by rewrite !decide_False by (destruct Hbad; [done|lia]).
Qed.

(** * Hello packets *)

Section hello.
Context {S : Type} `{!CsStore S}.

Lemma until_nul_app s post : NUL ∉ s → until_nul (s ++ NUL :: post) = Some s.
Proof.
  induction s as [|b s IH]; intros Hs; simpl; [done|]. apply not_elem_of_cons in Hs as [? ?].
  rewrite decide_False by auto. by rewrite IH.
Qed.

Lemma hello_copy_Ok pre f post len (s : S) :
  len = Z.of_nat (length pre) → length f ≤ 126 → NUL ∉ f →
  hello_copy (pre ++ hello_bytes f ++ post) len s =
  Ok s (f, Z.of_nat (length (pre ++ hello_bytes f))).
Proof.
  intros -> Hl Hn. unfold hello_copy, hello_bytes, strlen.
  rewrite <- app_comm_cons, buf_get_app by done. erewrite bind_Ok by done.
  rewrite schar_of by lia.
  assert (buf_read (pre ++ byte_of (Z.of_nat (length f)) :: f ++ post)
    (Z.of_nat (length pre) + 1) (Z.of_nat (length f)) = Some f) as ->.
  { rewrite cons_middle, (assoc_L (++)). apply buf_read_app; [buf_len|done]. }
  erewrite bind_Ok by done.
  pose proof (buf_write_next [] (replicate 127 NUL) f 0) as Hw.
  rewrite !app_nil_l in Hw. rewrite Hw by (done || buf_len). erewrite bind_Ok by done.
  destruct (drop (length f) (replicate 127 NUL)) as [|j rest] eqn:E.
  { apply (f_equal length) in E. rewrite length_drop, length_replicate in E. simpl in E. lia. }
  rewrite buf_put_app by done. erewrite bind_Ok by done.
  pose proof (buf_str_app [] f rest 0 eq_refl Hn) as Hs. rewrite app_nil_l in Hs. rewrite Hs.
  erewrite bind_Ok by done.
  unfold mret, M_ret. do 2 f_equal. rewrite length_app. simpl. lia.
Qed.

(** a hello packet whose first length byte is 127 or, as a signed [char], negative
    makes the handler write outside the 127 bytes it has for the node name. *)
Theorem cs_proceed_hello_overflow m p l (s : S) :
  buf_get m p = Some l → (schar l < 0)%Z ∨ schar l = 127%Z →
  cs_proceed_hello m p s = Stop OutOfBounds.
Proof.
  intros Hl Hc. unfold cs_proceed_hello. apply bind_Stop. unfold hello_copy. rewrite Hl.
  erewrite bind_Ok by done. destruct (buf_read m (p + 1) (schar l)) as [d|] eqn:Hd; [|done].
  erewrite bind_Ok by done. destruct Hc as [Hc|Hc].
  { by rewrite buf_read_oob in Hd by auto. }
  destruct (buf_write (replicate 127 NUL) 0 d) as [data|] eqn:Hw; [|done].
  erewrite bind_Ok by done. apply length_buf_write in Hw. rewrite length_replicate in Hw.
  unfold buf_put. by rewrite buf_write_oob by (done || simpl; lia).
Qed.
End hello.

(** The three values a hello packet stores. *)
Definition hello_tree (host l1 l5 l15 : cstr) (t : Z) (x : tree) : tree :=
  nset [lit "alive"; host; lit "loadavg15"] l15 t
    (nset [lit "alive"; host; lit "loadavg5"] l5 t
       (nset [lit "alive"; host; lit "loadavg1"] l1 t x)).

Lemma alive_key host f :
  dot_free host → dot_free f → f ≠ [] →
  key_path (lit ".alive." ++ host ++ dot :: f) = [lit "alive"; host; f].
Proof.
  intros Hh Hf Hn. unfold key_path, key_parts. rewrite !decide_False by done.
  change (tail (lit ".alive." ++ host ++ dot :: f)) with (lit "alive" ++ dot :: host ++ dot :: f).
  rewrite parts_app by (by apply (bool_decide_unpack _)). simpl. f_equal.
  rewrite parts_app by done. simpl. f_equal.
  pose proof (parts_app f [] [] Hf) as Hp. rewrite app_nil_r in Hp. rewrite Hp. simpl.
  by rewrite decide_False.
Qed.

Lemma hello_step a host f field pre data post :
  alocked a = false → dot_free host → length host ≤ 126 → length data ≤ 126 → NUL ∉ data →
  field = dot :: f → dot_free f → f ≠ [] → length f ≤ 20 →
  ∀ fields, hello_loop (pre ++ hello_bytes data ++ post) (Z.of_nat (length pre)) host
    (field :: fields) a =
  hello_loop (pre ++ hello_bytes data ++ post) (Z.of_nat (length (pre ++ hello_bytes data))) host
    fields (with_tree (nset [lit "alive"; host; f] data (aclock a) (atree a)) a).
Proof.
  intros Hl Hh Hlh Hld Hd -> Hf Hn Hlf fields. cbn [hello_loop].
  erewrite bind_Ok by (by apply hello_copy_Ok). cbn beta iota.
  erewrite bind_Ok by (apply sprintf_Ok; unfold KSIZE; rewrite !length_app; simpl; lia).
  erewrite bind_Ok.
  2:{ cbn [db_set adb_store]. rewrite a_set_Ok by done. rewrite alive_key by done. done. }
  done.
Qed.

Lemma hello_receive a host l1 l5 l15 post :
  alocked a = false → dot_free host → NUL ∉ host → Forall (λ s, NUL ∉ s) [l1; l5; l15] →
  Forall (λ s, length s ≤ 126) [host; l1; l5; l15] →
  cs_proceed_hello (hello_packet_bytes host l1 l5 l15 ++ post) 2 a =
  Ok (with_tree (hello_tree host l1 l5 l15 (aclock a) (atree a)) a) 0%Z.
Proof.
  rewrite !Forall_cons. intros Hl Hd Hn (? & ? & ? & _) (? & ? & ? & ? & _).
  unfold hello_packet_bytes, cs_proceed_hello. set (hdr := [byte_of 1; byte_of CS_HELLO]).
  rewrite <- !(assoc_L (++)).
  erewrite bind_Ok by (by apply (hello_copy_Ok hdr)). cbn beta iota.
  erewrite bind_Ok.
  2:{ unfold csc_node_is_alive.
      erewrite bind_Ok by (apply sprintf_Ok; unfold KSIZE; rewrite !length_app; simpl; lia).
      by apply a_exist_Ok. }
  erewrite bind_Ok.
  2:{ rewrite (assoc_L (++) hdr).
      rewrite (hello_step a host (lit "loadavg1")) by (done || by apply (bool_decide_unpack _)).
      rewrite (assoc_L (++) (hdr ++ _)).
      rewrite (hello_step _ host (lit "loadavg5")) by (done || by apply (bool_decide_unpack _)).
      rewrite (assoc_L (++) ((hdr ++ _) ++ _)).
      rewrite (hello_step _ host (lit "loadavg15")) by (done || by apply (bool_decide_unpack _)).
      done. }
  done.
Qed.

Definition hello_fields : list cstr := [lit "loadavg1"; lit "loadavg5"; lit "loadavg15"].

Lemma hello_field_ok f :
  f ∈ hello_fields → dot_free f ∧ f ≠ [] ∧ last f ≠ Some dot.
Proof.
  unfold hello_fields. rewrite !elem_of_cons, elem_of_nil. intros [->|[->|[->|[]]]];
    (split_and!; [by apply (bool_decide_unpack _)|done..]).
Qed.

Lemma alive_get s x host f d v :
  db_at s x → dot_free host → f ∈ hello_fields →
  tdata x [lit "alive"; host; f] = Some d → eleaf d = true → evalue d = Some v →
  csdb_get_value_for_key (lit ".alive." ++ host ++ dot :: f) s = Ok s (0%Z, Some v).
Proof.
  intros Hat Hh (Hd & Hn & Hl)%hello_field_ok Hx Hleaf Hv. rewrite (db_at_get s x _ Hat).
  - rewrite alive_key by done. rewrite Hx. simpl. by rewrite Hleaf, Hv.
  - unfold csdb_is_valid_key. rewrite (bool_decide_eq_true_2 (head _ = _)) by done.
    rewrite (bool_decide_eq_true_2 (last _ ≠ _)); [by destruct (_ =? _)|].
    rewrite !last_app, last_cons. by destruct (last f) as [b|] eqn:E; [|apply last_None in E].
Qed.

Lemma hello_tree_data host l1 l5 l15 t x :
  let y := hello_tree host l1 l5 l15 t x in
  (evalue <$> tdata y [lit "alive"; host; lit "loadavg1"]) = Some (Some l1) ∧
  (evalue <$> tdata y [lit "alive"; host; lit "loadavg5"]) = Some (Some l5) ∧
  (evalue <$> tdata y [lit "alive"; host; lit "loadavg15"]) = Some (Some l15) ∧
  ∀ f, f ∈ hello_fields → (eleaf <$> tdata y [lit "alive"; host; f]) = Some true.
Proof.
  assert (lit "loadavg1" ≠ lit "loadavg5" ∧ lit "loadavg1" ≠ lit "loadavg15" ∧
    lit "loadavg5" ≠ lit "loadavg15") as (? & ? & ?) by done.
  intros y. subst y. unfold hello_tree.
  assert (∀ A (g : edata → A),
    (g <$> tdata (hello_tree host l1 l5 l15 t x) [lit "alive"; host; lit "loadavg1"]) =
      Some (g (put_value l1 t (default (new_data (lit "loadavg1") t) (tdata x [lit "alive"; host; lit "loadavg1"])))) ∧
    (∃ d, (g <$> tdata (hello_tree host l1 l5 l15 t x) [lit "alive"; host; lit "loadavg5"]) =
      Some (g (put_value l5 t d))) ∧
    (∃ d, (g <$> tdata (hello_tree host l1 l5 l15 t x) [lit "alive"; host; lit "loadavg15"]) =
      Some (g (put_value l15 t d)))) as H3.
  { intros A g. unfold hello_tree. rewrite !tdata_nset. split_and!.
    - rewrite (decide_False (P := _ = [_; _; lit "loadavg15"])) by congruence.
      rewrite (decide_False (P := _ = [_; _; lit "loadavg5"])) by congruence.
      by rewrite decide_True.
    - eexists. rewrite (decide_False (P := _ = [_; _; lit "loadavg15"])) by congruence.
      by rewrite (decide_True (P := _ = [_; _; lit "loadavg5"])).
    - eexists. by rewrite (decide_True (P := _ = [_; _; lit "loadavg15"])). }
  destruct (H3 _ evalue) as (E1 & [? E5] & [? E15]).
  destruct (H3 _ eleaf) as (F1 & [? F5] & [? F15]).
  split_and!; [done..|]. unfold hello_fields. intros f.
  rewrite !elem_of_cons, elem_of_nil. by intros [->|[->|[->|[]]]].
Qed.

(** What the daemon does with the bytes of a hello packet. *)
Lemma hello_received s x stack packet host l1 l5 l15 :
  db_at s x → Z.of_nat (length packet) = MAXLINE →
  dot_free host → NUL ∉ host → Forall (λ s, NUL ∉ s) [l1; l5; l15] →
  Forall (λ s, length s ≤ 126) [host; l1; l5; l15] →
  runs (cs_receive_packet stack packet (Some (hello_packet_bytes host l1 l5 l15))) s (λ s' _,
    db_rep s' (hello_tree host l1 l5 l15 (clock s) x) ∧
    csdb_get_value_for_key (lit ".alive." ++ host ++ lit ".loadavg1") s' = Ok s' (0%Z, Some l1) ∧
    csdb_get_value_for_key (lit ".alive." ++ host ++ lit ".loadavg5") s' = Ok s' (0%Z, Some l5) ∧
    csdb_get_value_for_key (lit ".alive." ++ host ++ lit ".loadavg15") s' = Ok s' (0%Z, Some l15)).
Proof.
  intros [Hx Hm] Hp Hd Hn Hnul Hlen. pose proof Hlen as Hlen'.
  rewrite !Forall_cons in Hlen'. destruct Hlen' as (? & ? & ? & ? & _).
  set (a := Adb x false (clock s)).
  destruct (receive_bytes stack packet Hp CS_HELLO (hello_packet_bytes host l1 l5 l15) a)
    as (r & Hrec & _);
    [unfold strlen, MAXLINE, hello_packet_bytes, hello_bytes; buf_len|unfold CS_HELLO; lia|done..|].
  eapply runs_mono.
  - eapply (refines_runs holds _ _ s a (λ a' _,
      atree a' = hello_tree host l1 l5 l15 (clock s) x ∧ alocked a' = false));
      [apply (cs_receive_packet_refines (S := csdb))|done|].
    unfold runs. rewrite Hrec. unfold cs_dispatch. rewrite decide_False by auto.
    rewrite decide_True by done. erewrite bind_Ok; [|by apply hello_receive]. done.
  - intros s' ? (a' & (Hx' & Hm' & _) & Ha' & Hl'). rewrite Ha' in Hx'.
    assert (db_at s' (hello_tree host l1 l5 l15 (clock s) x)) as Hat by (split; congruence).
    destruct (hello_tree_data host l1 l5 l15 (clock s) x) as (E1 & E5 & E15 & El).
    assert (∀ f v, f ∈ hello_fields →
      (evalue <$> tdata (hello_tree host l1 l5 l15 (clock s) x) [lit "alive"; host; f]) = Some (Some v) →
      csdb_get_value_for_key (lit ".alive." ++ host ++ dot :: f) s' = Ok s' (0%Z, Some v)) as Hget.
    { intros f v Hf (d & Hv & Hdd)%fmap_Some. specialize (El f Hf). rewrite Hv in El.
      eapply alive_get; [done..|by injection El|done]. }
    split_and!; [done|apply (Hget (lit "loadavg1"))|apply (Hget (lit "loadavg5"))
      |apply (Hget (lit "loadavg15"))]; try done; unfold hello_fields; set_solver.
Qed.

(** a hello packet that [csp_pack_hello_packet] made, received by the daemon in
    whatever state its buffer is, stores the three load averages under the name of the
    sender: gets return them, and nothing else in the database changes. *)
Theorem cs_hello_roundtrip s x stack packet c host l1 l5 l15 :
  db_at s x → Z.of_nat (length packet) = MAXLINE → length c = 1024 →
  dot_free host → NUL ∉ host → Forall (λ s, NUL ∉ s) [l1; l5; l15] →
  Forall (λ s, length s ≤ 126) [host; l1; l5; l15] →
  ∃ b n, csp_pack_hello_packet c host (Some l1) (Some l5) (Some l15) = Some (b, Z.of_nat n) ∧
    runs (cs_receive_packet stack packet (Some (take n b))) s (λ s' _,
      db_rep s' (hello_tree host l1 l5 l15 (clock s) x) ∧
      csdb_get_value_for_key (lit ".alive." ++ host ++ lit ".loadavg1") s' = Ok s' (0%Z, Some l1) ∧
      csdb_get_value_for_key (lit ".alive." ++ host ++ lit ".loadavg5") s' = Ok s' (0%Z, Some l5) ∧
      csdb_get_value_for_key (lit ".alive." ++ host ++ lit ".loadavg15") s' = Ok s' (0%Z, Some l15)).
Proof.
  intros Hat Hp Hc Hd Hn Hnul Hlen. pose proof Hlen as Hlen'.
  rewrite !Forall_cons in Hlen'. destruct Hlen' as (? & ? & ? & ? & _).
  destruct (csp_pack_hello_packet_spec c host l1 l5 l15) as (rest & Hpack);
    [eapply Forall_impl; [exact Hlen|simpl; lia]|lia|].
  eexists _, (length (hello_packet_bytes host l1 l5 l15)). split.
  - rewrite Hpack. do 2 f_equal. unfold strlen, hello_packet_bytes, hello_bytes. buf_len.
  - rewrite take_app_length. by apply hello_received.
Qed.

(** * Capability requests *)

Lemma replace_dots_free s : dot_free (replace_dots s).
Proof.
  unfold dot_free, replace_dots. intros (c & Hc & _)%list_elem_of_fmap.
  by case_decide.
Qed.

Lemma strtok_loop_elem delims s : ∀ tok w c,
  w ∈ strtok_loop delims tok s → c ∈ w → c ∈ tok ∨ c ∈ s.
Proof.
  induction s as [|b s IH]; intros tok w c; simpl.
  - case_decide; [by intros ?%elem_of_nil|]. intros ->%list_elem_of_singleton. auto.
  - rewrite elem_of_cons. repeat case_decide.
    + intros Hw Hc. destruct (IH [] w c Hw Hc) as [[]%elem_of_nil|]; auto.
    + intros [->|Hw]%elem_of_cons Hc; [auto|].
      destruct (IH [] w c Hw Hc) as [[]%elem_of_nil|]; auto.
    + intros Hw Hc. destruct (IH _ w c Hw Hc) as [[?|?%list_elem_of_singleton]%elem_of_app|]; auto.
Qed.

(** The names under which the libraries of a request are looked up. *)
Definition cap_names (libs : cstr) : list cstr := strtok [space; NL] (replace_dots libs).

Lemma cap_names_ok libs w : w ∈ cap_names libs → w ≠ [] ∧ dot_free w.
Proof.
  intros Hw. split.
  - pose proof (strtok_words [space; NL] (replace_dots libs)) as Hf.
    rewrite Forall_forall in Hf. by destruct (Hf w Hw).
  - intros Hd. destruct (strtok_loop_elem _ _ _ _ _ Hw Hd) as [?%elem_of_nil|?]; [done|].
    by apply (replace_dots_free libs).
Qed.

Lemma lib_key w : dot_free w → w ≠ [] → key_path (lit ".lib." ++ w) = [lit "lib"; w].
Proof.
  intros Hd Hn. unfold key_path, key_parts. rewrite !decide_False by done.
  change (tail (lit ".lib." ++ w)) with (lit "lib" ++ dot :: w).
  rewrite parts_app by (by apply (bool_decide_unpack _)). simpl. f_equal.
  pose proof (parts_app w [] [] Hd) as Hp. rewrite app_nil_r in Hp. rewrite Hp. simpl.
  by rewrite decide_False.
Qed.

Definition has_lib (x : tree) (w : cstr) : Prop := is_Some (tdata x [lit "lib"; w]).
#[export] Instance has_lib_dec x w : Decision (has_lib x w).
Proof. unfold has_lib. apply _. Defined.

Lemma cap_loop_Ok a size toks : ∀ ok,
  alocked a = false → Forall (λ w, w ≠ [] ∧ dot_free w ∧ strlen w + 5 < size)%Z toks →
  cap_loop size toks ok a = Ok a (ok && bool_decide (Forall (has_lib (atree a)) toks)).
Proof.
  induction toks as [|w toks IH]; intros ok Hl Hf; cbn [cap_loop].
  { by rewrite andb_true_r. }
  apply Forall_cons in Hf as [(Hn & Hd & Hs) Hf]. destruct ok; [|done].
  erewrite bind_Ok by (apply sprintf_Ok; unfold strlen in Hs; rewrite length_app; simpl; lia).
  erewrite bind_Ok by (by apply a_exist_Ok). rewrite IH by done. rewrite lib_key by done.
  f_equal. rewrite andb_true_l, <- bool_decide_and. apply bool_decide_ext.
  by rewrite Forall_cons.
Qed.

(** if every library name is at least five characters shorter than the list it is in,
    the daemon finds itself capable exactly if every name, with dots turned into
    underscores, is among its known libraries; the database does not change. *)
Theorem csc_cap_to_exec_spec s x libs :
  db_at s x → Forall (λ w, strlen w + 5 < strlen libs + 1)%Z (cap_names libs) →
  ∃ s', csc_cap_to_exec libs s = Ok s' (bool_decide (Forall (has_lib x) (cap_names libs))) ∧
    db_at s' x.
Proof.
  intros [Hx Hm] Hf. set (a := Adb x false (clock s)).
  assert (csc_cap_to_exec libs a = Ok a (bool_decide (Forall (has_lib x) (cap_names libs)))) as Ha.
  { unfold csc_cap_to_exec. rewrite cap_loop_Ok; [done|done|].
    rewrite Forall_forall in Hf |- *. intros w Hw. destruct (cap_names_ok libs w Hw).
    split_and!; [done..|]. by apply Hf. }
  assert (csdb_holds s a) as Hh by done.
  pose proof (csc_cap_to_exec_refines (S := csdb) libs s a Hh) as Hr. rewrite Ha in Hr.
  destruct Hr as (s' & -> & Hx' & Hm' & _). by exists s'.
Qed.

(** a request for a single library overflows the buffer of the key, which has room
    for the name but not for the prefix [.lib.] in front of it. *)
Theorem csc_cap_to_exec_overflow {S} `{!CsStore S} libs (s : S) :
  word [space; NL] libs → csc_cap_to_exec libs s = Stop OutOfBounds.
Proof.
  intros [Hn Hw]. unfold csc_cap_to_exec.
  assert (strtok [space; NL] (replace_dots libs) = [replace_dots libs]) as ->.
  { unfold strtok. rewrite <- (app_nil_r (replace_dots libs)) at 1.
    rewrite strtok_loop_app.
    - simpl. by rewrite decide_False by (by destruct libs).
    - unfold replace_dots. apply Forall_fmap. eapply Forall_impl; [exact Hw|].
      intros c Hc. simpl. case_decide; [by apply (bool_decide_unpack _)|done]. }
  cbn [cap_loop]. apply bind_Stop. unfold sprintf. rewrite decide_False; [done|].
  unfold strlen, replace_dots. rewrite length_app, length_fmap. simpl. lia.
Qed.
