(* ===== verification/Csm.v ===== *)
(** The client of the cs database (src/src/csm/csm.c): a terminal from which commands are
    sent to a csd.

    The client is linked with a copy of csp.c, src/src/csm/csp.c, which differs from that
    of the daemon in two missing [return] statements of functions whose results are not
    used.  The arrays of [csd_cli] keep what earlier commands left in them.  What the
    daemon does with a packet is the interface [CsdCall]; [csd_server] is the instance
    that is made of the daemon of this development. *)

From Stdlib Require Import ZArith Lia.
From stdpp Require Import base list gmap strings.
From S2P Require Import Prelude.
From S2P Require Import Cbuf.
From S2P Require Import Ctext.
From S2P Require Import CsdbStore.
From S2P Require Import Csp.
From S2P Require Import Csd.

Definition CS_NOP : Z := 5.

(** A packet is sent and the answer received: [None] if [recvfrom] returns -1. *)
Class CsdCall (S : Type) : Type := csd_request : list byte → M S (option (list byte)).

(** The variables of [csd_cli]: arrays of [MAXLINE] bytes, and the pointer [resp_data], an
    offset into [recvline] once it has been set. *)
Record csm : Type := Csm {
  c_type : buf;
  c_key : buf;
  c_value : buf;
  c_packet : buf;
  recvline : buf;
  resp_data : option Z
}.

(** [fgets(_, n + 1, fp)]: a line with its end, and what is left of the input. *)
Fixpoint fgets (n : nat) (input : cstr) : cstr * cstr :=
  match n, input with
  | Datatypes.S n, c :: input' =>
    if decide (c = NL) then ([c], input')
    else let '(l, rest) := fgets n input' in (c :: l, rest)
  | _, _ => ([], input)
  end.

(** The part of the line before its end. *)
Definition chomp (l : cstr) : cstr := (span (λ c, not_char NUL c && not_char NL c) l).1.

(** A conversion stores a string at the start of an array; one that fails stores nothing. *)
Definition store_str (a : buf) (v : option cstr) : option buf :=
  match v with Some s => buf_write a 0 (s ++ [NUL]) | None => Some a end.

(** ["%s %s %[^\n]s"] *)
Definition cli_format : list directive :=
  [DStr true; DSpace; DStr true; DSpace; DSet (not_char NL) None true; DLit (lit "s")].

(** [sscanf(fromuser, ..., type, key, value)] *)
Definition scan_command (fromuser : cstr) (c : csm) : option csm :=
  let vs := (sscanf cli_format fromuser).1 in
  t ← store_str (c_type c) (vs !! 0);
  k ← store_str (c_key c) (vs !! 1);
  v ← store_str (c_value c) (vs !! 2);
  mret (Csm t k v (c_packet c) (recvline c) (resp_data c)).

(** The type of the request; [None] for [quit]. *)
Definition cs_type_of (type : cstr) : option Z :=
  if decide (type = lit "set") then Some CS_SET
  else if decide (type = lit "get") then Some CS_GET
  else if decide (type = lit "del") then Some CS_DEL
  else if decide (type = lit "ls") then Some CS_LS
  else if decide (type = lit "cap") then Some CS_CAPEXEC
  else if decide (type = lit "quit") then None
  else Some CS_NOP.

Definition prompt : cstr := NL :: lit "csm> ".

Section csm.
Context {S : Type} `{!CsdCall S}.

(** The request and what is printed.  The value is passed to the packing function whatever
    the command is. *)
Definition cli_request (cs_type : Z) (c : csm) : M S (csm * cstr) :=
  key ← access (buf_str (c_key c) 0);
  value ← access (buf_str (c_value c) 0);
  '(packet, n) ← access (csp_pack_dbreq_packet (c_packet c) (Some key) (Some value) cs_type);
  out ← access (buf_read packet 0 n);
  answer ← csd_request out;
  recvline ← match answer with
             | Some b => access (buf_write (recvline c) 0 (take (Z.to_nat MAXLINE) b))
             | None => mret (recvline c)
             end;
  '(recvline, (_, resp_err, data)) ← access (csp_unpack_resp_packet recvline);
  let resp_data := match data with Some d => Some d | None => resp_data c end in
  text ← (if decide (resp_err = CS_RESP_SUCC) then
            match resp_data with
            | Some d => access (buf_str recvline d)
            | None => stop Uninit
            end
          else mret (lit "error from csd" ++ [NL]));
  mret (Csm (c_type c) (c_key c) (c_value c) packet recvline resp_data, text ++ prompt).

(** The two [memset]s at the end of a round. *)
Definition cli_clear (c : csm) : csm :=
  Csm (c_type c) (c_key c) (c_value c) (replicate (Z.to_nat MAXLINE) NUL)
      (replicate (Z.to_nat MAXLINE) NUL) (resp_data c).

(** A round of the loop for a line: [None] for [quit]. *)
Definition cli_line (fromuser : cstr) (c : csm) : M S (option (csm * cstr)) :=
  c ← access (scan_command (chomp fromuser) c);
  type ← access (buf_str (c_type c) 0);
  match cs_type_of type with
  | None => mret None
  | Some cs_type =>
    '(c, out) ← (if decide (cs_type ≠ CS_NOP) then cli_request cs_type c
                 else mret (c, lit "invalid action specified" ++ [NL]));
    mret (Some (cli_clear c, out))
  end.

(** [while(fgets(fromuser, MAXLINE, fp) != NULL)]: what is printed. *)
Fixpoint cli_loop (fuel : nat) (input : cstr) (c : csm) : M S cstr :=
  match fuel with
  | 0 => stop OutOfFuel
  | Datatypes.S fuel =>
    match input with
    | [] => mret []
    | _ =>
      let '(fromuser, rest) := fgets (Z.to_nat MAXLINE - 1) input in
      r ← cli_line fromuser c;
      match r with
      | None => mret []
      | Some (c, out) => outs ← cli_loop fuel rest c; mret (out ++ outs)
      end
    end
  end.

Definition csd_cli (input : cstr) (c : csm) : M S cstr :=
  outs ← cli_loop (Datatypes.S (length input)) input c;
  mret (prompt ++ outs).
End csm.

(** * The daemon as the server *)

(** The state is the database and the packet buffer of [cs_receive_packets].  A client
    waits for ever if nothing is sent back. *)
Definition csd_server {S} `{!CsStore S} (stack : buf) : CsdCall (S * buf) := λ bytes s,
  match cs_receive_packet stack s.2 (Some bytes) s.1 with
  | Ok db (packet, []) => Stop Deadlock
  | Ok db (packet, out) => Ok (db, packet) (Some out)
  | Stop f => Stop f
  end.
