(* ===== verification/CsmProps.v ===== *)
(** What a user of the client sees: sessions of csm with the daemon. *)

From Stdlib Require Import ZArith Lia.
From stdpp Require Import base list gmap strings.
From S2P Require Import Prelude.
From S2P Require Import Cbuf.
From S2P Require Import Ctext.
From S2P Require Import CsdbKey.
From S2P Require Import CsdbState.
From S2P Require Import Csdb.
From S2P Require Import CsdbSpec.
From S2P Require Import CsdbRep.
From S2P Require Import CsdbStore.
From S2P Require Import CsdbTrace.
From S2P Require Import Csp.
From S2P Require Import Csd.
From S2P Require Import CsdProps.
From S2P Require Import Csm.

(** A step whose result is known. *)
Ltac runs_done := apply runs_bind; eapply runs_eq; [done|]; cbn beta iota.

(** * Reading a command *)

(** A command word or a key as it can be typed. *)
Definition typed (w : cstr) : Prop := token w ∧ NUL ∉ w.
(** A value: the rest of the line. *)
Definition typed_value (v : cstr) : Prop :=
  (∃ b v', v = (b :: v') ∧ is_space b = false) ∧ (NUL ∉ v) ∧ (NL ∉ v).

Lemma not_char_true b c : c ≠ b → not_char b c = true.
Proof. intros. unfold not_char. by rewrite bool_decide_eq_false_2. Qed.

Lemma scan_typed w c s :
  typed w → is_space c = true → scan_s (w ++ c :: s) = Some (w, c :: s).
Proof. intros [Ht _] Hc. apply scan_token; [done|]. by intros ? [= <-]. Qed.

Lemma sscanf_key w key :
  typed w → typed key → sscanf cli_format (w ++ space :: key) = ([w; key], []).
Proof.
  intros Hw [Hk Hn]. unfold cli_format. cbn [sscanf]. rewrite (scan_typed w space) by done.
  pose proof (skip_space_token key [] Hk) as Hs. pose proof (scan_token key [] Hk) as Ht.
  rewrite app_nil_r in Hs, Ht. cbn [sscanf]. rewrite Hs. by rewrite Ht.
Qed.

Lemma sscanf_value w key v :
  typed w → typed key → typed_value v →
  sscanf cli_format (w ++ space :: key ++ space :: v) = ([w; key; v], []).
Proof.
  intros Hw Hk ((b & v' & -> & Hb) & _ & Hnl). unfold cli_format. cbn [sscanf].
  rewrite (scan_typed w space) by done. cbn [sscanf]. rewrite skip_space_token by apply Hk.
  rewrite (scan_typed key space) by done. cbn [sscanf].
  assert (skip_space (space :: b :: v') = b :: v') as -> by (simpl; by rewrite Hb).
  rewrite <- (app_nil_r (b :: v')). rewrite span_app; [|clear Hb|done].
  { cbn. by rewrite app_nil_r. }
  apply Forall_forall. intros c Hc. apply not_char_true. by intros ->.
Qed.

Lemma chomp_line l : NUL ∉ l → NL ∉ l → chomp (l ++ [NL]) = l.
Proof.
  intros H0 Hn. unfold chomp. rewrite span_app; [done| |].
  - apply Forall_forall. intros c Hc. rewrite !not_char_true; [done|by intros ->..].
  - by intros c [= <-].
Qed.

(** ** The arrays *)

Definition csm_sized (c : csm) : Prop :=
  Forall (λ b : buf, Z.of_nat (length b) = MAXLINE)
    [c_type c; c_key c; c_value c; c_packet c; recvline c].

Lemma csm_sized_clear c :
  Z.of_nat (length (c_type c)) = MAXLINE → Z.of_nat (length (c_key c)) = MAXLINE →
  Z.of_nat (length (c_value c)) = MAXLINE → csm_sized (cli_clear c).
Proof.
  intros. unfold csm_sized, cli_clear. repeat constructor; simpl; try done;
    by rewrite length_replicate.
Qed.

Lemma store_str_Ok (a : buf) s :
  NUL ∉ s → length s < length a →
  ∃ a', store_str a (Some s) = Some a' ∧ buf_str a' 0 = Some s ∧ length a' = length a.
Proof.
  intros Hn Hl. unfold store_str. exists (s ++ NUL :: drop (S (length s)) a). split_and!.
  - pose proof (buf_write_next [] a (s ++ [NUL]) 0 eq_refl) as H. rewrite !app_nil_l in H.
    rewrite H by buf_len. rewrite length_app. simpl. rewrite <- (assoc_L (++)).
    by rewrite Nat.add_1_r.
  - by apply (buf_str_app [] s).
  - buf_len.
Qed.

(** What a command leaves in the arrays; without a value the array keeps its contents. *)
Lemma scan_command_Ok l w key v c old :
  csm_sized c → buf_str (c_value c) 0 = Some old →
  (sscanf cli_format l).1 = w :: key :: option_list v →
  NUL ∉ w → NUL ∉ key → NUL ∉ default [] v →
  (strlen w < MAXLINE)%Z → (strlen key < MAXLINE)%Z → (strlen (default [] v) < MAXLINE)%Z →
  ∃ c', scan_command l c = Some c' ∧ csm_sized c' ∧ buf_str (c_type c') 0 = Some w ∧
    buf_str (c_key c') 0 = Some key ∧ buf_str (c_value c') 0 = Some (default old v) ∧
    c_packet c' = c_packet c ∧ recvline c' = recvline c ∧ resp_data c' = resp_data c.
Proof.
  unfold csm_sized, strlen. rewrite !Forall_cons.
  intros (Ht & Hk & Hv & Hp & Hr & _) Hold Hs Hnw Hnk Hnv Hlw Hlk Hlv.
  unfold scan_command. rewrite Hs. set (vs := w :: key :: option_list v).
  change (vs !! 0) with (Some w). change (vs !! 1) with (Some key).
  change (vs !! 2) with (option_list v !! 0). clearbody vs.
  destruct (store_str_Ok (c_type c) w) as (t & -> & Ht1 & Ht2); [done|lia|].
  destruct (store_str_Ok (c_key c) key) as (k & -> & Hk1 & Hk2); [done|lia|].
  assert (∃ b, store_str (c_value c) (option_list v !! 0) = Some b ∧
    buf_str b 0 = Some (default old v) ∧ length b = length (c_value c)) as (b & Hb & Hb1 & Hb2).
  { destruct v as [v|]; [|by exists (c_value c)]. apply store_str_Ok; [done|].
    cbn [default from_option id] in Hlv |- *. lia. }
  cbn [mbind option_bind]. rewrite Hb. eexists. split; [done|]. split_and!; [|done..].
  rewrite !Forall_cons. cbn [c_type c_key c_value c_packet recvline].
  by rewrite Ht2, Hk2, Hb2, Forall_nil.
Qed.

(** * Requests *)

Section request.
Context {S : Type} `{!CsdCall S}.

(** The packet of a request that is no set; [post] is what the value adds to its length. *)
Lemma cli_request_packet c t key old :
  csm_sized c → key ≠ [] → t ≠ CS_SET → (strlen key + strlen old + 9 < MAXLINE)%Z →
  ∃ p post, csp_pack_dbreq_packet (c_packet c) (Some key) (Some old) t =
      Some (p, 9 + strlen key + strlen old)%Z ∧
    buf_read p 0 (9 + strlen key + strlen old) = Some (dbreq_bytes t key None ++ post) ∧
    strlen (dbreq_bytes t key None ++ post) = (9 + strlen key + strlen old)%Z ∧
    Z.of_nat (length p) = MAXLINE.
Proof.
  unfold csm_sized. rewrite !Forall_cons. intros (_ & _ & _ & Hp & _) Hk Ht Hl.
  unfold MAXLINE, strlen in *.
  rewrite csp_pack_dbreq_packet_key; [|done|done|unfold strlen; simpl; lia|lia].
  set (rest := drop _ _). assert (length rest = 4096 - (6 + length key)) as Hrest.
  { subst rest. rewrite length_drop. lia. }
  assert (length (dbreq_bytes t key None) = 6 + length key) as Hd.
  { unfold dbreq_bytes. rewrite length_app, length_dbreq_key. simpl. lia. }
  eexists _, (take (3 + length old) rest). split_and!; [done| | |].
  - rewrite <- (take_drop (3 + length old) rest) at 1. rewrite (assoc_L (++)).
    apply (buf_read_app []); [done|]. rewrite length_app, length_take. unfold strlen. lia.
  - rewrite length_app, length_take. lia.
  - rewrite length_app. lia.
Qed.

(** A request that is answered with data. *)
Lemma cli_request_data c t key old v s (Q : S → Prop) :
  csm_sized c → buf_str (c_key c) 0 = Some key → buf_str (c_value c) 0 = Some old →
  key ≠ [] → t ≠ CS_SET → (strlen key + strlen old + 9 < MAXLINE)%Z →
  NUL ∉ v → (strlen v + 5 < MAXLINE)%Z →
  (∀ post, (strlen (dbreq_bytes t key None ++ post) < MAXLINE)%Z →
     runs (csd_request (dbreq_bytes t key None ++ post)) s (λ s' a,
       a = Some (resp_bytes CS_RESP_WDATA CS_RESP_SUCC v) ∧ Q s')) →
  runs (cli_request t c) s (λ s' '(c', out),
    out = v ++ prompt ∧ Q s' ∧ csm_sized (cli_clear c') ∧ c_value c' = c_value c ∧
    resp_data c' = Some 5%Z).
Proof.
  intros Hc Hkey Hold Hk Ht Hl Hv Hlv Hcall.
  destruct (cli_request_packet c t key old) as (p & post & Hpack & Hread & Hlen & Hp); [done..|].
  unfold csm_sized in Hc. rewrite !Forall_cons in Hc. destruct Hc as (Hct & Hck & Hcv & _ & Hr & _).
  unfold cli_request. rewrite Hkey. runs_done. rewrite Hold. runs_done. rewrite Hpack. runs_done.
  rewrite Hread. runs_done. apply runs_bind.
  eapply runs_mono; [apply Hcall; lia|]. intros s' a [-> Hs']. cbn beta iota.
  set (bytes := resp_bytes CS_RESP_WDATA CS_RESP_SUCC v).
  assert (length bytes = 5 + length v) as Hb by (subst bytes; unfold resp_bytes; buf_len).
  unfold strlen, MAXLINE in *.
  destruct (drop (length bytes) (recvline c)) as [|junk rest] eqn:E.
  { apply (f_equal length) in E. rewrite length_drop in E. simpl in E. lia. }
  rewrite take_ge by lia. pose proof (buf_write_next [] (recvline c) bytes 0 eq_refl) as Hw.
  rewrite app_nil_l in Hw. rewrite Hw, E, app_nil_l by lia. runs_done.
  destruct (csp_unpack_resp_packet_data CS_RESP_WDATA CS_RESP_SUCC v junk rest) as [Hu Hstr];
    [done|done|done|unfold strlen; lia|].
  fold bytes in Hu, Hstr. rewrite Hu. runs_done. rewrite decide_True by done. rewrite Hstr.
  runs_done. apply runs_ret. cbn beta iota. split_and!; [done..| |done|done].
  by apply csm_sized_clear.
Qed.

(** The packet of a set; one byte of its length follows the value. *)
Lemma cli_request_set_packet c key v :
  csm_sized c → key ≠ [] → v ≠ [] → (strlen key + strlen v + 9 < MAXLINE)%Z →
  ∃ p post, csp_pack_dbreq_packet (c_packet c) (Some key) (Some v) CS_SET =
      Some (p, 9 + strlen key + strlen v)%Z ∧
    buf_read p 0 (9 + strlen key + strlen v) = Some (dbreq_bytes CS_SET key (Some v) ++ post) ∧
    strlen (dbreq_bytes CS_SET key (Some v) ++ post) = (9 + strlen key + strlen v)%Z.
Proof.
  unfold csm_sized. rewrite !Forall_cons. intros (_ & _ & _ & Hp & _) Hk Hv Hl.
  unfold MAXLINE, strlen in *.
  rewrite csp_pack_dbreq_packet_set; [|done|done|unfold strlen; lia|lia].
  set (rest := drop _ _). assert (length rest = 4096 - (8 + length key + length v)) as Hrest.
  { subst rest. rewrite length_drop. lia. }
  assert (length (dbreq_bytes CS_SET key (Some v)) = 8 + length key + length v) as Hd.
  { unfold dbreq_bytes. rewrite length_app, length_dbreq_key. buf_len. simpl. lia. }
  eexists _, (take 1 rest). split_and!; [done| |].
  - rewrite <- (take_drop 1 rest) at 1. rewrite (assoc_L (++)).
    apply (buf_read_app []); [done|]. rewrite length_app, length_take. unfold strlen. lia.
  - rewrite length_app, length_take. lia.
Qed.

(** A set that is answered with success: the response has no data. *)
Lemma cli_request_set c key v s (Q : S → Prop) :
  csm_sized c → buf_str (c_key c) 0 = Some key → buf_str (c_value c) 0 = Some v →
  key ≠ [] → v ≠ [] → (strlen key + strlen v + 9 < MAXLINE)%Z →
  recvline c = replicate (Z.to_nat MAXLINE) NUL →
  (∀ post, (strlen (dbreq_bytes CS_SET key (Some v) ++ post) < MAXLINE)%Z →
     runs (csd_request (dbreq_bytes CS_SET key (Some v) ++ post)) s (λ s' a,
       a = Some (resp_ndata CS_RESP_SUCC) ∧ Q s')) →
  match resp_data c with
  | None => cli_request CS_SET c s = Stop Uninit
  | Some 5%Z =>
    runs (cli_request CS_SET c) s (λ s' '(c', out),
      out = prompt ∧ Q s' ∧ csm_sized (cli_clear c') ∧ c_value c' = c_value c ∧
      resp_data c' = Some 5%Z)
  | _ => True
  end.
Proof.
  intros Hc Hkey Hval Hk Hv Hl Hrecv Hcall.
  destruct (cli_request_set_packet c key v) as (p & post & Hpack & Hread & Hlen); [done..|].
  unfold csm_sized in Hc. rewrite !Forall_cons in Hc. destruct Hc as (Hct & Hck & Hcv & _ & _ & _).
  destruct (runs_inv _ _ _ (Hcall post ltac:(lia))) as (s' & a & Hreq & -> & Hs').
  assert (∃ r, cli_request CS_SET c s = match resp_data c with
      | None => Stop Uninit
      | Some d => (text ← access (buf_str r d); mret (Csm (c_type c) (c_key c) (c_value c) p r (Some d),
                    text ++ prompt)) s' end ∧ buf_str r 5 = Some [])
    as (r & Hr & Hstr).
  { eexists. unfold cli_request. rewrite Hkey. erewrite bind_Ok by done.
    rewrite Hval. erewrite bind_Ok by done. rewrite Hpack. erewrite bind_Ok by done.
    cbn beta iota. rewrite Hread. erewrite bind_Ok by done. erewrite bind_Ok by exact Hreq.
    cbn beta iota. rewrite Hrecv. erewrite bind_Ok by (vm_compute; done).
    erewrite bind_Ok by (vm_compute; done). cbn beta iota. rewrite decide_True by done. split.
    - destruct (resp_data c); [done|]. by apply bind_Stop.
    - by vm_compute. }
  destruct (resp_data c) as [[|[[|[]|]| |]|]|]; try done. unfold runs. rewrite Hr, Hstr.
  erewrite bind_Ok by done. cbn. split_and!; [done..| |done|done]. by apply csm_sized_clear.
Qed.

(** A line with a known command. *)
Lemma cli_line_eq line c c1 w t s :
  scan_command (chomp line) c = Some c1 → buf_str (c_type c1) 0 = Some w →
  cs_type_of w = Some t → t ≠ CS_NOP →
  cli_line line c s = ('(c', out) ← cli_request t c1; mret (Some (cli_clear c', out))) s.
Proof.
  intros Hs Hw Ht Hn. unfold cli_line. rewrite Hs. erewrite bind_Ok by done. rewrite Hw.
  erewrite bind_Ok by done. rewrite Ht. by rewrite decide_True.
Qed.
End request.

(** * The daemon answers *)

Section daemon.
Context (stack : buf).
Hypothesis Hstack : Z.of_nat (length stack) = CSP_MAXPACKET_SIZE.

(** The client on the abstract database. *)
Abbreviation a_server := (csd_server (S := adb) stack).

(** The state of a daemon that can be called. *)
Definition serving (x : tree) (t : Z) (s : adb * buf) : Prop :=
  s.1 = Adb x false t ∧ Z.of_nat (length s.2) = MAXLINE.

Lemma server_get x tm key d v post s :
  serving x tm s → csdb_is_valid_key key = true → NUL ∉ key → (strlen key < 2 ^ 16)%Z →
  tdata x (key_path key) = Some d → eleaf d = true → evalue d = Some v →
  (strlen v < CSP_MAXPACKET_SIZE - 4)%Z →
  (strlen (dbreq_bytes CS_GET key None ++ post) < MAXLINE)%Z →
  runs (a_server (dbreq_bytes CS_GET key None ++ post)) s (λ s' a,
    a = Some (resp_bytes CS_RESP_WDATA CS_RESP_SUCC v) ∧ serving x tm s').
Proof.
  intros [Hs Hp]. destruct s as [a packet]. simpl in Hs, Hp. subst a. intros.
  destruct (receive_get stack Hstack packet Hp (Adb x false tm) key d v post) as (m & Hm & Hlm);
    [done..|]. unfold runs, csd_server. cbn [fst snd]. rewrite Hm. cbn.
  split; [done|]. split; [done|]. simpl. by rewrite Hlm.
Qed.

Lemma server_set x tm key v post s :
  serving x tm s → csdb_is_valid_key key = true → NUL ∉ key → NUL ∉ v → v ≠ [] →
  (strlen key < 2 ^ 16)%Z → (strlen v < 2 ^ 16)%Z →
  (strlen (dbreq_bytes CS_SET key (Some v) ++ post) < MAXLINE)%Z →
  runs (a_server (dbreq_bytes CS_SET key (Some v) ++ post)) s (λ s' a,
    a = Some (resp_ndata CS_RESP_SUCC) ∧ serving (nset (key_path key) v tm x) tm s').
Proof.
  intros [Hs Hp]. destruct s as [a packet]. simpl in Hs, Hp. subst a. intros.
  destruct (receive_set stack Hstack packet Hp (Adb x false tm) key v post) as (m & Hm & Hlm);
    [done..|]. unfold runs, csd_server. cbn [fst snd]. rewrite Hm. cbn.
  split; [done|]. split; [done|]. simpl. by rewrite Hlm.
Qed.

(** * Commands *)

Definition get_line (key : cstr) : cstr := (lit "get" ++ space :: key) ++ [NL].
Definition set_line (key v : cstr) : cstr := (lit "set" ++ space :: key ++ space :: v) ++ [NL].

(** A client between two commands. *)
Definition ready (old : cstr) (c : csm) : Prop :=
  csm_sized c ∧ buf_str (c_value c) 0 = Some old ∧ resp_data c = Some 5%Z ∧
  recvline c = replicate (Z.to_nat MAXLINE) NUL.

(** What the command [line] prints and what it does to the database. *)
Definition prints (line : cstr) (c : csm) (s : adb * buf) (out : cstr) (x : tree) (tm : Z) (old : cstr) : Prop :=
  runs (cli_line (CsdCall0 := a_server) line c) s (λ s' r, ∃ c',
    r = Some (c', out) ∧ serving x tm s' ∧ ready old c').

Lemma no_byte b (l1 l2 : cstr) : b ∉ l1 → b ∉ l2 → b ∉ l1 ++ l2.
Proof. intros H1 H2 [?|?]%elem_of_app; auto. Qed.

Lemma typed_no_NL w : typed w → NL ∉ w.
Proof.
  intros [[_ Hw] _] Hin. rewrite Forall_forall in Hw. by specialize (Hw _ Hin).
Qed.

Lemma cli_get x tm key d v c old s :
  csm_sized c → buf_str (c_value c) 0 = Some old → serving x tm s →
  typed key → csdb_is_valid_key key = true → (strlen key + strlen old + 9 < MAXLINE)%Z →
  tdata x (key_path key) = Some d → eleaf d = true → evalue d = Some v →
  NUL ∉ v → (strlen v + 5 < MAXLINE)%Z →
  prints (get_line key) c s (v ++ prompt) x tm old.
Proof.
  intros Hc Hold Hs Hk Hvalid Hl Hd Hleaf Hval Hnv Hlv. pose proof Hk as [[Hne _] Hnul].
  unfold prints. assert (chomp (get_line key) = lit "get" ++ space :: key) as Hch.
  { apply chomp_line; (apply (no_byte _ (lit "get")); [by apply (bool_decide_unpack _)|];
      apply not_elem_of_cons; split; [done|]); [done|by apply typed_no_NL]. }
  unfold MAXLINE, strlen in *.
  destruct (scan_command_Ok (lit "get" ++ space :: key) (lit "get") key None c old)
    as (c1 & Hscan & Hc1 & Ht1 & Hk1 & Hv1 & Hp1 & Hr1 & _);
    [done|done|rewrite sscanf_key; [done| |done]; split; [split; [done|]|];
       by apply (bool_decide_unpack _)|by apply (bool_decide_unpack _)|done
    |by apply not_elem_of_nil|done|unfold strlen, MAXLINE; lia|done|].
  rewrite <- Hch in Hscan. unfold runs. erewrite cli_line_eq by done. apply runs_bind.
  eapply runs_mono; [apply (cli_request_data (CsdCall0 := a_server) c1 CS_GET key old v s
    (serving x tm) Hc1 Hk1 Hv1 Hne); [done|unfold strlen, MAXLINE; lia|done|unfold strlen, MAXLINE; lia|]|].
  - intros post Hpost. eapply server_get; try done; unfold strlen, CSP_MAXPACKET_SIZE; lia.
  - intros s' [c' out] (-> & Hs' & Hc' & Hcv & Hrd). apply runs_ret. eexists. split; [done|].
    split; [done|]. split_and!; [done| |done|done]. simpl. by rewrite Hcv.
Qed.

(** A set; [old] is what the array of the value held before. *)
Lemma cli_set x tm key v c old s :
  csm_sized c → buf_str (c_value c) 0 = Some old → serving x tm s →
  recvline c = replicate (Z.to_nat MAXLINE) NUL →
  typed key → csdb_is_valid_key key = true → typed_value v →
  (strlen key + strlen v + 9 < MAXLINE)%Z →
  match resp_data c with
  | None => cli_line (CsdCall0 := a_server) (set_line key v) c s = Stop Uninit
  | Some 5%Z => prints (set_line key v) c s prompt (nset (key_path key) v tm x) tm v
  | _ => True
  end.
Proof.
  intros Hc Hold Hs Hrecv Hk Hvalid Hv Hl. pose proof Hk as [[Hne _] Hnul].
  pose proof Hv as ((b & v' & Hbv & _) & Hvn & Hvl).
  assert (v ≠ []) as Hvne by by rewrite Hbv.
  unfold prints. assert (chomp (set_line key v) = lit "set" ++ space :: key ++ space :: v) as Hch.
  { apply chomp_line; (apply (no_byte _ (lit "set")); [by apply (bool_decide_unpack _)|];
      apply not_elem_of_cons; split; [done|]; apply no_byte; [|by apply not_elem_of_cons]);
    [done|by apply typed_no_NL]. }
  unfold MAXLINE, strlen in *.
  destruct (scan_command_Ok (lit "set" ++ space :: key ++ space :: v) (lit "set") key (Some v) c old)
    as (c1 & Hscan & Hc1 & Ht1 & Hk1 & Hv1 & Hp1 & Hr1 & Hd1);
    [done|done|rewrite sscanf_value; [done| |done|done]; split; [split; [done|]|];
       by apply (bool_decide_unpack _)|by apply (bool_decide_unpack _)|done
    |done|done|unfold strlen, MAXLINE; lia|unfold strlen, MAXLINE; simpl; lia|].
  rewrite <- Hch in Hscan.
  pose proof (cli_request_set (CsdCall0 := a_server) c1 key v s
    (serving (nset (key_path key) v tm x) tm) Hc1 Hk1 Hv1 Hne Hvne) as Hreq.
  specialize (Hreq ltac:(unfold strlen, MAXLINE; lia) ltac:(by rewrite Hr1)).
  specialize (Hreq ltac:(intros; apply server_set; try done; unfold strlen; lia)).
  rewrite Hd1 in Hreq.
  destruct (resp_data c) as [[|[[|[]|]| |]|]|]; try done.
  - unfold runs. erewrite cli_line_eq by done. apply runs_bind. eapply runs_mono; [exact Hreq|].
    intros s' [c' out] (-> & Hs' & Hc' & Hcv & Hrd). apply runs_ret. eexists. split; [done|].
    split; [done|]. split_and!; [done| |done|done]. simpl. by rewrite Hcv.
  - erewrite cli_line_eq by done. by apply bind_Stop.
Qed.
End daemon.

(** * Sessions *)

Section loop.
Context {S : Type} `{!CsdCall S}.

Lemma fgets_line n l rest : NL ∉ l → length l < n → fgets n (l ++ NL :: rest) = (l ++ [NL], rest).
Proof.
  revert n. induction l as [|b l IH]; intros [|n] Hl Hn; simpl in *; try lia; [done|].
  apply not_elem_of_cons in Hl as [Hb Hl]. rewrite decide_False by auto. by rewrite IH by (done || lia).
Qed.

Lemma fgets_shrinks n input : input ≠ [] → 0 < n → length (fgets n input).2 < length input.
Proof.
  intros Hne Hn. assert (∀ n input, length (fgets n input).2 ≤ length input) as Hle.
  { clear. induction n as [|n IH]; intros [|b input]; simpl; try lia.
    case_decide; simpl; [lia|]. specialize (IH input). destruct (fgets n input). simpl in *. lia. }
  destruct n as [|n]; [lia|]. destruct input as [|b input]; [done|]. simpl.
  case_decide; simpl; [lia|]. specialize (Hle n input). destruct (fgets n input). simpl in *. lia.
Qed.

Lemma cli_loop_line fuel l rest c s (Q : S → cstr → Prop) :
  NL ∉ l → (strlen l < MAXLINE - 1)%Z →
  runs (cli_line (l ++ [NL]) c) s (λ s' r,
    ∃ c' out, r = Some (c', out) ∧
      runs (cli_loop fuel rest c') s' (λ s'' outs, Q s'' (out ++ outs))) →
  runs (cli_loop (Datatypes.S fuel) ((l ++ [NL]) ++ rest) c) s Q.
Proof.
  unfold strlen, MAXLINE. intros Hl Hlen Hrun. cbn [cli_loop].
  rewrite <- (assoc_L (++)). cbn [app]. rewrite fgets_line by (done || unfold MAXLINE; lia).
  destruct (l ++ NL :: rest) as [|b i] eqn:E; [by destruct l|]. apply runs_bind.
  eapply runs_mono; [exact Hrun|]. intros s' r (c' & out & -> & Hr). cbn beta iota.
  apply runs_bind. eapply runs_mono; [exact Hr|]. intros s'' outs HQ. by apply runs_ret.
Qed.
End loop.

(** ** The client on the code of the database does what it does on the abstract one *)

Section refine.
Context {S T : Type} `{!CsdCall S, !CsdCall T} (R : S → T → Prop).
Hypothesis Hcall : ∀ b, refines R (csd_request (S := S) b) (csd_request b).
Hint Resolve Hcall : refine.

Lemma cli_request_refines t c : refines R (cli_request (S := S) t c) (cli_request t c).
Proof. unfold cli_request. refine_auto. Qed.
Hint Resolve cli_request_refines : refine.

Lemma cli_line_refines l c : refines R (cli_line (S := S) l c) (cli_line l c).
Proof. unfold cli_line. refine_auto. Qed.
Hint Resolve cli_line_refines : refine.

Lemma cli_loop_refines fuel : ∀ input c,
  refines R (cli_loop (S := S) fuel input c) (cli_loop fuel input c).
Proof. induction fuel; intros input c; cbn [cli_loop]; refine_auto. Qed.
Hint Resolve cli_loop_refines : refine.

Lemma csd_cli_refines input c : refines R (csd_cli (S := S) input c) (csd_cli input c).
Proof. unfold csd_cli. refine_auto. Qed.
End refine.

Definition holds_server (s : csdb * buf) (a : adb * buf) : Prop :=
  csdb_holds s.1 a.1 ∧ s.2 = a.2.

Lemma csd_server_refines stack b :
  refines holds_server (csd_server (S := csdb) stack b) (csd_server (S := adb) stack b).
Proof.
  intros [s p] [a q] [Hs Hp]. simpl in *. subst q. unfold csd_server. simpl.
  pose proof (cs_receive_packet_refines (S := csdb) stack p (Some b) s a Hs) as Hr.
  destruct (cs_receive_packet stack p (Some b) a) as [a' [q [|o out]]|f].
  - by destruct Hr as (s' & -> & _).
  - destruct Hr as (s' & -> & Hr). by exists (s', q).
  - by rewrite Hr.
Qed.

Lemma get_line_ok key : typed key → (strlen key + 9 < MAXLINE)%Z →
  (NL ∉ lit "get" ++ space :: key) ∧ (strlen (lit "get" ++ space :: key) < MAXLINE - 1)%Z.
Proof.
  unfold strlen. intros Hk Hl. split.
  - apply (no_byte _ (lit "get")); [by apply (bool_decide_unpack _)|].
    apply not_elem_of_cons. split; [done|]. by apply typed_no_NL.
  - rewrite length_app. simpl. lia.
Qed.

Lemma set_line_ok key v : typed key → typed_value v → (strlen key + strlen v + 9 < MAXLINE)%Z →
  (NL ∉ lit "set" ++ space :: key ++ space :: v) ∧
  (strlen (lit "set" ++ space :: key ++ space :: v) < MAXLINE - 1)%Z.
Proof.
  unfold strlen. intros Hk (_ & _ & Hv) Hl. split.
  - apply (no_byte _ (lit "set")); [by apply (bool_decide_unpack _)|].
    apply not_elem_of_cons. split; [done|]. apply no_byte; [by apply typed_no_NL|].
    by apply not_elem_of_cons.
  - rewrite length_app. cbn [length]. rewrite length_app. simpl. lia.
Qed.

Section session.
Context (stack : buf).
Hypothesis Hstack : Z.of_nat (length stack) = CSP_MAXPACKET_SIZE.
Abbreviation a_server := (csd_server (S := adb) stack).

Lemma prints_loop fuel l rest c s out x tm old (Q : adb * buf → cstr → Prop) :
  NL ∉ l → (strlen l < MAXLINE - 1)%Z → prints stack (l ++ [NL]) c s out x tm old →
  (∀ s' c', serving x tm s' → ready old c' →
     runs (cli_loop (CsdCall0 := a_server) fuel rest c') s' (λ s'' outs, Q s'' (out ++ outs))) →
  runs (cli_loop (CsdCall0 := a_server) (Datatypes.S fuel) ((l ++ [NL]) ++ rest) c) s Q.
Proof.
  intros Hl Hlen Hp Hrest. apply cli_loop_line; [done..|].
  eapply runs_mono; [exact Hp|]. intros s' r (c' & -> & Hs' & Hc'). eauto.
Qed.

Lemma a_session x tm packet c old key1 d v1 key v :
  Z.of_nat (length packet) = MAXLINE → csm_sized c → buf_str (c_value c) 0 = Some old →
  typed key1 → csdb_is_valid_key key1 = true → (strlen key1 + strlen old + 9 < MAXLINE)%Z →
  tdata x (key_path key1) = Some d → eleaf d = true → evalue d = Some v1 →
  NUL ∉ v1 → (strlen v1 + 5 < MAXLINE)%Z →
  typed key → csdb_is_valid_key key = true → typed_value v → (strlen key + strlen v + 9 < MAXLINE)%Z →
  runs (csd_cli (CsdCall0 := a_server) (get_line key1 ++ set_line key v ++ get_line key) c)
    (Adb x false tm, packet) (λ s' out,
      out = prompt ++ (v1 ++ prompt) ++ prompt ++ (v ++ prompt) ∧
      atree s'.1 = nset (key_path key) v tm x).
Proof.
  intros Hp Hc Hold Hk1 Hv1 Hl1 Hd Hleaf Hval Hn1 Hlv1 Hk Hv Htv Hl.
  set (x' := nset (key_path key) v tm x). assert (serving x tm (Adb x false tm, packet)) as Hs by done.
  destruct (get_line_ok key1) as [? ?]; [done|unfold strlen in *; lia|].
  destruct (get_line_ok key) as [? ?]; [done|unfold strlen in *; lia|].
  destruct (set_line_ok key v) as [? ?]; [done..|].
  unfold csd_cli. apply runs_bind.
  assert (∃ n, length (get_line key1 ++ set_line key v ++ get_line key) = S (S (S n))) as (n & ->).
  { exists (length (get_line key1 ++ set_line key v ++ get_line key) - 3).
    unfold get_line, set_line. rewrite !length_app. simpl. lia. }
  rewrite <- (app_nil_r (get_line key)).
  eapply prints_loop; [done..|eapply (cli_get stack Hstack x tm key1 d v1); done|]. intros s1 c1 Hs1 (Hc1 & Hold1 & Hr1 & Hz1).
  pose proof (cli_set stack Hstack x tm key v c1 old s1 Hc1 Hold1 Hs1 Hz1 Hk Hv Htv Hl) as Hset.
  rewrite Hr1 in Hset.
  eapply prints_loop; [done..|exact Hset|]. intros s2 c2 Hs2 (Hc2 & Hold2 & _).
  pose proof Htv as (_ & Hvn & _).
  eapply prints_loop; [done..| |].
  - apply (cli_get stack Hstack x' tm key (put_value v tm (default (new_data
      (default [] (last (key_path key))) tm) (tdata x (key_path key)))) v c2 v s2); try done.
    + unfold x'. rewrite tdata_nset. by rewrite decide_True.
    + unfold strlen in *. lia.
  - intros s3 c3 [Hs3 _] _. cbn [cli_loop]. apply runs_ret. apply runs_ret. split.
    + by rewrite app_nil_r.
    + by rewrite Hs3.
Qed.
End session.

(** C12: a user gets a key, sets a key and gets it, in a new client whose arrays hold anything:
    the client prints the value in the database, nothing for the set, and the new value,
    and the database of the daemon is the one with the new value. *)
Theorem csm_session s x stack packet c old key1 d v1 key v :
  db_at s x → Z.of_nat (length stack) = CSP_MAXPACKET_SIZE → Z.of_nat (length packet) = MAXLINE →
  csm_sized c → buf_str (c_value c) 0 = Some old →
  typed key1 → csdb_is_valid_key key1 = true → (strlen key1 + strlen old + 9 < MAXLINE)%Z →
  tdata x (key_path key1) = Some d → eleaf d = true → evalue d = Some v1 →
  NUL ∉ v1 → (strlen v1 + 5 < MAXLINE)%Z →
  typed key → csdb_is_valid_key key = true → typed_value v → (strlen key + strlen v + 9 < MAXLINE)%Z →
  runs (csd_cli (CsdCall0 := csd_server stack) (get_line key1 ++ set_line key v ++ get_line key) c)
    (s, packet) (λ s' out,
      out = prompt ++ (v1 ++ prompt) ++ prompt ++ (v ++ prompt) ∧
      db_rep s'.1 (nset (key_path key) v (clock s) x)).
Proof.
  intros [Hx Hm] Hst Hp. intros.
  eapply runs_mono.
  - eapply (refines_runs holds_server _ _ (s, packet) (Adb x false (clock s), packet));
      [apply (csd_cli_refines (CsdCall1 := csd_server stack)), csd_server_refines|by split|].
    by eapply a_session.
  - intros s' out (a' & [(Hx' & _) _] & -> & Ha'). split; [done|]. by rewrite <- Ha'.
Qed.

(** a new client that starts with a set prints through a pointer that was never set. *)
Theorem csm_first_set s x stack packet c old key v rest :
  db_at s x → Z.of_nat (length stack) = CSP_MAXPACKET_SIZE → Z.of_nat (length packet) = MAXLINE →
  csm_sized c → buf_str (c_value c) 0 = Some old → resp_data c = None →
  recvline c = replicate (Z.to_nat MAXLINE) NUL →
  typed key → csdb_is_valid_key key = true → typed_value v → (strlen key + strlen v + 9 < MAXLINE)%Z →
  csd_cli (CsdCall0 := csd_server stack) (set_line key v ++ rest) c (s, packet) = Stop Uninit.
Proof.
  intros [Hx Hm] Hst Hp Hc Hold Hrd Hz Hk Hv Htv Hl.
  destruct (set_line_ok key v) as [? ?]; [done..|].
  assert (holds_server (s, packet) (Adb x false (clock s), packet)) as Hs by by split.
  pose proof (csd_cli_refines (CsdCall1 := csd_server stack) holds_server (csd_server_refines stack)
    (set_line key v ++ rest) c _ _ Hs) as Hr.
  assert (csd_cli (CsdCall0 := csd_server stack) (set_line key v ++ rest) c
    (Adb x false (clock s), packet) = Stop Uninit) as Ha; [|by rewrite Ha in Hr].
  pose proof (cli_set stack Hst x (clock s) key v c old (Adb x false (clock s), packet)
    Hc Hold ltac:(done) Hz Hk Hv Htv Hl) as Hset. rewrite Hrd in Hset.
  unfold csd_cli. apply bind_Stop. cbn [cli_loop]. unfold set_line in *.
  rewrite <- (assoc_L (++)). cbn [app].
  rewrite fgets_line by (done || unfold strlen, MAXLINE in *; lia).
  destruct (_ ++ NL :: rest) as [|b i] eqn:E; [done|]. by apply bind_Stop.
Qed.

(** * Termination *)

Section total.
Context {S : Type} `{!CsdCall S}.

Lemma never_access {A} f (o : option A) (s : S) : f ≠ OutOfBounds → access o s ≠ Stop f.
Proof. intros Hf. destruct o; unfold access, stop; [done|congruence]. Qed.

Lemma never_bind {A B} f (m : M S A) (k : A → M S B) s :
  m s ≠ Stop f → (∀ a s', k a s' ≠ Stop f) → (m ≫= k) s ≠ Stop f.
Proof. unfold mbind, M_bind. destruct (m s); [auto|congruence]. Qed.

Hypothesis Hcall : ∀ b s, csd_request b s ≠ Stop OutOfFuel.

Lemma cli_request_total t c s : cli_request t c s ≠ Stop OutOfFuel.
Proof.
  unfold cli_request.
  repeat match goal with
  | |- (_ ≫= _) _ ≠ _ => apply never_bind; [|intros ? ?]
  | |- access _ _ ≠ _ => by apply never_access
  | |- csd_request _ _ ≠ _ => apply Hcall
  | |- (match ?x with _ => _ end) _ ≠ _ => destruct x
  | |- _ => done
  end.
Qed.

Lemma cli_line_total l c s : cli_line l c s ≠ Stop OutOfFuel.
Proof.
  unfold cli_line. apply never_bind; [by apply never_access|intros c1 s1].
  apply never_bind; [by apply never_access|intros w s2]. destruct (cs_type_of w); [|done].
  apply never_bind; [|by intros [] ?]. case_decide; [apply cli_request_total|done].
Qed.

(** the client comes to the end of its input, one line in each round, unless it stops before:
    as many rounds as the input has characters are enough, whatever the input and the
    answers are. *)
Theorem csd_cli_total input c s : csd_cli input c s ≠ Stop OutOfFuel.
Proof.
  unfold csd_cli. apply never_bind; [|done].
  assert (∀ fuel input c s, length input < fuel → cli_loop fuel input c s ≠ Stop OutOfFuel) as Hloop;
    [|apply Hloop; lia].
  clear input c s. induction fuel as [|fuel IH]; intros input c s Hf; [lia|]. cbn [cli_loop].
  destruct input as [|b input]; [done|].
  pose proof (fgets_shrinks (Z.to_nat MAXLINE - 1) (b :: input) ltac:(done)
    ltac:(unfold MAXLINE; lia)) as Hs.
  destruct (fgets _ _) as [l rest]. cbn [snd] in Hs.
  apply never_bind; [apply cli_line_total|]. intros [[c' out]|] s'; [|done].
  apply never_bind; [|done]. apply IH. lia.
Qed.
End total.
