(* ===== verification/Csc.v ===== *)
(** The collector of the csd daemon (src/src/csd/csc.c), and the requests to other
    nodes (src/src/csd/csd.c, lines 83-242) it makes.

    What comes from outside the daemon are parameters: the answer of a node to a packet,
    the name of this host, the contents of the files that are read and the output of
    the dynamic linker.  [stack] is what a buffer on the stack holds before it is
    written, and [slack] what follows a block of the heap. *)

From Stdlib Require Import ZArith Lia.
From stdpp Require Import base list gmap strings.
From S2P Require Import Prelude Cbuf Ctext CsdbKey CsdbSpec CsdbStore Csp Csd.

Definition VSIZE : Z := 256.

(** What happens to a request: the name of the node is not known, it cannot be sent,
    there is no answer within five seconds, the answer cannot be received, or there is
    one. *)
Inductive net_result : Type :=
  NetNoHost | NetSendFail | NetTimeout | NetRecvFail | NetResp (bytes : list byte).

(** The outside world. *)
Record world : Type := World {
  net : cstr → list byte → net_result;  (* node, packet *)
  hostname : cstr;                      (* getenv("HOSTNAME") *)
  file : cstr → option cstr;            (* contents of a file *)
  ld_list : cstr → cstr;                (* ld-linux.so.2 --list <app> *)
  ldconfig : cstr;                      (* ldconfig -p *)
  stack : buf;                          (* a response buffer before it is written *)
  slack : list byte                     (* the bytes after a heap block *)
}.

Section csc.
Context {S : Type} `{!CsStore S} (w : world).

(** * Requests to other nodes *)

(** The response of a node in the buffer of [MAXLINE] bytes: the type, the error and, if
    it has data, the string.  [recvfrom] stores at most [MAXLINE] bytes. *)
Definition unpack_response (bytes : list byte) : M S (Z * Z * option cstr) :=
  p ← access (buf_write (stack w) 0 (take (Z.to_nat MAXLINE) bytes));
  '(p, (type, err, data)) ← access (csp_unpack_resp_packet p);
  match data with
  | Some d => s ← access (buf_str p d); mret (type, err, Some s)
  | None => mret (type, err, None)
  end.

(** The pointer [resp_data] has no value if the response has no data, and neither has
    the result if the data starts with another character than 0 or 1. *)
Definition cs_do_cap_request_for_node (node_name libs : cstr) : M S Z :=
  '(req, n) ← access (csp_pack_capreq_packet
    (replicate (Z.to_nat (strlen libs + 1 + CSP_CAPREQ_HDR_SIZE)) NUL) CS_CAPEXEC libs);
  match net w node_name (take (Z.to_nat n) (req ++ slack w)) with
  | NetNoHost => mret (-1)%Z
  | NetSendFail => mret (-1)%Z
  | NetTimeout => _ ← csc_node_not_alive (Some node_name); mret (-1)%Z
  | NetRecvFail => _ ← csc_node_not_alive (Some node_name); mret (-1)%Z
  | NetResp bytes =>
    '(_, _, resp_data) ← unpack_response bytes;
    match resp_data with
    | None => stop Uninit
    | Some d =>
      if decide (head d = Some (byte_of 48)) then mret 0%Z
      else if decide (head d = Some (byte_of 49)) then mret 1%Z
      else stop Uninit
    end
  end.

Definition cs_do_db_request_for_node (node_name key : cstr) : M S Z :=
  '(req, n) ← access (csp_pack_dbreq_packet
    (replicate (Z.to_nat (strlen key + 1 + CSP_DBREQ_HDR_SIZE)) NUL) (Some key) None CS_GET);
  match net w node_name (take (Z.to_nat n) (req ++ slack w)) with
  | NetNoHost => mret (-1)%Z
  | NetSendFail => mret (-1)%Z
  | NetTimeout => _ ← csc_node_not_alive (Some node_name); mret (-1)%Z
  | NetRecvFail => _ ← csc_node_not_alive (Some node_name); mret (-1)%Z
  | NetResp bytes =>
    '(_, cs_resp_err, resp_data) ← unpack_response bytes;
    if decide (cs_resp_err = CS_RESP_SUCC) then
      match resp_data with
      | None => stop Uninit
      | Some d => _ ← db_set key d; mret 0%Z
      end
    else mret (-1)%Z
  end.

(** [while(req != NULL && strcmp(this_hostname, node) != 0)] for one node *)
Fixpoint def_req_loop (node : cstr) (reqs : list cstr) : M S unit :=
  match reqs with
  | [] => mret ()
  | req :: reqs =>
    if decide (hostname w = node) then mret ()
    else
      key ← sprintf KSIZE (lit ".node." ++ node ++ req);
      error ← cs_do_db_request_for_node node key;
      if decide (error < 0)%Z then mret () else def_req_loop node reqs
  end.

Fixpoint def_req_nodes (nodes : list cstr) (req_str : cstr) : M S unit :=
  match nodes with
  | [] => mret ()
  | node :: nodes =>
    _ ← def_req_loop node (strtok [space] req_str);
    def_req_nodes nodes req_str
  end.

Definition csc_do_def_req_for_alive_nodes : M S Z :=
  '(nr_nodes, alive_nodes, _) ← db_names (lit ".alive") true false;
  if decide (nr_nodes < 1)%Z then mret (-1)%Z
  else
    '(error, req_str) ← db_get (lit ".config.def_db_req");
    match req_str with
    | Some r =>
      if decide (error < 0)%Z then mret (-1)%Z
      else _ ← def_req_nodes (default [] alive_nodes) r; mret 0%Z
    | None => mret (-1)%Z
    end.

(** * Files *)

(** Append to the value of a key, or set it if there is none: the idiom of all the
    functions that build up a list. *)
Definition append_or_set (key v : cstr) : M S unit :=
  e ← db_exist key;
  _ ← (if e : bool then db_append key v (Some [space]) else db_set key v);
  mret ().

Fixpoint append_all (key : cstr) (vs : list cstr) : M S unit :=
  match vs with
  | [] => mret ()
  | v :: vs => _ ← append_or_set key v; append_all key vs
  end.

(** [open], [fstat] and [mmap] of a file; the mapping of an empty file is no memory that
    can be read. *)
Definition map_file (path : cstr) : M S (option cstr) :=
  match file w path with
  | None => mret None
  | Some [] => stop BadPtr
  | Some map => mret (Some map)
  end.

(** [None]: the daemon exits because the file cannot be opened. *)
Definition csc_read_default_db_requests_from_file (path : cstr) : M S (option Z) :=
  m ← map_file path;
  match m with
  | None => mret None
  | Some map =>
    _ ← append_all (lit ".config.def_db_req") (strtok [NL] map);
    mret (Some 0%Z)
  end.

(** ** Libraries of an application *)

(** [strrchr(name, '/')] and the copy of what follows *)
Fixpoint after_slash (acc s : cstr) : cstr :=
  match s with
  | [] => acc
  | c :: s => if decide (c = slash) then after_slash s s else after_slash acc s
  end.
Definition base_name (name : cstr) : cstr := after_slash name name.

(** The loop over the output of the linker: [%s %*s %s], then the rest of the line. *)
Fixpoint scan_libs_loop (fuel : nat) (key text : cstr) : M S unit :=
  match fuel with
  | 0 => stop OutOfFuel
  | Datatypes.S fuel =>
    match sscanf [DStr true; DSpace; DStr false; DSpace; DStr true] text with
    | ([name; path], rest) =>
      name ← sprintf VSIZE name;
      _ ← sprintf VSIZE path;
      let rest := (span (λ c, not_char NL c && not_char (byte_of 9) c) rest).2 in
      _ ← append_or_set key (base_name name);
      scan_libs_loop fuel key rest
    | _ => mret ()
    end
  end.

Definition csc_scan_libs_for_app (appname : cstr) : M S Z :=
  key ← sprintf KSIZE (lit ".app." ++ appname ++ lit ".lib");
  _ ← sprintf VSIZE (lit "/lib/ld-linux.so.2 --list " ++ appname);
  e ← db_exist key;
  _ ← (if e : bool then db_remove key else mret 0%Z);
  _ ← scan_libs_loop (Datatypes.S (length (ld_list w appname))) key (ld_list w appname);
  mret 0%Z.

Fixpoint registered_loop (apps : list cstr) : M S unit :=
  match apps with
  | [] => mret ()
  | app_path :: apps =>
    key ← sprintf 256 (lit ".app." ++ app_path);
    e ← db_exist key;
    _ ← (if e : bool then mret 0%Z else csc_scan_libs_for_app app_path);
    registered_loop apps
  end.

Definition csc_read_registered_apps_from_file (path : cstr) : M S Z :=
  m ← map_file path;
  match m with
  | None => mret (-1)%Z
  | Some map => _ ← registered_loop (strtok [NL] map); mret 0%Z
  end.

(** ** Libraries of this node *)

(** [strstr(s, pat)]: the text from the first occurrence on *)
Fixpoint find_str (pat s : cstr) : option cstr :=
  match strip_prefix pat s with
  | Some _ => Some s
  | None => match s with [] => None | _ :: s' => find_str pat s' end
  end.

(** The text up to the next [b], and what follows it; [None] if there is none. *)
Definition cut_at (b : byte) (s : cstr) : option (cstr * cstr) :=
  match span (not_char b) s with
  | (line, _ :: rest) => Some (line, rest)
  | (_, []) => None
  end.

(** One line [name (type) => path] of the cache of the linker. *)
Definition scan_lib (name type : cstr) : M S unit :=
  key ← sprintf 256 (lit ".lib." ++ name);
  e ← db_exist key;
  '(err, type_value) ← (if e : bool then db_get key else mret ((-1)%Z, None));
  if decide (err >= 0)%Z then
    match find_str type (default [] type_value) with
    | None => _ ← db_append key type (Some [space]); mret ()
    | Some _ => mret ()
    end
  else _ ← db_set key type; mret ().

(** [while( *start != 0)]; [vals] are the arrays [name], [type] and [path], which keep
    their contents when a conversion fails. *)
Fixpoint ldconfig_loop (fuel : nat) (start : cstr) (vals : list cstr) : M S unit :=
  match fuel with
  | 0 => stop OutOfFuel
  | Datatypes.S fuel =>
    match start with
    | [] => mret ()
    | _ =>
      '(line, rest) ← access (cut_at NL start);
      _ ← sprintf 256 line;
      let new := (sscanf [DStr true; DSpace; DStr true; DSpace; DStr false; DSpace; DStr true]
                    start).1 in
      match new ++ drop (length new) vals with
      | name :: type :: others =>
        name ← sprintf 256 name;
        type ← sprintf 256 type;
        _ ← sprintf 256 (default [] (head others));
        let name := replace_dots name in
        _ ← scan_lib name type;
        ldconfig_loop fuel rest (name :: type :: others)
      | _ => stop Uninit
      end
    end
  end.

Definition csc_scan_libs : M S Z :=
  '(_, start) ← access (cut_at (byte_of 9) (ldconfig w));
  _ ← ldconfig_loop (Datatypes.S (length start)) start [];
  mret 0%Z.

(** ** Dump and restore *)

(** The text that is written to the file. *)
Definition csc_dump_db_to_file (can_open : bool) (key : cstr) : M S (Z * cstr) :=
  if can_open then '(_, text) ← db_dump key; mret (0%Z, text) else mret ((-1)%Z, []).

(** [strchr(line, '=')] cuts the line. *)
Definition cut_line (line : cstr) : option (cstr * cstr) := cut_at equals line.

Fixpoint read_db_loop (lines : list cstr) : M S unit :=
  match lines with
  | [] => mret ()
  | line :: lines =>
    _ ← match cut_line line with
        | Some (key, value) => _ ← db_set key value; mret ()
        | None => mret ()
        end;
    read_db_loop lines
  end.

Definition csc_read_db_from_file (path : cstr) : M S Z :=
  m ← map_file path;
  match m with
  | None => mret (-1)%Z
  | Some map => _ ← read_db_loop (strtok [NL] map); mret 0%Z
  end.

(** * Applications and their capable nodes *)

Definition csc_get_libs_for_app (appname : cstr) : M S (Z * option cstr) :=
  key ← sprintf KSIZE (lit ".app." ++ appname ++ lit ".lib");
  db_get key.

(** [while(node != NULL)]: an error from a node ends the loop. *)
Fixpoint cap_nodes_loop (key libs : cstr) (nodes : list cstr) : M S unit :=
  match nodes with
  | [] => mret ()
  | node :: nodes =>
    error ← cs_do_cap_request_for_node node libs;
    _ ← (if decide (error > 0)%Z then append_or_set key node else mret ());
    if decide (error = -1)%Z then mret () else cap_nodes_loop key libs nodes
  end.

(** The pointer to the names is freed also when there are none and it has no value. *)
Definition csc_update_cap_nodes_for_app (app : cstr) : M S Z :=
  '(_, libs_for_app) ← csc_get_libs_for_app app;
  match libs_for_app with
  | None => mret (-1)%Z
  | Some libs =>
    '(nr_nodes, _, alive_nodes) ← db_names (lit ".alive") false true;
    key ← sprintf KSIZE (lit ".app." ++ app ++ lit ".capnodes");
    _ ← db_remove key;
    match alive_nodes with
    | None => stop Uninit
    | Some nodes =>
      _ ← (if decide (nr_nodes > 0)%Z then cap_nodes_loop key libs (strtok [space] nodes)
           else mret ());
      mret 0%Z
    end
  end.

Fixpoint cap_apps_loop (apps : list cstr) : M S unit :=
  match apps with
  | [] => mret ()
  | app :: apps => _ ← csc_update_cap_nodes_for_app app; cap_apps_loop apps
  end.

Definition csc_update_cap_nodes_for_apps : M S Z :=
  '(nr_apps, apps, _) ← db_names (lit ".app") true false;
  if decide (nr_apps <= 0)%Z then mret (-1)%Z
  else _ ← cap_apps_loop (default [] apps); mret 0%Z.

(** * Values of this node *)

(** [read] of at most 4096 bytes; the last byte is cut off.  The copy of one byte more
    than was read leaves the buffer if it is full and has no NUL. *)
Definition csc_get_procval (filename : cstr) : M S (option cstr) :=
  match file w filename with
  | None => mret None
  | Some text =>
    let buffer := take 4096 text in
    if decide (buffer = [] ∨ (length buffer = 4096 ∧ NUL ∉ buffer)) then stop OutOfBounds
    else v ← access (until_nul (take (length buffer - 1) buffer ++ [NUL])); mret (Some v)
  end.

(** [sprintf(key, ".node.%s<suffix>", hostname); csdb_set_value_for_key(key, v)] for a
    list of suffixes and values *)
Fixpoint set_values (prefix : cstr) (vs : list (cstr * cstr)) : M S unit :=
  match vs with
  | [] => mret ()
  | (suffix, v) :: vs =>
    key ← sprintf KSIZE (lit ".node." ++ hostname w ++ prefix ++ suffix);
    _ ← db_set key v;
    set_values prefix vs
  end.

(** The conversions go to arrays of 20 bytes. *)
Fixpoint fit20 (vs : list cstr) : M S (list cstr) :=
  match vs with
  | [] => mret []
  | v :: vs => v ← sprintf 20 v; vs ← fit20 vs; mret (v :: vs)
  end.

(** ["%s %s %s %[^/]%*1[^ ]%s %s"] *)
Definition load_format : list directive :=
  [DStr true; DSpace; DStr true; DSpace; DStr true; DSpace; DSet (not_char slash) None true;
   DSet (not_char space) (Some 1) false; DStr true; DSpace; DStr true].

Definition csc_set_load : M S Z :=
  loadavg ← csc_get_procval (lit "/proc/loadavg");
  match loadavg with
  | None => mret (-1)%Z
  | Some loadavg =>
    vs ← fit20 (sscanf load_format loadavg).1;
    match vs with
    | [savg1; savg5; savg15; srun; snop; spid] =>
      _ ← set_values [] [(lit ".load.avg1", savg1); (lit ".load.avg5", savg5);
        (lit ".load.avg15", savg15); (lit ".load.nop", snop); (lit ".load.active", srun);
        (lit ".load.lastpid", spid)];
      mret 0%Z
    | _ => stop Uninit
    end
  end.

Definition csc_set_uptime : M S Z :=
  uptime ← csc_get_procval (lit "/proc/uptime");
  match uptime with
  | None => mret (-1)%Z
  | Some uptime =>
    vs ← fit20 (sscanf [DStr true; DSpace; DStr true] uptime).1;
    match vs with
    | [sreboot; idle] =>
      _ ← set_values [] [(lit ".uptime.sreboot", sreboot); (lit ".uptime.idle", idle)];
      mret 0%Z
    | _ => stop Uninit
    end
  end.

(** ["%*[^\n] Mem: %s %s %s %s %s %s%*[^S] Swap: %s  %s %s %*[^\n]"] *)
Definition mem_format : list directive :=
  [DSet (not_char NL) None false; DSpace; DLit (lit "Mem:"); DSpace;
   DStr true; DSpace; DStr true; DSpace; DStr true; DSpace; DStr true; DSpace;
   DStr true; DSpace; DStr true; DSet (not_char (byte_of 83)) None false; DSpace;
   DLit (lit "Swap:"); DSpace; DStr true; DSpace; DStr true; DSpace; DStr true; DSpace;
   DSet (not_char NL) None false].

Definition csc_set_mem : M S Z :=
  mem ← csc_get_procval (lit "/proc/meminfo");
  match mem with
  | None => mret (-1)%Z
  | Some mem =>
    vs ← fit20 (sscanf mem_format mem).1;
    match vs with
    | [total; used; free_mem; shared; buffers; cached; swaptotal; swapused; swapfree] =>
      _ ← set_values (lit ".mem") [(lit ".total", total); (lit ".used", used);
        (lit ".free", free_mem); (lit ".shared", shared); (lit ".buffers", buffers);
        (lit ".cached", cached); (lit ".swaptotal", swaptotal); (lit ".swapused", swapused);
        (lit ".swapfree", swapfree)];
      mret 0%Z
    | _ => stop Uninit
    end
  end.

(** ** Processors *)

(** The four values that are stored for [cpu_string]. *)
Definition set_cpu_values (cpu_string user nice sys idle : cstr) : M S unit :=
  set_values (lit ".cpu." ++ cpu_string)
    [(lit ".user", user); (lit ".nice", nice); (lit ".sys", sys); (lit ".idle", idle)].

(** [while(cpu_ptr = strstr(cpu_ptr, "cpu"), cpu_ptr != NULL)]; a line without an end
    makes [strchr] return [NULL], which is written to.  [vals] are the arrays of the
    conversions, which keep their contents when a line has
    fewer fields. *)
Fixpoint cpu_loop (fuel : nat) (cpu_ptr : cstr) (nr_cpu : Z) (vals : list cstr) : M S Z :=
  match fuel with
  | 0 => stop OutOfFuel
  | Datatypes.S fuel =>
    match find_str (lit "cpu") cpu_ptr with
    | None => mret nr_cpu
    | Some cpu_ptr =>
      match cut_at NL cpu_ptr with
      | None => stop NullDeref
      | Some (line, rest) =>
        new ← fit20 (sscanf [DStr true; DSpace; DStr true; DSpace; DStr true; DSpace;
                             DStr true; DSpace; DStr true] line).1;
        let vals := new ++ drop (length new) vals in
        match vals with
        | [cpuname; user; nice; sys; idle] =>
          if decide (length cpuname <= 3) then
            _ ← set_cpu_values (lit "all") user nice sys idle;
            cpu_loop fuel rest nr_cpu vals
          else
            cpu_string ← sprintf 5 (decimal nr_cpu);
            _ ← set_cpu_values cpu_string user nice sys idle;
            cpu_loop fuel rest (nr_cpu + 1) vals
        | _ => stop Uninit
        end
      end
    end
  end.

Definition csc_set_cpu : M S Z :=
  cpu ← csc_get_procval (lit "/proc/stat");
  match cpu with
  | None => mret (-1)%Z
  | Some cpu =>
    nr_cpu ← cpu_loop (Datatypes.S (length cpu)) cpu 0 [];
    let nr_cpu := if decide (nr_cpu = 0)%Z then 1%Z else nr_cpu in
    nr_cpu_s ← sprintf 4 (decimal nr_cpu);
    _ ← set_values [] [(lit ".cpu.nrcpu", nr_cpu_s)];
    mret 0%Z
  end.

Definition csc_set_dynamic_values : M S unit :=
  _ ← csc_set_load; _ ← csc_set_uptime; _ ← csc_set_mem; _ ← csc_set_cpu; mret ().
End csc.
