(* ===== verification/CscProps.v ===== *)
(** What the collector does: its functions refine the same functions on the abstract
    database; restoring a dumped database gives every value back; the values of the
    load file and of the request file are where they are looked for. *)

From Stdlib Require Import ZArith Lia.
From stdpp Require Import base list gmap strings.
From S2P Require Import Prelude Cbuf Ctext CsdbKey CsdbState Csdb CsdbSpec CsdbRep.
From S2P Require Import CsdbUpdate.
From S2P Require Import CsdbRefine CsdbDump CsdbStore CsdbTrace Csp Csd CsdProps Csc.

(** * Refinement *)

Section refine.
Context {S : Type} `{!CsStore S, !StoreRefinement S} (w : world).

Lemma unpack_response_refines bytes :
  refines holds (unpack_response (S := S) w bytes) (unpack_response w bytes).
Proof. unfold unpack_response. refine_auto. Qed.
Hint Resolve unpack_response_refines csc_node_not_alive_refines : refine.

Lemma cs_do_cap_request_refines node libs :
  refines holds (cs_do_cap_request_for_node (S := S) w node libs)
    (cs_do_cap_request_for_node w node libs).
Proof. unfold cs_do_cap_request_for_node. refine_auto. Qed.

Lemma cs_do_db_request_refines node key :
  refines holds (cs_do_db_request_for_node (S := S) w node key)
    (cs_do_db_request_for_node w node key).
Proof. unfold cs_do_db_request_for_node. refine_auto. Qed.
Hint Resolve cs_do_cap_request_refines cs_do_db_request_refines : refine.

Lemma def_req_loop_refines node reqs :
  refines holds (def_req_loop (S := S) w node reqs) (def_req_loop w node reqs).
Proof. induction reqs; simpl; refine_auto. Qed.
Hint Resolve def_req_loop_refines : refine.

Lemma def_req_nodes_refines nodes r :
  refines holds (def_req_nodes (S := S) w nodes r) (def_req_nodes w nodes r).
Proof. induction nodes; simpl; refine_auto. Qed.
Hint Resolve def_req_nodes_refines : refine.

Lemma csc_do_def_req_refines :
  refines holds (csc_do_def_req_for_alive_nodes (S := S) w) (csc_do_def_req_for_alive_nodes w).
Proof. unfold csc_do_def_req_for_alive_nodes. refine_auto. Qed.

Lemma append_or_set_refines key v :
  refines holds (append_or_set (S := S) key v) (append_or_set key v).
Proof. unfold append_or_set. refine_auto. Qed.
Hint Resolve append_or_set_refines : refine.

Lemma append_all_refines key vs :
  refines holds (append_all (S := S) key vs) (append_all key vs).
Proof. induction vs; simpl; refine_auto. Qed.
Hint Resolve append_all_refines : refine.

Lemma map_file_refines path : refines holds (map_file (S := S) w path) (map_file w path).
Proof. unfold map_file. refine_auto. Qed.
Hint Resolve map_file_refines : refine.

Lemma csc_read_default_refines path :
  refines holds (csc_read_default_db_requests_from_file (S := S) w path)
    (csc_read_default_db_requests_from_file w path).
Proof. unfold csc_read_default_db_requests_from_file. refine_auto. Qed.

Lemma scan_libs_loop_refines fuel : ∀ key text,
  refines holds (scan_libs_loop (S := S) fuel key text) (scan_libs_loop fuel key text).
Proof. induction fuel; intros key text; simpl; refine_auto. Qed.
Hint Resolve scan_libs_loop_refines : refine.

Lemma csc_scan_libs_for_app_refines app :
  refines holds (csc_scan_libs_for_app (S := S) w app) (csc_scan_libs_for_app w app).
Proof. unfold csc_scan_libs_for_app. refine_auto. Qed.
Hint Resolve csc_scan_libs_for_app_refines : refine.

Lemma read_db_loop_refines lines :
  refines holds (read_db_loop (S := S) lines) (read_db_loop lines).
Proof. induction lines; simpl; refine_auto. Qed.
Hint Resolve read_db_loop_refines : refine.

Lemma csc_read_db_refines path :
  refines holds (csc_read_db_from_file (S := S) w path) (csc_read_db_from_file w path).
Proof. unfold csc_read_db_from_file. refine_auto. Qed.

Lemma csc_dump_db_refines can_open key :
  refines holds (csc_dump_db_to_file (S := S) can_open key) (csc_dump_db_to_file can_open key).
Proof. unfold csc_dump_db_to_file. refine_auto. Qed.

Lemma cap_nodes_loop_refines key libs nodes :
  refines holds (cap_nodes_loop (S := S) w key libs nodes) (cap_nodes_loop w key libs nodes).
Proof. induction nodes; simpl; refine_auto. Qed.
Hint Resolve cap_nodes_loop_refines : refine.

Lemma csc_update_cap_nodes_refines app :
  refines holds (csc_update_cap_nodes_for_app (S := S) w app) (csc_update_cap_nodes_for_app w app).
Proof. unfold csc_update_cap_nodes_for_app, csc_get_libs_for_app. refine_auto. Qed.

Lemma csc_get_procval_refines f :
  refines holds (csc_get_procval (S := S) w f) (csc_get_procval w f).
Proof. unfold csc_get_procval. refine_auto. Qed.
Hint Resolve csc_get_procval_refines : refine.

Lemma set_values_refines prefix vs :
  refines holds (set_values (S := S) w prefix vs) (set_values w prefix vs).
Proof. induction vs as [|[]]; simpl; refine_auto. Qed.
Hint Resolve set_values_refines : refine.

Lemma fit20_refines vs : refines holds (fit20 (S := S) vs) (fit20 vs).
Proof. induction vs; simpl; refine_auto. Qed.
Hint Resolve fit20_refines : refine.

Lemma csc_set_load_refines : refines holds (csc_set_load (S := S) w) (csc_set_load w).
Proof. unfold csc_set_load. refine_auto. Qed.

End refine.

(** * Dump and restore *)

(** The value a get returns for a path. *)
Definition leaf_at (x : tree) (p : list cstr) : option cstr :=
  d ← tdata x p; if eleaf d then evalue d else None.

Lemma a_get_leaf_at key a v :
  alocked a = false → csdb_is_valid_key key = true →
  leaf_at (atree a) (key_path key) = Some v → a_get key a = Ok a (0%Z, Some v).
Proof.
  intros Hl Hv Hx. unfold leaf_at in Hx.
  destruct (tdata (atree a) (key_path key)) as [d|] eqn:E; [|done]. simpl in Hx.
  destruct (eleaf d) eqn:El; [|done]. rewrite (a_get_leaf key a d) by done. by rewrite Hx.
Qed.

Lemma leaf_at_nset p q v t x :
  leaf_at (nset p v t x) q = if decide (q = p) then Some v else leaf_at x q.
Proof.
  unfold leaf_at. rewrite tdata_nset. case_decide; [done|].
  destruct (tdata x q); [done|]. by case_decide.
Qed.

(** Names and values that survive being written as a line of text. *)
Definition name_ok (n : cstr) : Prop := n ≠ [] ∧ (dot ∉ n) ∧ (equals ∉ n) ∧ (NL ∉ n).
Definition data_ok (d : edata) : Prop :=
  name_ok (ename d) ∧ has_value d ∧ NL ∉ default [] (evalue d).

#[export] Instance name_ok_dec n : Decision (name_ok n).
Proof. unfold name_ok. apply _. Defined.

(** The lines of a dump, as paths and values. *)
Fixpoint flines (pre : list cstr) (f : forest edata) : list (list cstr * cstr) :=
  match f with
  | FNil => []
  | FNode a ks ss =>
    (if eleaf a then [(pre ++ [ename a], default [] (evalue a))] else []) ++
    flines (pre ++ [ename a]) ks ++ flines pre ss
  end.

Definition line_text (l : list cstr * cstr) : cstr := print_key l.1 ++ equals :: l.2.

Lemma print_key_snoc p n : print_key (p ++ [n]) = print_key p ++ dot :: n.
Proof. unfold print_key. by rewrite bind_app, bind_singleton. Qed.

Lemma fdump_lines f : ∀ pre,
  fall has_value f → fdump (print_key pre) f = spaced NL (line_text <$> flines pre f).
Proof.
  unfold spaced. induction f as [|a ks IHk ss IHs]; intros pre; simpl; [done|].
  intros (Ha & Hk & Hs). rewrite !fmap_app, !bind_app, <- print_key_snoc, IHk, IHs by done.
  f_equal. unfold data_line. destruct (eleaf a) eqn:El; [|done].
  destruct (evalue a) as [v|] eqn:Ev; [|by destruct (Ha El)].
  cbn [fmap list_fmap mbind list_bind default]. unfold line_text. cbn [fst snd].
  rewrite app_nil_r, <- (assoc_L (++)). done.
Qed.

(** The paths of the lines are the paths of the leaves. *)
Lemma flines_spec f : ∀ pre d p v,
  uniq f → fall has_value f →
  (p, v) ∈ flines pre f ↔ ∃ q, p = pre ++ q ∧ q ≠ [] ∧ leaf_at (d, f) q = Some v.
Proof.
  induction f as [|a ks IHk ss IHs]; intros pre d p v; simpl.
  { intros _ _. split; [by intros ?%elem_of_nil|]. intros ([|n q] & _ & ? & Hl); [done|].
    by unfold leaf_at in Hl. }
  intros (Hna & Huk & Hus) (Ha & Hk & Hs).
  rewrite !elem_of_app, (IHk _ a), (IHs _ d) by done. clear IHk IHs.
  assert (∀ n q, leaf_at (d, FNode a ks ss) (n :: q) =
    if decide (ename a = n) then leaf_at (a, ks) q else leaf_at (d, ss) (n :: q)) as Hcons.
  { intros n q. unfold leaf_at. rewrite !tdata_cons. simpl. change (name_of a) with (ename a).
    by case_decide. }
  split.
  - intros [Hin|[(q & -> & Hq & Hl)|(q & -> & Hq & Hl)]].
    + destruct (eleaf a) eqn:El; [|by apply elem_of_nil in Hin].
      apply list_elem_of_singleton in Hin as [= -> ->]. exists [ename a].
      split_and!; [done..|]. rewrite Hcons, decide_True by done. unfold leaf_at. simpl.
      rewrite El. destruct (evalue a) eqn:Ev; [done|by destruct (Ha El)].
    + exists (ename a :: q). rewrite Hcons, decide_True by done. by rewrite <- (assoc_L (++)).
    + destruct q as [|n q]; [done|]. exists (n :: q). rewrite Hcons.
      rewrite decide_False; [done|]. intros <-. unfold leaf_at in Hl. rewrite tdata_cons in Hl.
      simpl in Hl. change (ename a) with (name_of a) in Hl. by rewrite Hna in Hl.
  - intros (q & -> & Hq & Hl). destruct q as [|n q]; [done|]. rewrite Hcons in Hl.
    case_decide as En; [subst n|right; right; exists (n :: q); done].
    destruct q as [|m q]; [left|right; left; exists (m :: q); by rewrite <- (assoc_L (++))].
    unfold leaf_at in Hl. simpl in Hl. destruct (eleaf a); [|done].
    rewrite Hl. by apply list_elem_of_singleton.
Qed.

(** The database that is built from the lines. *)
Definition restore (t : Z) (ls : list (list cstr * cstr)) (x : tree) : tree :=
  foldl (λ x l, nset l.1 l.2 t x) x ls.

Lemma leaf_at_restore t ls : ∀ x q,
  (∀ v v', (q, v) ∈ ls → (q, v') ∈ ls → v = v') →
  ∀ v, leaf_at (restore t ls x) q = Some v ↔
    (q, v) ∈ ls ∨ ((∀ v', (q, v') ∉ ls) ∧ leaf_at x q = Some v).
Proof.
  induction ls as [|[p u] ls IH]; intros x q Hu v; simpl.
  { split; [right|]; set_solver. }
  rewrite IH by set_solver. rewrite leaf_at_nset. setoid_rewrite elem_of_cons.
  destruct (decide (q = p)) as [->|Hq]; [|naive_solver].
  assert (∀ v', (p, v') ∈ ls → v' = u) as Hl by set_solver.
  split.
  - intros [?|[_ [= ->]]]; auto.
  - intros [[[= ->]|?]|[Hn ?]]; [|by left|by destruct (Hn u); left].
    destruct (decide ((p, u) ∈ ls)); [by left|]. right. split; [|done].
    intros v' Hv'. by rewrite (Hl v' Hv') in Hv'.
Qed.

Lemma flines_ok f : ∀ pre l,
  fall data_ok f → Forall name_ok pre → l ∈ flines pre f → Forall name_ok l.1 ∧ l.1 ≠ [] ∧ NL ∉ l.2.
Proof.
  induction f as [|a ks IHk ss IHs]; intros pre l; simpl; [by intros _ _ ?%elem_of_nil|].
  intros (Ha & Hk & Hs) Hp. rewrite !elem_of_app.
  assert (Forall name_ok (pre ++ [ename a])) as Hp'.
  { apply Forall_app_2; [done|]. repeat constructor; apply Ha. }
  intros [Hl|[Hl|Hl]]; [|by apply (IHk (pre ++ [ename a]))|by apply (IHs pre)].
  destruct (eleaf a); [|by apply elem_of_nil in Hl].
  apply list_elem_of_singleton in Hl as ->. simpl. split_and!; [done|by destruct pre|].
  apply Ha.
Qed.

Lemma names_good p : Forall name_ok p → p ≠ [] → good_path p.
Proof.
  intros Hp Hn. split_and!; [done| |].
  - eapply Forall_impl; [exact Hp|]. by intros n (_ & ? & _).
  - intros Hl. apply last_Some_elem_of in Hl. rewrite Forall_forall in Hp.
    by destruct (Hp [] Hl).
Qed.

Lemma print_key_free c p :
  c ≠ dot → Forall (λ n, c ∉ n) p → c ∉ print_key p.
Proof.
  intros Hc. induction 1 as [|n p Hn _ IH]; [by apply not_elem_of_nil|].
  unfold print_key in *. cbn [mbind list_bind]. rewrite elem_of_app, elem_of_cons. naive_solver.
Qed.

Lemma not_elem_Forall (c : byte) s : c ∉ s → Forall (λ b, not_char c b = true) s.
Proof.
  intros Hc. apply Forall_forall. intros b Hb. unfold not_char.
  rewrite bool_decide_eq_false_2; [done|]. by intros ->.
Qed.

Lemma cut_line_text l :
  Forall name_ok l.1 → cut_line (line_text l) = Some (print_key l.1, l.2).
Proof.
  intros Hp. unfold cut_line, cut_at, line_text. rewrite span_app; [done| |].
  - apply not_elem_Forall, print_key_free; [done|]. eapply Forall_impl; [exact Hp|].
    by intros n (_ & _ & ? & _).
  - intros c [= <-]. unfold not_char. by rewrite bool_decide_eq_true_2.
Qed.

Lemma line_word l :
  Forall name_ok l.1 → NL ∉ l.2 → word [NL] (line_text l).
Proof.
  intros Hp Hv. unfold word, line_text. split; [by destruct (print_key l.1)|].
  apply Forall_forall. intros c Hc ->%list_elem_of_singleton. revert Hc.
  rewrite elem_of_app, elem_of_cons. intros [Hc|[?|?]]; [|done|done].
  revert Hc. apply print_key_free; [done|]. eapply Forall_impl; [exact Hp|].
  by intros n (_ & _ & _ & ?).
Qed.

Lemma key_path_print p : good_path p → key_path (print_key p) = p ∧ head (print_key p) = Some dot.
Proof.
  intros Hg. split; [|by destruct p; [destruct Hg|]]. pose proof (key_parts_print p Hg) as Hk.
  unfold key_path. case_decide as E; [|done]. rewrite E in Hk. unfold key_parts in Hk.
  rewrite decide_True in Hk by done. subst p. destruct Hg as (_ & Hf & _).
  apply Forall_cons in Hf as [Hf _]. destruct Hf. left.
Qed.

Lemma read_db_loop_restore ls : ∀ a,
  alocked a = false → Forall (λ l, Forall name_ok l.1 ∧ l.1 ≠ [] ∧ NL ∉ l.2) ls →
  read_db_loop (line_text <$> ls) a = Ok (with_tree (restore (aclock a) ls (atree a)) a) ().
Proof.
  induction ls as [|l ls IH]; intros a Hl Hls; [by destruct a|].
  apply Forall_cons in Hls as [(Hp & Hn & _) Hls]. cbn [fmap list_fmap read_db_loop].
  rewrite cut_line_text by done. destruct (key_path_print l.1) as [Hk Hh]; [by apply names_good|].
  erewrite bind_Ok; [|erewrite bind_Ok by (by apply a_set_Ok); done].
  rewrite IH by done. rewrite Hk. done.
Qed.

Lemma get_leaf_at s x key v :
  db_at s x → csdb_is_valid_key key = true →
  csdb_get_value_for_key key s = Ok s (0%Z, Some v) ↔ leaf_at x (key_path key) = Some v.
Proof.
  intros Hat Hv. rewrite (db_at_get s x key Hat Hv). unfold leaf_at, get_result.
  destruct (tdata x (key_path key)) as [d|]; simpl; [|done].
  destruct (eleaf d); [|done]. split; [by intros [= ->]|by intros ->].
Qed.

Lemma fall_impl (P Q : edata → Prop) f : (∀ d, P d → Q d) → fall P f → fall Q f.
Proof. intros H. induction f; simpl; naive_solver. Qed.

(** C17: a database in which no name is empty or has a dot, an equals sign or a newline
    in it, and no value has a newline, is restored by [csc_read_db_from_file] from the
    file that [csc_dump_db_to_file] wrote: on every key but the root a get returns a
    value if and only if it returned it before. *)
Theorem csc_dump_restore s x w path t :
  db_at s x → fall data_ok x.2 →
  ∃ text, csc_dump_db_to_file true [dot] s = Ok s (0%Z, text) ∧
    (file w path = Some text → text ≠ [] →
     runs (csdb_init ≫= λ _, csc_read_db_from_file w path) (csdb_empty t) (λ s' ret,
       ret = 0%Z ∧ ∀ key v, csdb_is_valid_key key = true → key ≠ [dot] →
         csdb_get_value_for_key key s' = Ok s' (0%Z, Some v) ↔
         csdb_get_value_for_key key s = Ok s (0%Z, Some v))).
Proof.
  intros Hat Hok. pose proof Hat as [Hx Hm]. pose proof (db_rep_wf _ _ Hx) as (Hu & Hhv & _).
  set (ls := flines [] x.2). exists (spaced NL (line_text <$> ls)). split.
  { unfold csc_dump_db_to_file. erewrite bind_Ok by (by apply csdb_dump_from_key_spec). simpl.
    pose proof (fdump_lines x.2 [] Hhv) as Hd. simpl in Hd. by rewrite Hd. }
  intros Hfile Hne. destruct (csdb_init_holds t) as (s0 & Hs0 & Hh0).
  assert (Forall (λ l, Forall name_ok l.1 ∧ l.1 ≠ [] ∧ NL ∉ l.2) ls) as Hls.
  { apply Forall_forall. intros l Hl. by eapply flines_ok. }
  apply runs_bind. eapply runs_eq; [done|]. eapply runs_mono.
  - eapply (refines_runs holds _ _ s0 (adb_init t) (λ a' ret, ret = 0%Z ∧ alocked a' = false ∧
      atree a' = restore t ls (new_data [dot] t, FNil)));
      [apply (csc_read_db_refines (S := csdb))|done|].
    unfold csc_read_db_from_file, map_file. rewrite Hfile.
    destruct (spaced NL (line_text <$> ls)) as [|b text] eqn:E; [done|]. rewrite <- E.
    apply runs_bind, runs_ret, runs_bind. rewrite strtok_spaced.
    + eapply runs_eq; [by apply read_db_loop_restore|]. by apply runs_ret.
    + left.
    + apply Forall_fmap. eapply Forall_impl; [exact Hls|]. intros l (? & _ & ?). by apply line_word.
  - intros s' ret (a' & (Hx' & Hm' & _) & -> & Hl' & Ha'). split; [done|]. intros key v Hv Hk.
    assert (db_at s' (restore t ls (new_data [dot] t, FNil))) as Hat'
      by (split; [by rewrite <- Ha'|congruence]).
    rewrite (get_leaf_at s' _ key v Hat' Hv), (get_leaf_at s x key v Hat Hv).
    assert (∀ u, (key_path key, u) ∈ ls ↔ leaf_at x (key_path key) = Some u) as Hin.
    { intros u. subst ls. rewrite (flines_spec x.2 [] x.1), <- surjective_pairing by done.
      split; [by intros (q & -> & _ & ?)|]. intros. exists (key_path key).
      split_and!; [done|by apply valid_key_path|done]. }
    rewrite leaf_at_restore, Hin; [|intros u u'; rewrite !Hin; congruence].
    split; [|by left]. intros [?|[_ Hl]]; [done|].
    unfold leaf_at in Hl. rewrite tdata_bare in Hl. case_decide; [|done]. simpl in Hl. done.
Qed.

(** * Values of this node *)

Lemma node_key host rest :
  dot_free host →
  key_path (lit ".node." ++ host ++ dot :: rest) = lit "node" :: host :: parts [] rest.
Proof.
  intros Hh. unfold key_path, key_parts. rewrite !decide_False by done.
  change (tail (lit ".node." ++ host ++ dot :: rest)) with (lit "node" ++ dot :: host ++ dot :: rest).
  rewrite parts_app by (by apply (bool_decide_unpack _)). simpl. f_equal.
  rewrite parts_app by done. done.
Qed.

Lemma valid_node_key host sf :
  head sf = Some dot → last sf ≠ Some dot → csdb_is_valid_key (lit ".node." ++ host ++ sf) = true.
Proof.
  intros Hh Hl. unfold csdb_is_valid_key. rewrite (bool_decide_eq_true_2 (head _ = _)) by done.
  rewrite (bool_decide_eq_true_2 (last _ ≠ _)); [by destruct (_ =? _)|].
  rewrite !last_app. destruct sf as [|b sf]; [done|]. destruct (last (b :: sf)) eqn:E; [congruence|by apply last_None in E].
Qed.

Lemma set_values_restore w prefix vs : ∀ a,
  alocked a = false →
  Forall (λ sv, length (hostname w) + length prefix + length sv.1 < 250) vs →
  set_values w prefix vs a =
  Ok (with_tree (restore (aclock a)
    ((λ sv, (key_path (lit ".node." ++ hostname w ++ prefix ++ sv.1), sv.2)) <$> vs) (atree a)) a) ().
Proof.
  induction vs as [|[sf v] vs IH]; intros a Hl Hf; [by destruct a|].
  apply Forall_cons in Hf as [Hs Hf]. cbn [set_values fmap list_fmap fst snd] in *.
  erewrite bind_Ok by (apply sprintf_Ok; unfold KSIZE; rewrite !length_app; simpl; lia).
  erewrite bind_Ok by (by apply a_set_Ok). rewrite IH by done. done.
Qed.

Lemma fit20_Ok {S} vs (s : S) :
  Forall (λ v, length v < 20) vs → fit20 vs s = Ok s vs.
Proof.
  induction 1 as [|v vs Hv _ IH]; [done|]. cbn [fit20].
  erewrite bind_Ok by (apply sprintf_Ok; lia). by erewrite bind_Ok by done.
Qed.

(** The line of /proc/loadavg. *)
Definition loadavg_line (a b c run nop pid : cstr) : cstr :=
  a ++ space :: b ++ space :: c ++ space :: run ++ slash :: nop ++ space :: pid.

Lemma sscanf_load a b c run nop pid :
  token a → token b → token c → token run → slash ∉ run → token nop → token pid →
  (sscanf load_format (loadavg_line a b c run nop pid)).1 = [a; b; c; run; nop; pid].
Proof.
  intros Ha Hb Hc Hr Hsl Hn Hp. unfold load_format, loadavg_line. cbn [sscanf].
  rewrite scan_token by (done || by intros ? [= <-]). rewrite skip_space_token by done.
  rewrite scan_token by (done || by intros ? [= <-]). rewrite skip_space_token by done.
  rewrite scan_token by (done || by intros ? [= <-]). rewrite skip_space_token by done.
  rewrite span_app; [|by apply not_elem_Forall|by intros ? [= <-]].
  destruct run as [|r0 run]; [by destruct Hr|].
  cbn [span_width]. change (not_char space slash) with true. cbn iota.
  rewrite scan_token by (done || by intros ? [= <-]).
  pose proof (skip_space_token pid [] Hp) as Hk. pose proof (scan_token pid [] Hp) as Hs.
  rewrite app_nil_r in Hk, Hs. rewrite Hk, Hs by done. done.
Qed.

Definition load_values (host a b c run nop pid : cstr) : list (list cstr * cstr) :=
  [([lit "node"; host; lit "load"; lit "avg1"], a); ([lit "node"; host; lit "load"; lit "avg5"], b);
   ([lit "node"; host; lit "load"; lit "avg15"], c); ([lit "node"; host; lit "load"; lit "nop"], nop);
   ([lit "node"; host; lit "load"; lit "active"], run);
   ([lit "node"; host; lit "load"; lit "lastpid"], pid)].

Lemma procval_Ok {S} w f body (s : S) :
  file w f = Some (body ++ [NL]) → NUL ∉ body → length body < 4095 →
  csc_get_procval w f s = Ok s (Some body).
Proof.
  intros Hf Hn Hl. unfold csc_get_procval. rewrite Hf.
  rewrite take_ge by (rewrite length_app; simpl; lia). rewrite decide_False.
  2:{ intros [E|[E _]]; [by destruct body|]. rewrite length_app in E. simpl in E. lia. }
  replace (length (body ++ [NL]) - 1) with (length body) by (rewrite length_app; simpl; lia).
  rewrite take_app_length, until_nul_app by done. by erewrite bind_Ok by done.
Qed.

Lemma a_set_load w x t a b c run nop pid :
  dot_free (hostname w) → length (hostname w) ≤ 200 →
  file w (lit "/proc/loadavg") = Some (loadavg_line a b c run nop pid ++ [NL]) →
  Forall token [a; b; c; run; nop; pid] → slash ∉ run →
  Forall (λ v, length v < 20 ∧ NUL ∉ v) [a; b; c; run; nop; pid] →
  csc_set_load w (Adb x false t) =
  Ok (Adb (restore t (load_values (hostname w) a b c run nop pid) x) false t) 0%Z.
Proof.
  intros Hh Hlh Hf Htok Hsl Hlen. rewrite !Forall_cons in Htok, Hlen.
  destruct Htok as (Ta & Tb & Tc & Tr & Tn & Tp & _).
  destruct Hlen as ([La Na] & [Lb Nb] & [Lc Nc] & [Lr Nr] & [Ln Nn] & [Lp Np] & _).
  unfold csc_set_load. erewrite bind_Ok.
  2:{ apply procval_Ok; [done| |].
      - unfold loadavg_line. repeat (rewrite elem_of_app || rewrite elem_of_cons). naive_solver.
      - unfold loadavg_line. buf_len. }
  cbn beta iota. rewrite sscanf_load by done.
  erewrite bind_Ok by (apply fit20_Ok; repeat (apply Forall_cons_2; [lia|]); constructor).
  cbn beta iota.
  erewrite bind_Ok.
  2:{ apply set_values_restore; [done|].
      repeat (apply Forall_cons_2; [simpl; lia|]); constructor. }
  unfold mret, M_ret, with_tree, load_values. cbn [fmap list_fmap fst snd app atree alocked aclock].
  do 3 f_equal. repeat (apply (f_equal2 cons)); try done;
    (apply (f_equal2 pair); [|done]);
    match goal with |- key_path (_ ++ _ ++ lit ?t) = _ =>
      exact (node_key (hostname w) (tail (lit t)) Hh) end.
Qed.

(** What a reader of the load averages finds. *)
Lemma load_values_at host a b c run nop pid t x :
  let y := restore t (load_values host a b c run nop pid) x in
  leaf_at y [lit "node"; host; lit "load"; lit "avg1"] = Some a ∧
  leaf_at y [lit "node"; host; lit "load"; lit "avg5"] = Some b ∧
  leaf_at y [lit "node"; host; lit "load"; lit "avg15"] = Some c.
Proof.
  unfold load_values, restore. cbn [foldl fst snd]. rewrite !leaf_at_nset.
  split_and!; repeat (rewrite decide_False by (by intros [= ?])); by rewrite decide_True.
Qed.

(** [csc_set_load] reads the load file and stores the three averages, the number of
    processes, of running processes and the last process id under the name of this
    host, where the hello packets and the benchmark look for them. *)
Theorem csc_set_load_values s x w a b c run nop pid :
  db_at s x → dot_free (hostname w) → length (hostname w) ≤ 200 →
  file w (lit "/proc/loadavg") = Some (loadavg_line a b c run nop pid ++ [NL]) →
  Forall token [a; b; c; run; nop; pid] → slash ∉ run →
  Forall (λ v, length v < 20 ∧ NUL ∉ v) [a; b; c; run; nop; pid] →
  runs (csc_set_load w) s (λ s' ret, ret = 0%Z ∧
    db_at s' (restore (clock s) (load_values (hostname w) a b c run nop pid) x) ∧
    csdb_get_value_for_key (lit ".node." ++ hostname w ++ lit ".load.avg1") s' =
      Ok s' (0%Z, Some a)).
Proof.
  intros [Hx Hm] Hh Hlh Hf Htok Hsl Hlen.
  assert (csdb_holds s (Adb x false (clock s))) as Hhold by done.
  assert (Ha := a_set_load w x (clock s) a b c run nop pid Hh Hlh Hf Htok Hsl Hlen).
  pose proof (csc_set_load_refines (S := csdb) w s _ Hhold) as Hr. rewrite Ha in Hr.
  destruct Hr as (s' & Hs' & Hx' & Hm' & _). eapply runs_eq; [done|].
  assert (db_at s' (restore (clock s) (load_values (hostname w) a b c run nop pid) x)) as Hat by done.
  split_and!; [done..|]. apply (get_leaf_at s' _ _ _ Hat).
  - by apply valid_node_key.
  - change (lit ".load.avg1") with (dot :: lit "load.avg1"). rewrite node_key by done.
    change (parts [] (lit "load.avg1")) with [lit "load"; lit "avg1"].
    by apply load_values_at.
Qed.
