(* ===== verification/CsdLoop.v ===== *)
(** The other threads of the csd daemon (src/src/csd/csd.c): the sender of hello packets, the
    update of the database, the start of the daemon and the dump on a signal.  A thread is
    given by one round of its loop; the time it sleeps is left out, and the flag that ends
    it is in CsdThreads. *)

From Stdlib Require Import ZArith Lia.
From stdpp Require Import base list gmap strings.
From S2P Require Import Prelude.
From S2P Require Import Cbuf.
From S2P Require Import Ctext.
From S2P Require Import CsdbState.
From S2P Require Import Csdb.
From S2P Require Import CsdbStore.
From S2P Require Import Csp.
From S2P Require Import Csd.
From S2P Require Import Csc.

Section loops.
Context {S : Type} `{!CsStore S} (w : world).

(** One load average of this host; a get that fails stores a null pointer. *)
Definition own_load (suffix : cstr) : M S (option cstr) :=
  key ← sprintf KSIZE (lit ".node." ++ hostname w ++ suffix);
  '(_, loadavg) ← db_get key;
  mret loadavg.

(** A round of [cs_send_hello_loop]: the buffer of the packet afterwards, and what is sent;
    the packet is made also of null pointers, but then not sent. *)
Definition cs_send_hello (hello_packet : buf) : M S (buf * option (list byte)) :=
  loadavg1 ← own_load (lit ".load.avg1");
  loadavg5 ← own_load (lit ".load.avg5");
  loadavg15 ← own_load (lit ".load.avg15");
  '(hello_packet, packet_len) ←
    access (csp_pack_hello_packet hello_packet (hostname w) loadavg1 loadavg5 loadavg15);
  match loadavg1, loadavg5, loadavg15 with
  | Some _, Some _, Some _ => out ← send hello_packet packet_len; mret (hello_packet, Some out)
  | _, _, _ => mret (hello_packet, None)
  end.

(** A round of [cs_update_db]. *)
Definition cs_update_db : M S unit :=
  _ ← csc_set_dynamic_values w;
  _ ← csc_do_def_req_for_alive_nodes w;
  _ ← csc_update_cap_nodes_for_apps w;
  mret ().

(** The handler of SIGHUP: the text of the dump. *)
Definition cs_on_sighup (can_open : bool) : M S cstr :=
  '(_, text) ← csc_dump_db_to_file can_open (lit "."); mret text.

(** What [main] does between [csdb_init] and the creation of the threads; [None] if it
    exits because the file of the default requests is missing. *)
Definition cs_start : M S (option unit) :=
  _ ← csc_scan_libs w;
  _ ← csc_set_dynamic_values w;
  d ← csc_read_default_db_requests_from_file w (lit "./def_req.rc");
  match d with
  | None => mret None
  | Some _ =>
    _ ← csc_read_registered_apps_from_file w (lit "./reg_apps.rc");
    mret (Some ())
  end.
End loops.

(** [main] up to the creation of the threads. *)
Definition csd_main (w : world) : M csdb (option unit) :=
  _ ← csdb_init; cs_start w.
