(* ===== verification/CsdThreads.v ===== *)
(** The end of csd (src/src/csd/csd.c lines 616-734, and the ends of the loops of the four
    threads in csd.c and csda.c): SIGTERM and SIGINT, the flag [cs_threads_should_exit],
    and the joining of the threads.

    A thread works on a round of its loop, is about to test the flag, is in the handler, or
    has ended; a round ends with the test of the flag.  The work of a round goes through
    the mutex of the database: a thread gets to the test by unlocking it, or by a get that
    failed and kept it; only the receiver has rounds that do not touch the database, for
    packets that it ignores.  A round of the receiver needs a packet and a round of the
    server of best nodes a message, so the steps carry labels that tell which thread has
    made a round.  The threads that send hello packets and update the database have
    blocked the signals (at their start; a signal before that is left out).  The handler
    dumps the database and needs its mutex, if it can open the file of the dump.  A second
    signal during a handler, and one between the lock and the unlock of the mutex of the
    flag, are left out, as is SIGHUP. *)

From Stdlib Require Import ZArith Lia.
From stdpp Require Import base list gmap strings.
From S2P Require Import Prelude.
From S2P Require Import CsdbStore.
From S2P Require Import Csc.
From S2P Require Import CsdLoop.

(** * The loop of a thread *)

(** [for(;;) { round; read the flag; if(should_exit) pthread_exit(0); }]: each element is
    the flag as it is read; [true] if the thread has ended. *)
Fixpoint until_exit {S} (round : M S unit) (should_exit : list bool) : M S bool :=
  match should_exit with
  | [] => mret false
  | e :: es => _ ← round; if e : bool then mret true else until_exit round es
  end.

(** The thread that updates the database. *)
Definition cs_update_db_thread {S} `{!CsStore S} (w : world) : list bool → M S bool :=
  until_exit (cs_update_db w).

(** * The threads together *)

Inductive cs_thread : Set := Packets | Hello | Update | BestNode.

#[export] Instance cs_thread_eq_dec : EqDecision cs_thread.
Proof. solve_decision. Defined.

(** In the handler: before the dump, and before the flag is set. *)
Inductive handler_pc : Set := Dump | SetFlag.

(** At work on a round, after it and about to test the flag, in the handler, at the end. *)
Inductive thread_pc : Set := Looping | Testing | Handling (h : handler_pc) | Ended.

(** The main thread waits for a signal, is in the handler, joins the threads of a list, or
    has called [exit]. *)
Inductive main_pc : Set := Pausing | MainHandling (h : handler_pc) | Joining (ts : list cs_thread) | Exited.

(** [threads] gives the place of each thread, [db_mutex] who holds the mutex of the
    database: a thread that will unlock it, or nobody any more, after a get that failed
    (CsdbTrace, [csdb_get_value_error_blocks]); [dump_opens]: the file of the dump can be opened. *)
Record daemon : Type := Daemon {
  cs_threads_should_exit : bool;
  threads : cs_thread → thread_pc;
  main_at : main_pc;
  db_mutex : option (option cs_thread);
  dump_opens : bool
}.

Definition move (t : cs_thread) (p : thread_pc) (d : daemon) : daemon :=
  Daemon (cs_threads_should_exit d) (λ u, if decide (u = t) then p else threads d u) (main_at d) (db_mutex d) (dump_opens d).
Definition move_main (p : main_pc) (d : daemon) : daemon :=
  Daemon (cs_threads_should_exit d) (threads d) p (db_mutex d) (dump_opens d).
Definition raise_flag (d : daemon) : daemon := 
  Daemon true (threads d) (main_at d) (db_mutex d) (dump_opens d).
Definition with_mutex (o : option (option cs_thread)) (d : daemon) : daemon :=
  Daemon (cs_threads_should_exit d) (threads d) (main_at d) o (dump_opens d).

(** The order of [cs_join_threads]. *)
Definition cs_join_threads : list cs_thread := [Update; Packets; Hello; BestNode].

(** [cs_block_signals_for_thread] *)
Definition blocks_signals (t : cs_thread) : bool :=
  match t with Hello | Update => true | Packets | BestNode => false end.

(** Every round of the other threads uses the database. *)
Definition ignores_some (t : cs_thread) : bool :=
  match t with Packets => true | Hello | Update | BestNode => false end.

(** The thread may get a signal. *)
Definition in_loop (p : thread_pc) : bool :=
  match p with Looping | Testing => true | Handling _ | Ended => false end.

(** What happened, if it comes from outside or is a round of a thread. *)
Inductive label : Set :=
  SignalMain | SignalThread (t : cs_thread) | Round (t : cs_thread) | FailedGet (t : cs_thread) | Inside.

#[export] Instance label_eq_dec : EqDecision label.
Proof. solve_decision. Defined.

(** [csc_dump_db_to_file] returns: it cannot open the file, or the mutex is free. *)
Definition dump_goes (d : daemon) : bool := negb (dump_opens d) || bool_decide (db_mutex d = None).

Inductive dstep : label → daemon → daemon → Prop :=
  | d_signal_main d : main_at d = Pausing → dstep SignalMain d (move_main (MainHandling Dump) d)
  | d_signal_thread d t :
      in_loop (threads d t) = true → blocks_signals t = false → dstep (SignalThread t) d (move t (Handling Dump) d)
  | d_dump_main d :
      main_at d = MainHandling Dump → dump_goes d = true → dstep Inside d (move_main (MainHandling SetFlag) d)
  | d_dump_thread d t :
      threads d t = Handling Dump → dump_goes d = true → dstep Inside d (move t (Handling SetFlag) d)
  | d_flag_main d :
      main_at d = MainHandling SetFlag → dstep Inside d (move_main (Joining cs_join_threads) (raise_flag d))
  | d_flag_thread d t :
      threads d t = Handling SetFlag → dstep Inside d (move t Ended (raise_flag d))
  | d_join d t ts :
      main_at d = Joining (t :: ts) → threads d t = Ended → dstep Inside d (move_main (Joining ts) d)
  | d_exit d : main_at d = Joining [] → dstep Inside d (move_main Exited d)
  | d_lock d t : threads d t = Looping → db_mutex d = None → dstep Inside d (with_mutex (Some (Some t)) d)
  | d_unlock d t p :
      threads d t = Looping → db_mutex d = Some (Some t) → in_loop p = true →
      dstep Inside d (move t p (with_mutex None d))
  | d_failed_get d t p :
      threads d t = Looping → db_mutex d = Some (Some t) → in_loop p = true →
      dstep (FailedGet t) d (move t p (with_mutex (Some None) d))
  | d_ignore d t :
      threads d t = Looping → ignores_some t = true → db_mutex d ≠ Some (Some t) → dstep Inside d (move t Testing d)
  | d_round d t :
      threads d t = Testing → dstep (Round t) d (move t (if cs_threads_should_exit d then Ended else Looping) d).

Inductive druns : list label → daemon → daemon → Prop :=
  | druns_nil d : druns [] d d
  | druns_step l ls d d1 d2 : dstep l d d1 → druns ls d1 d2 → druns (l :: ls) d d2.

(** After [main] has created the threads. *)
Definition daemon_init (opens : bool) : daemon := Daemon false (λ _, Looping) Pausing None opens.

(** * Properties *)

Lemma druns_app ls1 ls2 d d1 d2 : druns ls1 d d1 → druns ls2 d1 d2 → druns (ls1 ++ ls2) d d2.
Proof. induction 1; [done|]. intros. econstructor; eauto. Qed.

Lemma druns_one l d d' : dstep l d d' → druns [l] d d'.
Proof. intros. econstructor; [done|constructor]. Qed.

(** The threads that have been joined have ended. *)
Definition joined (d : daemon) : Prop :=
  match main_at d with
  | Joining ts => cs_threads_should_exit d = true ∧ ∀ t, t ∉ ts → threads d t = Ended
  | Exited => cs_threads_should_exit d = true ∧ ∀ t, threads d t = Ended
  | _ => True
  end.

Lemma dstep_ended l d d' t : dstep l d d' → threads d t = Ended → threads d' t = Ended.
Proof.
  destruct 1; cbn; intros E; try done; case_decide; subst; try congruence; rename select (in_loop _ = true) into Hi; by rewrite E in Hi.
Qed.

Lemma dstep_flag l d d' : dstep l d d' → cs_threads_should_exit d = true → cs_threads_should_exit d' = true.
Proof. destruct 1; cbn; auto. Qed.

Lemma joined_same l d d' : dstep l d d' → main_at d' = main_at d → joined d → joined d'.
Proof.
  intros Hs E. unfold joined. rewrite E. destruct (main_at d) as [| |ts|]; try done.
  all: intros [Hf Ht]; split; [by eapply dstep_flag|]; intros; eapply dstep_ended; eauto.
Qed.

Lemma dstep_joined l d d' : joined d → dstep l d d' → joined d'.
Proof.
  intros Hj Hs. pose proof (joined_same l d d' Hs) as Hsame.
  destruct Hs as [d Hm|d t Ht _|d Hm _|d t Ht _|d Hm|d t Ht|d t ts Hm Ht|d Hm|d t Ht _|d t p Ht _ _|d t p Ht _ _|d t Ht _ _|d t Ht];
    try (by apply Hsame); unfold joined in *; cbn in *; try done.
  - split; [done|]. intros t Hn. exfalso. apply Hn. unfold cs_join_threads. destruct t; set_solver.
  - rewrite Hm in Hj. destruct Hj as [Hj1 Hj2]. split; [done|]. intros u Hu.
    destruct (decide (u = t)) as [->|]; [done|]. apply Hj2. by apply not_elem_of_cons.
  - rewrite Hm in Hj. split; [apply Hj|]. intros t. apply Hj, not_elem_of_nil.
Qed.

Lemma druns_joined ls d d' : joined d → druns ls d d' → joined d'.
Proof. intros Hj Hr. induction Hr; [done|]. apply IHHr. by eapply dstep_joined. Qed.

(** The threads that are left to be joined. *)
Definition joins_rest (d : daemon) : Prop :=
  match main_at d with Joining ts => ts `suffix_of` cs_join_threads | _ => True end.

Lemma dstep_joins_rest l d d' : joins_rest d → dstep l d d' → joins_rest d'.
Proof.
  unfold joins_rest. intros Hj Hs. destruct Hs; cbn in *; try done; try (by rewrite H in Hj).
  rewrite H in Hj. by eapply suffix_cons_l.
Qed.

Lemma druns_joined_rest ls d d' : druns ls d d' → joined d → joins_rest d → joined d' ∧ joins_rest d'.
Proof.
  intros Hr Hj Hj'. split; [by eapply druns_joined|].
  clear Hj. induction Hr; [done|]. apply IHHr. by eapply dstep_joins_rest.
Qed.

(** A thread that makes no round and gets no signal stays in its loop. *)
Lemma druns_stays ls d d' t :
  druns ls d d' → in_loop (threads d t) = true → Round t ∉ ls → SignalThread t ∉ ls → in_loop (threads d' t) = true.
Proof.
  induction 1 as [|l ls d d1 d2 Hs _ IH]; [done|]. intros Ht [Hr1 Hr2]%not_elem_of_cons [Hs1 Hs2]%not_elem_of_cons.
  apply IH; [|done..]. clear IH.
  destruct Hs; cbn; try done; case_decide; try done; subst; try congruence; by rewrite H in Ht.
Qed.

(** The main thread waits until it gets a signal. *)
Lemma druns_pausing ls d d' : druns ls d d' → main_at d = Pausing → SignalMain ∉ ls → main_at d' = Pausing.
Proof.
  induction 1 as [|l ls d d1 d2 Hs _ IH]; [done|]. intros Hp [H1 H2]%not_elem_of_cons.
  apply IH; [|done]. destruct Hs; cbn in *; try done; congruence.
Qed.

Lemma dstep_signalled l d d' : dstep l d d' → main_at d ≠ Pausing → main_at d' ≠ Pausing.
Proof. by destruct 1. Qed.

Lemma druns_signalled ls d d' : druns ls d d' → SignalMain ∈ ls → main_at d' ≠ Pausing.
Proof.
  intros Hr Hin. assert (main_at d ≠ Pausing ∨ SignalMain ∈ ls) as H by (by right). clear Hin.
  induction Hr as [d|l ls d d1 d2 Hs _ IH]; [destruct H as [|H]; [done|by apply elem_of_nil in H]|].
  apply IH. destruct H as [H|[<-|H]%elem_of_cons].
  - left. by eapply dstep_signalled.
  - left. by inversion Hs.
  - by right.
Qed.

(** Without a signal the threads are in their loops or have ended, and a thread that holds
    the mutex is at work. *)
Definition undisturbed (d : daemon) : Prop :=
  (∀ t, in_loop (threads d t) = true ∨ threads d t = Ended) ∧ db_mutex d ≠ Some None ∧
  ∀ t, db_mutex d = Some (Some t) → threads d t = Looping.

(** The labels that [undisturbed] leaves out: a signal to a thread and a get that fails. *)
Definition disturbs (l : label) : bool :=
  match l with SignalThread _ | FailedGet _ => true | _ => false end.

Lemma dstep_undisturbed l d d' : dstep l d d' → disturbs l = false → undisturbed d → undisturbed d'.
Proof.
  intros Hs Hl (Ht & Hnl & Hm).
  destruct Hs as [d Hp|d t Ht1 _|d Hp _|d t Ht1 _|d Hp|d t Ht1|d t ts Hp Ht1|d Hp|d t Ht1 Hn|d t p Ht1 Hn Hp|d t p Ht1 Hn Hp|d t Ht1 _ Hn|d t Ht1];
    try done; try (destruct (Ht t) as [E|E]; rewrite Ht1 in E; done); split_and!; cbn; try done.
  - by intros u [= <-].
  - intros u. case_decide; [by left|apply Ht].
  - intros u. case_decide; [by left|apply Ht].
  - intros u Hu. case_decide; [congruence|auto].
  - intros u. case_decide; [destruct (cs_threads_should_exit d); auto|apply Ht].
  - intros u Hu. case_decide; [|by auto]. subst. apply Hm in Hu. congruence.
Qed.

Lemma druns_undisturbed ls d d' :
  druns ls d d' → Forall (λ l, disturbs l = false) ls → undisturbed d → undisturbed d'.
Proof.
  induction 1 as [|l ls d d1 d2 Hs _ IH]; [done|]. intros [Hn1 Hn2]%Forall_cons Hu.
  apply IH; [done|]. by eapply dstep_undisturbed.
Qed.

(** when csd exits after a signal, the main thread has got the signal, each of the four
    threads has ended, and each of them has made a round of its loop or handled a signal
    itself.  So csd does not end before a packet has arrived and ikcd has asked for a
    node. *)
Theorem csd_exit_joined opens ls d :
  druns ls (daemon_init opens) d → main_at d = Exited →
  SignalMain ∈ ls ∧ cs_threads_should_exit d = true ∧
  ∀ t, threads d t = Ended ∧ (Round t ∈ ls ∨ SignalThread t ∈ ls).
Proof.
  intros Hr Hm. pose proof (druns_joined ls (daemon_init opens) d I Hr) as Hj. unfold joined in Hj. rewrite Hm in Hj.
  destruct Hj as [Hf He]. split_and!; [|done|].
  - destruct (decide (SignalMain ∈ ls)) as [|Hn]; [done|]. exfalso.
    by rewrite (druns_pausing ls (daemon_init opens) d) in Hm.
  - intros t. split; [done|]. destruct (decide (Round t ∈ ls)); [by left|].
    destruct (decide (SignalThread t ∈ ls)); [by right|]. exfalso.
    specialize (He t). pose proof (druns_stays ls (daemon_init opens) d t Hr eq_refl) as Hi. rewrite He in Hi. by discriminate Hi.
Qed.

(** ** Csd ends *)

(** The tests of the flag that [t] makes. *)
Definition rounds (t : cs_thread) (ls : list label) : nat := length (filter (λ l, l = Round t) ls).

Lemma rounds_cons t l ls : rounds t (l :: ls) = (if decide (l = Round t) then 1 else 0) + rounds t ls.
Proof. unfold rounds. rewrite filter_cons. by case_decide. Qed.

Lemma rounds_ended ls d d' t : druns ls d d' → threads d t = Ended → rounds t ls = 0.
Proof.
  induction 1 as [|l ls d d1 d2 Hs _ IH]; [done|]. intros He. rewrite rounds_cons, IH by (by eapply dstep_ended).
  case_decide; [|done]. subst. inversion Hs; subst. congruence.
Qed.

(** Once the flag is set a thread makes at most one round. *)
Lemma rounds_le ls d d' t : druns ls d d' → cs_threads_should_exit d = true → rounds t ls ≤ 1.
Proof.
  induction 1 as [|l ls d d1 d2 Hs Hr IH]; [cbn; lia|]. intros Hf. rewrite rounds_cons. case_decide; subst.
  - rewrite (rounds_ended ls d1 d2 t Hr); [lia|]. inversion Hs; subst. rewrite Hf. cbn. by rewrite decide_True.
  - rewrite Nat.add_0_l. apply IH. by eapply dstep_flag.
Qed.

(** [t] gets to its test, and ends. *)
Lemma round_ends d t :
  cs_threads_should_exit d = true → db_mutex d = None → in_loop (threads d t) = true ∨ threads d t = Ended →
  ∃ ls d', druns ls d d' ∧ length ls ≤ 3 ∧ threads d' t = Ended ∧ main_at d' = main_at d ∧
    cs_threads_should_exit d' = true ∧ db_mutex d' = None ∧ ∀ u, threads d' u = threads d u ∨ threads d' u = Ended.
Proof.
  intros Hf Hb Ht.
  assert (∀ d, threads d t = Testing → cs_threads_should_exit d = true → dstep (Round t) d (move t Ended d)) as Htest.
  { intros d1 Ht1 Hf1. pose proof (d_round d1 t Ht1) as Hs. by rewrite Hf1 in Hs. }
  destruct (threads d t) eqn:E; [| |destruct Ht; discriminate|].
  - set (d1 := with_mutex (Some (Some t)) d). set (d2 := move t Testing (with_mutex None d1)).
    exists [Inside; Inside; Round t], (move t Ended d2). split; [|split; [cbn; lia|]].
    + econstructor; [by apply (d_lock d t)|]. econstructor; [by apply (d_unlock d1 t Testing)|].
      apply druns_one, Htest; [|done]. cbn. by rewrite decide_True.
    + cbn. rewrite decide_True by done. split_and!; try done. intros u. case_decide; [by right|by left].
  - exists [Round t], (move t Ended d). split; [by apply druns_one, Htest|].
    cbn. rewrite decide_True by done. split_and!; try done; [lia|]. intros u. case_decide; [by right|by left].
  - exists [], d. split; [constructor|]. split_and!; try done; [cbn; lia|]. by left.
Qed.

(** The threads of a list end and are joined. *)
Lemma joining_ends ts : ∀ d,
  main_at d = Joining ts → cs_threads_should_exit d = true → db_mutex d = None →
  (∀ t, in_loop (threads d t) = true ∨ threads d t = Ended) →
  ∃ ls d', druns ls d d' ∧ length ls ≤ 4 * length ts + 1 ∧ main_at d' = Exited.
Proof.
  induction ts as [|t ts IH]; intros d Hm Hf Hb Ht.
  - exists [Inside]. eexists. split; [apply druns_one; by apply d_exit|]. split; [cbn; lia|done].
  - destruct (round_ends d t Hf Hb (Ht t)) as (ls1 & d1 & Hr1 & Hl1 & He & Hm1 & Hf1 & Hb1 & Ht1).
    assert (dstep Inside d1 (move_main (Joining ts) d1)) as Hj by (apply (d_join _ t); congruence).
    destruct (IH (move_main (Joining ts) d1)) as (ls2 & d2 & Hr2 & Hl2 & Hx); [done..| |].
    + intros u. cbn. destruct (Ht1 u) as [->| ->]; [apply Ht|by right].
    + exists (ls1 ++ Inside :: ls2), d2. split; [eapply druns_app; [exact Hr1|by econstructor]|].
      split; [|done]. rewrite length_app. cbn. lia.
Qed.

(** The mutex of the database becomes free. *)
Lemma mutex_freed d :
  undisturbed d → ∃ ls d', druns ls d d' ∧ length ls ≤ 1 ∧ (∀ t, rounds t ls = 0) ∧
    db_mutex d' = None ∧ main_at d' = main_at d ∧ cs_threads_should_exit d' = cs_threads_should_exit d ∧
    ∀ t, in_loop (threads d' t) = true ∨ threads d' t = Ended.
Proof.
  intros (Ht & Hnl & Hm). destruct (db_mutex d) as [[t|]|] eqn:E; [|done|].
  - exists [Inside]. eexists. split; [by apply druns_one, (d_unlock d t Looping); [apply Hm|..]|].
    split_and!; try done. intros u. cbn. case_decide; [by left|apply Ht].
  - exists [], d. split; [constructor|]. split_and!; (done || (cbn; lia)).
Qed.

(** From the handler of the main thread on, with the mutex free. *)
Lemma handler_ends d :
  joined d → joins_rest d → db_mutex d = None → main_at d ≠ Pausing →
  (∀ t, in_loop (threads d t) = true ∨ threads d t = Ended) →
  ∃ ls d', druns ls d d' ∧ length ls ≤ 19 ∧ main_at d' = Exited ∧
    (cs_threads_should_exit d = false → ∀ t, rounds t ls ≤ 1).
Proof.
  intros Hj Hrest Hb Hp Ht.
  assert (∀ d1, main_at d1 = MainHandling SetFlag → db_mutex d1 = None → threads d1 = threads d →
    ∃ ls d', druns ls d1 d' ∧ length ls ≤ 18 ∧ main_at d' = Exited ∧ ∀ t, rounds t ls ≤ 1) as Hflag.
  { intros d1 Hm1 Hb1 Ht1. set (d2 := move_main (Joining cs_join_threads) (raise_flag d1)).
    destruct (joining_ends cs_join_threads d2) as (ls & d' & Hr & Hl & Hx); [done..|by cbn; rewrite Ht1|].
    exists (Inside :: ls), d'. split; [econstructor; [by apply d_flag_main|exact Hr]|].
    split_and!; [cbn in Hl |- *; lia|done|]. intros t. rewrite rounds_cons. by apply (rounds_le ls d2 d'). }
  unfold joined, joins_rest in *. destruct (main_at d) as [|[]|ts|] eqn:E; [done|..].
  - set (d1 := move_main (MainHandling SetFlag) d).
    destruct (Hflag d1) as (ls & d' & Hr & Hl & Hx & Hn); [done..|].
    exists (Inside :: ls), d'. split.
    { econstructor; [|exact Hr]. apply d_dump_main; [done|]. unfold dump_goes. rewrite Hb. apply orb_true_r. }
    split_and!; [cbn; lia|done|]. intros _ t. rewrite rounds_cons. apply Hn.
  - destruct (Hflag d) as (ls & d' & Hr & Hl & Hx & Hn); [done..|]. exists ls, d'. split_and!; [done|lia|done|done].
  - destruct Hj as [Hf _]. destruct (joining_ends ts d) as (ls & d' & Hr & Hl & Hx); [done..|].
    exists ls, d'. apply suffix_length in Hrest. cbn in Hrest. split_and!; [done|lia|done|congruence].
  - exists [], d. split_and!; [constructor|cbn; lia|done|]. intros _ t. cbn. lia.
Qed.

(** C15: after a signal to the main thread csd can still end, whatever the threads have done
    before and after it, as long as no other thread has got a signal and no get has
    failed: from every state that is reached there are at most twenty steps after which
    it has exited, in which no thread makes more than one round; and once the flag is set
    no thread makes more than one round in whatever follows. *)
Theorem csd_sigterm_ends opens ls0 d :
  druns ls0 (daemon_init opens) d → SignalMain ∈ ls0 → Forall (λ l, disturbs l = false) ls0 →
  (∃ ls d', druns ls d d' ∧ length ls ≤ 20 ∧ main_at d' = Exited ∧ ∀ t, rounds t ls ≤ 1) ∧
  (cs_threads_should_exit d = true → ∀ ls d' t, druns ls d d' → rounds t ls ≤ 1).
Proof.
  intros Hr Hin Hn. split; [|intros Hf ls d' t Hr'; by eapply rounds_le].
  assert (joined d ∧ joins_rest d) as [Hj Hrest] by (eapply druns_joined_rest; [exact Hr|done..]).
  assert (undisturbed d) as Hu by (eapply druns_undisturbed; [exact Hr|done|split_and!; [by left|done..]]).
  destruct (mutex_freed d Hu) as (ls1 & d1 & Hr1 & Hl1 & Hn1 & Hb1 & Hm1 & Hf1 & Ht1).
  assert (joined d1 ∧ joins_rest d1) as [Hj1 Hrest1] by (by eapply druns_joined_rest).
  destruct (handler_ends d1) as (ls2 & d2 & Hr2 & Hl2 & Hx & Hn2); [done..| |done|].
  { rewrite Hm1. by eapply druns_signalled. }
  exists (ls1 ++ ls2), d2. assert (druns (ls1 ++ ls2) d d2) as Hr3 by (by eapply druns_app).
  split_and!; [done|rewrite length_app; lia|done|]. intros t.
  destruct (cs_threads_should_exit d) eqn:Hf; [by eapply rounds_le|].
  unfold rounds. rewrite filter_app, length_app. specialize (Hn1 t). specialize (Hn2 Hf1 t). unfold rounds in *. lia.
Qed.

(** when the receiver or the server of best nodes gets the signal instead, that thread ends
    and sets the flag, and the main thread goes on waiting: csd has not exited, whatever
    the threads do, until the main thread gets a signal too. *)
Theorem csd_signal_to_thread opens ls d t :
  druns (SignalThread t :: ls) (daemon_init opens) d → SignalMain ∉ ls → main_at d = Pausing.
Proof.
  intros Hr Hn. eapply druns_pausing; [exact Hr|done|]. by apply not_elem_of_cons.
Qed.

(** ** The handler waits for its own thread *)

(** [t] is in the handler and waits for the mutex that it holds itself. *)
Definition self_locked (t : cs_thread) (d : daemon) : Prop :=
  threads d t = Handling Dump ∧ db_mutex d = Some (Some t) ∧ dump_opens d = true ∧ main_at d ≠ Exited.

Lemma dstep_self_locked t l d d' : joined d → self_locked t d → dstep l d d' → self_locked t d'.
Proof.
  intros Hj (Ht & Hb & Ho & Hx) Hs. unfold self_locked.
  assert (dump_goes d = false) as Hg by (unfold dump_goes; by rewrite Ho, Hb).
  destruct Hs as [d Hp|d u Hu _|d Hp Hd|d u Hu Hd|d Hp|d u Hu|d u ts Hp Hu|d Hp|d u Hu Hn|d u p Hu Hn|d u p Hu Hn|d u Hu _ Hn|d u Hu];
    cbn; split_and!; try case_decide; subst; try congruence; try (by rewrite Ht in Hu).
  exfalso. unfold joined in Hj. rewrite Hp in Hj. destruct Hj as [_ Hj].
  specialize (Hj t (not_elem_of_nil t)). congruence.
Qed.

(** C16: a signal that the receiver or the server of best nodes gets while it works on the
    database is fatal: its handler waits for the mutex that the thread itself holds, and
    csd does not exit any more, whatever else happens, other signals included. *)
Theorem csd_signal_in_database opens ls d t d1 ls' d' :
  druns ls (daemon_init opens) d → dump_opens d = true → db_mutex d = Some (Some t) → main_at d ≠ Exited →
  dstep (SignalThread t) d d1 → druns ls' d1 d' → main_at d' ≠ Exited.
Proof.
  intros Hr Ho Hb Hx Hs Hr'.
  assert (joined d1) as Hj by (eapply dstep_joined; [exact (druns_joined ls (daemon_init opens) d I Hr)|exact Hs]).
  assert (self_locked t d1) as Hl.
  { inversion Hs; subst. unfold self_locked. cbn. by rewrite decide_True. }
  clear Hr Hs Ho Hb Hx. induction Hr' as [d0|l ls1 d2 d3 d4 Hs _ IH]; [apply Hl|].
  apply IH; [by eapply dstep_joined|by eapply dstep_self_locked].
Qed.

(** after a get that failed, in any thread, csd does not exit on a signal either: the
    handler waits for the mutex that nobody unlocks. *)
Theorem csd_failed_get_no_end ls d d' :
  dump_opens d = true → db_mutex d = Some None → main_at d = Pausing →
  druns ls d d' → main_at d' = Pausing ∨ main_at d' = MainHandling Dump.
Proof.
  intros Ho Hb Hm Hr. assert (main_at d = Pausing ∨ main_at d = MainHandling Dump) as Hm' by auto. clear Hm.
  induction Hr as [d|l ls d d1 d2 Hs _ IH]; [done|]. apply IH; clear IH; destruct Hs as [| |d0 Hp Hg|d0 t0 Hp Hg| | | | | | | | |];
    cbn; try done; try (by right); try (destruct Hm'; congruence);
    unfold dump_goes in Hg; rewrite Ho, Hb in Hg; done.
Qed.

(** * Examples: a run that ends *)

(** A thread works on the database, tests the flag and is joined. *)
Definition sigterm_run : list label :=
  [SignalMain; Inside; Inside; Inside; Inside; Round Update; Inside; Inside; Round Packets; Inside;
   Inside; Inside; Round Hello; Inside; Inside; Inside; Round BestNode; Inside; Inside].

Definition worked (t : cs_thread) (d : daemon) : daemon :=
  move t Testing (with_mutex None (with_mutex (Some (Some t)) d)).

Definition all_ended : daemon :=
  let d := move_main (Joining cs_join_threads) (raise_flag (move_main (MainHandling SetFlag)
    (move_main (MainHandling Dump) (daemon_init true)))) in
  let d := move_main (Joining [Packets; Hello; BestNode]) (move Update Ended (worked Update d)) in
  let d := move_main (Joining [Hello; BestNode]) (move Packets Ended (move Packets Testing d)) in
  let d := move_main (Joining [BestNode]) (move Hello Ended (worked Hello d)) in
  let d := move_main (Joining []) (move BestNode Ended (worked BestNode d)) in
  move_main Exited d.

Lemma sigterm_run_ends : druns sigterm_run (daemon_init true) all_ended.
Proof.
  unfold sigterm_run, all_ended.
  econstructor; [by apply d_signal_main|]. econstructor; [by apply d_dump_main|].
  econstructor; [by apply d_flag_main|].
  econstructor; [by apply (d_lock _ Update)|]. econstructor; [by apply (d_unlock _ Update Testing)|].
  econstructor; [by apply (d_round _ Update)|]. econstructor; [by apply (d_join _ Update)|].
  econstructor; [by apply (d_ignore _ Packets)|].
  econstructor; [by apply (d_round _ Packets)|]. econstructor; [by apply (d_join _ Packets)|].
  econstructor; [by apply (d_lock _ Hello)|]. econstructor; [by apply (d_unlock _ Hello Testing)|].
  econstructor; [by apply (d_round _ Hello)|]. econstructor; [by apply (d_join _ Hello)|].
  econstructor; [by apply (d_lock _ BestNode)|]. econstructor; [by apply (d_unlock _ BestNode Testing)|].
  econstructor; [by apply (d_round _ BestNode)|]. econstructor; [by apply (d_join _ BestNode)|].
  econstructor; [by apply d_exit|]. constructor.
Qed.

Lemma csd_exit_joined_witness :
  SignalMain ∈ sigterm_run ∧ cs_threads_should_exit all_ended = true ∧
  ∀ t, threads all_ended t = Ended ∧ (Round t ∈ sigterm_run ∨ SignalThread t ∈ sigterm_run).
Proof. exact (csd_exit_joined true sigterm_run all_ended sigterm_run_ends eq_refl). Defined.

(** The receiver works on the database. *)
Definition receiver_in_database : daemon := with_mutex (Some (Some Packets)) (daemon_init true).

Lemma receiver_locks : druns [Inside] (daemon_init true) receiver_in_database.
Proof. apply druns_one, (d_lock _ Packets); reflexivity. Qed.

(** The main thread gets the signal while the receiver holds the mutex. *)
Definition signalled_main : daemon := move_main (MainHandling Dump) receiver_in_database.

Lemma receiver_locks_signal : druns [Inside; SignalMain] (daemon_init true) signalled_main.
Proof. econstructor; [by apply (d_lock _ Packets)|]. apply druns_one. by apply d_signal_main. Qed.

Lemma csd_sigterm_ends_witness :
  (∃ ls d', druns ls signalled_main d' ∧ length ls ≤ 20 ∧ main_at d' = Exited ∧ ∀ t, rounds t ls ≤ 1) ∧
  (cs_threads_should_exit signalled_main = true → ∀ ls d' t, druns ls signalled_main d' → rounds t ls ≤ 1).
Proof.
  apply (csd_sigterm_ends true [Inside; SignalMain] signalled_main receiver_locks_signal).
  - right. left.
  - repeat constructor.
Defined.

(** The signal reaches the receiver there, then also the main thread. *)
Definition signalled : daemon := move Packets (Handling Dump) receiver_in_database.

Lemma csd_signal_in_database_witness :
  druns [SignalMain] signalled (move_main (MainHandling Dump) signalled) ∧
  main_at (move_main (MainHandling Dump) signalled) ≠ Exited.
Proof.
  assert (druns [SignalMain] signalled (move_main (MainHandling Dump) signalled)) as Hr
    by (apply druns_one, d_signal_main; reflexivity).
  split; [exact Hr|].
  apply (csd_signal_in_database true [Inside] receiver_in_database Packets signalled [SignalMain]).
  - exact receiver_locks.
  - reflexivity.
  - reflexivity.
  - discriminate.
  - apply d_signal_thread; reflexivity.
  - exact Hr.
Defined.
