(* ===== verification/CsdNet.v ===== *)
(** Several daemons: the load averages of a node reach its peers by hello packets, and the
    default requests copy values of the alive nodes into the local database. *)

From Stdlib Require Import ZArith Lia.
From stdpp Require Import base list gmap strings.
From S2P Require Import Prelude.
From S2P Require Import Cbuf.
From S2P Require Import Ctext.
From S2P Require Import CsdbKey.
From S2P Require Import CsdbState.
From S2P Require Import Csdb.
From S2P Require Import CsdbSpec.
From S2P Require Import CsdbRep.
From S2P Require Import CsdbStore.
From S2P Require Import CsdbTrace.
From S2P Require Import Csp.
From S2P Require Import Csd.
From S2P Require Import CsdProps.
From S2P Require Import Csc.
From S2P Require Import CscProps.
From S2P Require Import CsdLoop.

(** * Refinement of the threads *)

Section refine.
Context {S : Type} `{!CsStore S, !StoreRefinement S} (w : world).

Lemma own_load_refines sf : refines holds (own_load (S := S) w sf) (own_load w sf).
Proof. unfold own_load. refine_auto. Qed.
Hint Resolve own_load_refines : refine.

Lemma cs_send_hello_refines b : refines holds (cs_send_hello (S := S) w b) (cs_send_hello w b).
Proof. unfold cs_send_hello, send. refine_auto. destruct a, a0, a1; refine_auto. Qed.
End refine.

(** * Hello packets *)

Section hello.
Context (w : world).
Hypothesis Hhost : dot_free (hostname w).
Hypothesis Hlen : length (hostname w) ≤ 126.

Lemma own_load_Ok a sf v :
  alocked a = false → last (dot :: sf) ≠ Some dot → length sf ≤ 20 →
  leaf_at (atree a) (lit "node" :: hostname w :: parts [] sf) = Some v →
  own_load w (dot :: sf) a = Ok a (Some v).
Proof.
  intros Hl Hd Hsf Hv. unfold own_load.
  erewrite bind_Ok by (apply sprintf_Ok; unfold KSIZE; rewrite !length_app; simpl; lia).
  erewrite bind_Ok by (apply a_get_leaf_at; [done|by apply valid_node_key|by rewrite node_key]).
  done.
Qed.

(** A load average that is missing leaves a null pointer and the mutex locked: when it is
    the last of the three nothing is sent. *)
Lemma own_load_missing a sf :
  alocked a = false → last (dot :: sf) ≠ Some dot → length sf ≤ 20 →
  nlookup (lit "node" :: hostname w :: parts [] sf) (atree a) = None →
  own_load w (dot :: sf) a = Ok (with_locked true a) None.
Proof.
  intros Hl Hd Hsf Hv. unfold own_load.
  erewrite bind_Ok by (apply sprintf_Ok; unfold KSIZE; rewrite !length_app; simpl; lia).
  assert (csdb_is_valid_key (lit ".node." ++ hostname w ++ dot :: sf) = true) as Hk by by apply valid_node_key.
  change (db_get (lit ".node." ++ hostname w ++ dot :: sf)) with (a_get (lit ".node." ++ hostname w ++ dot :: sf)). unfold a_get. rewrite Hk. cbn [negb].
  assert (a_lock a = Ok (with_locked true a) ()) as Hk1 by (unfold a_lock; by rewrite Hl).
  assert (a_entry (lit ".node." ++ hostname w ++ dot :: sf) (with_locked true a) =
          Ok (with_locked true a) None) as Hk2.
  { unfold a_entry. rewrite decide_True by done. unfold gets. simpl atree.
    by rewrite node_key, Hv by done. }
  unfold mbind, M_bind. by rewrite Hk1, Hk2.
Qed.

(** The packet that is sent has the three values of the database. *)
Lemma send_hello_Ok a c l1 l5 l15 :
  alocked a = false → length c = 1024 → Forall (λ s, length s ≤ 126) [l1; l5; l15] →
  leaf_at (atree a) [lit "node"; hostname w; lit "load"; lit "avg1"] = Some l1 →
  leaf_at (atree a) [lit "node"; hostname w; lit "load"; lit "avg5"] = Some l5 →
  leaf_at (atree a) [lit "node"; hostname w; lit "load"; lit "avg15"] = Some l15 →
  ∃ c', cs_send_hello w c a = Ok a (c', Some (hello_packet_bytes (hostname w) l1 l5 l15)).
Proof.
  rewrite !Forall_cons. intros Hl Hc (? & ? & ? & _) Hv1 Hv5 Hv15. unfold cs_send_hello.
  erewrite bind_Ok by (apply (own_load_Ok a (lit "load.avg1") l1); done || simpl; lia).
  erewrite bind_Ok by (apply (own_load_Ok a (lit "load.avg5") l5); done || simpl; lia).
  erewrite bind_Ok by (apply (own_load_Ok a (lit "load.avg15") l15); done || simpl; lia).
  destruct (csp_pack_hello_packet_spec c (hostname w) l1 l5 l15) as (rest & ->);
    [repeat (apply Forall_cons_2; [lia|]); constructor|lia|].
  eexists. erewrite bind_Ok by done. cbn beta iota. unfold send.
  rewrite (buf_read_app [] (hello_packet_bytes (hostname w) l1 l5 l15) (NUL :: rest)); [|done|].
  - by erewrite bind_Ok.
  - unfold strlen, hello_packet_bytes, hello_bytes. buf_len.
Qed.

Lemma send_hello_missing a c l1 l5 :
  alocked a = false → length c = 1024 →
  leaf_at (atree a) [lit "node"; hostname w; lit "load"; lit "avg1"] = Some l1 →
  leaf_at (atree a) [lit "node"; hostname w; lit "load"; lit "avg5"] = Some l5 →
  nlookup [lit "node"; hostname w; lit "load"; lit "avg15"] (atree a) = None →
  ∃ c', cs_send_hello w c a = Ok (with_locked true a) (c', None).
Proof.
  intros Hl Hc Hv1 Hv5 Hv15. unfold cs_send_hello.
  erewrite bind_Ok by (apply (own_load_Ok a (lit "load.avg1") l1); done || simpl; lia).
  erewrite bind_Ok by (apply (own_load_Ok a (lit "load.avg5") l5); done || simpl; lia).
  erewrite bind_Ok by (apply (own_load_missing a (lit "load.avg15")); done || simpl; lia).
  change c with ([] ++ c). unfold csp_pack_hello_packet.
  rewrite (buf_put_next [] c) by (simpl; lia). cbn [mbind option_bind].
  rewrite (buf_put_next ([] ++ [byte_of 1])) by (rewrite ?length_drop; simpl; lia). by eexists.
Qed.
End hello.

(** C13: the load averages of a node reach its peers: what [csc_set_load] reads from the kernel
    of one node is what the peer that receives the next hello packet of that node returns
    for the keys of its load averages. *)
Theorem cs_load_reaches_peer w sA xA sB xB stack packet c a b l15 run nop pid :
  db_at sA xA → db_at sB xB → dot_free (hostname w) → NUL ∉ hostname w →
  length (hostname w) ≤ 126 → length c = 1024 → Z.of_nat (length packet) = MAXLINE →
  file w (lit "/proc/loadavg") = Some (loadavg_line a b l15 run nop pid ++ [NL]) →
  Forall token [a; b; l15; run; nop; pid] → slash ∉ run →
  Forall (λ v, length v < 20 ∧ NUL ∉ v) [a; b; l15; run; nop; pid] →
  runs (_ ← csc_set_load w; cs_send_hello w c) sA (λ sA' '(_, sent), ∃ bytes,
    sent = Some bytes ∧
    runs (cs_receive_packet stack packet (Some bytes)) sB (λ sB' _,
      db_rep sB' (hello_tree (hostname w) a b l15 (clock sB) xB) ∧
      csdb_get_value_for_key (lit ".alive." ++ hostname w ++ lit ".loadavg1") sB' =
        Ok sB' (0%Z, Some a) ∧
      csdb_get_value_for_key (lit ".alive." ++ hostname w ++ lit ".loadavg5") sB' =
        Ok sB' (0%Z, Some b) ∧
      csdb_get_value_for_key (lit ".alive." ++ hostname w ++ lit ".loadavg15") sB' =
        Ok sB' (0%Z, Some l15))).
Proof.
  intros [HxA HmA] HatB Hh Hn Hlh Hc Hp Hf Htok Hsl Hlen.
  assert (Ha := a_set_load w xA (clock sA) a b l15 run nop pid Hh ltac:(lia) Hf Htok Hsl Hlen).
  destruct (load_values_at (hostname w) a b l15 run nop pid (clock sA) xA) as (H1 & H5 & H15).
  pose proof Hlen as Hlen'. rewrite !Forall_cons in Hlen'.
  destruct Hlen' as ([? ?] & [? ?] & [? ?] & _).
  set (y := restore _ _ xA) in *.
  destruct (send_hello_Ok w Hh Hlh (Adb y false (clock sA)) c a b l15) as (c' & Hsend);
    [done|done|repeat (apply Forall_cons_2; [lia|]); constructor|done..|].
  eapply runs_mono.
  - eapply (refines_runs holds _ _ sA (Adb xA false (clock sA)) (λ _ r,
      r.2 = Some (hello_packet_bytes (hostname w) a b l15)));
      [apply refines_bind; [apply csc_set_load_refines|intros; apply cs_send_hello_refines]|done|].
    unfold runs. erewrite bind_Ok by exact Ha. by rewrite Hsend.
  - intros sA' [c1 sent] (t & _ & Hsent). simpl in Hsent. subst sent. eexists. split; [done|].
    apply hello_received; try done; repeat (apply Forall_cons_2; [done || lia|]); constructor.
Qed.

(** * Default requests *)

(** How a daemon in the state [s] answers a packet. *)
Definition csd_answer {S} `{!CsStore S} (stack packet : buf) (s : S) (bytes : list byte) : net_result :=
  match cs_receive_packet stack packet (Some bytes) s with
  | Ok _ (_, []) | Stop _ => NetTimeout
  | Ok _ (_, out) => NetResp out
  end.

Lemma csd_answer_refines {S} `{!CsStore S, !StoreRefinement S} stack packet (s : S) a bytes :
  holds s a → csd_answer stack packet s bytes = csd_answer stack packet a bytes.
Proof.
  intros Hs. pose proof (cs_receive_packet_refines stack packet (Some bytes) s a Hs) as Hr.
  unfold csd_answer. destruct (cs_receive_packet stack packet (Some bytes) a) as [a' [p [|o out]]|f].
  - by destruct Hr as (s' & -> & _).
  - by destruct Hr as (s' & -> & _).
  - by rewrite Hr.
Qed.

(** A daemon that can be asked: the sizes of its buffers, and its database. *)
Definition peer_at (stack packet : buf) (s : csdb) (y : tree) : Prop :=
  Z.of_nat (length stack) = CSP_MAXPACKET_SIZE ∧ Z.of_nat (length packet) = MAXLINE ∧ db_at s y.

(** The key of a default request, and when it can be asked of the database [y]. *)
Definition req_key (node req : cstr) : cstr := lit ".node." ++ node ++ req.

Definition askable (y : tree) (key v : cstr) : Prop :=
  csdb_is_valid_key key = true ∧ (NUL ∉ key) ∧ (strlen key < KSIZE)%Z ∧
  leaf_at y (key_path key) = Some v ∧ (NUL ∉ v) ∧ (strlen v + 5 < MAXLINE)%Z.

Section requests.
Context (w : world).
Hypothesis Hstack : Z.of_nat (length (stack w)) = MAXLINE.

Lemma unpack_response_data {S} (s : S) v :
  NUL ∉ v → (strlen v + 5 < MAXLINE)%Z →
  unpack_response w (resp_bytes CS_RESP_WDATA CS_RESP_SUCC v) s =
  Ok s (CS_RESP_WDATA, CS_RESP_SUCC, Some v).
Proof.
  intros Hn Hl. unfold unpack_response, strlen, MAXLINE in *.
  set (bytes := resp_bytes CS_RESP_WDATA CS_RESP_SUCC v).
  assert (length bytes = 5 + length v) as Hb by (subst bytes; unfold resp_bytes; buf_len).
  destruct (drop (length bytes) (stack w)) as [|junk rest] eqn:E.
  { apply (f_equal length) in E. rewrite length_drop in E. simpl in E. lia. }
  rewrite take_ge by lia. pose proof (buf_write_next [] (stack w) bytes 0 eq_refl) as Hw.
  rewrite app_nil_l in Hw. rewrite Hw, E, app_nil_l by lia. erewrite bind_Ok by done.
  destruct (csp_unpack_resp_packet_data CS_RESP_WDATA CS_RESP_SUCC v junk rest) as [Hu Hstr];
    [done|done|done|unfold strlen; lia|].
  fold bytes in Hu, Hstr. rewrite Hu. erewrite bind_Ok by done. cbn beta iota. rewrite Hstr.
  by erewrite bind_Ok.
Qed.

(** The answer of a peer is stored under the key of the request. *)
Lemma a_db_request node key v st pk sR y a :
  net w node = csd_answer st pk sR → peer_at st pk sR y → askable y key v →
  alocked a = false →
  cs_do_db_request_for_node w node key a =
  Ok (with_tree (nset (key_path key) v (aclock a) (atree a)) a) 0%Z.
Proof.
  intros Hnet (Hst & Hpk & Hy & Hm) (Hv & Hn & Hk & Hleaf & Hnv & Hlv) Hl.
  pose proof (csdb_valid_key_head _ Hv) as Hh. assert (key ≠ []) by (by intros ->).
  unfold leaf_at in Hleaf. destruct (tdata y (key_path key)) as [d|] eqn:Hd; [|done].
  cbn [mbind option_bind] in Hleaf. destruct (eleaf d) eqn:He; [|done].
  unfold cs_do_db_request_for_node, KSIZE, MAXLINE, strlen in *.
  set (zs := replicate _ NUL).
  assert (length zs = 6 + length key) as Hzs.
  { subst zs. rewrite length_replicate. unfold CSP_DBREQ_HDR_SIZE, strlen. lia. }
  rewrite csp_pack_dbreq_packet_other by (done || unfold strlen; lia).
  erewrite bind_Ok by done. cbn beta iota.
  set (out := take _ _).
  assert (∃ post, out = dbreq_bytes CS_GET key None ++ post ∧ length out ≤ 9 + length key)
    as (post & Hout & Hlo).
  { subst out. rewrite length_take. eexists. split; [|unfold strlen; lia].
    rewrite <- (assoc_L (++)), take_app_ge; [done|].
    unfold dbreq_bytes. rewrite length_app, length_dbreq_key. unfold strlen. simpl. lia. }
  rewrite Hnet, (csd_answer_refines _ _ sR (Adb y false (clock sR))) by done.
  rewrite Hout in Hlo |- *. unfold csd_answer.
  destruct (receive_get st Hst pk Hpk (Adb y false (clock sR)) key d v post) as (m & -> & _);
    [done..|unfold strlen; lia|done|done|done|unfold strlen, CSP_MAXPACKET_SIZE; lia
    |unfold strlen, MAXLINE; lia|].
  cbn beta iota. unfold resp_bytes at 1. cbn [app].
  change (byte_of 1 :: byte_of CS_RESP_WDATA :: byte_of CS_RESP_SUCC :: le_bytes 2 (strlen v) ++ v)
    with (resp_bytes CS_RESP_WDATA CS_RESP_SUCC v).
  erewrite bind_Ok by (apply unpack_response_data; [done|unfold strlen, MAXLINE; lia]).
  cbn beta iota. rewrite decide_True by done. erewrite bind_Ok by (by apply a_set_Ok). done.
Qed.

(** The values of the requests [reqs] to one node. *)
Definition copies (value : cstr → cstr → cstr) (reqs : list cstr) (node : cstr)
    : list (list cstr * cstr) :=
  if decide (hostname w = node) then []
  else (λ req, (key_path (req_key node req), value node req)) <$> reqs.

(** A node answers all the requests. *)
Definition answers_all (value : cstr → cstr → cstr) (reqs : list cstr) (node : cstr) : Prop :=
  hostname w ≠ node → ∃ st pk sR y, net w node = csd_answer st pk sR ∧ peer_at st pk sR y ∧
    Forall (λ req, askable y (req_key node req) (value node req)) reqs.

Lemma def_req_loop_Ok value reqs node a :
  answers_all value reqs node → alocked a = false →
  def_req_loop w node reqs a =
  Ok (with_tree (restore (aclock a) (copies value reqs node) (atree a)) a) ().
Proof.
  unfold answers_all, copies. intros Hans Hl. destruct (decide (hostname w = node)) as [E|Hne].
  { destruct reqs as [|req reqs]; [by destruct a|]. cbn [def_req_loop].
    rewrite decide_True by done. by destruct a. }
  destruct (Hans Hne) as (st & pk & sR & y & Hnet & Hpeer & Hask). clear Hans.
  revert a Hl. induction Hask as [|req reqs Hreq _ IH]; intros a Hl; [by destruct a|].
  cbn [def_req_loop]. rewrite decide_False by done.
  pose proof Hreq as (_ & _ & Hk & _). unfold req_key, strlen in Hk.
  erewrite bind_Ok by (by apply sprintf_Ok).
  erewrite bind_Ok by (by eapply a_db_request).
  rewrite decide_False by lia. rewrite IH by done. done.
Qed.

Lemma restore_app t l1 l2 x : restore t (l1 ++ l2) x = restore t l2 (restore t l1 x).
Proof. unfold restore. by rewrite foldl_app. Qed.

Lemma def_req_nodes_Ok value req_str nodes : ∀ a,
  Forall (answers_all value (strtok [space] req_str)) nodes → alocked a = false →
  def_req_nodes w nodes req_str a =
  Ok (with_tree (restore (aclock a) (nodes ≫= copies value (strtok [space] req_str)) (atree a)) a) ().
Proof.
  induction nodes as [|node nodes IH]; intros a Hf Hl; [by destruct a|].
  apply Forall_cons in Hf as [Hn Hf]. cbn [def_req_nodes mbind list_bind].
  erewrite bind_Ok by (by apply def_req_loop_Ok). rewrite IH by done.
  by rewrite restore_app.
Qed.
End requests.

(** C14: the default requests copy values between daemons: if every alive node but this one runs a
    csd that has a value for each of the requested keys, a round of
    [csc_do_def_req_for_alive_nodes] stores these values under the same keys and changes
    nothing else. *)
Theorem csc_do_def_req_copies s x w d f req_str value :
  db_at s x → Z.of_nat (length (stack w)) = MAXLINE →
  nlookup [lit "alive"] x = Some (d, f) → eleaf d = false → fnames f ≠ [] →
  leaf_at x [lit "config"; lit "def_db_req"] = Some req_str →
  Forall (answers_all w value (strtok [space] req_str)) (fnames f) →
  runs (csc_do_def_req_for_alive_nodes w) s (λ s' ret, ret = 0%Z ∧
    db_at s' (restore (clock s) (fnames f ≫= copies w value (strtok [space] req_str)) x)).
Proof.
  intros [Hx Hm] Hst Hal Hd Hne Hreq Hans. set (a := Adb x false (clock s)).
  eapply runs_mono.
  - eapply (refines_runs holds _ _ s a (λ a' ret, ret = 0%Z ∧
      a' = with_tree (restore (clock s) (fnames f ≫= copies w value (strtok [space] req_str)) x) a));
      [apply (csc_do_def_req_refines (S := csdb))|done|].
    unfold csc_do_def_req_for_alive_nodes. apply runs_bind.
    eapply (runs_eq _ _ a (Z.of_nat (length (fnames f)), Some (fnames f), None)).
    { cbn [db_names adb_store]. unfold a_names. erewrite bind_Ok.
      2:{ unfold a_entry. rewrite decide_True by done. unfold gets. cbn [atree a].
          change (key_path (lit ".alive")) with [lit "alive"]. by rewrite Hal. }
      destruct f as [|b ks ss]; [done|]. by rewrite Hd. }
    cbn beta iota. rewrite decide_False by (destruct (fnames f); simpl; [done|lia]).
    apply runs_bind. eapply runs_eq; [by apply (a_get_leaf_at (lit ".config.def_db_req"))|].
    cbn beta iota. rewrite decide_False by lia. apply runs_bind.
    eapply runs_eq; [by apply def_req_nodes_Ok|]. by apply runs_ret.
  - intros s' ret (a' & (Hx' & Hm' & _) & -> & ->). done.
Qed.
