(* ===== verification/Csda.v ===== *)
(** The arbiter of the csd daemon (src/src/csd/csda.c): the goodness of a node and the
    best node for an application.

    Doubles are the binary64 numbers of the Standard Library's SpecFloat, whose
    operations round as IEEE 754 does. *)

From Stdlib Require Import ZArith Lia Floats.SpecFloat.
From stdpp Require Import base list gmap strings.
From S2P Require Import Prelude Cbuf Ctext CsdbKey CsdbSpec CsdbStore Csp Csd Csc.

(** * Doubles *)

Abbreviation double := spec_float.
Abbreviation dprec := 53%Z.
Abbreviation demax := 1024%Z.

Definition d_of_Z (z : Z) : double := binary_normalize dprec demax z 0 false.
Definition d_add (a b : double) : double := SFadd dprec demax a b.
Definition d_mul (a b : double) : double := SFmul dprec demax a b.
Definition d_div (a b : double) : double := SFdiv dprec demax a b.
(** [a > b] *)
Definition d_gt (a b : double) : bool := SFltb b a.

(** The double a decimal [m / 10^k] denotes, for [m < 2^53] and [k <= 22]. *)
Definition d_decimal (m : Z) (k : nat) : double := d_div (d_of_Z m) (d_of_Z (10 ^ Z.of_nat k)).

(** [atof]: white space, a sign, digits, and a fraction. *)
Fixpoint digits (s : cstr) (acc : Z) (n : nat) : Z * nat * cstr :=
  match s with
  | c :: s' =>
    let d := (byte_val c - 48)%Z in
    if decide (0 ≤ d ≤ 9)%Z then digits s' (10 * acc + d)%Z (Datatypes.S n) else (acc, n, s)
  | [] => (acc, n, [])
  end.

Definition atof (s : cstr) : double :=
  let s := skip_space s in
  let '(neg, s) := match s with
                   | c :: s' => if decide (c = minus) then (true, s')
                                else if decide (c = byte_of 43) then (false, s') else (false, s)
                   | [] => (false, s)
                   end in
  let '(i, _, s) := digits s 0 0 in
  let '(m, k) := match s with
                 | c :: s' => if decide (c = dot) then let '(m, k, _) := digits s' i 0 in (m, k)
                              else (i, 0)
                 | [] => (i, 0)
                 end in
  let d := d_decimal m k in
  if neg : bool then SFopp d else d.

(** * The arbiter *)

Definition NODE_SIZE : Z := 65.
Definition APP_SIZE : Z := 256.

(** [(1/(1+load1)) * 0.7 + (1/(1+load5)) * 0.2 + (1/(1+load15)) * 0.1] *)
Definition inverse (load : double) : double := d_div (d_of_Z 1) (d_add (d_of_Z 1) load).
Definition bench_of (load1 load5 load15 : double) : double :=
  d_add (d_add (d_mul (inverse load1) (d_decimal 7 1)) (d_mul (inverse load5) (d_decimal 2 1)))
        (d_mul (inverse load15) (d_decimal 1 1)).

Section csda.
Context {S : Type} `{!CsStore S}.

(** A load average of a node; [None] if it cannot be read. *)
Definition node_load (node suffix : cstr) : M S (option double) :=
  key ← sprintf KSIZE (lit ".node." ++ node ++ suffix);
  '(error, load_s) ← db_get key;
  if decide (error < 0)%Z then mret None else mret (Some (atof (default [] load_s))).

Definition csda_calc_bench (node : cstr) : M S double :=
  load1 ← node_load node (lit ".load.avg1");
  match load1 with
  | None => mret (d_of_Z 0)
  | Some load1 =>
    load5 ← node_load node (lit ".load.avg5");
    match load5 with
    | None => mret (d_of_Z 0)
    | Some load5 =>
      load15 ← node_load node (lit ".load.avg15");
      match load15 with
      | None => mret (d_of_Z 0)
      | Some load15 => mret (bench_of load1 load5 load15)
      end
    end
  end.

(** [strcpy(_, node)] into a buffer of [size] bytes; it is what [sprintf] does. *)
Definition strcpy (size : Z) (s : cstr) : M S cstr := sprintf size s.

(** [while(node != NULL)]; [node_name] is what the caller's buffer of [size] bytes
    holds. *)
Fixpoint best_loop (size : Z) (nodes : list cstr) (max_bench : double) (node_name : cstr)
    : M S (double * cstr) :=
  match nodes with
  | [] => mret (max_bench, node_name)
  | node :: nodes =>
    alive ← csc_node_is_alive node;
    if alive : bool then
      bench ← csda_calc_bench node;
      if d_gt bench max_bench then
        node_name ← strcpy size node;
        best_loop size nodes bench node_name
      else best_loop size nodes max_bench node_name
    else best_loop size nodes max_bench node_name
  end.

(** The function returns the best benchmark as an [int]; [None] stands for the error
    -1, and the double is what is converted. *)
Definition csda_best_node_for_app (size : Z) (app_name node_name : cstr)
    : M S (option double * cstr) :=
  key ← sprintf KSIZE (lit ".app." ++ app_name ++ lit ".capnodes");
  e ← db_exist key;
  if e : bool then
    '(error, cap_nodes_db) ← db_get key;
    if decide (error < 0)%Z then mret (None, node_name)
    else
      '(max_bench, node_name) ←
        best_loop size (strtok [space] (default [] cap_nodes_db)) (d_of_Z (-1)) node_name;
      mret (Some max_bench, node_name)
  else mret (None, node_name).

(** The conversion of a double to [int] truncates. *)
Definition d_to_int (d : double) : Z :=
  match d with
  | S754_finite s m e =>
    let z := if decide (0 ≤ e)%Z then (Z.pos m * 2 ^ e)%Z else (Z.pos m / 2 ^ (- e))%Z in
    if s : bool then (- z)%Z else z
  | _ => 0%Z
  end.

(** One round of [csda_best_node_server_thread]: the name of the application from the
    request, the answer.  The buffer for the name keeps its contents between rounds;
    the name of this host is the answer if there is an error. *)
Definition best_node_request (hostname app_name best_node : cstr) : M S cstr :=
  app_name ← sprintf APP_SIZE app_name;
  '(r, best_node) ← csda_best_node_for_app NODE_SIZE app_name best_node;
  let error := match r with None => (-1)%Z | Some b => d_to_int b end in
  if decide (error = -1)%Z then strcpy NODE_SIZE hostname else mret best_node.

Definition csda_register_app (w : world) (app : cstr) : M S Z :=
  _ ← csc_scan_libs_for_app w app;
  _ ← csc_update_cap_nodes_for_app w app;
  mret 0%Z.
End csda.
