(* ===== verification/CsdaProps.v ===== *)
(** The best node: what the arbiter returns is the capable node that is alive with the
    greatest benchmark. *)

From Stdlib Require Import ZArith Lia Floats.SpecFloat.
From stdpp Require Import base list gmap strings.
From S2P Require Import Prelude Cbuf Ctext CsdbKey CsdbState Csdb CsdbSpec CsdbRep.
From S2P Require Import CsdbStore.
From S2P Require Import CsdbRefine CsdbTrace Csp Csd CsdProps Csc CscProps Csda.

(** * The order of doubles *)

(** Finite numbers of one sign are ordered by their exponent and then their mantissa. *)
Lemma SFltb_finite s1 m1 e1 s2 m2 e2 :
  SFltb (S754_finite s1 m1 e1) (S754_finite s2 m2 e2) = true ↔
  match s1, s2 with
  | true, false => True
  | false, true => False
  | false, false => (e1 < e2 ∨ e1 = e2 ∧ Z.pos m1 < Z.pos m2)%Z
  | true, true => (e2 < e1 ∨ e1 = e2 ∧ Z.pos m2 < Z.pos m1)%Z
  end.
Proof.
  unfold SFltb, SFcompare. destruct s1, s2; try done.
  - destruct (Z.compare_spec e1 e2); simpl; [|split; [done|lia]|split; [lia|done]].
    fold (Pos.compare m1 m2). destruct (Pos.compare_spec m1 m2); simpl; split; try done; lia.
  - destruct (Z.compare_spec e1 e2); simpl; [|split; [lia|done]|split; [done|lia]].
    fold (Pos.compare m1 m2). destruct (Pos.compare_spec m1 m2); simpl; split; try done; lia.
Qed.

Lemma SFltb_trans a b c : SFltb a b = true → SFltb b c = true → SFltb a c = true.
Proof.
  destruct a as [sa|sa| |sa ma ea], b as [sb|sb| |sb mb eb], c as [sc|sc| |sc mc ec];
    try done; try (by destruct sa); try (by destruct sb); try (by destruct sc);
    try (by destruct sa, sb); try (by destruct sb, sc); try (by destruct sa, sc);
    try (by destruct sa, sb, sc).
  rewrite !SFltb_finite. destruct sa, sb, sc; lia.
Qed.

Lemma SFltb_irrefl a : SFltb a a = false.
Proof.
  destruct a as [s|s| |s m e]; [done|by destruct s|done|].
  destruct (SFltb _ _) eqn:E; [|done]. apply SFltb_finite in E. destruct s; lia.
Qed.

(** What is not greater than [m] is not greater than something greater than [m]. *)
Lemma d_gt_max c m m' : d_gt c m = false → d_gt m' m = true → d_gt c m' = false.
Proof.
  unfold d_gt. intros H1 H2. destruct (SFltb m' c) eqn:E; [|done].
  by rewrite (SFltb_trans m m' c) in H1.
Qed.

(** * The loop *)

Section refine.
Context {S : Type} `{!CsStore S, !StoreRefinement S}.

Lemma node_load_refines node sf :
  refines holds (node_load (S := S) node sf) (node_load node sf).
Proof. unfold node_load. refine_auto. Qed.
Hint Resolve node_load_refines csc_node_is_alive_refines : refine.

Lemma csda_calc_bench_refines node :
  refines holds (csda_calc_bench (S := S) node) (csda_calc_bench node).
Proof. unfold csda_calc_bench. refine_auto. Qed.
Hint Resolve csda_calc_bench_refines : refine.

Lemma best_loop_refines size nodes : ∀ m n,
  refines holds (best_loop (S := S) size nodes m n) (best_loop size nodes m n).
Proof. induction nodes; intros m n; simpl; unfold strcpy; refine_auto. Qed.
Hint Resolve best_loop_refines : refine.

Lemma csda_best_node_refines size app n :
  refines holds (csda_best_node_for_app (S := S) size app n) (csda_best_node_for_app size app n).
Proof. unfold csda_best_node_for_app. refine_auto. Qed.
End refine.

(** A node is alive if hello packets of it were seen. *)
Definition alive (x : tree) (n : cstr) : Prop := is_Some (tdata x [lit "alive"; n]).
#[export] Instance alive_dec x n : Decision (alive x n).
Proof. unfold alive. apply _. Defined.

Definition load_at (x : tree) (n f : cstr) : option cstr :=
  leaf_at x [lit "node"; n; lit "load"; f].

(** The benchmark from the load averages in the database. *)
Definition bench (x : tree) (n : cstr) : double :=
  match load_at x n (lit "avg1"), load_at x n (lit "avg5"), load_at x n (lit "avg15") with
  | Some l1, Some l5, Some l15 => bench_of (atof l1) (atof l5) (atof l15)
  | _, _, _ => d_of_Z 0
  end.

(** The three averages of the node are there. *)
Definition loads_known (x : tree) (n : cstr) : Prop :=
  ∀ f, f ∈ [lit "avg1"; lit "avg5"; lit "avg15"] → is_Some (load_at x n f).

Lemma node_load_Ok a node f v :
  alocked a = false → dot_free node → length node ≤ 200 →
  f ∈ [lit "avg1"; lit "avg5"; lit "avg15"] → load_at (atree a) node f = Some v →
  node_load node (lit ".load." ++ f) a = Ok a (Some (atof v)).
Proof.
  intros Hl Hd Hlen Hf Hv.
  assert (length f ≤ 5 ∧ last f ≠ Some dot ∧ f ≠ [] ∧ dot_free f) as (Hlf & Hlast & Hne & Hdf).
  { rewrite !elem_of_cons, elem_of_nil in Hf. destruct Hf as [->|[->|[->|[]]]];
      (split_and!; [simpl; lia|done|done|by apply (bool_decide_unpack _)]). }
  unfold node_load.
  erewrite bind_Ok by (apply sprintf_Ok; unfold KSIZE; rewrite !length_app; simpl; lia).
  erewrite bind_Ok.
  2:{ apply (a_get_leaf_at _ a v); [done| |].
      - apply valid_node_key; [done|]. rewrite last_app.
        destruct (last f) eqn:E; [done|by apply last_None in E].
      - change (lit ".load." ++ f) with (dot :: lit "load" ++ dot :: f). rewrite node_key by done.
        rewrite parts_app by (by apply (bool_decide_unpack _)). simpl.
        pose proof (parts_app f [] [] Hdf) as Hp. rewrite app_nil_r in Hp. rewrite Hp. simpl.
        by rewrite decide_False. }
  done.
Qed.

Lemma calc_bench_Ok a node :
  alocked a = false → dot_free node → length node ≤ 200 → loads_known (atree a) node →
  csda_calc_bench node a = Ok a (bench (atree a) node).
Proof.
  intros Hl Hd Hlen Hk. unfold csda_calc_bench, bench.
  destruct (Hk (lit "avg1")) as [l1 H1]; [set_solver|].
  destruct (Hk (lit "avg5")) as [l5 H5]; [set_solver|].
  destruct (Hk (lit "avg15")) as [l15 H15]; [set_solver|].
  rewrite H1, H5, H15.
  erewrite bind_Ok by (apply (node_load_Ok a node (lit "avg1") l1); [done..|set_solver|done]).
  cbn beta iota.
  erewrite bind_Ok by (apply (node_load_Ok a node (lit "avg5") l5); [done..|set_solver|done]).
  cbn beta iota.
  by erewrite bind_Ok by (apply (node_load_Ok a node (lit "avg15") l15); [done..|set_solver|done]).
Qed.

Lemma alive_node_key n : dot_free n → n ≠ [] → key_path (lit ".alive." ++ n) = [lit "alive"; n].
Proof.
  intros Hd Hn. unfold key_path, key_parts. rewrite !decide_False by done.
  change (tail (lit ".alive." ++ n)) with (lit "alive" ++ dot :: n).
  rewrite parts_app by (by apply (bool_decide_unpack _)). simpl. f_equal.
  pose proof (parts_app n [] [] Hd) as Hp. rewrite app_nil_r in Hp. rewrite Hp. simpl.
  by rewrite decide_False.
Qed.

Lemma is_alive_Ok a n :
  alocked a = false → dot_free n → n ≠ [] → length n ≤ 200 →
  csc_node_is_alive n a = Ok a (bool_decide (alive (atree a) n)).
Proof.
  intros Hl Hd Hn Hlen. unfold csc_node_is_alive.
  erewrite bind_Ok by (apply sprintf_Ok; unfold KSIZE; rewrite !length_app; simpl; lia).
  cbn [db_exist adb_store]. rewrite a_exist_Ok by done. by rewrite alive_node_key.
Qed.

(** What is the best among some nodes, given the best so far. *)
Definition best_among (x : tree) (nodes : list cstr) (m0 : double) (n0 : cstr)
    (m : double) (n : cstr) : Prop :=
  (m = m0 ∧ n = n0 ∨ n ∈ nodes ∧ alive x n ∧ m = bench x n ∧ d_gt m m0 = true) ∧
  ∀ n', n' ∈ nodes → alive x n' → d_gt (bench x n') m = false.

Definition node_ok (size : Z) (x : tree) (n : cstr) : Prop :=
  dot_free n ∧ n ≠ [] ∧ (strlen n < size)%Z ∧ (alive x n → loads_known x n).

Lemma best_among_skip x n nodes m0 n0 m k :
  best_among x nodes m0 n0 m k → (alive x n → d_gt (bench x n) m0 = false) →
  best_among x (n :: nodes) m0 n0 m k.
Proof.
  intros [H1 H2] Hn. split.
  - destruct H1 as [?|(? & ? & ? & ?)]; [by left|right]. split_and!; [by right|done..].
  - intros n' [->|Hin]%elem_of_cons Ha; [|by apply H2].
    destruct H1 as [[-> _]|(_ & _ & _ & Hgt)]; [by apply Hn|]. by eapply d_gt_max; [apply Hn|].
Qed.

Lemma best_among_take x n nodes m0 n0 m k :
  best_among x nodes (bench x n) n m k → alive x n → d_gt (bench x n) m0 = true →
  best_among x (n :: nodes) m0 n0 m k.
Proof.
  intros [H1 H2] Ha Hgt. split.
  - right. destruct H1 as [[-> ->]|(? & ? & ? & ?)]; split_and!; try done; [by left|by right|].
    unfold d_gt in *. by eapply SFltb_trans.
  - intros n' [->|Hin]%elem_of_cons Ha'; [|by apply H2].
    destruct H1 as [[-> _]|(_ & _ & _ & Hgt')].
    + apply SFltb_irrefl.
    + unfold d_gt in *. destruct (SFltb m (bench x n)) eqn:E; [|done].
      by rewrite <- (SFltb_irrefl m), (SFltb_trans m (bench x n) m).
Qed.

Lemma best_loop_Ok size nodes : ∀ a m0 n0,
  alocked a = false → (size ≤ 200)%Z → Forall (node_ok size (atree a)) nodes →
  ∃ m n, best_loop size nodes m0 n0 a = Ok a (m, n) ∧ best_among (atree a) nodes m0 n0 m n.
Proof.
  induction nodes as [|n nodes IH]; intros a m0 n0 Hl Hs Hok.
  { exists m0, n0. split; [done|]. split; [by left|]. by intros ? ?%elem_of_nil. }
  apply Forall_cons in Hok as [(Hd & Hn & Hsz & Hk) Hok]. unfold strlen in Hsz.
  cbn [best_loop]. erewrite bind_Ok by (apply is_alive_Ok; [done..|lia]).
  destruct (bool_decide_reflect (alive (atree a) n)) as [Ha|Ha].
  - erewrite bind_Ok by (apply calc_bench_Ok; [done|done|lia|auto]).
    destruct (d_gt (bench (atree a) n) m0) eqn:Hgt.
    + erewrite bind_Ok by (by apply sprintf_Ok).
      destruct (IH a (bench (atree a) n) n) as (m & k & -> & Hb); [done..|].
      exists m, k. split; [done|]. by apply best_among_take.
    + destruct (IH a m0 n0) as (m & k & -> & Hb); [done..|].
      exists m, k. split; [done|]. by apply best_among_skip.
  - destruct (IH a m0 n0) as (m & k & -> & Hb); [done..|].
    exists m, k. split; [done|]. by apply best_among_skip.
Qed.

Lemma app_key app f :
  dot_free app → dot_free f → f ≠ [] →
  key_path (lit ".app." ++ app ++ dot :: f) = [lit "app"; app; f].
Proof.
  intros Hd Hf Hn. unfold key_path, key_parts. rewrite !decide_False by done.
  change (tail (lit ".app." ++ app ++ dot :: f)) with (lit "app" ++ dot :: app ++ dot :: f).
  rewrite parts_app by (by apply (bool_decide_unpack _)). simpl. f_equal.
  rewrite parts_app by done. simpl. f_equal.
  pose proof (parts_app f [] [] Hf) as Hp. rewrite app_nil_r in Hp. rewrite Hp. simpl.
  by rewrite decide_False.
Qed.

(** With a list of capable nodes the function is its loop. *)
Lemma best_node_loop a size app nn text :
  alocked a = false → dot_free app → length app ≤ 200 →
  leaf_at (atree a) [lit "app"; app; lit "capnodes"] = Some text →
  csda_best_node_for_app size app nn a =
  ('(m, n) ← best_loop size (strtok [space] text) (d_of_Z (-1)) nn; mret (Some m, n)) a.
Proof.
  intros Hl Hd Hlen Ht. unfold csda_best_node_for_app.
  erewrite bind_Ok by (apply sprintf_Ok; unfold KSIZE; rewrite !length_app; simpl; lia).
  set (key := lit ".app." ++ app ++ lit ".capnodes").
  assert (key_path key = [lit "app"; app; lit "capnodes"]) as Hkey.
  { apply (app_key app (lit "capnodes")); [done|by apply (bool_decide_unpack _)|done]. }
  assert (csdb_is_valid_key key = true) as Hv.
  { unfold csdb_is_valid_key. rewrite (bool_decide_eq_true_2 (head _ = _)) by done.
    rewrite (bool_decide_eq_true_2 (last _ ≠ _)); [by destruct (_ =? _)|].
    subst key. by rewrite !last_app. }
  erewrite bind_Ok by (by apply a_exist_Ok). rewrite Hkey. rewrite bool_decide_eq_true_2.
  2:{ unfold leaf_at in Ht. by destruct (tdata (atree a) _). }
  erewrite bind_Ok by (apply (a_get_leaf_at _ _ text); [done..|by rewrite Hkey]).
  cbn beta iota. by rewrite decide_False by lia.
Qed.

(** What the arbiter returns for an application with a list of capable nodes. *)
Lemma best_node_runs s x app nn text :
  db_at s x → dot_free app → length app ≤ 200 →
  leaf_at x [lit "app"; app; lit "capnodes"] = Some text →
  Forall (node_ok NODE_SIZE x) (strtok [space] text) →
  runs (csda_best_node_for_app NODE_SIZE app nn) s (λ s' r, db_at s' x ∧
    ∃ m, r.1 = Some m ∧
      (m = d_of_Z (-1) ∧ r.2 = nn ∨
       r.2 ∈ strtok [space] text ∧ alive x r.2 ∧ m = bench x r.2) ∧
      ∀ n, n ∈ strtok [space] text → alive x n → d_gt (bench x n) m = false).
Proof.
  intros [Hx Hm] Hd Hlen Ht Hok. set (a := Adb x false (clock s)).
  destruct (best_loop_Ok NODE_SIZE (strtok [space] text) a (d_of_Z (-1)) nn) as (m & n & Hb & H1 & H2);
    [done|unfold NODE_SIZE; lia|done|].
  eapply runs_mono.
  - eapply (refines_runs holds _ _ s a (λ a' r, a' = a ∧ r = (Some m, n)));
      [apply (csda_best_node_refines (S := csdb))|done|].
    unfold runs. rewrite (best_node_loop a _ _ _ text) by done.
    by rewrite (bind_Ok _ _ _ _ _ Hb).
  - intros s' r (a' & (Hx' & Hm' & _) & -> & ->). split; [done|]. exists m. split; [done|].
    split; [|done]. destruct H1 as [?|(? & ? & ? & _)]; [by left|by right].
Qed.

(** C18: for an application whose capable nodes are listed in the database, with the load
    averages known of those that are alive, the arbiter returns without a fault and
    without changing the database.  It returns either a node of the list that is
    alive and whose benchmark is not exceeded by that of another such node, or, if no
    benchmark of such a node exceeds -1, leaves the name as it was with the result
    -1. *)
Theorem csda_best_node_max s x app nn text :
  db_at s x → dot_free app → length app ≤ 200 →
  leaf_at x [lit "app"; app; lit "capnodes"] = Some text →
  Forall (node_ok NODE_SIZE x) (strtok [space] text) →
  runs (csda_best_node_for_app NODE_SIZE app nn) s (λ s' r, db_at s' x ∧
    ∃ m, r.1 = Some m ∧
      (m = d_of_Z (-1) ∧ r.2 = nn ∨
       r.2 ∈ strtok [space] text ∧ alive x r.2 ∧ m = bench x r.2) ∧
      ∀ n, n ∈ strtok [space] text → alive x n → d_gt (bench x n) m = false).
Proof. apply best_node_runs. Qed.

(** ** A node without load averages *)

Lemma a_get_missing key a :
  alocked a = false → csdb_is_valid_key key = true → leaf_at (atree a) (key_path key) = None →
  wf (atree a) →
  ∃ err, (err < 0)%Z ∧ a_get key a = Ok (with_locked true a) (err, None).
Proof.
  intros Hl Hv Hx Hw. unfold a_get. rewrite Hv. cbn [negb].
  rewrite a_lock_entry by (done || by apply csdb_valid_key_head).
  unfold leaf_at, tdata in Hx.
  destruct (nlookup (key_path key) (atree a)) as [c|] eqn:E; [|by eexists; split; [|done]].
  pose proof (wf_lookup _ _ _ Hw E) as Hval. simpl in Hx.
  destruct (eleaf c.1) eqn:El; [by destruct (Hval El)|]. by eexists; split; [|done].
Qed.

(** a node that is listed as capable and is alive, but has no one-minute load average
    in the database, hangs the arbiter as soon as another node follows it in the list:
    the failed get keeps the mutex, and the next lookup waits for it for ever. *)
Theorem csda_best_node_hangs s x app nn n1 n2 rest :
  db_at s x → dot_free app → length app ≤ 200 →
  leaf_at x [lit "app"; app; lit "capnodes"] = Some (spaced space (n1 :: n2 :: rest)) →
  Forall (word [space]) (n1 :: n2 :: rest) →
  Forall (λ n, dot_free n ∧ (strlen n < NODE_SIZE)%Z) [n1; n2] →
  alive x n1 → load_at x n1 (lit "avg1") = None →
  csda_best_node_for_app NODE_SIZE app nn s = Stop Deadlock.
Proof.
  intros [Hx Hm] Hd Hlen Ht Hw Hok Ha Hload. set (a := Adb x false (clock s)).
  rewrite !Forall_cons in Hok. destruct Hok as ((Hd1 & Hs1) & (Hd2 & Hs2) & _).
  pose proof Hw as [[Hn1 _] [[Hn2 _] _]%Forall_cons]%Forall_cons. unfold strlen, NODE_SIZE in Hs1, Hs2.
  assert (csdb_holds s a) as Hh by done.
  pose proof (csda_best_node_refines (S := csdb) NODE_SIZE app nn s a Hh) as Hr.
  enough (csda_best_node_for_app NODE_SIZE app nn a = Stop Deadlock) as E by (by rewrite E in Hr).
  rewrite (best_node_loop a _ _ _ (spaced space (n1 :: n2 :: rest))) by done.
  apply bind_Stop. rewrite strtok_spaced by (done || left). cbn [best_loop].
  erewrite bind_Ok by (apply is_alive_Ok; [done..|lia]). rewrite bool_decide_eq_true_2 by done.
  assert (csda_calc_bench n1 a = Ok (with_locked true a) (d_of_Z 0)) as Hb.
  { unfold csda_calc_bench, node_load.
    destruct (a_get_missing (lit ".node." ++ n1 ++ lit ".load.avg1") a) as (err & He & Hg).
    - done.
    - by apply valid_node_key.
    - change (lit ".load.avg1") with (dot :: lit "load.avg1"). by rewrite node_key.
    - by eapply db_rep_wf.
    - erewrite bind_Ok; [|erewrite bind_Ok by (apply sprintf_Ok; unfold KSIZE; rewrite !length_app; simpl; lia);
        erewrite bind_Ok by exact Hg; cbn beta iota; by rewrite decide_True]. done. }
  erewrite bind_Ok by exact Hb. change (d_gt (d_of_Z 0) (d_of_Z (-1))) with true. cbn iota.
  erewrite bind_Ok by (apply sprintf_Ok; unfold NODE_SIZE; lia).
  apply bind_Stop. unfold csc_node_is_alive.
  erewrite bind_Ok by (apply sprintf_Ok; unfold KSIZE; rewrite !length_app; simpl; lia).
  by apply bind_Stop.
Qed.
