(* ===== verification/Ikcp.v ===== *)
(** The packets and the request numbers of the inter kernel communication daemon
    (src/src/ikcd/ikcp.c, src/src/ikcd/ikcr.c lines 56-145). *)

From Stdlib Require Import ZArith Lia.
From stdpp Require Import base list gmap strings.
From S2P Require Import Prelude Cbuf Csp.

Definition IKC_VERSION : Z := 1.
Definition IKC_PROC_CREAT_REQ : Z := 10.
Definition IKC_SYSCALL_REQ : Z := 11.
Definition IKC_PROC_CREAT_RESP : Z := 30.
Definition IKC_PACKET_HDR_LEN : Z := 2.
Definition IKC_MIN_PACKET_SIZE : Z := 2.
Definition IKC_MAX_NODE_LEN : Z := 65.
Definition IKC_MAX_FILE_LEN : Z := 257.

(** * Packets *)

Definition ikcp_det_packet_type (packet : option buf) : option (option (Z * Z)) :=
  match packet with
  | None => Some None
  | Some p => v ← buf_get p 0; t ← buf_get p 1; Some (Some (schar v, schar t))
  end.

(** A string with its length in front, from offset [pos]; the new offset. *)
Definition put_string (m : buf) (pos : Z) (s : cstr) (len : Z) : option (buf * Z) :=
  m ← buf_put16 m pos len;
  d ← memcpy_src s len;
  m ← buf_write m (pos + 2) d;
  mret (m, pos + 2 + len)%Z.

(** The packet, in a block of [packet_len] bytes, and its length; all lengths are kept
    in 16 bits. *)
Definition ikcp_pack_proc_creat_req (seq o_pid : Z) (o_hostname o_filename o_argv : cstr)
    : option (buf * Z) :=
  let o_hostname_len := u16 (strlen o_hostname) in
  let o_filename_len := u16 (strlen o_filename) in
  let o_argv_len := u16 (strlen o_argv) in
  let packet_len := u16 (1 + 1 + 2 + 4 + o_hostname_len + o_filename_len + o_argv_len + 3 * 2) in
  let m := replicate (Z.to_nat packet_len) NUL in
  m ← buf_put m 0 (byte_of IKC_VERSION);
  m ← buf_put m 1 (byte_of IKC_PROC_CREAT_REQ);
  m ← buf_put16 m 2 seq;
  m ← buf_put32 m 4 o_pid;
  '(m, pos) ← put_string m 8 o_hostname o_hostname_len;
  '(m, pos) ← put_string m pos o_filename o_filename_len;
  '(m, _) ← put_string m pos o_argv o_argv_len;
  mret (m, packet_len).

(** A string and its length at [pos]: the bytes and the new offset. *)
Definition get_string (m : buf) (pos : Z) : option (list byte * Z) :=
  string_len ← buf_get16 m pos;
  d ← buf_read m (pos + 2) string_len;
  mret (d, pos + 2 + string_len)%Z.

(** The bytes of a string that was copied and terminated. *)
Definition terminated (d : list byte) : option cstr := until_nul (d ++ [NUL]).

(** The sequence number, the pid, and the strings; the host name goes to an array of
    [IKC_MAX_NODE_LEN] bytes, the others to blocks that fit. *)
Definition ikcp_unpack_proc_creat_req (packet : buf) : option (Z * Z * cstr * cstr * cstr) :=
  seq ← buf_get16 packet IKC_PACKET_HDR_LEN;
  o_pid ← buf_get32 packet (IKC_PACKET_HDR_LEN + 2);
  '(h, pos) ← get_string packet (IKC_PACKET_HDR_LEN + 2 + 4);
  o_node ← buf_write (replicate (Z.to_nat IKC_MAX_NODE_LEN) NUL) 0 h;
  o_node ← buf_put o_node (Z.of_nat (length h)) NUL;
  o_hostname ← buf_str o_node 0;
  '(f, pos) ← get_string packet pos;
  '(a, _) ← get_string packet pos;
  o_filename ← terminated f;
  o_argv ← terminated a;
  mret (seq, s32 o_pid, o_hostname, o_filename, o_argv).

Definition ikcp_pack_proc_creat_resp (seq r_pid : Z) : option (buf * Z) :=
  let packet_len := (IKC_PACKET_HDR_LEN + 2 + 4)%Z in
  let m := replicate (Z.to_nat packet_len) NUL in
  m ← buf_put m 0 (byte_of IKC_VERSION);
  m ← buf_put m 1 (byte_of IKC_PROC_CREAT_RESP);
  m ← buf_put16 m IKC_PACKET_HDR_LEN seq;
  m ← buf_put32 m (IKC_PACKET_HDR_LEN + 2) r_pid;
  mret (m, packet_len).

Definition ikcp_unpack_proc_creat_resp (packet : buf) : option (Z * Z) :=
  seq ← buf_get16 packet IKC_PACKET_HDR_LEN;
  r_pid ← buf_get32 packet (IKC_PACKET_HDR_LEN + 2);
  mret (seq, s32 r_pid).

(** * Request numbers *)

(** [addr] is the address of the client in the order of the host. *)
Definition ikcr_pack_request_number (addr request_id : Z) : Z :=
  Z.lor (u32 (Z.shiftl (u32 addr) 16)) (u16 request_id).

Definition ikcr_pack_request_id (thread_id seq_number : Z) : Z :=
  u16 (Z.lor (Z.shiftl (u8 thread_id) 10) (Z.land 0x03ff (u16 seq_number))).

Definition ikcr_unpack_req_id (request_nbr : Z) : Z := u16 (Z.land 0x0000ffff (u32 request_nbr)).
Definition ikcr_unpack_host_id (request_nbr : Z) : Z := u16 (Z.shiftr (u32 request_nbr) 16).
Definition ikcr_unpack_thread_id (request_nbr : Z) : Z :=
  u8 (Z.land (Z.shiftr (u32 request_nbr) 10) 0x0000003f).
Definition ikcr_unpack_seq_number (request_nbr : Z) : Z :=
  u16 (Z.land (u32 request_nbr) 0x000003ff).

(** The sequence number of the next request of a worker (src/src/ikcd/ikcd.c lines
    184-189); it starts at -1 in 16 bits. *)
Definition next_seq (seq_nbr : Z) : Z :=
  if decide (seq_nbr = 1024)%Z then 0%Z else u16 (seq_nbr + 1).
Definition first_seq : Z := u16 (-1).

(** ** Arithmetic of the numbers *)

Lemma lor_shift_add hi lo n :
  (0 ≤ n)%Z → (0 ≤ lo < 2 ^ n)%Z → Z.lor (Z.shiftl hi n) lo = (hi * 2 ^ n + lo)%Z.
Proof.
  intros Hn Hlo. pose proof (Z.add_lor_land (Z.shiftl hi n) lo) as H.
  assert (Z.land (Z.shiftl hi n) lo = 0)%Z as H0.
  { apply Z.bits_inj'. intros k Hk. rewrite Z.land_spec, Z.bits_0.
    destruct (decide (k < n)%Z).
    - by rewrite Z.shiftl_spec_low.
    - rewrite <- (Z.mod_small lo (2 ^ n)) by done. rewrite Z.mod_pow2_bits_high by lia.
      apply andb_false_r. }
  rewrite H0 in H. rewrite Z.shiftl_mul_pow2 in * by done. lia.
Qed.

Lemma pack_id_eq t q :
  ikcr_pack_request_id t q = ((t `mod` 64) * 1024 + q `mod` 1024)%Z.
Proof.
  unfold ikcr_pack_request_id, u16, u8.
  rewrite Z.land_comm. change 0x03ff%Z with (Z.ones 10). rewrite Z.land_ones by done.
  rewrite lor_shift_add by (done || apply Z.mod_pos_bound; lia).
  change (2 ^ 10)%Z with 1024%Z. change (2 ^ 8)%Z with 256%Z.
  Z.to_euclidean_division_equations. lia.
Qed.

Lemma pack_number_eq addr id :
  (0 ≤ id < 2 ^ 16)%Z →
  ikcr_pack_request_number addr id = ((addr `mod` 2 ^ 16) * 2 ^ 16 + id)%Z.
Proof.
  intros Hid. unfold ikcr_pack_request_number, u16, u32. rewrite (Z.mod_small id) by done.
  rewrite Z.shiftl_mul_pow2 by done.
  replace ((addr `mod` 2 ^ 32 * 2 ^ 16) `mod` 2 ^ 32)%Z with (Z.shiftl (addr `mod` 2 ^ 16) 16).
  - by rewrite lor_shift_add.
  - rewrite Z.shiftl_mul_pow2 by done. Z.to_euclidean_division_equations. lia.
Qed.

Lemma unpack_eq n :
  (0 ≤ n < 2 ^ 32)%Z →
  ikcr_unpack_req_id n = (n `mod` 2 ^ 16)%Z ∧ ikcr_unpack_host_id n = (n / 2 ^ 16)%Z ∧
  ikcr_unpack_thread_id n = ((n / 1024) `mod` 64)%Z ∧
  ikcr_unpack_seq_number n = (n `mod` 1024)%Z.
Proof.
  intros Hn. unfold ikcr_unpack_req_id, ikcr_unpack_host_id, ikcr_unpack_thread_id,
    ikcr_unpack_seq_number, u16, u8, u32.
  rewrite !(Z.mod_small n (2 ^ 32)) by done. rewrite (Z.land_comm 0xffff).
  change 0xffff%Z with (Z.ones 16). change 0x3f%Z with (Z.ones 6). change 0x3ff%Z with (Z.ones 10).
  rewrite !Z.land_ones, !Z.shiftr_div_pow2 by done.
  split_and!; Z.to_euclidean_division_equations; lia.
Qed.

(** C36: a request number holds the low half of the address of the client, the id of its
    worker and the sequence number, and the three are taken out of it again, for the
    worker ids below 64 and the sequence numbers below 1024; two requests have the same
    number exactly if they agree on the three. *)
Theorem ikcr_request_number_roundtrip addr t q addr' t' q' :
  (0 ≤ t < 64)%Z → (0 ≤ q < 1024)%Z → (0 ≤ t' < 64)%Z → (0 ≤ q' < 1024)%Z →
  let n := ikcr_pack_request_number addr (ikcr_pack_request_id t q) in
  let n' := ikcr_pack_request_number addr' (ikcr_pack_request_id t' q') in
  ikcr_unpack_host_id n = (addr `mod` 2 ^ 16)%Z ∧ ikcr_unpack_thread_id n = t ∧
  ikcr_unpack_seq_number n = q ∧ ikcr_unpack_req_id n = ikcr_pack_request_id t q ∧
  (n = n' ↔ (addr `mod` 2 ^ 16 = addr' `mod` 2 ^ 16)%Z ∧ t = t' ∧ q = q').
Proof.
  intros Ht Hq Ht' Hq'. simpl.
  rewrite !pack_id_eq, !(Z.mod_small t), !(Z.mod_small q), !(Z.mod_small t'), !(Z.mod_small q') by lia.
  rewrite !pack_number_eq by lia.
  destruct (unpack_eq (addr `mod` 2 ^ 16 * 2 ^ 16 + (t * 1024 + q))) as (-> & -> & -> & ->).
  { pose proof (Z.mod_pos_bound addr (2 ^ 16)). lia. }
  pose proof (Z.mod_pos_bound addr (2 ^ 16) ltac:(lia)).
  pose proof (Z.mod_pos_bound addr' (2 ^ 16) ltac:(lia)).
  split_and!; [Z.to_euclidean_division_equations; lia..|].
  split; [|by intros (-> & -> & ->)].
  generalize dependent (addr `mod` 2 ^ 16)%Z. generalize dependent (addr' `mod` 2 ^ 16)%Z.
  change (2 ^ 16)%Z with 65536%Z. intros B HB A HA E.
  assert (A = B)%Z by lia. assert (t = t')%Z by lia. lia.
Qed.

(** the numbers of a worker repeat: its first request and its request number 1025
    have different sequence numbers and the same request id, and so have any two
    workers whose ids differ by 64. *)
Theorem ikcr_request_id_collides t q :
  Nat.iter 1 next_seq first_seq ≠ Nat.iter 1025 next_seq first_seq ∧
  ikcr_pack_request_id t (Nat.iter 1 next_seq first_seq) =
    ikcr_pack_request_id t (Nat.iter 1025 next_seq first_seq) ∧
  ikcr_pack_request_id (t + 64) q = ikcr_pack_request_id t q.
Proof.
  change (Nat.iter 1 next_seq first_seq) with 0%Z.
  assert (Nat.iter 1025 next_seq first_seq = 1024%Z) as -> by (vm_compute; reflexivity).
  split_and!; [done| |]; rewrite !pack_id_eq; [done|].
  Z.to_euclidean_division_equations. lia.
Qed.

(** * Round trips of the packets *)

Definition string_bytes (s : cstr) : list byte := le_bytes 2 (strlen s) ++ s.

Lemma length_string_bytes s : length (string_bytes s) = 2 + length s.
Proof. unfold string_bytes. by rewrite length_app, length_le_bytes. Qed.

Lemma put_string_next pre rest s pos :
  pos = Z.of_nat (length pre) → 2 + length s ≤ length rest →
  put_string (pre ++ rest) pos s (strlen s) =
  Some ((pre ++ string_bytes s) ++ drop (2 + length s) rest,
        Z.of_nat (length (pre ++ string_bytes s))).
Proof.
  intros -> Hr. unfold put_string, strlen. buf_step.
  rewrite memcpy_src_all. cbn [mbind option_bind]. buf_step.
  cbn [mret option_ret]. unfold string_bytes, strlen. rewrite drop_drop, <- !(assoc_L (++)).
  apply (f_equal Some), (f_equal2 pair); [done|]. buf_len.
Qed.

Lemma get_string_app pre s post :
  (strlen s < 2 ^ 16)%Z →
  get_string (pre ++ string_bytes s ++ post) (Z.of_nat (length pre)) =
  Some (s, Z.of_nat (length (pre ++ string_bytes s))).
Proof.
  intros Hs. unfold get_string, string_bytes, strlen in *. rewrite <- (assoc_L (++)).
  rewrite buf_get16_app by (done || lia). cbn [mbind option_bind].
  rewrite (assoc_L (++)), buf_read_app by (buf_len; done || simpl; lia).
  cbn [mbind option_bind mret option_ret]. apply (f_equal Some), (f_equal2 pair); [done|]. buf_len.
Qed.

Lemma buf_get32_mod pre z post i :
  i = Z.of_nat (length pre) → buf_get32 (pre ++ le_bytes 4 z ++ post) i = Some (u32 z).
Proof.
  intros Hi. unfold buf_get32. rewrite buf_read_app by done.
  cbn [fmap option_fmap option_map]. by rewrite (le_val_bytes 4).
Qed.

Lemma s32_u32 z : (- 2 ^ 31 ≤ z < 2 ^ 31)%Z → s32 (u32 z) = z.
Proof.
  intros. unfold s32, u32. rewrite Zplus_mod_idemp_l, Z.mod_small; lia.
Qed.

Definition creat_req_bytes (seq o_pid : Z) (host file argv : cstr) : list byte :=
  ([byte_of IKC_VERSION; byte_of IKC_PROC_CREAT_REQ] ++ le_bytes 2 seq ++ le_bytes 4 o_pid) ++
  string_bytes host ++ string_bytes file ++ string_bytes argv.

Lemma ikcp_pack_req_eq seq o_pid host file argv :
  (14 + strlen host + strlen file + strlen argv < 2 ^ 16)%Z →
  ikcp_pack_proc_creat_req seq o_pid host file argv =
  Some (creat_req_bytes seq o_pid host file argv, 14 + strlen host + strlen file + strlen argv)%Z.
Proof.
  intros Hl. unfold ikcp_pack_proc_creat_req.
  assert (∀ s, 0 ≤ strlen s)%Z as Hpos by (unfold strlen; lia).
  pose proof (Hpos host). pose proof (Hpos file). pose proof (Hpos argv).
  rewrite (u16_small (strlen host)), (u16_small (strlen file)), (u16_small (strlen argv)) by lia.
  rewrite u16_small by lia. set (len := (1 + 1 + 2 + 4 + strlen host + strlen file + strlen argv + 3 * 2)%Z).
  set (m := replicate (Z.to_nat len) NUL).
  assert (length m = 14 + length host + length file + length argv) as Hm.
  { subst m len. rewrite length_replicate. unfold strlen. lia. }
  clearbody m. change m with ([] ++ m) at 1. do 4 buf_step.
  rewrite put_string_next by (simpl; buf_len). cbn [mbind option_bind].
  rewrite put_string_next by (done || (simpl; buf_len)). cbn [mbind option_bind].
  rewrite put_string_next by (done || (simpl; buf_len)).
  cbn [mbind option_bind mret option_ret]. apply (f_equal Some), (f_equal2 pair); [|lia].
  unfold creat_req_bytes. rewrite !drop_drop, drop_ge, app_nil_r by (rewrite Hm; lia).
  rewrite <- !(assoc_L (++)). done.
Qed.

Lemma terminated_all d : NUL ∉ d → terminated d = Some d.
Proof.
  intros Hd. unfold terminated. induction d as [|b d IH]; simpl; [done|].
  apply not_elem_of_cons in Hd as [? ?]. rewrite decide_False by auto. by rewrite IH.
Qed.

Lemma ikcp_unpack_req_eq seq o_pid host file argv :
  (0 ≤ seq < 2 ^ 16)%Z → (- 2 ^ 31 ≤ o_pid < 2 ^ 31)%Z →
  NUL ∉ host → NUL ∉ file → NUL ∉ argv → (strlen host < IKC_MAX_NODE_LEN)%Z →
  (14 + strlen host + strlen file + strlen argv < 2 ^ 16)%Z →
  ikcp_unpack_proc_creat_req (creat_req_bytes seq o_pid host file argv) = Some (seq, o_pid, host, file, argv).
Proof.
  intros Hs Hp Hh Hf Ha Hlh Hl.
  unfold ikcp_unpack_proc_creat_req, creat_req_bytes, IKC_PACKET_HDR_LEN, IKC_MAX_NODE_LEN in *.
  set (hd := [byte_of IKC_VERSION; byte_of IKC_PROC_CREAT_REQ]).
  assert (∀ s, 0 ≤ strlen s)%Z as Hpos by (unfold strlen; lia).
  pose proof (Hpos host). pose proof (Hpos file). pose proof (Hpos argv).
  rewrite <- !(assoc_L (++)), (buf_get16_app hd) by done. cbn [mbind option_bind].
  rewrite (assoc_L (++) hd), buf_get32_mod by done. cbn [mbind option_bind].
  rewrite s32_u32 by done.
  set (pre := (hd ++ le_bytes 2 seq) ++ le_bytes 4 o_pid). rewrite (assoc_L (++) (hd ++ _)). fold pre.
  change (2 + 2 + 4)%Z with (Z.of_nat (length pre)).
  rewrite get_string_app by lia. cbn [mbind option_bind].
  pose proof (buf_write_next [] (replicate (Z.to_nat 65) NUL) host 0) as Hw. rewrite !app_nil_l in Hw.
  rewrite Hw by (done || (unfold strlen in *; buf_len; lia)). cbn [mbind option_bind].
  destruct (drop (length host) (replicate (Z.to_nat 65) NUL)) as [|j rest] eqn:E.
  { apply (f_equal length) in E. rewrite length_drop, length_replicate in E.
    unfold strlen in *. simpl in E. lia. }
  rewrite buf_put_app by done. cbn [mbind option_bind].
  pose proof (buf_str_app [] host rest 0 eq_refl Hh) as Hstr. rewrite app_nil_l in Hstr.
  rewrite Hstr. cbn [mbind option_bind]. rewrite (assoc_L (++) pre).
  rewrite get_string_app by lia. cbn [mbind option_bind].
  rewrite (assoc_L (++) (pre ++ _)), <- (app_nil_r (string_bytes argv)), get_string_app by lia.
  cbn [mbind option_bind]. rewrite !terminated_all by done. done.
Qed.

(** a process creation request is unpacked to what was packed: the request id, the
    pid, and the three strings, for a host name that fits its array and strings that
    fit the 16 bit length of the packet. *)
Theorem ikcp_proc_creat_req_roundtrip seq o_pid host file argv :
  (0 ≤ seq < 2 ^ 16)%Z → (- 2 ^ 31 ≤ o_pid < 2 ^ 31)%Z →
  NUL ∉ host → NUL ∉ file → NUL ∉ argv → (strlen host < IKC_MAX_NODE_LEN)%Z →
  (14 + strlen host + strlen file + strlen argv < 2 ^ 16)%Z →
  ∃ p, ikcp_pack_proc_creat_req seq o_pid host file argv = Some (p, strlen p) ∧
    ikcp_unpack_proc_creat_req p = Some (seq, o_pid, host, file, argv).
Proof.
  intros Hs Hp Hh Hf Ha Hlh Hl. rewrite ikcp_pack_req_eq by done. eexists. split.
  2: by apply ikcp_unpack_req_eq.
  apply (f_equal Some), (f_equal2 pair); [done|]. unfold creat_req_bytes, strlen.
    repeat (rewrite length_app || rewrite length_string_bytes). simpl. lia.
Qed.

Lemma buf_write_fits m i l m' :
  buf_write m i l = Some m' → (i + Z.of_nat (length l) ≤ Z.of_nat (length m))%Z.
Proof. unfold buf_write. case_decide; [lia|done]. Qed.

Lemma put_string_fits m pos s len m' pos' :
  put_string m pos s len = Some (m', pos') →
  (pos' ≤ Z.of_nat (length m))%Z ∧ pos' = (pos + 2 + len)%Z ∧ length m' = length m.
Proof.
  unfold put_string, buf_put16. intros (m1 & H1 & H)%bind_Some.
  apply bind_Some in H as (d & Hd & H). apply bind_Some in H as (m2 & H2 & [= <- <-]).
  pose proof (buf_write_fits _ _ _ _ H2) as Hf. rewrite (length_buf_write _ _ _ _ H2).
  rewrite (length_buf_write _ _ _ _ H1) in Hf |- *. split_and!; [|done..].
  assert (len ≤ Z.of_nat (length d))%Z; [|lia].
  unfold memcpy_src, buf_read in Hd. case_decide; [|done]. injection Hd as <-.
  rewrite length_take, length_drop. lia.
Qed.

(** strings that together with the 14 other bytes do not fit 16 bits make the packet
    length wrap around: the block is too small and the strings are written past its
    end. *)
Theorem ikcp_pack_req_overflow seq o_pid host file argv :
  (strlen host < 2 ^ 16)%Z → (strlen file < 2 ^ 16)%Z → (strlen argv < 2 ^ 16)%Z →
  (2 ^ 16 ≤ 14 + strlen host + strlen file + strlen argv)%Z →
  ikcp_pack_proc_creat_req seq o_pid host file argv = None.
Proof.
  intros Hh Hf Ha Hl. unfold ikcp_pack_proc_creat_req, buf_put, buf_put16, buf_put32.
  assert (∀ s, 0 ≤ strlen s)%Z as Hpos by (unfold strlen; lia).
  pose proof (Hpos host). pose proof (Hpos file). pose proof (Hpos argv).
  rewrite !(u16_small (strlen _)) by lia.
  set (len := u16 _). set (m := replicate (Z.to_nat len) NUL).
  assert (Z.of_nat (length m) < 2 ^ 16)%Z as Hm.
  { subst m len. rewrite length_replicate. unfold u16.
    pose proof (Z.mod_pos_bound (1 + 1 + 2 + 4 + strlen host + strlen file + strlen argv + 3 * 2)
      (2 ^ 16) ltac:(lia)). lia. }
  clearbody m. apply eq_None_not_Some. intros [r Hr].
  do 4 (apply bind_Some in Hr as (? & ?%length_buf_write & Hr)).
  apply bind_Some in Hr as ([m1 p1] & (? & -> & ?)%put_string_fits & Hr).
  apply bind_Some in Hr as ([m2 p2] & (? & -> & ?)%put_string_fits & Hr).
  apply bind_Some in Hr as ([m3 p3] & (Hle & -> & ?)%put_string_fits & Hr).
  repeat match goal with E : length _ = length _ |- _ => rewrite E in * end. lia.
Qed.

(** a process creation response is unpacked to what was packed. *)
Theorem ikcp_proc_creat_resp_roundtrip seq r_pid :
  (0 ≤ seq < 2 ^ 16)%Z → (- 2 ^ 31 ≤ r_pid < 2 ^ 31)%Z →
  ∃ p, ikcp_pack_proc_creat_resp seq r_pid = Some (p, strlen p) ∧
    ikcp_unpack_proc_creat_resp p = Some (seq, r_pid).
Proof.
  intros Hs Hp. exists ([byte_of IKC_VERSION; byte_of IKC_PROC_CREAT_RESP] ++ le_bytes 2 seq ++
    le_bytes 4 r_pid). split; [done|].
  unfold ikcp_unpack_proc_creat_resp, IKC_PACKET_HDR_LEN.
  rewrite (buf_get16_app [_; _]) by done. cbn [mbind option_bind].
  rewrite <- (app_nil_r (le_bytes 4 r_pid)), (assoc_L (++)), buf_get32_mod by done.
  cbn [mbind option_bind]. by rewrite s32_u32.
Qed.
