(* ===== verification/Ikcq.v ===== *)
(** The request queues of ikcd (src/src/ikcd/ikcq.c, src/src/include/ikc.h lines 67-79):
    a doubly linked list whose first element points back to the last one.

    Requests are pointers here; [freed] records what is released of them.  IkcqRep.v
    and IkcqProps.v prove that every operation refines the one of a first-in first-out
    list, without a memory error and without a leaked element. *)

From Stdlib Require Import ZArith Lia.
From stdpp Require Import base list gmap strings.
From S2P Require Import Prelude.

Abbreviation loc := positive.
Abbreviation ptr := (option positive).

Definition E_IKC_NOQUEUE : Z := 2.
Definition E_IKC_NOREQ : Z := 3.

Record ikc_request_queue : Type := QElem { req_struct : loc; qnext : ptr; qprev : ptr }.

Definition set_req (r : loc) (e : ikc_request_queue) : ikc_request_queue := QElem r (qnext e) (qprev e).
Definition set_qnext (p : ptr) (e : ikc_request_queue) : ikc_request_queue := QElem (req_struct e) p (qprev e).
Definition set_qprev (p : ptr) (e : ikc_request_queue) : ikc_request_queue := QElem (req_struct e) (qnext e) p.

(** What is released of a request: [__ikc_free_request] frees its client address,
    [free] the structure itself. *)
Inductive release : Set := FreeAddr (r : loc) | FreeStruct (r : loc).

#[export] Instance release_eq_dec : EqDecision release.
Proof. solve_decision. Defined.

(** The head of a queue with the heap of its elements. *)
Record ikc_queue_head : Type := QHead {
  queue : ptr;
  mutex : bool;
  elems : gmap loc ikc_request_queue;
  fresh : loc;
  freed : list release
}.

Definition with_queue (p : ptr) (s : ikc_queue_head) : ikc_queue_head :=
  QHead p (mutex s) (elems s) (fresh s) (freed s).
Definition with_mutex (b : bool) (s : ikc_queue_head) : ikc_queue_head :=
  QHead (queue s) b (elems s) (fresh s) (freed s).
Definition with_elems (h : gmap loc ikc_request_queue) (s : ikc_queue_head) : ikc_queue_head :=
  QHead (queue s) (mutex s) h (fresh s) (freed s).

(** * Memory *)

Definition qderef (p : ptr) : M ikc_queue_head ikc_request_queue :=
  match p with
  | None => stop NullDeref
  | Some l => λ s, match elems s !! l with Some e => Ok s e | None => Stop BadPtr end
  end.

Definition qstore (p : ptr) (g : ikc_request_queue → ikc_request_queue) : M ikc_queue_head unit :=
  match p with
  | None => stop NullDeref
  | Some l => λ s,
    if decide (is_Some (elems s !! l)) then Ok (with_elems (alter g l (elems s)) s) ()
    else Stop BadPtr
  end.

(** [malloc] does not fail; [junk] is what the block holds. *)
Definition qmalloc (junk : ikc_request_queue) : M ikc_queue_head ptr := λ s,
  Ok (QHead (queue s) (mutex s) (<[fresh s := junk]> (elems s)) (Pos.succ (fresh s)) (freed s))
     (Some (fresh s)).

Definition qfree (p : ptr) : M ikc_queue_head unit :=
  match p with
  | None => mret ()
  | Some l => λ s,
    if decide (is_Some (elems s !! l)) then Ok (with_elems (delete l (elems s)) s) ()
    else Stop BadPtr
  end.

Definition qlock : M ikc_queue_head unit := λ s,
  if mutex s then Stop Deadlock else Ok (with_mutex true s) ().
Definition qunlock : M ikc_queue_head unit := modify (with_mutex false).

Definition log_release (e : release) : M ikc_queue_head unit :=
  modify (λ s, QHead (queue s) (mutex s) (elems s) (fresh s) (e :: freed s)).

(** * Operations *)

Definition ikcq_queue_request (junk : ikc_request_queue) (req : loc) : M ikc_queue_head Z :=
  new_q ← qmalloc junk;
  _ ← qlock;
  q ← gets queue;
  _ ← match q with
      | None =>
        _ ← modify (with_queue new_q);
        _ ← qstore new_q (set_qprev new_q);
        _ ← qstore new_q (set_qnext None);
        qstore new_q (set_req req)
      | Some _ =>
        e ← qderef q;
        let tail := qprev e in
        t ← qderef tail;
        _ ← qstore new_q (set_req req);
        _ ← qstore new_q (set_qnext (qnext t));
        _ ← qstore new_q (set_qprev tail);
        _ ← qstore tail (set_qnext new_q);
        qstore q (set_qprev new_q)
      end;
  _ ← qunlock;
  mret 0%Z.

(** The four conditional assignments that take an element out of the list; every
    [q_deq->...] of the source is a read of the element. *)
Definition unlink (e : ptr) : M ikc_queue_head unit :=
  v ← qderef e;
  _ ← match qnext v with Some _ => qstore (qnext v) (set_qprev (qprev v)) | None => mret () end;
  q ← gets queue;
  _ ← (if decide (e ≠ q) then v ← qderef e; qstore (qprev v) (set_qnext (qnext v))
       else mret ());
  h ← qderef q;
  _ ← (if decide (e = qprev h) then v ← qderef e; qstore q (set_qprev (qprev v))
       else mret ());
  (if decide (e = q) then v ← qderef e; modify (with_queue (qnext v)) else mret ()).

(** [want]: whether the caller passes a pointer for the request; without one the
    request is freed. *)
Definition ikcq_dequeue_request (want : bool) : M ikc_queue_head (Z * option loc) :=
  _ ← qlock;
  q ← gets queue;
  match q with
  | None => _ ← qunlock; mret (- E_IKC_NOQUEUE, None)%Z
  | Some _ =>
    _ ← unlink q;
    v ← qderef q;
    _ ← (if want then mret ()
         else _ ← log_release (FreeAddr (req_struct v)); log_release (FreeStruct (req_struct v)));
    _ ← qfree q;
    _ ← qunlock;
    mret (0%Z, if want then Some (req_struct v) else None)
  end.

(** [while(p->req_struct != req && p != NULL) p = p->next]: the element is read before
    it is compared with [NULL]. *)
Fixpoint find_loop (fuel : nat) (p : ptr) (req : loc) : M ikc_queue_head ptr :=
  match fuel with
  | 0 => stop OutOfFuel
  | S fuel =>
    e ← qderef p;
    if decide (req_struct e = req) then mret p else find_loop fuel (qnext e) req
  end.

Definition ikcq_remove_request (req : loc) : M ikc_queue_head Z :=
  _ ← qlock;
  q ← gets queue;
  match q with
  | None => _ ← qunlock; mret (- E_IKC_NOQUEUE)%Z
  | Some _ =>
    fuel ← gets (λ s, S (size (elems s)));
    p ← find_loop fuel q req;
    _ ← unlink p;
    v ← qderef p;
    _ ← log_release (FreeAddr (req_struct v));
    _ ← qfree p;
    _ ← qunlock;
    mret 0%Z
  end.
