(* ===== verification/IkcqRep.v ===== *)
(** The request queues of ikcd as lists in a heap: what it means that the heap holds
    the elements of a list, and that queueing and unlinking keep it so. *)

From Stdlib Require Import ZArith Lia.
From stdpp Require Import base list gmap strings.
From S2P Require Import Prelude.
From S2P Require Import Ikcq.

(** * The list in the heap *)

Definition first (ls : list (loc * loc)) (nxt : ptr) : ptr :=
  match ls with [] => nxt | (l, _) :: _ => Some l end.
Definition lastloc (prv : loc) (ls : list (loc * loc)) : loc := default prv (fst <$> last ls).

(** Elements at given locations, linked both ways; [prv] is before and [nxt] after. *)
Fixpoint seg (h : gmap loc ikc_request_queue) (prv : loc) (ls : list (loc * loc)) (nxt : ptr) : Prop :=
  match ls with
  | [] => True
  | (l, r) :: ls => h !! l = Some (QElem r (first ls nxt) (Some prv)) ∧ seg h l ls nxt
  end.

Lemma seg_frame h h' prv ls nxt :
  seg h prv ls nxt → (∀ l, l ∈ ls.*1 → h' !! l = h !! l) → seg h' prv ls nxt.
Proof.
  revert prv. induction ls as [|[l r] ls IH]; intros prv; simpl; [done|].
  intros [Hl Hs] Hf. split; [by rewrite Hf by left|]. apply IH; [done|].
  intros. apply Hf. by right.
Qed.

Lemma seg_app h prv ls1 ls2 nxt :
  seg h prv (ls1 ++ ls2) nxt ↔ seg h prv ls1 (first ls2 nxt) ∧ seg h (lastloc prv ls1) ls2 nxt.
Proof.
  revert prv. induction ls1 as [|[l r] ls1 IH]; intros prv; simpl; [naive_solver|].
  assert (first (ls1 ++ ls2) nxt = first ls1 (first ls2 nxt)) as -> by (by destruct ls1 as [|[]]).
  assert (lastloc prv ((l, r) :: ls1) = lastloc l ls1) as ->.
  { unfold lastloc. rewrite last_cons. by destruct (last ls1) as [[]|]. }
  rewrite IH. naive_solver.
Qed.

Lemma seg_dom h prv ls nxt l : seg h prv ls nxt → l ∈ ls.*1 → is_Some (h !! l).
Proof.
  revert prv. induction ls as [|[k r] ls IH]; intros prv; simpl; [by intros _ ?%elem_of_nil|].
  intros [Hk Hs] [->|Hl]%elem_of_cons; [by eexists|by eapply IH].
Qed.

(** Changing the back link of the first and the forward link of the last element. *)
Lemma seg_set_prev h prv prv' l r ls nxt :
  seg h prv ((l, r) :: ls) nxt → l ∉ ls.*1 →
  seg (alter (set_qprev (Some prv')) l h) prv' ((l, r) :: ls) nxt.
Proof.
  simpl. intros [Hl Hs] Hn. split.
  - rewrite lookup_alter_eq, Hl. done.
  - eapply seg_frame; [done|]. intros k Hk. apply lookup_alter_ne. by intros ->.
Qed.

Lemma seg_set_next h prv ls t r nxt nxt' :
  seg h prv (ls ++ [(t, r)]) nxt → t ∉ ls.*1 →
  seg (alter (set_qnext nxt') t h) prv (ls ++ [(t, r)]) nxt'.
Proof.
  rewrite !seg_app. simpl. intros (Hs & Ht & _) Hn. split_and!; [| |done].
  - eapply seg_frame; [done|]. intros k Hk. apply lookup_alter_ne. by intros ->.
  - rewrite lookup_alter_eq, Ht. done.
Qed.

Lemma first_app ls1 ls2 nxt : first (ls1 ++ ls2) nxt = first ls1 (first ls2 nxt).
Proof. by destruct ls1 as [|[]]. Qed.

Lemma lastloc_snoc prv ls l r : lastloc prv (ls ++ [(l, r)]) = l.
Proof. unfold lastloc. by rewrite last_snoc. Qed.

Lemma lastloc_cons prv l r ls : lastloc prv ((l, r) :: ls) = lastloc l ls.
Proof. unfold lastloc. rewrite last_cons. by destruct (last ls) as [[]|]. Qed.

Lemma lastloc_cons_snoc prv x ls ls0 t rt : x :: ls = ls0 ++ [(t, rt)] → lastloc prv (x :: ls) = t.
Proof. intros ->. apply lastloc_snoc. Qed.

Lemma lastloc_app_cons prv ls l r ls2 : lastloc prv (ls ++ (l, r) :: ls2) = lastloc l ls2.
Proof. unfold lastloc. rewrite last_app, last_cons. by destruct (last ls2) as [[]|]. Qed.

Lemma lastloc_in prv ls : ls ≠ [] → lastloc prv ls ∈ ls.*1.
Proof.
  destruct ls as [|[l r] ls] using rev_ind; [done|]. intros _.
  rewrite lastloc_snoc, fmap_app. apply elem_of_app. right. by left.
Qed.

(** The state represents the elements [ls]: there are no others, so none has leaked. *)
Record qrep (s : ikc_queue_head) (ls : list (loc * loc)) : Prop := {
  qrep_nodup : NoDup ls.*1;
  qrep_queue : queue s = first ls None;
  qrep_seg : seg (elems s) (lastloc 1 ls) ls None;
  qrep_dom l : is_Some (elems s !! l) ↔ l ∈ ls.*1;
  qrep_fresh l : l ∈ ls.*1 → (l < fresh s)%positive
}.

(** * Symbolic execution *)

Lemma runs_qderef l e s (Q : ikc_queue_head → ikc_request_queue → Prop) :
  elems s !! l = Some e → Q s e → runs (qderef (Some l)) s Q.
Proof. intros He HQ. unfold runs, qderef. by rewrite He. Qed.

Lemma runs_qstore l g s (Q : ikc_queue_head → unit → Prop) :
  is_Some (elems s !! l) → Q (with_elems (alter g l (elems s)) s) () →
  runs (qstore (Some l) g) s Q.
Proof. intros He HQ. unfold runs, qstore. by rewrite decide_True. Qed.

Lemma runs_qfree l s (Q : ikc_queue_head → unit → Prop) :
  is_Some (elems s !! l) → Q (with_elems (delete l (elems s)) s) () →
  runs (qfree (Some l)) s Q.
Proof. intros He HQ. unfold runs, qfree. by rewrite decide_True. Qed.

Lemma runs_qlock s (Q : ikc_queue_head → unit → Prop) :
  mutex s = false → Q (with_mutex true s) () → runs qlock s Q.
Proof. intros Hm HQ. unfold runs, qlock. by rewrite Hm. Qed.

(** Lookups in a heap after stores. *)
Ltac heap_reads :=
  repeat first [ rewrite lookup_alter_eq | rewrite lookup_insert_eq
               | rewrite lookup_alter_ne by (done || congruence)
               | rewrite lookup_insert_ne by (done || congruence) ].

Lemma is_Some_alter (g : ikc_request_queue → ikc_request_queue) (h : gmap loc ikc_request_queue) l k :
  is_Some (alter g l h !! k) ↔ is_Some (h !! k).
Proof.
  destruct (decide (l = k)) as [->|]; [rewrite lookup_alter_eq|by rewrite lookup_alter_ne].
  apply fmap_is_Some.
Qed.

(** One step of a run over the heap; [heap_reads] settles what a location holds. *)
Ltac q_side :=
  simpl; rewrite ?is_Some_alter; heap_reads;
  repeat match goal with H : elems ?s !! ?l = _ |- context [elems ?s !! ?l] => rewrite H end; eauto.
Ltac q_step :=
  lazymatch goal with
  | |- runs (_ ≫= _) _ _ => apply runs_bind
  | |- runs (mret _) _ _ => apply runs_ret
  | |- runs (gets _) _ _ => apply runs_gets
  | |- runs (modify _) _ _ => apply runs_modify
  | |- runs (log_release _) _ _ => apply runs_modify
  | |- runs qunlock _ _ => apply runs_modify
  | |- runs (qmalloc _) _ _ => eapply runs_eq; [reflexivity|]
  | |- runs qlock _ _ => apply runs_qlock; [done|]
  | |- runs (qderef (Some _)) _ _ => eapply runs_qderef; [by q_side|]
  | |- runs (qstore (Some _) _) _ _ => apply runs_qstore; [by q_side|]
  | |- runs (qfree (Some _)) _ _ => apply runs_qfree; [by q_side|]
  end; cbn [queue mutex elems fresh freed with_queue with_mutex with_elems req_struct qnext qprev].

Lemma qrep_ne_fresh s ls l : qrep s ls → l ∈ ls.*1 → l ≠ fresh s.
Proof. intros Hr Hl ->. pose proof (qrep_fresh s ls Hr _ Hl). lia. Qed.

Lemma qrep_new_None s ls : qrep s ls → elems s !! fresh s = None.
Proof.
  intros Hr. destruct (elems s !! fresh s) eqn:E; [|done].
  exfalso. eapply (qrep_ne_fresh s ls (fresh s)); [done| |done]. by apply (qrep_dom s ls Hr); eexists.
Qed.

(** * Queueing *)

Definition queued (junk : ikc_request_queue) (req : loc) (s : ikc_queue_head) (ls : list (loc * loc)) : Prop :=
  runs (ikcq_queue_request junk req) s (λ s' v,
    v = 0%Z ∧ mutex s' = false ∧ freed s' = freed s ∧ qrep s' (ls ++ [(fresh s, req)])).

Lemma queue_empty_rep junk req s : qrep s [] → mutex s = false → queued junk req s [].
Proof.
  intros Hr Hm. unfold queued, ikcq_queue_request.
  do 5 q_step. rewrite (qrep_queue s _ Hr). cbn [first]. repeat q_step.
  split_and!; [done..|]. split; simpl.
  - apply NoDup_singleton.
  - done.
  - split; [by heap_reads|done].
  - intros l. rewrite !is_Some_alter, list_elem_of_singleton. destruct (decide (l = fresh s)) as [->|].
    + rewrite lookup_insert_eq. naive_solver.
    + rewrite lookup_insert_ne by done. rewrite (qrep_dom s [] Hr), elem_of_nil. done.
  - intros l ->%list_elem_of_singleton. lia.
Qed.

Lemma qrep_head s l r ls :
  qrep s ((l, r) :: ls) → elems s !! l = Some (QElem r (first ls None) (Some (lastloc l ls))).
Proof. intros Hr. pose proof (qrep_seg s _ Hr) as [Hl _]. by rewrite lastloc_cons in Hl. Qed.

Lemma qrep_last s ls l r :
  qrep s (ls ++ [(l, r)]) → ∃ p, elems s !! l = Some (QElem r None p).
Proof. intros Hr. pose proof (qrep_seg s _ Hr) as Hs. rewrite seg_app in Hs. eexists. apply Hs. Qed.

(** The heap after an element has been linked behind the tail [t]. *)
Lemma qrep_snoc s s' q rq ls ls' t rt req h :
  qrep s ((q, rq) :: ls) → (q, rq) :: ls = ls' ++ [(t, rt)] →
  (∀ l, l ≠ fresh s → h !! l = elems s !! l) → h !! fresh s = Some (QElem req None (Some t)) →
  elems s' = alter (set_qprev (Some (fresh s))) q (alter (set_qnext (Some (fresh s))) t h) →
  queue s' = Some q → fresh s' = Pos.succ (fresh s) →
  qrep s' (((q, rq) :: ls) ++ [(fresh s, req)]).
Proof.
  intros Hr Els Hh Hf He Hq Hn. pose proof (qrep_nodup s _ Hr) as Hnd.
  assert (∀ l, l ∈ ((q, rq) :: ls).*1 → l ≠ fresh s) as Hne by (intros; by eapply qrep_ne_fresh).
  assert (t ∈ ((q, rq) :: ls).*1) as Hin by (rewrite Els, fmap_app; set_solver).
  assert (q ≠ fresh s ∧ t ≠ fresh s) as [Hqf Htf] by (split; apply Hne; [by left|done]).
  split.
  - rewrite fmap_app. apply NoDup_app. split_and!; [done| |apply NoDup_singleton].
    intros l Hl ->%list_elem_of_singleton. by apply (Hne (fresh s)).
  - done.
  - rewrite lastloc_snoc, seg_app, He. split.
    + apply (seg_set_prev _ t); [|by apply NoDup_cons in Hnd as [? _]].
      rewrite Els in Hnd |- *. apply seg_set_next with (nxt := None).
      * rewrite <- Els. apply (seg_frame (elems s)); [|intros; by apply Hh, Hne].
        pose proof (qrep_seg s _ Hr) as Hs. by rewrite Els, lastloc_snoc, <- Els in Hs.
      * rewrite fmap_app in Hnd. apply NoDup_app in Hnd as (_ & Hnd & _).
        intros Ht%Hnd. apply Ht. by left.
    + rewrite Els, lastloc_snoc. simpl. split; [|done]. by heap_reads.
  - intros l. rewrite He, !is_Some_alter, fmap_app, elem_of_app, <- (qrep_dom s _ Hr).
    destruct (decide (l = fresh s)) as [->|Hl]; [|rewrite Hh by done; set_solver].
    rewrite Hf. split; [intros _; right; by left|by eexists].
  - intros l. rewrite Hn, fmap_app, elem_of_app. intros [Hl%(qrep_fresh s _ Hr)| ->%list_elem_of_singleton]; simpl; lia.
Qed.

Lemma queue_more_rep junk req s q rq ls t rt :
  qrep s ((q, rq) :: ls) → (∃ ls', (q, rq) :: ls = ls' ++ [(t, rt)]) → mutex s = false →
  queued junk req s ((q, rq) :: ls).
Proof.
  intros Hr [ls' Els] Hm. unfold queued, ikcq_queue_request.
  pose proof (qrep_head _ _ _ _ Hr) as Hq.
  assert (lastloc q ls = t) as Et.
  { rewrite <- (lastloc_cons 1 q rq ls), Els. apply lastloc_snoc. }
  rewrite Et in Hq. pose proof Hr as Hr'. rewrite Els in Hr'.
  destruct (qrep_last _ _ _ _ Hr') as [p Ht].
  assert (q ≠ fresh s) by (eapply qrep_ne_fresh; [exact Hr|by left]).
  assert (t ≠ fresh s) by (eapply qrep_ne_fresh; [exact Hr'|rewrite fmap_app; apply elem_of_app; right; by left]).
  do 5 q_step. rewrite (qrep_queue s _ Hr). cbn [first].
  repeat q_step.
  split_and!; [done..|].
  eapply (qrep_snoc s); [exact Hr|exact Els|..]; simpl; [| |reflexivity|done..].
  - intros l Hl. by heap_reads.
  - by heap_reads.
Qed.

Lemma queue_rep junk req s ls : qrep s ls → mutex s = false → queued junk req s ls.
Proof.
  intros Hr Hm. destruct ls as [|[q rq] ls]; [by apply queue_empty_rep|].
  destruct (exists_last (l := (q, rq) :: ls)) as (ls' & [t rt] & Els); [done|].
  eapply (queue_more_rep junk req s q rq ls t rt); eauto.
Qed.

(** Runs with the tests on pointers decided. *)
Ltac q_run := repeat first [ q_step | case_decide; try (exfalso; congruence); [] ].

(** * Unlinking *)

(** What [unlink] leaves of a list [ls1 ++ (l, r) :: ls2]: the element is out of the
    list and still allocated. *)
Record unlinked (s : ikc_queue_head) (l r : loc) (ls : list (loc * loc)) (s' : ikc_queue_head) : Prop := {
  un_queue : queue s' = first ls None;
  un_seg : seg (elems s') (lastloc 1 ls) ls None;
  un_elem : ∃ n p, elems s' !! l = Some (QElem r n p);
  un_dom k : is_Some (elems s' !! k) ↔ is_Some (elems s !! k);
  un_rest : mutex s' = mutex s ∧ fresh s' = fresh s ∧ freed s' = freed s
}.

Lemma unlink_single s l r :
  qrep s [(l, r)] → runs (unlink (Some l)) s (λ s' _, unlinked s l r [] s').
Proof.
  intros Hr. pose proof (qrep_head _ _ _ _ Hr) as Hl. cbn in Hl.
  unfold unlink. do 6 q_step. rewrite (qrep_queue s _ Hr). cbn [first].
  q_run.
  split; simpl; [by heap_reads|done| |by intros; rewrite is_Some_alter|done].
  heap_reads. rewrite Hl. by repeat eexists.
Qed.

Lemma unlink_first s l r l2 r2 ls :
  qrep s ((l, r) :: (l2, r2) :: ls) →
  runs (unlink (Some l)) s (λ s' _, unlinked s l r ((l2, r2) :: ls) s').
Proof.
  intros Hr. pose proof (qrep_head _ _ _ _ Hr) as Hl. rewrite lastloc_cons in Hl. cbn [first] in Hl.
  pose proof (qrep_nodup _ _ Hr) as [Hn1 Hn2]%NoDup_cons. apply NoDup_cons in Hn2 as [Hn2 _].
  pose proof (qrep_seg _ _ Hr) as [_ Hs]. pose proof (proj1 Hs) as Hl2.
  assert (l ≠ l2) by (intros ->; apply Hn1; by left).
  assert (lastloc l2 ls ≠ l).
  { intros E. apply Hn1. rewrite <- E, <- (lastloc_cons 1 l2 r2). by apply lastloc_in. }
  unfold unlink. do 6 q_step. rewrite (qrep_queue s _ Hr). cbn [first].
  q_run.
  split; simpl; [done| | |by intros; rewrite is_Some_alter|done].
  - rewrite lastloc_cons. by apply (seg_set_prev _ l).
  - heap_reads. by repeat eexists.
Qed.

(** The facts about a list with something before the element [l]. *)
Lemma unlink_before s q rq lsq ls0 t rt l r ls2 :
  (q, rq) :: lsq = ls0 ++ [(t, rt)] → qrep s (((q, rq) :: lsq) ++ (l, r) :: ls2) →
  (∃ p n, elems s !! t = Some (QElem rt n p)) ∧
  (∃ n, elems s !! q = Some (QElem rq n (Some (lastloc l ls2)))) ∧
  elems s !! l = Some (QElem r (first ls2 None) (Some t)) ∧
  l ≠ q ∧ l ≠ t ∧ (t ∉ ls0.*1) ∧ (q ∉ lsq.*1) ∧ (q ∉ ls2.*1) ∧ (t ∉ ls2.*1) ∧ (l ∉ ls2.*1) ∧
  (l ∉ ((q, rq) :: lsq).*1) ∧ (∀ k, k ∈ ls2.*1 → k ∉ ((q, rq) :: lsq).*1) ∧
  seg (elems s) (lastloc l ls2) ((q, rq) :: lsq) (Some l) ∧ seg (elems s) l ls2 None.
Proof.
  intros Els Hr. pose proof (qrep_seg _ _ Hr) as Hs. pose proof (qrep_nodup _ _ Hr) as Hn.
  assert (lastloc 1 (((q, rq) :: lsq) ++ (l, r) :: ls2) = lastloc l ls2) as El.
  { apply lastloc_app_cons. }
  rewrite El in Hs. apply seg_app in Hs as [Hs1 Hs2]. pose proof Hs1 as Hs1'.
  rewrite Els in Hs1', Hs2. apply seg_app in Hs1' as [_ [Ht _]].
  rewrite lastloc_snoc in Hs2. destruct Hs2 as [Hl Hs2]. pose proof Hs1 as [Hq _].
  rewrite fmap_app in Hn. apply NoDup_app in Hn as (Hn1 & Hd & Hn2).
  apply NoDup_cons in Hn2 as [Hl2 Hn2].
  assert (t ∈ ((q, rq) :: lsq).*1) as Hin by (rewrite Els, fmap_app; set_solver).
  assert (∀ k, k ∈ ((q, rq) :: lsq).*1 → k ≠ l ∧ k ∉ ls2.*1) as Hk.
  { intros k Hk%Hd. split; [intros ->; apply Hk; by left|intros ?; apply Hk; by right]. }
  pose proof (Hk t Hin) as [? ?]. destruct (Hk q) as [? ?]; [by left|].
  split_and!; eauto; try done.
  - rewrite Els, fmap_app in Hn1. apply NoDup_app in Hn1 as (_ & Hx & _).
    intros Hi%Hx. apply Hi. by left.
  - by apply NoDup_cons in Hn1 as [? _].
  - intros Hi. by destruct (Hk l Hi).
  - intros k Hk2 Hk1. by destruct (Hk k Hk1).
Qed.

Lemma unlink_last s q rq lsq ls0 t rt l r :
  (q, rq) :: lsq = ls0 ++ [(t, rt)] → qrep s (((q, rq) :: lsq) ++ [(l, r)]) →
  runs (unlink (Some l)) s (λ s' _, unlinked s l r ((q, rq) :: lsq) s').
Proof.
  intros Els Hr.
  destruct (unlink_before _ _ _ _ _ _ _ _ _ _ Els Hr)
    as ((p & n & Ht) & (m & Hq) & Hl & ? & ? & Hn0 & Hnq & _ & _ & _ & _ & _ & Hs & _).
  cbn [lastloc last default first fmap option_fmap option_map] in *.
  assert (∃ n', (alter (set_qnext None) t (elems s)) !! q = Some (QElem rq n' (Some l))) as [n' Hq'].
  { destruct (decide (t = q)) as [->|]; heap_reads; [rewrite Hq|]; eauto. }
  unfold unlink. do 6 q_step. rewrite (qrep_queue s _ Hr). cbn [first app].
  q_run. split; simpl; [by rewrite (qrep_queue s _ Hr)| | |by intros; rewrite !is_Some_alter|done].
  - rewrite lastloc_cons_snoc with (1 := Els). apply (seg_set_prev _ l); [|done].
    rewrite Els in Hs |- *. by eapply seg_set_next.
  - heap_reads. by repeat eexists.
Qed.

Lemma unlink_middle s q rq lsq ls0 t rt l r l2 r2 ls2 :
  (q, rq) :: lsq = ls0 ++ [(t, rt)] → qrep s (((q, rq) :: lsq) ++ (l, r) :: (l2, r2) :: ls2) →
  runs (unlink (Some l)) s (λ s' _, unlinked s l r (((q, rq) :: lsq) ++ (l2, r2) :: ls2) s').
Proof.
  intros Els Hr.
  destruct (unlink_before _ _ _ _ _ _ _ _ _ _ Els Hr)
    as ((p & n & Ht) & (m & Hq) & Hl & ? & ? & Hn0 & Hnq & Hnq2 & Hnt2 & Hnl2 & _ & Hd & Hs & Hs2).
  rewrite lastloc_cons in Hq, Hs. cbn [first] in Hl.
  assert (l2 ≠ q ∧ l2 ≠ t ∧ l2 ≠ l) as (? & ? & ?).
  { split_and!; intros ->; [apply Hnq2|apply Hnt2|apply Hnl2]; by left. }
  assert (lastloc l2 ls2 ≠ l).
  { intros E. apply Hnl2. rewrite <- E, <- (lastloc_cons 1 l2 r2). by apply lastloc_in. }
  assert (∃ n', (alter (set_qnext (Some l2)) t (alter (set_qprev (Some t)) l2 (elems s))) !! q =
    Some (QElem rq n' (Some (lastloc l2 ls2)))) as [n' Hq'].
  { destruct (decide (t = q)) as [->|]; heap_reads; [rewrite Hq|]; eauto. }
  pose proof (proj1 Hs2) as Hl2.
  unfold unlink. do 6 q_step. rewrite (qrep_queue s _ Hr). cbn [first app].
  q_run. split; simpl; [by rewrite (qrep_queue s _ Hr)| | |by intros; rewrite !is_Some_alter|done].
  - change (seg (alter (set_qnext (Some l2)) t (alter (set_qprev (Some t)) l2 (elems s)))
      (lastloc 1 (((q, rq) :: lsq) ++ (l2, r2) :: ls2)) (((q, rq) :: lsq) ++ (l2, r2) :: ls2) None).
    rewrite lastloc_app_cons, seg_app. split.
    + rewrite Els in Hs |- *. eapply seg_set_next; [|done]. eapply seg_frame; [done|].
      intros k Hk. apply lookup_alter_ne. intros ->. apply (Hd k); [by left|by rewrite Els].
    + rewrite (lastloc_cons_snoc _ _ _ _ _ _ Els).
      apply (seg_frame (alter (set_qprev (Some t)) l2 (elems s))).
      * apply (seg_set_prev _ l); [done|].
        pose proof (qrep_nodup _ _ Hr) as Hn. rewrite fmap_app in Hn.
        apply NoDup_app in Hn as (_ & _ & [_ [Hn _]%NoDup_cons]%NoDup_cons). done.
      * intros k Hk. apply lookup_alter_ne. by intros ->.
  - heap_reads. by repeat eexists.
Qed.

Lemma unlink_rep s ls1 l r ls2 :
  qrep s (ls1 ++ (l, r) :: ls2) → runs (unlink (Some l)) s (λ s' _, unlinked s l r (ls1 ++ ls2) s').
Proof.
  intros Hr. destruct ls1 as [|[q rq] lsq].
  - destruct ls2 as [|[l2 r2] ls2]; [by apply unlink_single|by apply unlink_first].
  - destruct (exists_last (l := (q, rq) :: lsq)) as (ls0 & [t rt] & Els); [done|].
    destruct ls2 as [|[l2 r2] ls2].
    + rewrite app_nil_r. by eapply unlink_last.
    + by eapply unlink_middle.
Qed.

(** With the element freed, the state represents the rest of the list. *)
Lemma unlinked_free s l r ls1 ls2 s' :
  qrep s (ls1 ++ (l, r) :: ls2) → unlinked s l r (ls1 ++ ls2) s' →
  qrep (with_elems (delete l (elems s')) s') (ls1 ++ ls2).
Proof.
  intros Hr [Hq Hs _ Hd (_ & Hf & _)]. pose proof (qrep_nodup _ _ Hr) as Hn.
  assert (((l, r) :: ls1 ++ ls2).*1 ≡ₚ (ls1 ++ (l, r) :: ls2).*1) as Hp.
  { by rewrite Permutation_middle. }
  rewrite <- Hp in Hn. apply NoDup_cons in Hn as [Hnl Hn].
  split; simpl; [done|done| | |].
  - eapply seg_frame; [done|]. intros k Hk. apply lookup_delete_ne. by intros ->.
  - intros k. destruct (decide (k = l)) as [->|Hkl].
    + rewrite lookup_delete_eq. split; [by intros []|by intros ?%Hnl].
    + rewrite lookup_delete_ne, Hd, (qrep_dom _ _ Hr), <- Hp by done. set_solver.
  - intros k Hk. rewrite Hf. apply (qrep_fresh _ _ Hr). rewrite <- Hp. by right.
Qed.
