(* ===== verification/IkcqProps.v ===== *)
(** The specification of the request queues of ikcd (Ikcq.v): a first-in first-out
    list, which the operations refine. *)

From Stdlib Require Import ZArith Lia.
From stdpp Require Import base list gmap strings.
From S2P Require Import Prelude.
From S2P Require Import Ikcq.
From S2P Require Import IkcqRep.

(** * The specification: a first-in first-out list *)
Record fifo : Type := Fifo { requests : list loc; released : list release }.

Definition a_queue_request (req : loc) : M fifo Z := λ a,
  Ok (Fifo (requests a ++ [req]) (released a)) 0%Z.

Definition a_dequeue_request (want : bool) : M fifo (Z * option loc) := λ a,
  match requests a with
  | [] => Ok a (- E_IKC_NOQUEUE, None)%Z
  | r :: rs =>
    if want then Ok (Fifo rs (released a)) (0%Z, Some r)
    else Ok (Fifo rs (FreeStruct r :: FreeAddr r :: released a)) (0%Z, None)
  end.

Fixpoint list_remove (r : loc) (rs : list loc) : option (list loc) :=
  match rs with
  | [] => None
  | r' :: rs => if decide (r' = r) then Some rs else cons r' <$> list_remove r rs
  end.

(** A request that is not in a queue with other requests makes the loop run off its end. *)
Definition a_remove_request (req : loc) : M fifo Z := λ a,
  match requests a with
  | [] => Ok a (- E_IKC_NOQUEUE)%Z
  | rs =>
    match list_remove req rs with
    | Some rs' => Ok (Fifo rs' (FreeAddr req :: released a)) 0%Z
    | None => Stop NullDeref
    end
  end.

(** The state represents the list: the mutex is free and nothing has leaked. *)
Definition holds_queue (s : ikc_queue_head) (a : fifo) : Prop :=
  mutex s = false ∧ freed s = released a ∧ ∃ ls, ls.*2 = requests a ∧ qrep s ls.

(** What the queue operations promise to the threads that use them. *)
Class QueueRefinement (Q : Type) (holds : Q → fifo → Prop)
    (queue_op : loc → M Q Z) (dequeue_op : bool → M Q (Z * option loc)) (remove_op : loc → M Q Z) : Prop := {
  queue_refines r : refines holds (queue_op r) (a_queue_request r);
  dequeue_refines w : refines holds (dequeue_op w) (a_dequeue_request w);
  remove_refines r : refines holds (remove_op r) (a_remove_request r)
}.

Lemma ikcq_queue_refines junk req :
  refines holds_queue (ikcq_queue_request junk req) (a_queue_request req).
Proof.
  intros s a (Hm & Hf & ls & Hls & Hr). cbn.
  destruct (runs_inv _ _ _ (queue_rep junk req s ls Hr Hm)) as (s' & v & -> & -> & Hm' & Hf' & Hr').
  eexists. split; [done|]. split_and!; [done|by rewrite Hf'|].
  eexists. split; [|exact Hr']. by rewrite fmap_app, Hls.
Qed.

(** Unlinking, the releases of the request and freeing the element. *)
Lemma take_rep s ls1 l r ls2 (log : list release) {A} (k : ikc_request_queue → M ikc_queue_head unit) (ret : loc → A) :
  qrep s (ls1 ++ (l, r) :: ls2) →
  (∀ s' v, req_struct v = r →
     k v s' = Ok (QHead (queue s') (mutex s') (elems s') (fresh s') (log ++ freed s')) ()) →
  ∃ s', (_ ← unlink (Some l); v ← qderef (Some l); _ ← k v; _ ← qfree (Some l); _ ← qunlock;
         mret (ret (req_struct v))) s = Ok s' (ret r) ∧
    mutex s' = false ∧ freed s' = log ++ freed s ∧ qrep s' (ls1 ++ ls2).
Proof.
  intros Hr Hk.
  destruct (runs_inv _ _ _ (unlink_rep s ls1 l r ls2 Hr)) as (s1 & [] & Hu & Hul).
  destruct (un_elem _ _ _ _ _ Hul) as (n & p & He).
  pose proof (unlinked_free _ _ _ _ _ _ Hr Hul) as Hr'.
  destruct (un_rest _ _ _ _ _ Hul) as (Hm & Hn & Hf).
  eexists. split.
  - erewrite bind_Ok by exact Hu. erewrite bind_Ok by (unfold qderef; by rewrite He).
    erewrite bind_Ok by (by apply Hk).
    erewrite bind_Ok by (unfold qfree; cbn; rewrite decide_True by (by eexists); reflexivity).
    reflexivity.
  - cbn. split_and!; [done|by rewrite Hf|]. by destruct Hr'; split.
Qed.

Lemma ikcq_dequeue_refines want :
  refines holds_queue (ikcq_dequeue_request want) (a_dequeue_request want).
Proof.
  intros s a (Hm & Hf & ls & Hls & Hr).
  unfold a_dequeue_request, ikcq_dequeue_request.
  erewrite bind_Ok by (unfold qlock; by rewrite Hm).
  erewrite bind_Ok by reflexivity. cbn [queue with_mutex]. rewrite (qrep_queue _ _ Hr).
  assert (qrep (with_mutex true s) ls) as Hr1 by (by destruct Hr; split).
  destruct ls as [|[l r] ls]; rewrite <- Hls; cbn [fmap list_fmap first snd].
  - eexists. split; [reflexivity|]. split_and!; [done..|]. exists []. split; [done|]. by destruct Hr; split.
  - set (log := if want then [] else [FreeStruct r; FreeAddr r]).
    destruct (take_rep (with_mutex true s) [] l r ls log
      (λ v, if want then mret () else _ ← log_release (FreeAddr (req_struct v)); log_release (FreeStruct (req_struct v)))
      (λ r, (0%Z, if want then Some r else None)) Hr1) as (s' & Hrun & Hm' & Hf' & Hr').
    { intros s' v <-. subst log. by destruct want, s'. }
    change (freed (with_mutex true s)) with (freed s) in Hf'. rewrite Hf in Hf'. subst log.
    destruct want; eexists; (split; [exact Hrun|]); split_and!; try done; by exists ls.
Qed.

(** ** The search of [ikcq_remove_request] *)

Lemma find_loop_rep s ls1 ls2 req n :
  qrep s (ls1 ++ ls2) → length ls2 < n →
  find_loop n (first ls2 None) req s =
    match list_find (λ x, x.2 = req) ls2 with
    | Some (_, x) => Ok s (Some x.1)
    | None => Stop NullDeref
    end.
Proof.
  revert ls1 n. induction ls2 as [|[l r] ls2 IH]; intros ls1 [|n] Hr Hn; simpl in Hn; try lia; [done|].
  cbn [first find_loop]. pose proof (qrep_seg _ _ Hr) as Hs. apply seg_app in Hs as [_ [Hl _]].
  erewrite bind_Ok by (unfold qderef; by rewrite Hl). cbn [req_struct qnext list_find snd].
  case_decide as Hd; [done|].
  rewrite (IH (ls1 ++ [(l, r)]) n); [|by rewrite <- app_assoc|lia].
  by destruct (list_find _ ls2) as [[]|].
Qed.

Lemma list_remove_find ls req :
  list_remove req ls.*2 =
    match list_find (λ x : loc * loc, x.2 = req) ls with
    | Some (i, _) => Some (take i ls ++ drop (S i) ls).*2
    | None => None
    end.
Proof.
  induction ls as [|[l r] ls IH]; [done|]. cbn [fmap list_fmap list_remove list_find snd].
  change (list_fmap _ _ snd ls) with ls.*2. rewrite IH.
  case_decide; simpl; [done|]. by destruct (list_find _ ls) as [[]|].
Qed.

Lemma qrep_size s ls : qrep s ls → length ls ≤ size (elems s).
Proof.
  intros Hr. rewrite <- (length_fmap fst), <- size_dom.
  rewrite <- (size_list_to_set (C := gset loc) ls.*1) by apply Hr. apply subseteq_size.
  intros l Hl%elem_of_list_to_set. by apply elem_of_dom, (qrep_dom _ _ Hr).
Qed.

Lemma ikcq_remove_refines req :
  refines holds_queue (ikcq_remove_request req) (a_remove_request req).
Proof.
  intros s a (Hm & Hf & ls & Hls & Hr).
  unfold a_remove_request, ikcq_remove_request.
  erewrite bind_Ok by (unfold qlock; by rewrite Hm).
  erewrite bind_Ok by reflexivity. cbn [queue with_mutex]. rewrite (qrep_queue _ _ Hr).
  assert (qrep (with_mutex true s) ls) as Hr1 by (by destruct Hr; split).
  pose proof (find_loop_rep (with_mutex true s) [] ls req (S (size (elems s))) Hr1) as Hfind.
  specialize (Hfind ltac:(pose proof (qrep_size _ _ Hr); lia)).
  pose proof (list_remove_find ls req) as Hrem. rewrite Hls in Hrem.
  destruct ls as [|[l r] ls']; [|set (ls := (l, r) :: ls') in *].
  { rewrite <- Hls. eexists. split; [reflexivity|]. split_and!; [done..|]. exists []. split; [done|]. by destruct Hr; split. }
  destruct (requests a) as [|r0 rs] eqn:Ea; [done|]. rewrite Hrem.
  change (first ls None) with (Some l) in Hfind |- *. cbn beta iota.
  erewrite bind_Ok by reflexivity. cbn [elems with_mutex].
  destruct (list_find _ ls) as [[i [l1 r1]]|] eqn:El; [|by erewrite bind_Stop by exact Hfind].
  erewrite bind_Ok by exact Hfind. cbn [fst].
  apply list_find_Some in El as (Hi & Hreq & _). cbn in Hreq. subst r1.
  assert (ls = take i ls ++ (l1, req) :: drop (S i) ls) as Esplit by (by rewrite take_drop_middle).
  rewrite Esplit in Hr1.
  destruct (take_rep (with_mutex true s) _ l1 req _ [FreeAddr req]
    (λ v, log_release (FreeAddr (req_struct v))) (λ _, 0%Z) Hr1) as (s' & Hrun & Hm' & Hf' & Hr').
  { intros s' v <-. by destruct s'. }
  eexists. split; [exact Hrun|]. split_and!; [done|by rewrite Hf'; simpl; rewrite Hf|].
  eexists. split; [|exact Hr']. done.
Qed.

#[export] Instance ikcq_refinement junk :
  QueueRefinement ikc_queue_head holds_queue (ikcq_queue_request junk) ikcq_dequeue_request ikcq_remove_request.
Proof.
  split; [apply ikcq_queue_refines|apply ikcq_dequeue_refines|apply ikcq_remove_refines].
Qed.

(** * Sequences of queue operations *)

(** A queue as [ikc_init_queues] leaves it. *)
Definition ikc_init_queue : ikc_queue_head := QHead None false ∅ 1 [].

Lemma init_holds : holds_queue ikc_init_queue (Fifo [] []).
Proof.
  split_and!; [done..|]. exists []. split; [done|]. split; simpl; try done.
  - apply NoDup_nil_2.
  - intros l. rewrite lookup_empty. split; [by intros []|by intros ?%elem_of_nil].
  - by intros l ?%elem_of_nil.
Qed.

Inductive qop : Set := OpQueue (r : loc) | OpDequeue (want : bool) | OpRemove (r : loc).

Section Ops.
Context {Q : Type} (queue_op : loc → M Q Z) (dequeue_op : bool → M Q (Z * option loc)) (remove_op : loc → M Q Z).

Definition exec_qop (o : qop) : M Q (Z * option loc) :=
  match o with
  | OpQueue r => v ← queue_op r; mret (v, None)
  | OpDequeue w => dequeue_op w
  | OpRemove r => v ← remove_op r; mret (v, None)
  end.

Fixpoint exec_qops (os : list qop) : M Q (list (Z * option loc)) :=
  match os with
  | [] => mret []
  | o :: os => v ← exec_qop o; vs ← exec_qops os; mret (v :: vs)
  end.
End Ops.

Definition ikcq_exec (junk : ikc_request_queue) : list qop → M ikc_queue_head (list (Z * option loc)) :=
  exec_qops (ikcq_queue_request junk) ikcq_dequeue_request ikcq_remove_request.
Definition fifo_exec : list qop → M fifo (list (Z * option loc)) :=
  exec_qops a_queue_request a_dequeue_request a_remove_request.

Lemma exec_qops_refines {Q} (holds : Q → fifo → Prop) q d r os :
  QueueRefinement Q holds q d r → refines holds (exec_qops q d r os) (fifo_exec os).
Proof.
  intros HQ. induction os as [|o os IH]; simpl; [apply refines_ret|].
  apply refines_bind; [|intros; apply refines_bind; [exact IH|intros; apply refines_ret]].
  destruct o; simpl; [| |]; try apply dequeue_refines;
    (apply refines_bind; [apply queue_refines || apply remove_refines|intros; apply refines_ret]).
Qed.

Lemma fifo_queue_all rs a :
  fifo_exec (OpQueue <$> rs) a =
    Ok (Fifo (requests a ++ rs) (released a)) (replicate (length rs) (0%Z, None)).
Proof.
  revert a. induction rs as [|r rs IH]; intros a.
  - rewrite app_nil_r. by destruct a.
  - cbn [fmap list_fmap fifo_exec exec_qops exec_qop length replicate].
    erewrite bind_Ok by reflexivity. erewrite bind_Ok by apply IH.
    cbn. by rewrite <- app_assoc.
Qed.

Lemma fifo_dequeue_all rs log :
  fifo_exec (replicate (length rs) (OpDequeue true)) (Fifo rs log) =
    Ok (Fifo [] log) ((λ r, (0%Z, Some r)) <$> rs).
Proof.
  induction rs as [|r rs IH]; [done|]. cbn [length replicate fifo_exec exec_qops exec_qop].
  erewrite bind_Ok by reflexivity. by erewrite bind_Ok by apply IH.
Qed.

(** C35: after [ikc_init_queues] every sequence of queue operations returns what the
    first-in first-out list returns and leaves a heap that represents it, with no
    element leaked and the mutex free, or stops where the list operation stops (a
    request removed that is not in the queue). *)
Theorem ikcq_trace_refines junk os :
  match fifo_exec os (Fifo [] []) with
  | Ok a vs => ∃ s, ikcq_exec junk os ikc_init_queue = Ok s vs ∧ holds_queue s a
  | Stop f => ikcq_exec junk os ikc_init_queue = Stop f
  end.
Proof. exact (exec_qops_refines holds_queue _ _ _ os _ _ _ init_holds). Qed.

(** requests leave a queue in the order in which they were queued, each once, and
    the queue is empty again. *)
Theorem ikcq_fifo_order junk rs :
  ∃ s s', ikcq_exec junk (OpQueue <$> rs) ikc_init_queue = Ok s (replicate (length rs) (0%Z, None)) ∧
    ikcq_exec junk (replicate (length rs) (OpDequeue true)) s = Ok s' ((λ r, (0%Z, Some r)) <$> rs) ∧
    queue s' = None ∧ elems s' = ∅.
Proof.
  pose proof (exec_qops_refines holds_queue _ _ _ (OpQueue <$> rs) (ikcq_refinement junk) _ _ init_holds) as Hq.
  rewrite fifo_queue_all in Hq. destruct Hq as (s & Hs & Hh). cbn in Hh.
  pose proof (exec_qops_refines holds_queue _ _ _ (replicate (length rs) (OpDequeue true)) (ikcq_refinement junk) _ _ Hh) as Hd.
  rewrite fifo_dequeue_all in Hd. destruct Hd as (s' & Hs' & Hh').
  exists s, s'. split_and!; [exact Hs|exact Hs'|..]; destruct Hh' as (_ & _ & [|? ls] & Hls & Hr); try done.
  - by rewrite (qrep_queue _ _ Hr).
  - apply map_empty. intros l. apply eq_None_not_Some. by intros ?%(qrep_dom _ _ Hr)%elem_of_nil.
Qed.

(** [ikcq_remove_request] takes the first occurrence of a queued request out of the
    queue and keeps the order of the others; a request that is not in a non-empty queue
    makes it read through [NULL], since the loop reads the element before it compares
    the pointer with [NULL], so [E_IKC_NOREQ] is never returned. *)
Theorem ikcq_remove_spec s rs log req :
  holds_queue s (Fifo rs log) →
  match list_remove req rs with
  | Some rs' => ∃ s', ikcq_remove_request req s = Ok s' 0%Z ∧ holds_queue s' (Fifo rs' (FreeAddr req :: log))
  | None => if decide (rs = []) then ∃ s', ikcq_remove_request req s = Ok s' (- E_IKC_NOQUEUE)%Z
            else ikcq_remove_request req s = Stop NullDeref
  end.
Proof.
  intros Hh. pose proof (ikcq_remove_refines req s _ Hh) as Hr. unfold a_remove_request in Hr. cbn [requests released] in Hr.
  destruct rs as [|r rs]; [|rewrite decide_False by done; by destruct (list_remove req (r :: rs))].
  cbn. destruct Hr as (s' & Hs & _). by exists s'.
Qed.

(** A queue with two requests. *)
Definition example_queue : ikc_queue_head :=
  match ikcq_exec (QElem 1 None None) [OpQueue 7; OpQueue 9]%positive ikc_init_queue with
  | Ok s _ => s
  | Stop _ => ikc_init_queue
  end.

Lemma example_queue_holds : holds_queue example_queue (Fifo [7; 9] [])%positive.
Proof.
  pose proof (exec_qops_refines holds_queue _ _ _ [OpQueue 7; OpQueue 9]%positive
    (ikcq_refinement (QElem 1 None None)) _ _ init_holds) as Hq.
  rewrite (fifo_queue_all [7; 9]%positive) in Hq. destruct Hq as (s & Hs & Hh).
  unfold example_queue, ikcq_exec. by rewrite Hs.
Qed.

Lemma ikcq_remove_spec_witness :
  ∃ s', ikcq_remove_request 9 example_queue = Ok s' 0%Z ∧ holds_queue s' (Fifo [7] [FreeAddr 9])%positive.
Proof. exact (ikcq_remove_spec example_queue [7; 9]%positive [] 9 example_queue_holds). Defined.
