(* ===== verification/Dkmctl.v ===== *)
(** The kernel side of dkm (src/src/dkmke/dkmctl.c, dkm.h, and the dkm parts of fork.c,
    exec.c and sched.h): the requests of processes that execute a file, and the system
    call with which ikcd fetches and answers them.

    A task points to its [dkm_struct], which lives in a heap because [do_fork] copies
    the pointer.  [kmalloc] and [alloc_task_struct] succeed; a block from [kmalloc]
    starts with arbitrary bytes ([junk]).  A call that sleeps returns [Sleep] and goes on
    when the scheduler resumes it; the kernel is not preempted elsewhere (the source
    runs on one processor under the kernel lock). *)

From Stdlib Require Import ZArith Lia Strings.Byte.
From stdpp Require Import base list gmap strings.
From S2P Require Import Prelude.
From S2P Require Import Cbuf.

(** * dkm.h *)

Definition DKM_IKCD_REG : Z := 2.
Definition DKM_IKCD_UNREG : Z := 3.
Definition DKM_GET_REQ : Z := 10.
Definition DKM_GET_ARGS : Z := 11.
Definition DKM_PUT_RESP : Z := 12.
Definition DKM_DO_REQ : Z := 13.
Definition DKM_MIN_REQ : Z := 1.
Definition DKM_MAX_REQ : Z := 10.
Definition DKM_NOP : Z := 0.
Definition MAP_REQ : Z := 1.
Definition PROC_CREAT_REQ : Z := 10.
Definition REQ_NOT_IN_PROGRESS : Z := 0.
Definition REQ_IN_GET_REQ : Z := 1.
Definition REQ_IN_DO_REQ : Z := 4.
Definition NODE_LEN : Z := 65.

(** The fields the code uses; a [char*] is the block it points to, or [None] for
    [NULL]. *)
Record dkm_struct : Type := Dkm {
  distributed : Z;
  pending_req : Z;
  req_state : Z;
  req : Z;
  r_pid : Z;
  file_name : option buf;
  o_node : option buf;
  r_node : option buf
}.

Definition set_distributed (z : Z) (d : dkm_struct) : dkm_struct :=
  Dkm z (pending_req d) (req_state d) (req d) (r_pid d) (file_name d) (o_node d) (r_node d).
Definition set_pending (z : Z) (d : dkm_struct) : dkm_struct :=
  Dkm (distributed d) z (req_state d) (req d) (r_pid d) (file_name d) (o_node d) (r_node d).
Definition set_state (z : Z) (d : dkm_struct) : dkm_struct :=
  Dkm (distributed d) (pending_req d) z (req d) (r_pid d) (file_name d) (o_node d) (r_node d).
Definition set_req (z : Z) (d : dkm_struct) : dkm_struct :=
  Dkm (distributed d) (pending_req d) (req_state d) z (r_pid d) (file_name d) (o_node d) (r_node d).
Definition set_r_pid (z : Z) (d : dkm_struct) : dkm_struct :=
  Dkm (distributed d) (pending_req d) (req_state d) (req d) z (file_name d) (o_node d) (r_node d).
Definition set_names (f o r : option buf) (d : dkm_struct) : dkm_struct :=
  Dkm (distributed d) (pending_req d) (req_state d) (req d) (r_pid d) f o r.
Definition set_r_node (r : option buf) (d : dkm_struct) : dkm_struct :=
  set_names (file_name d) (o_node d) r d.

(** A task; [dkm] is the pointer to its [dkm_struct]. *)
Record task_struct : Type := Task { pid : Z; dkm : option positive }.

(** The tasks in the order of [for_each_task], the heap of their [dkm_struct]s, and the
    signals sent to ikcd. *)
Record kernel : Type := Kernel {
  dkm_ikcd_pid : Z;
  tasks : list task_struct;
  dkms : gmap positive dkm_struct;
  kfresh : positive;
  nodename : cstr;
  sigusr2 : list Z
}.

Definition with_ikcd (p : Z) (k : kernel) : kernel :=
  Kernel p (tasks k) (dkms k) (kfresh k) (nodename k) (sigusr2 k).
Definition with_dkms (h : gmap positive dkm_struct) (k : kernel) : kernel :=
  Kernel (dkm_ikcd_pid k) (tasks k) h (kfresh k) (nodename k) (sigusr2 k).
Definition with_tasks (ts : list task_struct) (k : kernel) : kernel :=
  Kernel (dkm_ikcd_pid k) ts (dkms k) (kfresh k) (nodename k) (sigusr2 k).

(** * Memory and tasks *)

Definition find_task_by_pid (p : Z) (k : kernel) : option task_struct :=
  List.find (λ t, Z.eqb (pid t) p) (tasks k).

(** [p->f] for a pointer to a [dkm_struct]. *)
Definition kderef (p : option positive) : M kernel dkm_struct :=
  match p with
  | None => stop NullDeref
  | Some l => λ k, match dkms k !! l with Some d => Ok k d | None => Stop BadPtr end
  end.

Definition kstore (p : option positive) (g : dkm_struct → dkm_struct) : M kernel unit :=
  match p with
  | None => stop NullDeref
  | Some l => λ k,
    if decide (is_Some (dkms k !! l)) then Ok (with_dkms (alter g l (dkms k)) k) ()
    else Stop BadPtr
  end.

(** [current->dkm] *)
Definition current_dkm (cur : Z) : M kernel (option positive) := λ k,
  match find_task_by_pid cur k with Some t => Ok k (dkm t) | None => Stop BadPtr end.

(** The C string in a block. *)
Definition kstr (b : option buf) : M kernel cstr :=
  match b with None => stop NullDeref | Some m => access (buf_str m 0) end.

(** [strncpy(b, s, strlen(s) + 1)], and [copy_to_user] and [strncpy_from_user] of a
    whole string: the string and its NUL. *)
Definition kstrcpy (b : option buf) (s : cstr) : M kernel buf :=
  match b with None => stop NullDeref | Some m => access (buf_write m 0 (s ++ [NUL])) end.

(** * [do_dkmctl] *)

(** What [rq_argv->arg<n>] points to in user space. *)
Inductive uval : Type := UNone | UInt (z : Z) | UBuf (b : buf).

Record req_argv : Type := Argv { arg0 : uval; arg1 : uval }.

Definition user_buf (u : uval) : option buf :=
  match u with UBuf b => Some b | _ => None end.

(** The call returns a value, with the user memory as it leaves it, or it sleeps. *)
Inductive ctl : Type := Return (error : Z) (a : req_argv) | Sleep.

(** The condition under which [DKM_GET_REQ] takes a task. *)
Definition wants_service (d : dkm_struct) : bool :=
  bool_decide (pending_req d = 1%Z ∧ req_state d = REQ_IN_DO_REQ ∧
    (DKM_MIN_REQ ≤ req d)%Z ∧ (req d ≤ DKM_MAX_REQ)%Z).

(** The [for_each_task] loop: the first task that wants service. *)
Fixpoint get_req_loop (ts : list task_struct) : M kernel (option task_struct) :=
  match ts with
  | [] => mret None
  | t :: ts =>
    match dkm t with
    | None => get_req_loop ts
    | Some _ =>
      d ← kderef (dkm t);
      if wants_service d then mret (Some t) else get_req_loop ts
    end
  end.

Definition dkm_get_req (a : req_argv) : M kernel ctl :=
  ts ← gets tasks;
  o ← get_req_loop ts;
  match o with
  | Some t =>
    d ← kderef (dkm t);
    _ ← kstore (dkm t) (set_state REQ_IN_GET_REQ);
    mret (Return 0 (Argv (UInt (pid t)) (UInt (req d))))
  | None => mret (Return 1 (Argv (UInt (-1)) (UInt (-1))))
  end.

(** The trace output reads [task->dkm->req] before [!task] is tested. *)
Definition dkm_get_args (p rq : Z) (a : req_argv) : M kernel ctl :=
  task ← gets (find_task_by_pid p);
  match task with
  | None => stop NullDeref
  | Some t =>
    d ← kderef (dkm t);
    if decide (req d ≠ rq) then mret (Return (-1) a)
    else if decide (rq = MAP_REQ) then
      f ← kstr (file_name d);
      b ← kstrcpy (user_buf (arg0 a)) f;
      mret (Return 0 (Argv (UBuf b) (arg1 a)))
    else if decide (rq = PROC_CREAT_REQ) then
      n ← kstr (r_node d);
      b ← kstrcpy (user_buf (arg0 a)) n;
      f ← kstr (file_name d);
      c ← kstrcpy (user_buf (arg1 a)) f;
      mret (Return 0 (Argv (UBuf b) (UBuf c)))
    else mret (Return 0 a)
  end.

Definition dkm_put_resp (p rq : Z) (a : req_argv) : M kernel ctl :=
  task ← gets (find_task_by_pid p);
  match task with
  | None => mret (Return (-1) a)
  | Some t =>
    d ← kderef (dkm t);
    if decide (req d ≠ rq) then mret (Return (-1) a)
    else if decide (rq = MAP_REQ) then
      n ← kstr (user_buf (arg0 a));
      b ← kstrcpy (r_node d) n;
      _ ← kstore (dkm t) (set_r_node (Some b));
      _ ← kstore (dkm t) (set_pending 0);
      _ ← kstore (dkm t) (set_state REQ_NOT_IN_PROGRESS);
      mret (Return 0 a)
    else if decide (rq = PROC_CREAT_REQ) then
      match arg0 a with
      | UInt z =>
        _ ← kstore (dkm t) (set_r_pid z);
        _ ← kstore (dkm t) (set_pending 0);
        _ ← kstore (dkm t) (set_state REQ_NOT_IN_PROGRESS);
        mret (Return 0 a)
      | _ => stop NullDeref
      end
    else mret (Return (-1) a)
  end.

(** [while(current->dkm->pending_req != 0) interruptible_sleep_on(&wait_dkm_req)] *)
Definition dkm_do_req_wait (cur : Z) (a : req_argv) : M kernel ctl :=
  p ← current_dkm cur;
  d ← kderef p;
  if decide (pending_req d ≠ 0%Z) then mret Sleep else mret (Return 0 a).

(** [send_sig_info(SIGUSR2, &info, task)] with [info.si_pid = current->pid] *)
Definition send_sigusr2 (cur : Z) : M kernel unit :=
  modify (λ k, Kernel (dkm_ikcd_pid k) (tasks k) (dkms k) (kfresh k) (nodename k) (cur :: sigusr2 k)).

Definition dkm_do_req (cur : Z) (a : req_argv) : M kernel ctl :=
  p ← current_dkm cur;
  ikcd ← gets dkm_ikcd_pid;
  if decide (cur = ikcd) then mret (Return (-1) a)
  else
    d ← kderef p;
    if decide (req d < DKM_MIN_REQ ∨ req d > DKM_MAX_REQ)%Z then mret (Return (-1) a)
    else if decide (ikcd > 0)%Z then
      task ← gets (find_task_by_pid ikcd);
      _ ← kstore p (set_pending 1);
      _ ← kstore p (set_state REQ_IN_DO_REQ);
      match task with
      | Some _ => _ ← send_sigusr2 cur; dkm_do_req_wait cur a
      | None => mret (Return 0 a)
      end
    else mret (Return (-1) a).

Definition do_dkmctl (cur cmd p rq : Z) (a : req_argv) : M kernel ctl :=
  if decide (cmd = DKM_IKCD_REG) then _ ← modify (with_ikcd p); mret (Return 0 a)
  else if decide (cmd = DKM_IKCD_UNREG) then _ ← modify (with_ikcd (-1)); mret (Return 0 a)
  else if decide (cmd = DKM_GET_REQ) then dkm_get_req a
  else if decide (cmd = DKM_GET_ARGS) then dkm_get_args p rq a
  else if decide (cmd = DKM_PUT_RESP) then dkm_put_resp p rq a
  else if decide (cmd = DKM_DO_REQ) then dkm_do_req cur a
  else mret (Return 0 a).

Definition sys_dkmctl : Z → Z → Z → Z → req_argv → M kernel ctl := do_dkmctl.

(** * [dkm_execve] *)

Definition no_argv : req_argv := Argv UNone UNone.

(** Where a process is in [dkm_execve]: asleep in one of the two requests, or returned. *)
Inductive exec_pc : Set := InMap | InCreat | Returned (ret : Z).

#[export] Instance exec_pc_eq_dec : EqDecision exec_pc.
Proof. solve_decision. Defined.

(** [strncpy(current->dkm->r_node, current->dkm->o_node, strlen(current->dkm->o_node)+1)] *)
Definition r_node_is_o_node (p : option positive) : M kernel unit :=
  d ← kderef p;
  n ← kstr (o_node d);
  b ← kstrcpy (r_node d) n;
  kstore p (set_r_node (Some b)).

(** After the [DKM_DO_REQ] for the process creation. *)
Definition execve_after_creat (p : option positive) : M kernel exec_pc :=
  _ ← kstore p (set_req DKM_NOP);
  mret (Returned 0).

(** After the [DKM_DO_REQ] for the map request returned [ret]. *)
Definition execve_after_map (cur : Z) (p : option positive) (ret : Z) : M kernel exec_pc :=
  _ ← kstore p (set_req DKM_NOP);
  if decide (ret < 0)%Z then
    _ ← r_node_is_o_node p;
    _ ← kstore p (set_distributed 0);
    _ ← kstore p (set_pending 0);
    mret (Returned 0)
  else
    _ ← kstore p (set_distributed 1);
    d ← kderef p;
    r ← kstr (r_node d);
    o ← kstr (o_node d);
    if decide (r ≠ o) then
      _ ← kstore p (set_req PROC_CREAT_REQ);
      c ← do_dkmctl cur DKM_DO_REQ 0 0 no_argv;
      match c with
      | Sleep => mret InCreat
      | Return _ _ => execve_after_creat p
      end
    else mret (Returned 0).

(** [junk_f], [junk_r] and [junk_o] are the contents of the three new blocks. *)
Definition dkm_execve (cur : Z) (junk_f junk_r junk_o : buf) (filename : cstr) : M kernel exec_pc :=
  ikcd ← gets dkm_ikcd_pid;
  if decide (ikcd < 0)%Z then mret (Returned (-1))
  else
    p ← current_dkm cur;
    _ ← kstore p (λ d, set_names (Some junk_f) (o_node d) (r_node d) d);
    _ ← kstore p (set_r_node (Some junk_r));
    _ ← kstore p (λ d, set_names (file_name d) (Some junk_o) (r_node d) d);
    f ← kstrcpy (Some junk_f) filename;
    _ ← kstore p (λ d, set_names (Some f) (o_node d) (r_node d) d);
    n ← gets nodename;
    o ← kstrcpy (Some junk_o) n;
    _ ← kstore p (λ d, set_names (file_name d) (Some o) (r_node d) d);
    if decide (ikcd < 0 ∨ cur = ikcd)%Z then
      _ ← r_node_is_o_node p;
      _ ← kstore p (set_distributed 0);
      mret (Returned 1)
    else
      _ ← kstore p (set_req MAP_REQ);
      c ← do_dkmctl cur DKM_DO_REQ 0 0 no_argv;
      match c with
      | Sleep => mret InMap
      | Return ret _ => execve_after_map cur p ret
      end.

(** A process that sleeps is scheduled again: it tests the loop condition and goes on
    in [dkm_execve] when its request is finished. *)
Definition dkm_resume (cur : Z) (pc : exec_pc) : M kernel exec_pc :=
  match pc with
  | Returned _ => mret pc
  | _ =>
    c ← dkm_do_req_wait cur no_argv;
    match c with
    | Sleep => mret pc
    | Return ret _ =>
      p ← current_dkm cur;
      match pc with InMap => execve_after_map cur p ret | _ => execve_after_creat p end
    end
  end.

(** * [do_fork] and [do_execve] *)

(** The dkm part of [do_fork]: the child [p] is a copy of the current task, so it has the
    [dkm_struct] of its parent, and the new one is assigned to [current->dkm]. *)
Definition new_dkm : dkm_struct := Dkm 0 0 REQ_NOT_IN_PROGRESS 0 0 None None None.

Definition set_task_dkm (cur : Z) (l : positive) (ts : list task_struct) : list task_struct :=
  (λ t, if (pid t =? cur)%Z then Task (pid t) (Some l) else t) <$> ts.

(** [SET_LINKS] puts a task at the end of the list; [child] is its pid, [r_pid] what the
    new block holds in the field that is not initialised. *)
Definition do_fork (cur child junk_r_pid : Z) : M kernel Z :=
  parent ← current_dkm cur;
  l ← gets kfresh;
  _ ← modify (λ k, Kernel (dkm_ikcd_pid k)
         (set_task_dkm cur l (tasks k) ++ [Task child parent])
         (<[l := set_r_pid junk_r_pid new_dkm]> (dkms k)) (Pos.succ l) (nodename k) (sigusr2 k));
  mret child.

(** The dkm part of [do_execve] reads [current->dkm] after the call, whatever it
    returned. *)
Definition do_execve_dkm (cur : Z) (pc : exec_pc) : M kernel unit :=
  p ← current_dkm cur;
  d ← kderef p;
  _ ← match file_name d with Some _ => _ ← kstr (file_name d); mret () | None => mret () end;
  match r_node d with Some _ => _ ← kstr (r_node d); mret () | None => mret () end.
