(* ===== verification/DkmctlInv.v ===== *)
(** The kernel side of dkm as a step relation, with its invariant: every task owns its
    [dkm_struct], and a request is in progress exactly while its process sleeps in
    [dkm_execve]. *)

From Stdlib Require Import ZArith Lia Strings.Byte.
From stdpp Require Import base list gmap strings.
From S2P Require Import Prelude.
From S2P Require Import Cbuf.
From S2P Require Import Dkmctl.

(** * Execution focused on one [dkm_struct] *)

(** The kernel in which the block [l] holds [d]. *)
Definition at_dkm (k : kernel) (l : positive) (d : dkm_struct) : kernel :=
  with_dkms (<[l := d]> (dkms k)) k.

Lemma at_dkm_id k l d : dkms k !! l = Some d → at_dkm k l d = k.
Proof. intros Hd. unfold at_dkm. rewrite insert_id by done. by destruct k. Qed.

Lemma at_dkm_dkm k l d : dkms (at_dkm k l d) !! l = Some d.
Proof. apply lookup_insert_eq. Qed.

Lemma at_dkm_ne k l d l' : l ≠ l' → dkms (at_dkm k l d) !! l' = dkms k !! l'.
Proof. apply lookup_insert_ne. Qed.

Lemma kderef_at k l d : kderef (Some l) (at_dkm k l d) = Ok (at_dkm k l d) d.
Proof. unfold kderef. by rewrite at_dkm_dkm. Qed.

Lemma kderef_eq k l d : dkms k !! l = Some d → kderef (Some l) k = Ok k d.
Proof. intros Hd. unfold kderef. by rewrite Hd. Qed.

Lemma kstore_at k l d g : kstore (Some l) g (at_dkm k l d) = Ok (at_dkm k l (g d)) ().
Proof.
  unfold kstore. rewrite decide_True by (rewrite at_dkm_dkm; by eexists).
  unfold at_dkm, with_dkms. cbn. f_equal. f_equal.
  rewrite <- (insert_insert_eq (dkms k) l (g d) d). apply map_eq. intros l'.
  destruct (decide (l = l')) as [<-|].
  - by rewrite lookup_alter_eq, !lookup_insert_eq.
  - by rewrite lookup_alter_ne, !lookup_insert_ne.
Qed.

(** The task [p] points to the block [l]. *)
Definition owns (k : kernel) (p : Z) (l : positive) : Prop :=
  find_task_by_pid p k = Some (Task p (Some l)).

Lemma current_at k l d p l' :
  owns k p l' → current_dkm p (at_dkm k l d) = Ok (at_dkm k l d) (Some l').
Proof. unfold owns, current_dkm. cbn. intros Ho. unfold find_task_by_pid in *. cbn. by rewrite Ho. Qed.

Lemma find_task_pid p k t : find_task_by_pid p k = Some t → t ∈ tasks k ∧ pid t = p.
Proof.
  intros H. apply find_some in H as [Hin He]. apply Z.eqb_eq in He. split; [by apply list_elem_of_In|done].
Qed.

Lemma find_task_None p k : find_task_by_pid p k = None → p ∉ (pid <$> tasks k).
Proof.
  intros H Hin. apply list_elem_of_fmap in Hin as (t & -> & Ht).
  apply list_elem_of_In, (find_none _ _ H) in Ht. lia.
Qed.

(** ** Partial correctness: [Q] holds if the run does not fault. *)
Definition post {A} (m : M kernel A) (k : kernel) (Q : kernel → A → Prop) : Prop :=
  match m k with Ok k' a => Q k' a | Stop _ => True end.

Lemma post_bind {A B} (m : M kernel A) (f : A → M kernel B) k Q :
  post m k (λ k' a, post (f a) k' Q) → post (m ≫= f) k Q.
Proof. unfold post, mbind, M_bind. by destruct (m k). Qed.

Lemma post_eq {A} (m : M kernel A) k k' a (Q : kernel → A → Prop) :
  m k = Ok k' a → Q k' a → post m k Q.
Proof. unfold post. by intros ->. Qed.

Lemma post_access {A} (o : option A) k (Q : kernel → A → Prop) :
  (∀ a, o = Some a → Q k a) → post (access o) k Q.
Proof. destruct o; cbn; auto. Qed.

Lemma post_kstr b k (Q : kernel → cstr → Prop) : (∀ s, Q k s) → post (kstr b) k Q.
Proof. destruct b; [|done]. intros. apply post_access. auto. Qed.

Lemma post_kstrcpy b s k (Q : kernel → buf → Prop) :
  (∀ m, is_Some b → Q k m) → post (kstrcpy b s) k Q.
Proof. destruct b; [|done]. intros. apply post_access. eauto. Qed.

Lemma post_elim {A} (m : M kernel A) k Q k' a : post m k Q → m k = Ok k' a → Q k' a.
Proof. unfold post. intros H E. by rewrite E in H. Qed.

Lemma post_mono {A} (m : M kernel A) k (P Q : kernel → A → Prop) :
  post m k P → (∀ k' a, P k' a → Q k' a) → post m k Q.
Proof. unfold post. destruct (m k); auto. Qed.

Ltac k_post :=
  repeat (lazymatch goal with
  | |- post (_ ≫= _) _ _ => apply post_bind
  | |- post (mret _) _ _ => eapply post_eq; [reflexivity|]
  | |- post (gets _) _ _ => eapply post_eq; [reflexivity|]
  | |- post (stop _) _ _ => exact I
  | |- post (kderef (Some _)) (at_dkm _ _ _) _ => eapply post_eq; [apply kderef_at|]
  | |- post (kstore (Some _) _) (at_dkm _ _ _) _ => eapply post_eq; [apply kstore_at|]
  | |- post (current_dkm _) (at_dkm _ _ _) _ => eapply post_eq; [by apply current_at|]
  | |- post (kstr _) _ _ => apply post_kstr; intros ?
  | |- post (kstrcpy _ _) _ _ => apply post_kstrcpy; intros ? ?
  | |- post (if decide _ then _ else _) _ _ => case_decide
  end; cbn beta iota).

(** * What the operations do to the block of the task *)

(** The kernels differ in the registered pid and in the signals only. *)
Definition same_but (k k' : kernel) : Prop :=
  tasks k' = tasks k ∧ dkms k' = dkms k ∧ kfresh k' = kfresh k ∧ nodename k' = nodename k.

Lemma same_but_refl k : same_but k k.
Proof. done. Qed.

Lemma same_but_owns k k' p l : same_but k k' → owns k p l → owns k' p l.
Proof. intros (Ht & _). unfold owns, find_task_by_pid. by rewrite Ht. Qed.

Lemma owns_tasks k k' p l : tasks k' = tasks k → owns k p l → owns k' p l.
Proof. unfold owns, find_task_by_pid. by intros ->. Qed.

Lemma same_but_trans k1 k2 k3 : same_but k1 k2 → same_but k2 k3 → same_but k1 k3.
Proof. unfold same_but. intros (?&?&?&?) (?&?&?&?). split_and!; by etrans. Qed.

Definition signalled (cur : Z) (k : kernel) : kernel :=
  Kernel (dkm_ikcd_pid k) (tasks k) (dkms k) (kfresh k) (nodename k) (cur :: sigusr2 k).

Lemma send_at cur k l d : send_sigusr2 cur (at_dkm k l d) = Ok (at_dkm (signalled cur k) l d) ().
Proof. done. Qed.

(** A request of a process that sleeps: taken or not, or finished. *)
Definition waiting (d : dkm_struct) : Prop :=
  (pending_req d = 1%Z ∧ (req_state d = REQ_IN_DO_REQ ∨ req_state d = REQ_IN_GET_REQ)) ∨
  (pending_req d = 0%Z ∧ req_state d = REQ_NOT_IN_PROGRESS).

Definition pc_ok (pc : exec_pc) (d : dkm_struct) : Prop :=
  match pc with
  | InMap => req d = MAP_REQ ∧ waiting d
  | InCreat => req d = PROC_CREAT_REQ ∧ waiting d
  | Returned _ => req d = DKM_NOP
  end.

(** [m] leaves a kernel in which only the block [l] has changed, to one that is [P]. *)
Definition focused {A} (k : kernel) (l : positive) (P : A → dkm_struct → Prop) : kernel → A → Prop :=
  λ k' a, ∃ k0 d', same_but k k0 ∧ k' = at_dkm k0 l d' ∧ P a d'.

Lemma focused_intro {A} k k0 l d (P : A → dkm_struct → Prop) (a : A) :
  same_but k k0 → P a d → focused k l P (at_dkm k0 l d) a.
Proof. intros. by exists k0, d. Qed.

Lemma do_req_post cur a k l d :
  owns k cur l →
  post (dkm_do_req cur a) (at_dkm k l d) (focused k l (λ c d', req d' = req d ∧
    (c = Sleep → waiting d'))).
Proof.
  intros Ho. unfold dkm_do_req. k_post; try (apply focused_intro; done).
  destruct (find_task_by_pid _ _).
  - k_post. eapply post_eq; [apply send_at|]. unfold dkm_do_req_wait. k_post.
    all: apply focused_intro; [done|]. all: split; [done|]; intros; try done.
    left. split; [done|by left].
  - k_post. by apply focused_intro.
Qed.

Lemma do_dkmctl_do_req cur a : do_dkmctl cur DKM_DO_REQ 0 0 a = dkm_do_req cur a.
Proof. done. Qed.

(** Running on from a focused state. *)
Lemma post_focused {A B} (m : M kernel A) (f : A → M kernel B) k l P Q k1 :
  post m k1 (focused k l P) →
  (∀ k0 d a, same_but k k0 → P a d → post (f a) (at_dkm k0 l d) (focused k0 l Q)) →
  post m k1 (λ k' a, post (f a) k' (focused k l Q)).
Proof.
  intros Hm Hf. eapply post_mono; [exact Hm|].
  intros k' a (k0 & d & Hs & -> & HP). eapply post_mono; [by apply Hf|].
  intros k'' b (k1' & d' & Hs' & -> & HQ). exists k1', d'. split; [by eapply same_but_trans|done].
Qed.

Lemma after_creat_post k l d :
  post (execve_after_creat (Some l)) (at_dkm k l d) (focused k l pc_ok).
Proof. unfold execve_after_creat. k_post. by apply focused_intro. Qed.

Lemma after_map_post cur k l d ret :
  owns k cur l → post (execve_after_map cur (Some l) ret) (at_dkm k l d) (focused k l pc_ok).
Proof.
  intros Ho. unfold execve_after_map, r_node_is_o_node. k_post; try (by apply focused_intro).
  rewrite do_dkmctl_do_req. eapply post_focused; [by apply do_req_post|].
  intros k0 d' c Hs (Hr & Hw). destruct c; [apply after_creat_post|].
  k_post. apply focused_intro; [done|]. split; [done|by apply Hw].
Qed.

Lemma execve_post cur jf jr jo filename k l d :
  owns k cur l → req d = DKM_NOP →
  post (dkm_execve cur jf jr jo filename) (at_dkm k l d) (focused k l pc_ok).
Proof.
  intros Ho Hd. unfold dkm_execve, r_node_is_o_node. k_post; try (by apply focused_intro).
  rewrite do_dkmctl_do_req. eapply post_focused; [by apply do_req_post|].
  intros k0 d' c Hs (Hr & Hw). pose proof (same_but_owns _ _ _ _ Hs Ho).
  destruct c; [by apply after_map_post|].
  k_post. apply focused_intro; [done|]. split; [done|by apply Hw].
Qed.

Lemma resume_post cur pc k l d :
  owns k cur l → pc_ok pc d →
  post (dkm_resume cur pc) (at_dkm k l d) (focused k l pc_ok).
Proof.
  intros Ho Hd. unfold dkm_resume, dkm_do_req_wait.
  destruct pc; k_post; try (by apply focused_intro); [by apply after_map_post|apply after_creat_post].
Qed.

(** ** The calls of ikcd *)

Lemma get_req_loop_spec ts k :
  (∀ t l, t ∈ ts → dkm t = Some l → is_Some (dkms k !! l)) →
  get_req_loop ts k = Ok k (List.find (λ t,
    match dkm t ≫= (dkms k !!.) with Some d => wants_service d | None => false end) ts).
Proof.
  induction ts as [|t ts IH]; intros Hv; [done|]. cbn [get_req_loop List.find].
  assert (get_req_loop ts k = _) as IH' by (apply IH; intros; eapply Hv; [by right|done]).
  destruct (dkm t) as [l|] eqn:El; [|exact IH'].
  destruct (Hv t l) as [d Hd]; [by left|done|].
  erewrite bind_Ok by (by apply kderef_eq). cbn. rewrite Hd. by destruct (wants_service d).
Qed.

(** [DKM_PUT_RESP] changes the answer and the progress of a request of its type. *)
Lemma put_resp_post p rq a k l d :
  owns k p l →
  post (dkm_put_resp p rq a) (at_dkm k l d) (focused k l (λ _ d',
    d' = d ∨ (req d' = req d ∧ req d ≠ DKM_NOP ∧ waiting d'))).
Proof.
  intros Ho. unfold dkm_put_resp. apply post_bind. eapply post_eq; [reflexivity|].
  unfold find_task_by_pid, at_dkm at 1. cbn [tasks with_dkms].
  change (List.find _ (tasks k)) with (find_task_by_pid p k). rewrite Ho. cbn [dkm].
  k_post; try (apply focused_intro; [done|by left]).
  - apply focused_intro; [done|]. right. cbn. split_and!; [done| |by right]. unfold MAP_REQ, DKM_NOP in *. lia.
  - destruct (arg0 a); [done| |done]. k_post. apply focused_intro; [done|]. right. cbn.
    split_and!; [done| |by right]. unfold PROC_CREAT_REQ, DKM_NOP in *. lia.
Qed.

(** * The step relation

    [pcs] holds the processes that sleep in [dkm_execve]. *)
Record sys : Type := Sys { kern : kernel; pcs : gmap Z exec_pc }.

Definition record_pc (cur : Z) (pc : exec_pc) (m : gmap Z exec_pc) : gmap Z exec_pc :=
  match pc with Returned _ => delete cur m | _ => <[cur := pc]> m end.

(** The blocks that [kmalloc] returns have the size that is asked for. *)
Inductive kstep : sys → sys → Prop :=
  | k_execve cur jf jr jo filename k k' pc m :
      m !! cur = None → length jf = S (length filename) →
      length jr = Z.to_nat NODE_LEN → length jo = Z.to_nat NODE_LEN →
      dkm_execve cur jf jr jo filename k = Ok k' pc →
      kstep (Sys k m) (Sys k' (record_pc cur pc m))
  | k_resume cur pc pc' k k' m :
      m !! cur = Some pc → dkm_resume cur pc k = Ok k' pc' →
      kstep (Sys k m) (Sys k' (record_pc cur pc' m))
  | k_call cur cmd p rq a e a' k k' m :
      m !! cur = None → sys_dkmctl cur cmd p rq a k = Ok k' (Return e a') →
      kstep (Sys k m) (Sys k' m)
  | k_fork cur child junk v k k' m :
      m !! cur = None → find_task_by_pid child k = None → m !! child = None →
      do_fork cur child junk k = Ok k' v →
      kstep (Sys k m) (Sys k' m)
  | k_exit cur k m :
      m !! cur = None →
      kstep (Sys k m) (Sys (with_tasks (filter (λ t, pid t ≠ cur) (tasks k)) k) m).

Inductive kreach (s0 : sys) : sys → Prop :=
  | kreach_refl : kreach s0 s0
  | kreach_step s s' : kreach s0 s → kstep s s' → kreach s0 s'.

(** What the process [p] with the block [d] may do, given where it is. *)
Definition at_pc (m : gmap Z exec_pc) (p : Z) (d : dkm_struct) : Prop :=
  pc_ok (default (Returned 0) (m !! p)) d.

Record kinv (s : sys) : Prop := {
  inv_pids : NoDup (pid <$> tasks (kern s));
  inv_valid t l : t ∈ tasks (kern s) → dkm t = Some l → is_Some (dkms (kern s) !! l);
  inv_owner t1 t2 l : t1 ∈ tasks (kern s) → t2 ∈ tasks (kern s) →
    dkm t1 = Some l → dkm t2 = Some l → t1 = t2;
  inv_fresh l : is_Some (dkms (kern s) !! l) → (l < kfresh (kern s))%positive;
  inv_pc t l d : t ∈ tasks (kern s) → dkm t = Some l → dkms (kern s) !! l = Some d →
    at_pc (pcs s) (pid t) d;
  inv_sleep p pc : pcs s !! p = Some pc → (∀ v, pc ≠ Returned v) ∧ ∃ l, owns (kern s) p l
}.

Lemma owns_in k p l : owns k p l → Task p (Some l) ∈ tasks k.
Proof. by intros [? _]%find_task_pid. Qed.

Lemma find_task_in k t : NoDup (pid <$> tasks k) → t ∈ tasks k → find_task_by_pid (pid t) k = Some t.
Proof.
  unfold find_task_by_pid. induction (tasks k) as [|t' ts IH]; [by intros _ ?%elem_of_nil|].
  intros [Hn Hnd]%NoDup_cons [->|Ht]%elem_of_cons; cbn; [by rewrite Z.eqb_refl|].
  destruct (Z.eqb_spec (pid t') (pid t)) as [E|]; [|by apply IH].
  exfalso. apply Hn. rewrite E. by apply list_elem_of_fmap_2.
Qed.

Lemma in_owns s t l : kinv s → t ∈ tasks (kern s) → dkm t = Some l → owns (kern s) (pid t) l.
Proof.
  intros Hi Ht El. unfold owns. rewrite (find_task_in _ _ (inv_pids s Hi) Ht). by destruct t; simplify_eq/=.
Qed.

(** The block of one task changes to what its place in [dkm_execve] allows. *)
Lemma kinv_focus k m p l pc k0 d' m' :
  kinv (Sys k m) → owns k p l → same_but k k0 → pc_ok pc d' → m' = record_pc p pc m →
  kinv (Sys (at_dkm k0 l d') m').
Proof.
  intros Hi Ho (Ht & Hd & Hf & Hn) Hpc ->.
  assert (∀ l', is_Some (dkms (at_dkm k0 l d') !! l') → is_Some (dkms k !! l')) as Hdom.
  { intros l'. destruct (decide (l = l')) as [->|]; [|by rewrite at_dkm_ne, Hd].
    intros _. eapply (inv_valid _ Hi); [by apply owns_in|done]. }
  assert (∀ q, (record_pc p pc m) !! q = if decide (q = p) then
     match pc with Returned _ => None | _ => Some pc end else m !! q) as Hrec.
  { intros q. case_decide as E; [subst q|]; destruct pc; cbn; by map_reads. }
  destruct Hi as [H1 H2 H3 H4 H5 H6]; simpl in *. split; simpl; rewrite ?Ht, ?Hf.
  - done.
  - intros t l' Hin El. destruct (decide (l = l')) as [->|]; [rewrite lookup_insert_eq; eauto|].
    rewrite lookup_insert_ne, Hd by done. eauto.
  - done.
  - intros l' Hl'. by apply H4, Hdom.
  - intros t l' d Hin El Hl'. unfold at_pc. rewrite Hrec.
    destruct (decide (l = l')) as [<-|Hne].
    + rewrite lookup_insert_eq in Hl'. injection Hl' as <-.
      assert (t = Task p (Some l)) as -> by (eapply H3; [done|by apply owns_in|done|done]).
      rewrite decide_True by done. by destruct pc.
    + rewrite lookup_insert_ne, Hd in Hl' by done.
      rewrite decide_False; [by eapply H5|]. intros <-.
      unfold owns in Ho. rewrite find_task_in in Ho by done. by destruct t; simplify_eq/=.
  - intros q pc'. rewrite Hrec. case_decide as E; [subst q|].
    + intros Hp. split; [by destruct pc; simplify_eq|]. exists l. by apply (owns_tasks k).
    + intros Hq. destruct (H6 q pc' Hq) as (? & l' & ?). split; [done|].
      exists l'. by apply (owns_tasks k).
Qed.

Lemma kinv_execve k m cur jf jr jo filename k' pc :
  kinv (Sys k m) → m !! cur = None → dkm_execve cur jf jr jo filename k = Ok k' pc →
  kinv (Sys k' (record_pc cur pc m)).
Proof.
  intros Hi Hm Hrun. pose proof Hrun as Hrun'. unfold dkm_execve in Hrun'.
  erewrite bind_Ok in Hrun' by reflexivity.
  destruct (decide (dkm_ikcd_pid k < 0)%Z) as [Hneg|Hpos] eqn:Hdec.
  - injection Hrun' as <- <-. cbn. by rewrite delete_id.
  - assert (∃ l d, owns k cur l ∧ dkms k !! l = Some d) as (l & d & Ho & Hd).
    { unfold current_dkm, mbind, M_bind in Hrun'.
      destruct (find_task_by_pid cur k) as [[q [l|]]|] eqn:Ef; [|done|done].
      pose proof (find_task_pid _ _ _ Ef) as [Hin Hq]. cbn in Hq. subst q.
      destruct (inv_valid _ Hi _ l Hin eq_refl) as [d ?]. by exists l, d. }
    assert (req d = DKM_NOP) as Hnop.
    { pose proof (inv_pc _ Hi _ l d (owns_in _ _ _ Ho) eq_refl Hd) as Hp.
      unfold at_pc in Hp. cbn in Hp. by rewrite Hm in Hp. }
    pose proof (execve_post cur jf jr jo filename k l d Ho Hnop) as Hpost.
    rewrite (at_dkm_id k l d Hd) in Hpost. eapply post_elim in Hpost; [|exact Hrun].
    destruct Hpost as (k0 & d' & Hs & -> & Hpc). by eapply kinv_focus.
Qed.

Lemma kinv_resume k m cur pc k' pc' :
  kinv (Sys k m) → m !! cur = Some pc → dkm_resume cur pc k = Ok k' pc' →
  kinv (Sys k' (record_pc cur pc' m)).
Proof.
  intros Hi Hm Hrun. destruct (inv_sleep _ Hi _ _ Hm) as (_ & l & Ho).
  destruct (inv_valid _ Hi _ l (owns_in _ _ _ Ho) eq_refl) as [d Hd].
  pose proof (inv_pc _ Hi _ l d (owns_in _ _ _ Ho) eq_refl Hd) as Hp.
  unfold at_pc in Hp. cbn in Hp. rewrite Hm in Hp. cbn in Hp.
  pose proof (resume_post cur pc k l d Ho Hp) as Hpost. cbn in Hd.
  rewrite (at_dkm_id k l d Hd) in Hpost. eapply post_elim in Hpost; [|exact Hrun].
  destruct Hpost as (k0 & d' & Hs & -> & Hpc). by eapply kinv_focus.
Qed.

(** ** Calls *)

Lemma kinv_ikcd k m p : kinv (Sys k m) → kinv (Sys (with_ikcd p k) m).
Proof. intros []; split; done. Qed.

Lemma record_same m p pc : m !! p = pc → (∀ v, pc ≠ Some (Returned v)) →
  record_pc p (default (Returned 0) pc) m = m.
Proof.
  intros Hm Hv. destruct pc as [[| |v]|]; cbn; [by apply insert_id|by apply insert_id| |by apply delete_id].
  by destruct (Hv v).
Qed.

(** A block changes and the place of its process does not. *)
Lemma kinv_focus_same k m p l k0 d d' :
  kinv (Sys k m) → owns k p l → same_but k k0 → dkms k !! l = Some d →
  d' = d ∨ (req d' = req d ∧ req d ≠ DKM_NOP ∧ waiting d') →
  kinv (Sys (at_dkm k0 l d') m).
Proof.
  intros Hi Ho Hs Hd Hd'.
  pose proof (inv_pc _ Hi _ l d (owns_in _ _ _ Ho) eq_refl Hd) as Hp. unfold at_pc in Hp. cbn in Hp.
  eapply (kinv_focus k m p l (default (Returned 0) (m !! p))); [done..| |].
  - destruct Hd' as [->|(Hr & Hn & Hw)]; [done|]. destruct (default (Returned 0) (m !! p)); cbn in *; [by destruct Hp; split; congruence..|congruence].
  - symmetry. apply record_same; [done|]. intros v Hv. destruct (inv_sleep _ Hi p _ Hv) as [Hne _]. by destruct (Hne v).
Qed.

Lemma kinv_put_resp k m p rq a k' c :
  kinv (Sys k m) → dkm_put_resp p rq a k = Ok k' c → kinv (Sys k' m).
Proof.
  intros Hi Hrun. destruct (find_task_by_pid p k) as [[q [l|]]|] eqn:Ef.
  - pose proof (find_task_pid _ _ _ Ef) as [Hin Hq]. cbn in Hq. subst q.
    destruct (inv_valid _ Hi _ l Hin eq_refl) as [d Hd]. cbn in Hd.
    pose proof (put_resp_post p rq a k l d Ef) as Hpost.
    rewrite (at_dkm_id k l d Hd) in Hpost. eapply post_elim in Hpost; [|exact Hrun].
    destruct Hpost as (k0 & d' & Hs & -> & Hd'). by eapply kinv_focus_same.
  - unfold dkm_put_resp in Hrun. erewrite bind_Ok in Hrun by reflexivity. by rewrite Ef in Hrun.
  - unfold dkm_put_resp in Hrun. erewrite bind_Ok in Hrun by reflexivity.
    rewrite Ef in Hrun. by injection Hrun as <- <-.
Qed.

(** What [DKM_GET_REQ] does in a state that satisfies the invariant. *)
Lemma get_req_spec k m a :
  kinv (Sys k m) →
  (dkm_get_req a k = Ok k (Return 1 (Argv (UInt (-1)) (UInt (-1)))) ∧
   ∀ p l d, owns k p l → dkms k !! l = Some d → wants_service d = false) ∨
  (∃ p l d, owns k p l ∧ dkms k !! l = Some d ∧ wants_service d = true ∧
    dkm_get_req a k = Ok (at_dkm k l (set_state REQ_IN_GET_REQ d)) (Return 0 (Argv (UInt p) (UInt (req d))))).
Proof.
  intros Hi. unfold dkm_get_req. erewrite bind_Ok by reflexivity.
  erewrite bind_Ok by (apply get_req_loop_spec, (inv_valid _ Hi)).
  destruct (List.find _ (tasks k)) as [t|] eqn:Ef.
  - right. apply find_some in Ef as [Hin Hw]. apply list_elem_of_In in Hin.
    destruct (dkm t) as [l|] eqn:El; [|done]. cbn in Hw.
    destruct (dkms k !! l) as [d|] eqn:Hd; [|done].
    exists (pid t), l, d. split_and!; [by apply (in_owns _ _ _ Hi)|done..|].
    rewrite <- (at_dkm_id k l d Hd) at 1.
    erewrite bind_Ok by apply kderef_at. by erewrite bind_Ok by apply kstore_at.
  - left. split; [done|]. intros p l d Ho Hd.
    pose proof (find_none _ _ Ef (Task p (Some l))) as Hnone.
    cbn in Hnone. rewrite Hd in Hnone. apply Hnone. apply list_elem_of_In, owns_in, Ho.
Qed.

Lemma kinv_get_req k m a k' c :
  kinv (Sys k m) → dkm_get_req a k = Ok k' c → kinv (Sys k' m).
Proof.
  intros Hi Hrun. destruct (get_req_spec k m a Hi) as [[E _]|(p & l & d & Ho & Hd & Hw & E)];
    rewrite E in Hrun; injection Hrun as <- <-; [done|].
  unfold wants_service in Hw. apply bool_decide_eq_true in Hw as (Hp & Hs & Hmin & _).
  eapply kinv_focus_same; [done..|]. right. cbn. split_and!; [done|unfold DKM_MIN_REQ, DKM_NOP in *; lia|].
  left. split; [done|by right].
Qed.

Lemma get_args_same k p rq a k' c : dkm_get_args p rq a k = Ok k' c → k' = k.
Proof.
  intros Hrun. assert (post (dkm_get_args p rq a) k (λ k' _, k' = k)) as Hpost; [|by eapply post_elim in Hpost].
  unfold dkm_get_args. apply post_bind. eapply post_eq; [reflexivity|].
  destruct (find_task_by_pid p k) as [t|]; [|exact I]. apply post_bind.
  unfold post at 1. destruct (kderef (dkm t) k) as [k1 d|] eqn:Ed; [|done].
  assert (k1 = k) as ->.
  { unfold kderef in Ed. destruct (dkm t) as [l|]; [|done]. destruct (dkms k !! l); by simplify_eq. }
  by k_post.
Qed.

Lemma kinv_get_args k m p rq a k' c :
  kinv (Sys k m) → dkm_get_args p rq a k = Ok k' c → kinv (Sys k' m).
Proof. by intros Hi ->%get_args_same. Qed.

(** A process outside [dkm_execve] that calls [DKM_DO_REQ] has no request. *)
Lemma do_req_refused k m cur a k' e a' :
  kinv (Sys k m) → m !! cur = None → dkm_do_req cur a k = Ok k' (Return e a') → k' = k.
Proof.
  intros Hi Hm Hrun. unfold dkm_do_req, current_dkm in Hrun.
  destruct (find_task_by_pid cur k) as [[q p]|] eqn:Ef;
    [|unfold mbind, M_bind in Hrun; by rewrite Ef in Hrun].
  pose proof (find_task_pid _ _ _ Ef) as [Hin Hq]. cbn in Hq. subst q.
  erewrite bind_Ok in Hrun by (by rewrite Ef). erewrite bind_Ok in Hrun by reflexivity.
  case_decide; [by injection Hrun|].
  destruct p as [l|]; [|done]. destruct (inv_valid _ Hi _ l Hin eq_refl) as [d Hd].
  erewrite bind_Ok in Hrun by (by apply kderef_eq).
  pose proof (inv_pc _ Hi _ l d Hin eq_refl Hd) as Hp. unfold at_pc in Hp. cbn in Hp.
  rewrite Hm in Hp. cbn in Hp. rewrite Hp in Hrun.
  rewrite decide_True in Hrun by (left; unfold DKM_NOP, DKM_MIN_REQ; lia). by injection Hrun.
Qed.

Lemma kinv_do_req k m cur a k' e a' :
  kinv (Sys k m) → m !! cur = None → dkm_do_req cur a k = Ok k' (Return e a') → kinv (Sys k' m).
Proof. intros Hi Hm E. by rewrite (do_req_refused k m cur a k' e a' Hi Hm E). Qed.

Lemma kinv_call k m cur cmd p rq a e a' k' :
  kinv (Sys k m) → m !! cur = None → sys_dkmctl cur cmd p rq a k = Ok k' (Return e a') →
  kinv (Sys k' m).
Proof.
  intros Hi Hm. unfold sys_dkmctl, do_dkmctl.
  repeat case_decide; intros Hrun.
  - injection Hrun as <- <- <-. by apply kinv_ikcd.
  - injection Hrun as <- <- <-. by apply kinv_ikcd.
  - by eapply kinv_get_req.
  - by eapply kinv_get_args.
  - by eapply kinv_put_resp.
  - by eapply kinv_do_req.
  - by injection Hrun as <- <- <-.
Qed.

(** ** Fork and exit *)

Lemma set_task_dkm_in cur l ts t :
  t ∈ set_task_dkm cur l ts ↔
    (pid t = cur ∧ dkm t = Some l ∧ ∃ p, Task cur p ∈ ts) ∨ (pid t ≠ cur ∧ t ∈ ts).
Proof.
  unfold set_task_dkm. rewrite list_elem_of_fmap. split.
  - intros (t' & -> & Hin). destruct (Z.eqb_spec (pid t') cur) as [<-|]; [left|by right].
    cbn. split_and!; [done..|]. exists (dkm t'). by destruct t'.
  - destruct t as [q p]; cbn. intros [(-> & -> & p' & Hin)|[Hne Hin]].
    + exists (Task cur p'). cbn. by rewrite Z.eqb_refl.
    + exists (Task q p). cbn. by destruct (Z.eqb_spec q cur).
Qed.

Lemma set_task_dkm_pids cur l ts : pid <$> set_task_dkm cur l ts = pid <$> ts.
Proof.
  unfold set_task_dkm. rewrite <- list_fmap_compose. apply list_fmap_ext. intros i t _. cbn.
  by destruct (pid t =? cur)%Z.
Qed.

Lemma find_set_task_dkm cur l ts q child p :
  q ≠ cur → find_task_by_pid q (with_tasks ts p) ≠ None →
  List.find (λ t, Z.eqb (pid t) q) (set_task_dkm cur l ts ++ [child]) = List.find (λ t, Z.eqb (pid t) q) ts.
Proof.
  intros Hq. unfold find_task_by_pid. cbn. induction ts as [|t ts IH]; cbn; [done|].
  destruct (Z.eqb_spec (pid t) cur) as [E|]; cbn; [|by destruct (pid t =? q)%Z].
  destruct (Z.eqb_spec (pid t) q); [congruence|done].
Qed.

Lemma forked_task cur child parent l ts t :
  t ∈ set_task_dkm cur l ts ++ [Task child parent] →
  (pid t = cur ∧ dkm t = Some l) ∨ (pid t ≠ cur ∧ t ∈ ts) ∨ t = Task child parent.
Proof.
  intros [Ht|Ht%list_elem_of_singleton]%elem_of_app; [|by right; right].
  apply set_task_dkm_in in Ht as [(?&?&_)|[??]]; auto.
Qed.

Lemma kinv_fork k m cur child junk v k' :
  kinv (Sys k m) → m !! cur = None → find_task_by_pid child k = None → m !! child = None →
  do_fork cur child junk k = Ok k' v → kinv (Sys k' m).
Proof.
  intros Hi Hm Hc Hmc Hrun. unfold do_fork, current_dkm in Hrun.
  destruct (find_task_by_pid cur k) as [[q parent]|] eqn:Ef;
    [|unfold mbind, M_bind in Hrun; by rewrite Ef in Hrun].
  pose proof (find_task_pid _ _ _ Ef) as [Hin Hq]. cbn in Hq. subst q.
  erewrite bind_Ok in Hrun by (by rewrite Ef). cbn in Hrun. injection Hrun as <- <-.
  apply find_task_None in Hc. set (l := kfresh k).
  assert (∀ t l', t ∈ tasks k → dkm t = Some l' → l' ≠ l) as Hl.
  { intros t l' Ht El ->. pose proof (inv_fresh _ Hi l (inv_valid _ Hi t l Ht El)). cbn in *. lia. }
  pose proof (inv_owner _ Hi) as Hown. cbn in Hown.
  split; cbn.
  - rewrite fmap_app, set_task_dkm_pids. apply NoDup_app. split_and!; [apply Hi| |apply NoDup_singleton].
    by intros p Hp ->%list_elem_of_singleton.
  - intros t l' [(Hp & El)|[[Hp Ht]|Ht]]%forked_task E.
    + rewrite El in E. injection E as <-. rewrite lookup_insert_eq. by eexists.
    + rewrite lookup_insert_ne by (by eapply not_eq_sym, Hl). by eapply (inv_valid _ Hi).
    + subst t. cbn in E. subst parent. rewrite lookup_insert_ne by (by eapply not_eq_sym, Hl).
      by eapply (inv_valid _ Hi _ _ Hin).
  - intros t1 t2 l' H1%forked_task H2%forked_task E1 E2.
    destruct H1 as [(?&?)|[[??]|?]], H2 as [(?&?)|[[??]|?]]; subst; cbn in *; simplify_eq; try done.
    + destruct t1, t2; by simplify_eq/=.
    + by destruct (Hl t2 l).
    + by destruct (Hl _ l Hin).
    + by destruct (Hl t1 l).
    + by eapply Hown.
    + assert (t1 = Task cur (Some l')) as -> by (by eapply Hown). done.
    + by destruct (Hl _ l Hin).
    + assert (t2 = Task cur (Some l')) as -> by (by eapply Hown). done.
  - intros l' Hl'. destruct (decide (l = l')) as [<-|]; [unfold l; lia|].
    rewrite lookup_insert_ne in Hl' by done. apply (inv_fresh _ Hi) in Hl'. cbn in Hl'. lia.
  - intros t l' d [(Hp & El)|[[Hp Ht]|Ht]]%forked_task E Hd.
    + rewrite El in E. injection E as <-. rewrite lookup_insert_eq in Hd. injection Hd as <-.
      unfold at_pc. by rewrite Hp, Hm.
    + rewrite lookup_insert_ne in Hd by (by eapply not_eq_sym, Hl). by eapply (inv_pc _ Hi).
    + subst t. cbn in E. subst parent. rewrite lookup_insert_ne in Hd by (by eapply not_eq_sym, Hl).
      pose proof (inv_pc _ Hi _ _ d Hin eq_refl Hd) as Hp. unfold at_pc in *. cbn in *.
      by rewrite Hm in Hp; rewrite Hmc.
  - intros p pc Hp. destruct (inv_sleep _ Hi p pc Hp) as (Hv & l' & Ho). split; [done|].
    exists l'. unfold owns, find_task_by_pid in *. cbn in *.
    rewrite (find_set_task_dkm cur l (tasks k) p _ k); [done|congruence|].
    unfold find_task_by_pid. cbn. by rewrite Ho.
Qed.

Lemma find_filter cur q ts :
  q ≠ cur → List.find (λ t, Z.eqb (pid t) q) (filter (λ t, pid t ≠ cur) ts) = List.find (λ t, Z.eqb (pid t) q) ts.
Proof.
  intros Hq. induction ts as [|t ts IH]; [done|]. rewrite filter_cons. case_decide; cbn.
  - by rewrite IH.
  - rewrite IH. destruct (Z.eqb_spec (pid t) q); [|done]. destruct H. congruence.
Qed.

Lemma kinv_exit cur k m :
  kinv (Sys k m) → m !! cur = None →
  kinv (Sys (with_tasks (filter (λ t, pid t ≠ cur) (tasks k)) k) m).
Proof.
  intros [H1 H2 H3 H4 H5 H6] Hm. cbn in *. split; cbn.
  - eapply sublist_NoDup; [exact H1|]. apply fmap_sublist, sublist_filter.
  - intros t l [_ Ht]%list_elem_of_filter. eauto.
  - intros t1 t2 l [_ ?]%list_elem_of_filter [_ ?]%list_elem_of_filter. eauto.
  - done.
  - intros t l d [_ Ht]%list_elem_of_filter. eauto.
  - intros p pc Hp. destruct (H6 p pc Hp) as (Hv & l & Ho). split; [done|]. exists l.
    unfold owns, find_task_by_pid in *. cbn. rewrite find_filter; [done|congruence].
Qed.

Lemma kinv_step s s' : kinv s → kstep s s' → kinv s'.
Proof.
  intros Hi Hs. destruct Hs.
  - by eapply kinv_execve.
  - by eapply kinv_resume.
  - by eapply kinv_call.
  - by eapply (kinv_fork k m cur child junk v k').
  - by apply kinv_exit.
Qed.

Lemma kinv_reach s0 s : kinv s0 → kreach s0 s → kinv s.
Proof. intros Hi. induction 1; [done|]. eapply kinv_step; eauto. Qed.

(** * A kernel with the registered ikcd and one other process *)
Definition example_kernel : kernel :=
  Kernel 5 [Task 5 (Some 1%positive); Task 10 (Some 2%positive)]
    {[1%positive := new_dkm; 2%positive := new_dkm]} 3 (lit "here") [].

Lemma example_dkms l :
  dkms example_kernel !! l = if decide (l = 1%positive ∨ l = 2%positive) then Some new_dkm else None.
Proof.
  cbn. case_decide as H; [by destruct H as [->| ->]|].
  rewrite lookup_insert_ne, lookup_singleton_ne; naive_solver.
Qed.

Lemma example_kinv : kinv (Sys example_kernel ∅).
Proof.
  split; cbn [kern pcs tasks example_kernel].
  - by apply (bool_decide_unpack _).
  - intros t l Ht El. rewrite example_dkms. rewrite decide_True; [by eexists|].
    apply elem_of_cons in Ht as [->|Ht%list_elem_of_singleton]; [|subst t]; cbn in El; naive_solver.
  - intros t1 t2 l H1 H2 E1 E2.
    apply elem_of_cons in H1 as [->|H1%list_elem_of_singleton];
      apply elem_of_cons in H2 as [->|H2%list_elem_of_singleton]; subst; cbn in *; naive_solver.
  - intros l. rewrite example_dkms. case_decide as H; [|by intros []]. cbn. intros _. lia.
  - intros t l d _ _. rewrite example_dkms. case_decide; [|done]. by intros [= <-].
  - by intros p pc ?%lookup_empty_Some.
Qed.
