(* ===== verification/DkmctlProps.v ===== *)
(** The exchange between a process in [dkm_execve] and ikcd: the safety of
    [DKM_GET_REQ], the whole protocol of a remote execution, and what goes wrong. *)

From Stdlib Require Import ZArith Lia Strings.Byte.
From stdpp Require Import base list gmap strings.
From S2P Require Import Prelude.
From S2P Require Import Cbuf.
From S2P Require Import Dkmctl.
From S2P Require Import DkmctlInv.

(** * Total runs *)

(** The block holds the string [s]. *)
Definition holds_str (b : option buf) (s : cstr) : Prop := ∃ rest, b = Some (s ++ NUL :: rest).

Lemma runs_kstr b s k (Q : kernel → cstr → Prop) :
  holds_str b s → NUL ∉ s → Q k s → runs (kstr b) k Q.
Proof.
  intros [rest ->] Hs HQ. unfold kstr, runs.
  change (s ++ NUL :: rest) with ([] ++ s ++ NUL :: rest). by rewrite buf_str_app.
Qed.

Lemma runs_kstrcpy m s k (Q : kernel → buf → Prop) :
  length s < length m → (∀ b, holds_str (Some b) s → length b = length m → Q k b) →
  runs (kstrcpy (Some m) s) k Q.
Proof.
  intros Hl HQ. unfold kstrcpy, runs.
  assert (length (s ++ [NUL]) ≤ length m) as Hl' by (rewrite length_app; simpl; lia).
  pose proof (buf_write_next [] m (s ++ [NUL]) 0 eq_refl Hl') as E. cbn [app] in E.
  pose proof (length_buf_write _ _ _ _ E) as El. rewrite E. apply HQ; [|done].
  exists (drop (length (s ++ [NUL])) m). by rewrite <- app_assoc.
Qed.

Lemma runs_kderef k l d (Q : kernel → dkm_struct → Prop) :
  Q (at_dkm k l d) d → runs (kderef (Some l)) (at_dkm k l d) Q.
Proof. intros. eapply runs_eq; [apply kderef_at|done]. Qed.

Lemma runs_kstore k l d g (Q : kernel → unit → Prop) :
  Q (at_dkm k l (g d)) () → runs (kstore (Some l) g) (at_dkm k l d) Q.
Proof. intros. eapply runs_eq; [apply kstore_at|done]. Qed.

Lemma runs_current k l d p l' (Q : kernel → option positive → Prop) :
  owns k p l' → Q (at_dkm k l d) (Some l') → runs (current_dkm p) (at_dkm k l d) Q.
Proof. intros. eapply runs_eq; [by apply current_at|done]. Qed.

Ltac k_run :=
  repeat (lazymatch goal with
  | |- runs (_ ≫= _) _ _ => apply runs_bind
  | |- runs (mret _) _ _ => apply runs_ret
  | |- runs (gets _) _ _ => apply runs_gets
  | |- runs (kderef (Some _)) (at_dkm _ _ _) _ => apply runs_kderef
  | |- runs (kstore (Some _) _) (at_dkm _ _ _) _ => apply runs_kstore
  | |- runs (current_dkm _) (at_dkm _ _ _) _ => apply (runs_current _ _ _ _ _ _ ltac:(eassumption))
  end; cbn beta iota).

(** * The steps of a request *)

(** The registered ikcd exists and is another process. *)
Definition served (k : kernel) (cur : Z) : Prop :=
  (0 < dkm_ikcd_pid k)%Z ∧ cur ≠ dkm_ikcd_pid k ∧ is_Some (find_task_by_pid (dkm_ikcd_pid k) k).

(** [d] asks ikcd for a service and has not been taken. *)
Definition asks (rq : Z) (d : dkm_struct) : Prop :=
  pending_req d = 1%Z ∧ req_state d = REQ_IN_DO_REQ ∧ req d = rq.

(** The names of a process that executes [fn]; the remote node is 65 bytes of something. *)
Definition names (fn on : cstr) (d : dkm_struct) : Prop :=
  holds_str (file_name d) fn ∧ holds_str (o_node d) on ∧
  ∃ r, r_node d = Some r ∧ length r = Z.to_nat NODE_LEN.

Lemma do_req_runs cur a k l d :
  owns k cur l → served k cur → (DKM_MIN_REQ ≤ req d ≤ DKM_MAX_REQ)%Z →
  runs (dkm_do_req cur a) (at_dkm k l d) (λ k' c,
    c = Sleep ∧ k' = at_dkm (signalled cur k) l (set_state REQ_IN_DO_REQ (set_pending 1 d))).
Proof.
  intros Ho (Hpos & Hne & [t Ht]) Hr. unfold dkm_do_req. k_run.
  change (dkm_ikcd_pid (at_dkm k l d)) with (dkm_ikcd_pid k).
  rewrite decide_False by done. k_run. rewrite decide_False by lia. rewrite decide_True by lia.
  k_run. change (find_task_by_pid (dkm_ikcd_pid k) (at_dkm k l d)) with (find_task_by_pid (dkm_ikcd_pid k) k).
  rewrite Ht. k_run. eapply runs_eq; [apply send_at|]. unfold dkm_do_req_wait.
  assert (owns (signalled cur k) cur l) by done. k_run. rewrite decide_True by done. by k_run.
Qed.

Lemma execve_runs cur jf jr jo fn k l d :
  owns k cur l → served k cur → length jf = S (length fn) →
  length jr = Z.to_nat NODE_LEN → length jo = Z.to_nat NODE_LEN →
  length (nodename k) < Z.to_nat NODE_LEN →
  runs (dkm_execve cur jf jr jo fn) (at_dkm k l d) (λ k' pc,
    pc = InMap ∧ ∃ d', k' = at_dkm (signalled cur k) l d' ∧ asks MAP_REQ d' ∧ names fn (nodename k) d').
Proof.
  intros Ho Hs Hf Hr Hj Hn. pose proof Hs as (Hpos & Hne & _). unfold dkm_execve. k_run.
  change (dkm_ikcd_pid (at_dkm k l d)) with (dkm_ikcd_pid k).
  rewrite decide_False by lia. k_run. apply runs_kstrcpy; [lia|]. intros f Hfn _. k_run.
  apply runs_kstrcpy; [cbn; lia|]. intros o Hon _. k_run.
  rewrite decide_False by lia. k_run. rewrite do_dkmctl_do_req.
  eapply runs_mono; [apply do_req_runs; [done|done|cbn; unfold MAP_REQ, DKM_MIN_REQ, DKM_MAX_REQ; lia]|].
  intros k' c [-> ->]. k_run. split; [done|]. eexists. split; [reflexivity|].
  split; [done|]. split_and!; [done|done|]. by exists jr.
Qed.

Lemma get_req_call ikcd p rq a : sys_dkmctl ikcd DKM_GET_REQ p rq a = dkm_get_req a.
Proof. done. Qed.
Lemma get_args_call ikcd p rq a : sys_dkmctl ikcd DKM_GET_ARGS p rq a = dkm_get_args p rq a.
Proof. done. Qed.
Lemma put_resp_call ikcd p rq a : sys_dkmctl ikcd DKM_PUT_RESP p rq a = dkm_put_resp p rq a.
Proof. done. Qed.

(** [DKM_GET_ARGS] copies the names to the buffers of ikcd. *)
Lemma get_args_map_runs ikcd p k l d fn on ub u :
  owns k p l → req d = MAP_REQ → names fn on d → NUL ∉ fn → length fn < length ub →
  runs (sys_dkmctl ikcd DKM_GET_ARGS p MAP_REQ (Argv (UBuf ub) u)) (at_dkm k l d) (λ k' c,
    k' = at_dkm k l d ∧ ∃ b, c = Return 0 (Argv (UBuf b) u) ∧ holds_str (Some b) fn).
Proof.
  intros Ho Hr (Hf & _) Hnf Hl. rewrite get_args_call.
  unfold dkm_get_args. k_run.
  change (find_task_by_pid p (at_dkm k l d)) with (find_task_by_pid p k). rewrite Ho. cbn [dkm]. k_run.
  rewrite decide_False by (intros []; done). rewrite decide_True by done. k_run.
  eapply runs_kstr; [exact Hf|done|]. k_run. apply runs_kstrcpy; [done|]. intros b Hb _. k_run.
  split; [done|]. by exists b.
Qed.

(** The remote node is known, as [DKM_PUT_RESP] leaves it. *)
Definition located (fn on rn : cstr) (d : dkm_struct) : Prop :=
  holds_str (file_name d) fn ∧ holds_str (o_node d) on ∧ holds_str (r_node d) rn.

Lemma get_args_creat_runs ikcd p k l d fn on rn ub vb :
  owns k p l → req d = PROC_CREAT_REQ → located fn on rn d → NUL ∉ fn → NUL ∉ rn →
  length rn < length ub → length fn < length vb →
  runs (sys_dkmctl ikcd DKM_GET_ARGS p PROC_CREAT_REQ (Argv (UBuf ub) (UBuf vb))) (at_dkm k l d) (λ k' c,
    k' = at_dkm k l d ∧
    ∃ b b', c = Return 0 (Argv (UBuf b) (UBuf b')) ∧ holds_str (Some b) rn ∧ holds_str (Some b') fn).
Proof.
  intros Ho Hr (Hf & _ & Hrn) Hnf Hnr Hl Hl'. rewrite get_args_call. unfold dkm_get_args. k_run.
  change (find_task_by_pid p (at_dkm k l d)) with (find_task_by_pid p k). rewrite Ho. cbn [dkm]. k_run.
  rewrite decide_False by (intros []; done). rewrite decide_False by done. rewrite decide_True by done.
  k_run. eapply runs_kstr; [exact Hrn|done|]. k_run. apply runs_kstrcpy; [done|]. intros b Hb _. k_run.
  eapply runs_kstr; [exact Hf|done|]. k_run. apply runs_kstrcpy; [done|]. intros b' Hb' _. k_run.
  split; [done|]. by exists b, b'.
Qed.

(** The answers finish the request. *)
Lemma put_resp_map_runs ikcd p k l d fn on rn nb u :
  owns k p l → req d = MAP_REQ → names fn on d → NUL ∉ rn → length rn < Z.to_nat NODE_LEN →
  holds_str (Some nb) rn →
  runs (sys_dkmctl ikcd DKM_PUT_RESP p MAP_REQ (Argv (UBuf nb) u)) (at_dkm k l d) (λ k' c,
    c = Return 0 (Argv (UBuf nb) u) ∧ ∃ d', k' = at_dkm k l d' ∧ located fn on rn d' ∧
    req d' = MAP_REQ ∧ pending_req d' = 0%Z).
Proof.
  intros Ho Hr (Hf & Hon & r & Er & Hlr) Hnr Hl Hnb. rewrite put_resp_call. unfold dkm_put_resp. k_run.
  change (find_task_by_pid p (at_dkm k l d)) with (find_task_by_pid p k). rewrite Ho. cbn [dkm]. k_run.
  rewrite decide_False by (intros []; done). rewrite decide_True by done.
  k_run. eapply runs_kstr; [exact Hnb|done|]. k_run. rewrite Er. apply runs_kstrcpy; [lia|].
  intros b Hb _. k_run. split; [done|]. eexists. split; [reflexivity|]. by split_and!.
Qed.

Lemma put_resp_creat_runs ikcd p k l d z u :
  owns k p l → req d = PROC_CREAT_REQ →
  runs (sys_dkmctl ikcd DKM_PUT_RESP p PROC_CREAT_REQ (Argv (UInt z) u)) (at_dkm k l d) (λ k' c,
    c = Return 0 (Argv (UInt z) u) ∧
    k' = at_dkm k l (set_state REQ_NOT_IN_PROGRESS (set_pending 0 (set_r_pid z d)))).
Proof.
  intros Ho Hr. rewrite put_resp_call. unfold dkm_put_resp. k_run.
  change (find_task_by_pid p (at_dkm k l d)) with (find_task_by_pid p k). rewrite Ho. cbn [dkm]. k_run.
  rewrite decide_False by (intros []; done). rewrite decide_False by done. rewrite decide_True by done.
  cbn [arg0]. by k_run.
Qed.

(** The process goes on: it runs here, or asks for a process on the other node. *)
Lemma resume_map_runs cur k l d fn on rn :
  owns k cur l → served k cur → located fn on rn d → NUL ∉ on → NUL ∉ rn → pending_req d = 0%Z →
  runs (dkm_resume cur InMap) (at_dkm k l d) (λ k' pc, ∃ k0 d', same_but k k0 ∧ k' = at_dkm k0 l d' ∧
    located fn on rn d' ∧ distributed d' = 1%Z ∧
    if decide (rn = on) then pc = Returned 0 ∧ req d' = DKM_NOP
    else pc = InCreat ∧ asks PROC_CREAT_REQ d' ∧ sigusr2 k0 = cur :: sigusr2 k).
Proof.
  intros Ho Hs Hloc Hno Hnr Hp. pose proof Hloc as (Hf & Hon & Hrn).
  unfold dkm_resume, dkm_do_req_wait. k_run. rewrite decide_False by (intros []; done). k_run.
  unfold execve_after_map. k_run. rewrite decide_False by lia. k_run.
  eapply runs_kstr; [exact Hrn|done|]. k_run. eapply runs_kstr; [exact Hon|done|].
  destruct (decide (rn = on)) as [->|Hne].
  - rewrite decide_False by (intros []; done). k_run. eexists k, _. by split_and!.
  - rewrite decide_True by done. k_run. rewrite do_dkmctl_do_req.
    eapply runs_mono; [apply do_req_runs; [done|done|cbn; unfold PROC_CREAT_REQ, DKM_MIN_REQ, DKM_MAX_REQ; lia]|].
    intros k' c [-> ->]. k_run. eexists (signalled cur k), _. by split_and!.
Qed.

Lemma resume_creat_runs cur k l d :
  owns k cur l → pending_req d = 0%Z →
  runs (dkm_resume cur InCreat) (at_dkm k l d) (λ k' pc,
    pc = Returned 0 ∧ k' = at_dkm k l (set_req DKM_NOP d)).
Proof.
  intros Ho Hp. unfold dkm_resume, dkm_do_req_wait. k_run.
  rewrite decide_False by (intros []; done). k_run. unfold execve_after_creat. by k_run.
Qed.

(** A process whose request is not finished goes back to sleep. *)
Lemma resume_sleeps cur pc k l d :
  owns k cur l → pending_req d ≠ 0%Z →
  runs (dkm_resume cur pc) (at_dkm k l d) (λ k' pc', k' = at_dkm k l d ∧ pc' = pc).
Proof.
  intros Ho Hp. unfold dkm_resume, dkm_do_req_wait.
  destruct pc; k_run; rewrite ?decide_True by done; k_run; done.
Qed.

(** No other task waits to be taken. *)
Definition idle_others (k : kernel) (l : positive) : Prop :=
  ∀ p l' d, l' ≠ l → owns k p l' → dkms k !! l' = Some d → wants_service d = false.

Lemma asks_wants rq d :
  asks rq d → (DKM_MIN_REQ ≤ rq ≤ DKM_MAX_REQ)%Z → wants_service d = true.
Proof. intros (Hp & Hs & Hr) ?. unfold wants_service. apply bool_decide_eq_true. by rewrite Hr. Qed.

Lemma get_req_only ikcd a k l d m cur rq :
  kinv (Sys (at_dkm k l d) m) → owns k cur l → asks rq d → (DKM_MIN_REQ ≤ rq ≤ DKM_MAX_REQ)%Z →
  idle_others k l →
  runs (sys_dkmctl ikcd DKM_GET_REQ 0 0 a) (at_dkm k l d) (λ k' c,
    k' = at_dkm k l (set_state REQ_IN_GET_REQ d) ∧ c = Return 0 (Argv (UInt cur) (UInt rq))).
Proof.
  intros Hi Ho Ha Hr Hoth. rewrite get_req_call. pose proof (asks_wants _ _ Ha Hr) as Hw.
  destruct (get_req_spec _ _ a Hi) as [[_ Hn]|(p & l' & d' & Ho' & Hd' & Hw' & E)].
  - by rewrite (Hn cur l d) in Hw by (done || apply at_dkm_dkm).
  - destruct (decide (l' = l)) as [->|Hne].
    + rewrite at_dkm_dkm in Hd'. injection Hd' as <-.
      assert (Task p (Some l) = Task cur (Some l)) as [= ->].
      { eapply (inv_owner _ Hi); [by apply (owns_in (at_dkm k l d))|by apply (owns_in k)|done|done]. }
      eapply runs_eq; [exact E|]. split; [|by destruct Ha as (_ & _ & ->)].
      unfold at_dkm, with_dkms. cbn. by rewrite insert_insert_eq.
    + rewrite at_dkm_ne in Hd' by done. by rewrite (Hoth p l' d') in Hw'.
Qed.

(** * Properties *)

Section Exchange.
Context (k : kernel) (m : gmap Z exec_pc) (cur : Z) (l : positive) (ikcd : Z).
Context (filename node : cstr).
Context (Hinv : kinv (Sys k m)) (Howns : owns k cur l) (Hserved : served k cur).
Context (Hidle : idle_others k l).
Context (Hfn : NUL ∉ filename) (Hnn : NUL ∉ node).

(** a process that executes a file while ikcd is registered signals ikcd and sleeps;
    [DKM_GET_REQ] reports it with a map request, [DKM_GET_ARGS] gives the file name,
    [DKM_PUT_RESP] stores the node, and the process goes on: it returns if the node is
    its own and otherwise sleeps in a process creation request. *)
Theorem dkm_map_exchange jf jr jo ub nb :
  m !! cur = None → NUL ∉ nodename k → length (nodename k) < Z.to_nat NODE_LEN →
  length jf = S (length filename) → length jr = Z.to_nat NODE_LEN → length jo = Z.to_nat NODE_LEN →
  length filename < length ub → length node < Z.to_nat NODE_LEN → holds_str (Some nb) node →
  ∃ k1 k2 b k3 k4 d, dkm_execve cur jf jr jo filename k = Ok k1 InMap ∧
    sigusr2 k1 = cur :: sigusr2 k ∧
    sys_dkmctl ikcd DKM_GET_REQ 0 0 no_argv k1 = Ok k2 (Return 0 (Argv (UInt cur) (UInt MAP_REQ))) ∧
    sys_dkmctl ikcd DKM_GET_ARGS cur MAP_REQ (Argv (UBuf ub) UNone) k2 = Ok k2 (Return 0 (Argv (UBuf b) UNone)) ∧
    holds_str (Some b) filename ∧
    sys_dkmctl ikcd DKM_PUT_RESP cur MAP_REQ (Argv (UBuf nb) UNone) k2 = Ok k3 (Return 0 (Argv (UBuf nb) UNone)) ∧
    dkm_resume cur InMap k3 = Ok k4 (if decide (node = nodename k) then Returned 0 else InCreat) ∧
    dkms k4 !! l = Some d ∧ distributed d = 1%Z ∧ located filename (nodename k) node d ∧
    (if decide (node = nodename k) then req d = DKM_NOP else asks PROC_CREAT_REQ d).
Proof.
  intros Hm Hnk Hln Hjf Hjr Hjo Hub Hnode Hnb.
  destruct (inv_valid _ Hinv _ l (owns_in _ _ _ Howns) eq_refl) as [d0 Hd0]. cbn in Hd0.
  pose proof (execve_runs cur jf jr jo filename k l d0 Howns Hserved Hjf Hjr Hjo Hln) as H1.
  rewrite (at_dkm_id k l d0 Hd0) in H1.
  destruct (runs_inv _ _ _ H1) as (? & ? & E1 & -> & d1 & -> & Ha & Hnames).
  set (k0 := signalled cur k) in *.
  assert (kinv (Sys (at_dkm k0 l d1) (<[cur := InMap]> m))) as Hi1 by (by eapply kinv_execve in E1).
  destruct (runs_inv _ _ _ (get_req_only ikcd no_argv k0 l d1 _ cur MAP_REQ Hi1 Howns Ha ltac:(done) Hidle))
    as (? & ? & E2 & -> & ->).
  set (d2 := set_state REQ_IN_GET_REQ d1) in *.
  assert (req d2 = MAP_REQ) as Hr2 by apply Ha.
  destruct (runs_inv _ _ _ (get_args_map_runs ikcd cur k0 l d2 _ _ ub UNone Howns Hr2 Hnames Hfn Hub))
    as (? & ? & E3 & -> & b & -> & Hb).
  destruct (runs_inv _ _ _ (put_resp_map_runs ikcd cur k0 l d2 _ _ node nb UNone Howns Hr2 Hnames Hnn Hnode Hnb))
    as (? & ? & E4 & -> & d3 & -> & Hloc & _ & Hp).
  destruct (runs_inv _ _ _ (resume_map_runs cur k0 l d3 _ _ _ Howns Hserved Hloc Hnk Hnn Hp))
    as (? & ? & E5 & k5 & d4 & _ & -> & Hloc' & Hdist & Hend).
  exists (at_dkm k0 l d1), (at_dkm k0 l d2), b, (at_dkm k0 l d3), (at_dkm k5 l d4), d4.
  split_and!; try done; rewrite ?at_dkm_dkm; case_decide; destruct Hend as [-> ?]; try done; naive_solver.
Qed.

(** the process creation request of a sleeping process is reported once to ikcd with
    the node and the file name, and its answer wakes the process, which returns with the
    remote pid. *)
Theorem dkm_creat_exchange d ub vb z :
  m !! cur = Some InCreat → dkms k !! l = Some d → asks PROC_CREAT_REQ d →
  located filename (nodename k) node d → length node < length ub → length filename < length vb →
  ∃ k2 b b' k3 k4 d', sys_dkmctl ikcd DKM_GET_REQ 0 0 no_argv k = Ok k2 (Return 0 (Argv (UInt cur) (UInt PROC_CREAT_REQ))) ∧
    sys_dkmctl ikcd DKM_GET_ARGS cur PROC_CREAT_REQ (Argv (UBuf ub) (UBuf vb)) k2 =
      Ok k2 (Return 0 (Argv (UBuf b) (UBuf b'))) ∧
    holds_str (Some b) node ∧ holds_str (Some b') filename ∧
    sys_dkmctl ikcd DKM_PUT_RESP cur PROC_CREAT_REQ (Argv (UInt z) UNone) k2 = Ok k3 (Return 0 (Argv (UInt z) UNone)) ∧
    dkm_resume cur InCreat k2 = Ok k2 InCreat ∧
    dkm_resume cur InCreat k3 = Ok k4 (Returned 0) ∧
    dkms k4 !! l = Some d' ∧ r_pid d' = z ∧ req d' = DKM_NOP ∧ pending_req d' = 0%Z.
Proof.
  intros Hm Hd Ha Hloc Hub Hvb. pose proof Hinv as Hi. rewrite <- (at_dkm_id k l d Hd) in Hi.
  destruct (runs_inv _ _ _ (get_req_only ikcd no_argv k l d _ cur PROC_CREAT_REQ Hi Howns Ha ltac:(done) Hidle))
    as (? & ? & E2 & -> & ->).
  set (d2 := set_state REQ_IN_GET_REQ d) in *. pose proof Ha as (Hp & _ & Hr).
  destruct (runs_inv _ _ _ (get_args_creat_runs ikcd cur k l d2 _ _ _ ub vb Howns Hr Hloc Hfn Hnn Hub Hvb))
    as (? & ? & E3 & -> & b & b' & -> & Hb & Hb').
  destruct (runs_inv _ _ _ (put_resp_creat_runs ikcd cur k l d2 z UNone Howns Hr)) as (? & ? & E4 & -> & ->).
  match type of E4 with _ = Ok (at_dkm _ _ ?d3) _ =>
    destruct (runs_inv _ _ _ (resume_creat_runs cur k l d3 Howns eq_refl)) as (? & ? & E5 & -> & ->) end.
  rewrite (at_dkm_id k l d Hd) in E2.
  assert (dkm_resume cur InCreat (at_dkm k l d2) = Ok (at_dkm k l d2) InCreat) as Es.
  { destruct (runs_inv _ _ _ (resume_sleeps cur InCreat k l d2 Howns ltac:(cbn; lia))) as (? & ? & -> & -> & ->).
    done. }
  do 6 eexists. split_and!; [exact E2|exact E3|done|done|exact E4|exact Es|exact E5|apply at_dkm_dkm|done..].
Qed.
End Exchange.

Lemma example_owns : owns example_kernel 10 2.
Proof. done. Qed.

Lemma example_served : served example_kernel 10.
Proof. split; [done|]. split; [done|]. by eexists. Qed.

Lemma example_idle k l : (∀ l d, dkms k !! l = Some d → wants_service d = false) → idle_others k l.
Proof. intros H p l' d _ _. apply H. Qed.

Lemma example_idle_10 : idle_others example_kernel 2.
Proof. apply example_idle. intros l d. rewrite example_dkms. case_decide; [|done]. by intros [= <-]. Qed.

Definition zeros (n : nat) : buf := replicate n NUL.

Lemma dkm_map_exchange_witness :
  ∃ k1 k2 b k3 k4 d,
    dkm_execve 10 (zeros 8) (zeros 65) (zeros 65) (lit "/bin/ls") example_kernel = Ok k1 InMap ∧
    sigusr2 k1 = [10%Z] ∧
    sys_dkmctl 5 DKM_GET_REQ 0 0 no_argv k1 = Ok k2 (Return 0 (Argv (UInt 10) (UInt MAP_REQ))) ∧
    sys_dkmctl 5 DKM_GET_ARGS 10 MAP_REQ (Argv (UBuf (zeros 16)) UNone) k2 = Ok k2 (Return 0 (Argv (UBuf b) UNone)) ∧
    holds_str (Some b) (lit "/bin/ls") ∧
    sys_dkmctl 5 DKM_PUT_RESP 10 MAP_REQ (Argv (UBuf (lit "far" ++ [NUL])) UNone) k2 =
      Ok k3 (Return 0 (Argv (UBuf (lit "far" ++ [NUL])) UNone)) ∧
    dkm_resume 10 InMap k3 = Ok k4 InCreat ∧
    dkms k4 !! 2%positive = Some d ∧ distributed d = 1%Z ∧
    located (lit "/bin/ls") (lit "here") (lit "far") d ∧ asks PROC_CREAT_REQ d.
Proof.
  exact (dkm_map_exchange example_kernel ∅ 10 2 5 (lit "/bin/ls") (lit "far") example_kinv example_owns
    example_served example_idle_10 ltac:(by apply (bool_decide_unpack _)) ltac:(by apply (bool_decide_unpack _))
    (zeros 8) (zeros 65) (zeros 65) (zeros 16) (lit "far" ++ [NUL]) eq_refl
    ltac:(by apply (bool_decide_unpack _)) ltac:(vm_compute; lia) eq_refl eq_refl eq_refl
    ltac:(vm_compute; lia) ltac:(vm_compute; lia) ltac:(by exists [])).
Defined.

(** The process sleeps in a process creation request. *)
Definition sleeping_dkm : dkm_struct :=
  Dkm 1 1 REQ_IN_DO_REQ PROC_CREAT_REQ 0 (Some (lit "/bin/ls" ++ [NUL]))
    (Some (lit "here" ++ [NUL])) (Some (lit "far" ++ [NUL])).
Definition sleeping_kernel : kernel := at_dkm example_kernel 2 sleeping_dkm.

Lemma sleeping_kinv : kinv (Sys sleeping_kernel {[10%Z := InCreat]}).
Proof.
  apply (kinv_focus example_kernel ∅ 10 2 InCreat); [apply example_kinv|done|done| |done].
  split; [done|]. left. split; [done|by left].
Qed.

Lemma sleeping_idle : idle_others sleeping_kernel 2.
Proof.
  intros p l d Hl _. unfold sleeping_kernel. rewrite at_dkm_ne by done. rewrite example_dkms.
  case_decide; [|done]. by intros [= <-].
Qed.

Lemma dkm_creat_exchange_witness :
  ∃ k2 b b' k3 k4 d',
    sys_dkmctl 5 DKM_GET_REQ 0 0 no_argv sleeping_kernel = Ok k2 (Return 0 (Argv (UInt 10) (UInt PROC_CREAT_REQ))) ∧
    sys_dkmctl 5 DKM_GET_ARGS 10 PROC_CREAT_REQ (Argv (UBuf (zeros 8)) (UBuf (zeros 16))) k2 =
      Ok k2 (Return 0 (Argv (UBuf b) (UBuf b'))) ∧
    holds_str (Some b) (lit "far") ∧ holds_str (Some b') (lit "/bin/ls") ∧
    sys_dkmctl 5 DKM_PUT_RESP 10 PROC_CREAT_REQ (Argv (UInt 76) UNone) k2 = Ok k3 (Return 0 (Argv (UInt 76) UNone)) ∧
    dkm_resume 10 InCreat k2 = Ok k2 InCreat ∧
    dkm_resume 10 InCreat k3 = Ok k4 (Returned 0) ∧
    dkms k4 !! 2%positive = Some d' ∧ r_pid d' = 76%Z ∧ req d' = DKM_NOP ∧ pending_req d' = 0%Z.
Proof.
  exact (dkm_creat_exchange sleeping_kernel {[10%Z := InCreat]} 10 2 5 (lit "/bin/ls") (lit "far")
    sleeping_kinv eq_refl sleeping_idle ltac:(by apply (bool_decide_unpack _))
    ltac:(by apply (bool_decide_unpack _)) sleeping_dkm (zeros 8) (zeros 16) 76
    eq_refl eq_refl ltac:(done) ltac:(split_and!; by exists []) ltac:(vm_compute; lia) ltac:(vm_compute; lia)).
Defined.

(** ** All requests are fetched *)

(** The request a task waits for, if its [dkm_struct] is in [ds]. *)
Definition wanted (ds : gmap positive dkm_struct) (t : task_struct) : option (Z * Z) :=
  d ← dkm t ≫= (ds !!.); if wants_service d then Some (pid t, req d) else None.

(** What [DKM_GET_REQ] would report, in the order of the task list. *)
Definition pending (k : kernel) : list (Z * Z) :=
  omap (wanted (dkms k)) (tasks k).

(** The calls of [DKM_GET_REQ] until one returns 1. *)
Fixpoint get_reqs (fuel : nat) (ikcd : Z) : M kernel (list (Z * Z)) :=
  match fuel with
  | 0 => stop OutOfFuel
  | S fuel =>
    c ← sys_dkmctl ikcd DKM_GET_REQ 0 0 no_argv;
    match c with
    | Return 0 (Argv (UInt p) (UInt r)) => rs ← get_reqs fuel ikcd; mret ((p, r) :: rs)
    | _ => mret []
    end
  end.

Lemma find_split {A} (P : A → bool) l :
  match List.find P l with
  | Some x => ∃ l1 l2, l = l1 ++ x :: l2 ∧ P x = true ∧ ∀ y, y ∈ l1 → P y = false
  | None => ∀ y, y ∈ l → P y = false
  end.
Proof.
  induction l as [|x l IH]; simpl; [by intros y ?%elem_of_nil|].
  destruct (P x) eqn:E.
  - exists [], l. split_and!; [done..|]. by intros y ?%elem_of_nil.
  - destruct (List.find P l).
    + destruct IH as (l1 & l2 & -> & ? & Hl). exists (x :: l1), l2. split_and!; [done..|].
      intros y [->|?]%elem_of_cons; auto.
    + intros y [->|?]%elem_of_cons; auto.
Qed.

Lemma omap_nil {A B} (f : A → option B) (l : list A) : (∀ x, x ∈ l → f x = None) → omap f l = [].
Proof.
  induction l as [|x l IH]; intros Hf; [done|]. cbn. rewrite Hf by by left. apply IH. intros. apply Hf. by right.
Qed.

Lemma omap_same {A B} (f g : A → option B) (l : list A) : (∀ x, x ∈ l → f x = g x) → omap f l = omap g l.
Proof.
  induction l as [|x l IH]; intros Hf; [done|]. cbn. rewrite Hf by by left.
  assert (omap f l = omap g l) as E by (apply IH; intros; apply Hf; by right).
  change (list_omap _ _ f l) with (omap f l). by rewrite E.
Qed.

(** A task that is served drops out of the list; the others stay as they are. *)
Lemma pending_served k m l d t ts1 ts2 :
  kinv (Sys k m) → tasks k = ts1 ++ t :: ts2 → dkm t = Some l → dkms k !! l = Some d →
  omap (wanted (dkms k)) ts1 = [] → wants_service d = true →
  pending k = (pid t, req d) :: pending (at_dkm k l (set_state REQ_IN_GET_REQ d)).
Proof.
  intros Hi Ets El Hd E1 HP. unfold pending. set (k' := at_dkm k l (set_state REQ_IN_GET_REQ d)).
  change (tasks k') with (tasks k).
  pose proof (NoDup_fmap_1 _ _ (inv_pids _ Hi)) as Hnd. cbn in Hnd. rewrite Ets in Hnd.
  apply NoDup_app in Hnd as (_ & Hd1 & [Hd2 _]%NoDup_cons).
  assert (∀ t', t' ∈ ts1 ++ ts2 → wanted (dkms k') t' = wanted (dkms k) t') as Hsame.
  { intros t' Ht'. unfold wanted. destruct (dkm t') as [l'|] eqn:El'; [|done]. cbn.
    rewrite lookup_insert_ne; [done|]. intros <-.
    assert (t' = t) as ->.
    { eapply (inv_owner _ Hi); [| |exact El'|exact El]; cbn; rewrite Ets; set_solver. }
    apply elem_of_app in Ht' as [Ht'|Ht']; [|done]. apply (Hd1 t Ht'). by left. }
  rewrite Ets, !omap_app, E1. cbn [app omap list_omap].
  assert (omap (wanted (dkms k')) ts1 = []) as ->.
  { rewrite <- E1. apply omap_same. intros. apply Hsame. set_solver. }
  assert (wanted (dkms k) t = Some (pid t, req d)) as ->
    by (unfold wanted; rewrite El; cbn; rewrite Hd; cbn; by rewrite HP).
  assert (wanted (dkms k') t = None) as ->.
  { unfold wanted. rewrite El. cbn. rewrite lookup_insert_eq. cbn.
    destruct (wants_service (set_state REQ_IN_GET_REQ d)) eqn:Ew; [|done].
    apply bool_decide_eq_true in Ew as (_ & Hst & _). done. }
  cbn [app]. f_equal. apply omap_same. intros. symmetry. apply Hsame. set_solver.
Qed.

(** One call takes the first of them. *)
Lemma get_req_pending k m a :
  kinv (Sys k m) →
  match pending k with
  | [] => dkm_get_req a k = Ok k (Return 1 (Argv (UInt (-1)) (UInt (-1))))
  | (p, r) :: rest => ∃ k', dkm_get_req a k = Ok k' (Return 0 (Argv (UInt p) (UInt r))) ∧
      pending k' = rest ∧ kinv (Sys k' m)
  end.
Proof.
  intros Hi. set (P := λ t, match dkm t ≫= (dkms k !!.) with Some d => wants_service d | None => false end).
  pose proof (find_split P (tasks k)) as Hs.
  assert (dkm_get_req a k = match List.find P (tasks k) with
    | Some t => (d ← kderef (dkm t); _ ← kstore (dkm t) (set_state REQ_IN_GET_REQ);
                 mret (Return 0 (Argv (UInt (pid t)) (UInt (req d))))) k
    | None => Ok k (Return 1 (Argv (UInt (-1)) (UInt (-1)))) end) as E.
  { unfold dkm_get_req. erewrite bind_Ok by reflexivity.
    erewrite bind_Ok by (apply get_req_loop_spec, (inv_valid _ Hi)). fold P. by destruct (List.find P (tasks k)). }
  assert (∀ t, P t = false → wanted (dkms k) t = None) as Hf.
  { intros t. unfold P, wanted. destruct (dkm t ≫= _) as [d|]; [|done]. cbn. by intros ->. }
  destruct (List.find P (tasks k)) as [t|].
  - destruct Hs as (ts1 & ts2 & Ets & HP & Hn). unfold P in HP.
    destruct (dkm t) as [l|] eqn:El; [|done]. cbn in HP.
    destruct (dkms k !! l) as [d|] eqn:Hd; [|done].
    rewrite (pending_served k m l d t ts1 ts2) by (done || apply omap_nil; auto).
    rewrite <- (at_dkm_id k l d Hd) in E at 2. unfold mbind, M_bind in E.
    rewrite kderef_at, kstore_at in E.
    eexists. split; [exact E|]. split; [done|]. by eapply kinv_get_req in E.
  - unfold pending. by rewrite omap_nil by auto.
Qed.

(** C22: the calls of [DKM_GET_REQ] that ikcd makes after a signal report every waiting
    request exactly once, in the order of the task list, and then one returns 1. *)
Theorem dkm_get_req_drains k m ikcd n :
  kinv (Sys k m) → length (pending k) < n →
  ∃ k', get_reqs n ikcd k = Ok k' (pending k) ∧ pending k' = [] ∧
    sys_dkmctl ikcd DKM_GET_REQ 0 0 no_argv k' = Ok k' (Return 1 (Argv (UInt (-1)) (UInt (-1)))).
Proof.
  revert k. induction n as [|n IH]; intros k Hi Hn; [lia|].
  pose proof (get_req_pending k m no_argv Hi) as Hp. cbn [get_reqs].
  destruct (pending k) as [|[p r] rest] eqn:E.
  - exists k. split; [|done]. by erewrite bind_Ok by exact Hp.
  - destruct Hp as (k1 & E1 & Hrest & Hi1). cbn in Hn.
    destruct (IH k1 Hi1) as (k' & E2 & ? & ?); [rewrite Hrest; lia|].
    exists k'. split; [|done]. rewrite Hrest in E2.
    erewrite bind_Ok by exact E1. cbn beta iota. by erewrite bind_Ok by exact E2.
Qed.

Lemma dkm_get_req_drains_witness :
  ∃ k', get_reqs 2 5 sleeping_kernel = Ok k' [(10, 10)%Z] ∧ pending k' = [] ∧
    sys_dkmctl 5 DKM_GET_REQ 0 0 no_argv k' = Ok k' (Return 1 (Argv (UInt (-1)) (UInt (-1)))).
Proof. exact (dkm_get_req_drains sleeping_kernel _ 5 2 sleeping_kinv (le_n 2)). Defined.
