(* ===== verification/DkmctlSafety.v ===== *)
(** What holds of the kernel in every reachable state, what [do_fork] does to the
    [dkm_struct]s, and the errors of the system call. *)

From Stdlib Require Import ZArith Lia Strings.Byte.
From stdpp Require Import base list gmap strings.
From S2P Require Import Prelude.
From S2P Require Import Cbuf.
From S2P Require Import Dkmctl.
From S2P Require Import DkmctlInv.
From S2P Require Import DkmctlProps.

(** C20: in every reachable state the pids are distinct, no two tasks share a
    [dkm_struct], none points to memory that is not allocated, and a task has a request
    exactly while its process sleeps in [dkm_execve], of the type that it waits for. *)
Theorem dkm_invariant s0 s :
  kinv s0 → kreach s0 s →
  NoDup (pid <$> tasks (kern s)) ∧
  (∀ t1 t2 l, t1 ∈ tasks (kern s) → t2 ∈ tasks (kern s) → dkm t1 = Some l → dkm t2 = Some l → t1 = t2) ∧
  (∀ t l, t ∈ tasks (kern s) → dkm t = Some l → ∃ d, dkms (kern s) !! l = Some d ∧
    match pcs s !! pid t with
    | Some InMap => req d = MAP_REQ ∧ waiting d
    | Some InCreat => req d = PROC_CREAT_REQ ∧ waiting d
    | _ => req d = DKM_NOP
    end).
Proof.
  intros Hi Hr. pose proof (kinv_reach _ _ Hi Hr) as Hs.
  split_and!; [apply Hs|apply Hs|]. intros t l Ht El.
  destruct (inv_valid _ Hs t l Ht El) as [d Hd]. exists d. split; [done|].
  pose proof (inv_pc _ Hs t l d Ht El Hd) as Hp. unfold at_pc in Hp.
  by destruct (pcs s !! pid t) as [[]|].
Qed.

(** A run from the example kernel: a fork, and [dkm_execve] of the child's parent. *)
Definition example_system : sys := Sys example_kernel ∅.

Definition after_fork : kernel :=
  match do_fork 10 11 0 example_kernel with Ok k _ => k | Stop _ => example_kernel end.

Lemma after_fork_reach : kreach example_system (Sys after_fork ∅).
Proof.
  eapply kreach_step; [apply kreach_refl|]. by apply (k_fork 10 11 0 11).
Qed.

Lemma dkm_invariant_witness :
  NoDup (pid <$> tasks after_fork) ∧
  (∀ t1 t2 l, t1 ∈ tasks after_fork → t2 ∈ tasks after_fork → dkm t1 = Some l → dkm t2 = Some l → t1 = t2) ∧
  (∀ t l, t ∈ tasks after_fork → dkm t = Some l → ∃ d, dkms after_fork !! l = Some d ∧
    match (∅ : gmap Z exec_pc) !! pid t with
    | Some InMap => req d = MAP_REQ ∧ waiting d
    | Some InCreat => req d = PROC_CREAT_REQ ∧ waiting d
    | _ => req d = DKM_NOP
    end).
Proof. exact (dkm_invariant example_system (Sys after_fork ∅) example_kinv after_fork_reach). Defined.

Lemma pending_pids k p : p ∈ (pending k).*1 → p ∈ pid <$> tasks k.
Proof.
  intros ([p' r] & -> & Hin)%list_elem_of_fmap. apply list_elem_of_omap in Hin as (t & Ht & Hf).
  apply list_elem_of_fmap. exists t. split; [|done].
  unfold wanted in Hf. destruct (dkm t ≫= _) as [d|]; [|done]. cbn in Hf.
  by destruct (wants_service d); simplify_eq.
Qed.

Lemma pending_nodup k : NoDup (pid <$> tasks k) → NoDup (pending k).*1.
Proof.
  unfold pending. intros Hnd.
  enough (∀ ts, NoDup (pid <$> ts) → NoDup (omap (wanted (dkms k)) ts).*1 ∧
    ∀ p, p ∈ (omap (wanted (dkms k)) ts).*1 → p ∈ pid <$> ts) as H by by apply H.
  clear Hnd. induction ts as [|t ts IH]; [intros _; split; [apply NoDup_nil_2|done]|].
  intros [Hn Hnd]%NoDup_cons. destruct (IH Hnd) as [IH1 IH2]. cbn.
  assert (∀ y, wanted (dkms k) t = Some y → y.1 = pid t) as Hy.
  { unfold wanted. intros y (d & _ & Hd)%bind_Some. destruct (wants_service d); by simplify_eq. }
  destruct (wanted (dkms k) t) as [y|]; cbn; [rewrite (Hy y eq_refl)|split; [done|intros; right; by apply IH2]].
  split; [apply NoDup_cons; split; [|done]; by intros ?%IH2|].
  intros p [->|Hp]%elem_of_cons; [by left|right; by apply IH2].
Qed.

(** C21: in every reachable state [DKM_GET_REQ] reports only processes that sleep in
    [dkm_execve], with the request they wait for, and not the same request again. *)
Theorem dkm_get_req_reports_sleeper s0 s ikcd k' p rq :
  kinv s0 → kreach s0 s →
  sys_dkmctl ikcd DKM_GET_REQ 0 0 no_argv (kern s) = Ok k' (Return 0 (Argv (UInt p) (UInt rq))) →
  pcs s !! p = Some (if decide (rq = MAP_REQ) then InMap else InCreat) ∧
  (rq = MAP_REQ ∨ rq = PROC_CREAT_REQ) ∧
  (p, rq) ∈ pending (kern s) ∧ (p, rq) ∉ pending k'.
Proof.
  intros Hi Hr E. pose proof (kinv_reach _ _ Hi Hr) as Hs. destruct s as [k m]. cbn [kern pcs] in *.
  rewrite get_req_call in E.
  pose proof (get_req_pending k m no_argv Hs) as Hp.
  destruct (get_req_spec k m no_argv Hs) as [[E' _]|(q & l & d & Ho & Hd & Hw & E')];
    rewrite E' in E; [done|]. injection E as <- <- <-.
  pose proof (inv_pc _ Hs _ l d (owns_in _ _ _ Ho) eq_refl Hd) as Hpc. unfold at_pc in Hpc. cbn in Hpc.
  unfold wants_service in Hw. apply bool_decide_eq_true in Hw as (_ & _ & Hmin & _).
  pose proof (pending_nodup k (inv_pids _ Hs)) as Hnd.
  destruct (pending k) as [|[p r] rest] eqn:Ep; [by rewrite E' in Hp|].
  destruct Hp as (k1 & E1 & Hrest & Hi1). rewrite E' in E1. injection E1 as <- <- <-.
  assert ((q, req d) ∉ pending (at_dkm k l (set_state REQ_IN_GET_REQ d))) as Hnot.
  { rewrite Hrest. cbn in Hnd. apply NoDup_cons in Hnd as [Hnd _]. intros Hin. apply Hnd.
    by apply (list_elem_of_fmap_2 fst) in Hin. }
  destruct (m !! q) as [[| |v]|]; cbn in Hpc.
  1,2: destruct Hpc as [Hrq _]; rewrite Hrq in *; split_and!; [done|auto|by left|done].
  all: unfold DKM_MIN_REQ, DKM_NOP in *; lia.
Qed.

Lemma dkm_get_req_reports_sleeper_witness :
  ({[10%Z := InCreat]} : gmap Z exec_pc) !! 10%Z = Some InCreat ∧
  (PROC_CREAT_REQ = MAP_REQ ∨ PROC_CREAT_REQ = PROC_CREAT_REQ) ∧
  (10, PROC_CREAT_REQ)%Z ∈ pending sleeping_kernel ∧
  (10, PROC_CREAT_REQ)%Z ∉ pending (at_dkm sleeping_kernel 2 (set_state REQ_IN_GET_REQ sleeping_dkm)).
Proof.
  exact (dkm_get_req_reports_sleeper (Sys sleeping_kernel {[10%Z := InCreat]}) _ 5
    (at_dkm sleeping_kernel 2 (set_state REQ_IN_GET_REQ sleeping_dkm)) 10 PROC_CREAT_REQ
    sleeping_kinv (kreach_refl _) eq_refl).
Defined.

(** * Fork *)

(** C23: [do_fork] assigns the new [dkm_struct] to the parent: the child keeps the one its
    parent had, with the file name and the nodes of the last execution, and the parent
    starts with an empty one. *)
Theorem dkm_fork_swaps k m cur l d child junk :
  kinv (Sys k m) → owns k cur l → dkms k !! l = Some d → find_task_by_pid child k = None →
  ∃ k', do_fork cur child junk k = Ok k' child ∧
    owns k' child l ∧ dkms k' !! l = Some d ∧
    owns k' cur (kfresh k) ∧ dkms k' !! kfresh k = Some (set_r_pid junk new_dkm).
Proof.
  intros Hi Ho Hd Hc. unfold do_fork. erewrite bind_Ok by (unfold current_dkm; by rewrite Ho).
  eexists. split; [reflexivity|]. cbn [dkms].
  pose proof (find_task_pid _ _ _ Ho) as [Hin _]. pose proof (find_task_None _ _ Hc) as Hcn.
  assert (l < kfresh k)%positive as Hl by (apply (inv_fresh _ Hi); by eexists).
  assert (NoDup (pid <$> set_task_dkm cur (kfresh k) (tasks k) ++ [Task child (Some l)])) as Hnd.
  { rewrite fmap_app, set_task_dkm_pids. apply NoDup_app. split_and!; [apply Hi| |apply NoDup_singleton].
    by intros p Hp ->%list_elem_of_singleton. }
  split_and!.
  - refine (find_task_in (Kernel _ _ _ _ _ _) (Task child (Some l)) Hnd _). cbn. set_solver.
  - rewrite lookup_insert_ne by lia. done.
  - refine (find_task_in (Kernel _ _ _ _ _ _) (Task cur (Some (kfresh k))) Hnd _). cbn.
    apply elem_of_app. left. apply set_task_dkm_in. left. by split_and!; [..|exists (Some l)].
  - apply lookup_insert_eq.
Qed.

Lemma dkm_fork_swaps_witness :
  ∃ k', do_fork 10 11 0 example_kernel = Ok k' 11%Z ∧
    owns k' 11 2 ∧ dkms k' !! 2%positive = Some new_dkm ∧
    owns k' 10 3 ∧ dkms k' !! 3%positive = Some (set_r_pid 0 new_dkm).
Proof. exact (dkm_fork_swaps example_kernel ∅ 10 2 new_dkm 11 0 example_kinv example_owns eq_refl eq_refl). Defined.

(** * Errors *)

(** an answer to a process that does not exist or does not wait for it is refused and
    changes nothing; the arguments of a process that has died are read through [NULL],
    since the trace output comes before the test of the pointer. *)
Theorem dkm_put_resp_refused k ikcd p rq a :
  match find_task_by_pid p k with
  | None => sys_dkmctl ikcd DKM_PUT_RESP p rq a k = Ok k (Return (-1) a) ∧
            sys_dkmctl ikcd DKM_GET_ARGS p rq a k = Stop NullDeref
  | Some t => ∀ l d, dkm t = Some l → dkms k !! l = Some d → req d ≠ rq →
            sys_dkmctl ikcd DKM_PUT_RESP p rq a k = Ok k (Return (-1) a) ∧
            sys_dkmctl ikcd DKM_GET_ARGS p rq a k = Ok k (Return (-1) a)
  end.
Proof.
  rewrite put_resp_call, get_args_call. unfold dkm_put_resp, dkm_get_args.
  destruct (find_task_by_pid p k) as [t|] eqn:E.
  - intros l d El Hd Hr. split; erewrite bind_Ok by reflexivity; rewrite E, El;
      erewrite bind_Ok by (by apply kderef_eq); by rewrite decide_True.
  - split; erewrite bind_Ok by reflexivity; by rewrite E.
Qed.

Lemma do_req_gone_runs cur k l d :
  owns k cur l → (0 < dkm_ikcd_pid k)%Z → cur ≠ dkm_ikcd_pid k →
  find_task_by_pid (dkm_ikcd_pid k) k = None → (DKM_MIN_REQ ≤ req d ≤ DKM_MAX_REQ)%Z →
  runs (dkm_do_req cur no_argv) (at_dkm k l d) (λ k' c,
    c = Return 0 no_argv ∧ k' = at_dkm k l (set_state REQ_IN_DO_REQ (set_pending 1 d))).
Proof.
  intros Ho Hpos Hne Hgone Hr. unfold dkm_do_req. k_run.
  change (dkm_ikcd_pid (at_dkm k l d)) with (dkm_ikcd_pid k).
  rewrite decide_False by done. k_run. rewrite decide_False by lia. rewrite decide_True by lia. k_run.
  change (find_task_by_pid (dkm_ikcd_pid k) (at_dkm k l d)) with (find_task_by_pid (dkm_ikcd_pid k) k).
  rewrite Hgone. by k_run.
Qed.

(** when the registered ikcd has died, [dkm_execve] does not sleep: [DKM_DO_REQ] marks
    the request as pending, returns 0 without a signal, and the process goes on as if
    the node were known.  It compares whatever [kmalloc] left in the node name and
    returns as distributed, with a request that stays pending. *)
Theorem dkm_execve_ikcd_gone k cur l jf jr jo fn junk :
  owns k cur l → is_Some (dkms k !! l) → (0 < dkm_ikcd_pid k)%Z → cur ≠ dkm_ikcd_pid k →
  find_task_by_pid (dkm_ikcd_pid k) k = None →
  length jf = S (length fn) → length jo = Z.to_nat NODE_LEN → length (nodename k) < Z.to_nat NODE_LEN →
  NUL ∉ nodename k → NUL ∉ junk → holds_str (Some jr) junk →
  ∃ k' d', dkm_execve cur jf jr jo fn k = Ok k' (Returned 0) ∧ sigusr2 k' = sigusr2 k ∧
    dkms k' !! l = Some d' ∧ distributed d' = 1%Z ∧ pending_req d' = 1%Z ∧
    req_state d' = REQ_IN_DO_REQ ∧ req d' = DKM_NOP ∧ holds_str (r_node d') junk.
Proof.
  intros Ho [d Hd] Hpos Hne Hgone Hf Hj Hn Hnn Hjn Hjr.
  enough (runs (dkm_execve cur jf jr jo fn) (at_dkm k l d) (λ k' pc, pc = Returned 0 ∧
    ∃ d', k' = at_dkm k l d' ∧ distributed d' = 1%Z ∧ pending_req d' = 1%Z ∧
    req_state d' = REQ_IN_DO_REQ ∧ req d' = DKM_NOP ∧ holds_str (r_node d') junk)) as H.
  { rewrite (at_dkm_id k l d Hd) in H. destruct (runs_inv _ _ _ H) as (k' & pc & E & -> & d' & -> & Hd').
    exists (at_dkm k l d'), d'. split; [done|]. split; [done|]. split; [apply at_dkm_dkm|done]. }
  unfold dkm_execve. k_run. change (dkm_ikcd_pid (at_dkm k l d)) with (dkm_ikcd_pid k).
  rewrite decide_False by lia. k_run. apply runs_kstrcpy; [lia|]. intros f _ _. k_run.
  apply runs_kstrcpy; [cbn; lia|]. intros o Ho' _. k_run.
  rewrite decide_False by lia. k_run. rewrite do_dkmctl_do_req.
  eapply runs_mono; [apply do_req_gone_runs; [done..|cbn; unfold MAP_REQ, DKM_MIN_REQ, DKM_MAX_REQ; lia]|].
  intros k' c [-> ->]. unfold execve_after_map. k_run. rewrite decide_False by lia. k_run.
  eapply runs_kstr; [exact Hjr|done|]. k_run. eapply runs_kstr; [exact Ho'|done|].
  destruct (decide (junk = nodename k)) as [E|E].
  - rewrite decide_False by (intros Hx; by apply Hx). k_run. split; [done|]. eexists. by split_and!.
  - rewrite decide_True by done. k_run. rewrite do_dkmctl_do_req.
    eapply runs_mono; [apply do_req_gone_runs; [done..|cbn; unfold PROC_CREAT_REQ, DKM_MIN_REQ, DKM_MAX_REQ; lia]|].
    intros k' c [-> ->]. unfold execve_after_creat. k_run. split; [done|]. eexists. by split_and!.
Qed.

(** ikcd has registered and died. *)
Definition orphan_kernel : kernel := with_tasks [Task 10 (Some 2%positive)] example_kernel.

Lemma dkm_execve_ikcd_gone_witness :
  ∃ k' d', dkm_execve 10 (zeros 8) (zeros 65) (zeros 65) (lit "/bin/ls") orphan_kernel = Ok k' (Returned 0) ∧
    sigusr2 k' = [] ∧ dkms k' !! 2%positive = Some d' ∧ distributed d' = 1%Z ∧ pending_req d' = 1%Z ∧
    req_state d' = REQ_IN_DO_REQ ∧ req d' = DKM_NOP ∧ holds_str (r_node d') [].
Proof.
  exact (dkm_execve_ikcd_gone orphan_kernel 10 2 (zeros 8) (zeros 65) (zeros 65) (lit "/bin/ls") []
    eq_refl ltac:(by eexists) ltac:(done) ltac:(done) eq_refl eq_refl eq_refl ltac:(vm_compute; lia)
    ltac:(by apply (bool_decide_unpack _)) ltac:(by apply (bool_decide_unpack _)) ltac:(by exists (zeros 64))).
Defined.
