(* ===== verification/DkmctlSignal.v ===== *)
(** The kernel signals ikcd whenever it has something new to report (Dkmctl.v): a step
    after which a process waits to be taken by [DKM_GET_REQ], and before which none did,
    has sent SIGUSR2. *)

From Stdlib Require Import ZArith Lia Strings.Byte.
From stdpp Require Import base list gmap strings.
From S2P Require Import Prelude.
From S2P Require Import Cbuf.
From S2P Require Import Dkmctl.
From S2P Require Import DkmctlInv.
From S2P Require Import DkmctlProps.

(** * Processes that wait to be taken *)

Lemma pending_nil k : pending k = [] ↔ ∀ t, t ∈ tasks k → wanted (dkms k) t = None.
Proof.
  unfold pending. split; [|apply omap_nil].
  intros E t Ht. destruct (wanted (dkms k) t) as [y|] eqn:Ew; [|done].
  assert (y ∈ omap (wanted (dkms k)) (tasks k)) as Hy by (apply list_elem_of_omap; eauto).
  rewrite E in Hy. by apply elem_of_nil in Hy.
Qed.

Lemma wanted_None ds t l : dkm t = Some l → (∀ d, ds !! l = Some d → wants_service d = false) → wanted ds t = None.
Proof.
  intros El Hd. unfold wanted. rewrite El. cbn. destruct (ds !! l) as [d|] eqn:E; [|done]. cbn. by rewrite Hd.
Qed.

Lemma wanted_inv ds t l d : wanted ds t = None → dkm t = Some l → ds !! l = Some d → wants_service d = false.
Proof. unfold wanted. intros Hw El Hd. rewrite El in Hw. cbn in Hw. rewrite Hd in Hw. cbn in Hw. by destruct (wants_service d). Qed.

(** One block changes, to one that does not ask. *)
Lemma pending_at k k0 l d :
  same_but k k0 → wants_service d = false → pending k = [] → pending (at_dkm k0 l d) = [].
Proof.
  rewrite !pending_nil. intros (Ht & Hd & _) Hw Hp t Hin.
  change (tasks (at_dkm k0 l d)) with (tasks k0) in Hin. rewrite Ht in Hin.
  destruct (dkm t) as [l'|] eqn:El; [|by unfold wanted; rewrite El].
  eapply wanted_None; [exact El|]. intros d'. destruct (decide (l = l')) as [<-|].
  - rewrite at_dkm_dkm. by intros [= <-].
  - rewrite at_dkm_ne, Hd by done. by eapply wanted_inv; [apply Hp|].
Qed.

Lemma nop_wants_nothing d : req d = DKM_NOP → wants_service d = false.
Proof. intros E. apply bool_decide_eq_false. rewrite E. unfold DKM_NOP, DKM_MIN_REQ. lia. Qed.

Lemma idle_wants_nothing d : pending_req d = 0%Z → wants_service d = false.
Proof. intros E. apply bool_decide_eq_false. lia. Qed.

(** * What a process does *)

(** A registered ikcd exists. *)
Definition ikcd_alive (k : kernel) : Prop := (0 < dkm_ikcd_pid k)%Z → is_Some (find_task_by_pid (dkm_ikcd_pid k) k).

(** Only the block [l] has changed, and if it asks for a service a signal was sent. *)
Definition tells {A} (k : kernel) (l : positive) : kernel → A → Prop :=
  λ k' _, ∃ k0 d' ss, same_but k k0 ∧ k' = at_dkm k0 l d' ∧ sigusr2 k0 = ss ++ sigusr2 k ∧
    (ss = [] → wants_service d' = false).

Lemma tells_quiet {A} k l d (a : A) : wants_service d = false → tells k l (at_dkm k l d) a.
Proof. intros. by exists k, d, []. Qed.

Lemma tells_signalled {A} k l d cur (a : A) : tells k l (at_dkm (signalled cur k) l d) a.
Proof. exists (signalled cur k), d, [cur]. by split_and!. Qed.

Lemma do_req_cases cur k l d a :
  owns k cur l → ikcd_alive k →
  post (dkm_do_req cur a) (at_dkm k l d) (λ k' c,
    (c = Sleep ∧ k' = at_dkm (signalled cur k) l (set_state REQ_IN_DO_REQ (set_pending 1 d))) ∨
    (c ≠ Sleep ∧ k' = at_dkm k l d)).
Proof.
  intros Ho Hal. unfold dkm_do_req. k_post; try (by right).
  change (find_task_by_pid _ (at_dkm k l d)) with (find_task_by_pid (dkm_ikcd_pid k) k).
  destruct Hal as [t ->]; [cbn in *; lia|]. k_post. eapply post_eq; [apply send_at|]. unfold dkm_do_req_wait. k_post.
  - by left.
  - cbn in *. lia.
Qed.

Lemma after_creat_nop k l d :
  post (execve_after_creat (Some l)) (at_dkm k l d) (λ k' _, k' = at_dkm k l (set_req DKM_NOP d)).
Proof. unfold execve_after_creat. by k_post. Qed.

Lemma after_map_tells cur k l d ret :
  owns k cur l → ikcd_alive k → post (execve_after_map cur (Some l) ret) (at_dkm k l d) (tells k l).
Proof.
  intros Ho Hal. unfold execve_after_map, r_node_is_o_node. k_post;
    try (apply tells_quiet; by apply nop_wants_nothing).
  rewrite do_dkmctl_do_req. eapply post_mono; [by apply do_req_cases|].
  intros k' c [[-> ->]|[Hc ->]].
  - k_post. apply tells_signalled.
  - destruct c; [|done]. eapply post_mono; [apply after_creat_nop|]. intros ? ? ->.
    by apply tells_quiet, nop_wants_nothing.
Qed.

(** Signals of two parts of a run add up. *)
Lemma tells_signalled_trans {A} k l cur k' (a : A) : tells (signalled cur k) l k' a → tells k l k' a.
Proof.
  intros (k0 & d & ss & Hs & -> & E & _). exists k0, d, (ss ++ [cur]).
  split; [done|]. split; [done|]. split; [by rewrite <- app_assoc|]. by destruct ss.
Qed.

Lemma execve_tells cur jf jr jo filename k l d :
  owns k cur l → ikcd_alive k → req d = DKM_NOP →
  post (dkm_execve cur jf jr jo filename) (at_dkm k l d) (tells k l).
Proof.
  intros Ho Hal Hd. unfold dkm_execve, r_node_is_o_node. k_post;
    try (apply tells_quiet; by apply nop_wants_nothing).
  rewrite do_dkmctl_do_req. eapply post_mono; [by apply do_req_cases|].
  intros k' c [[-> ->]|[Hc ->]]; [k_post; apply tells_signalled|].
  destruct c; [|done]. by apply after_map_tells.
Qed.

(** A process that goes on either tells ikcd or has slept again. *)
Lemma resume_tells cur pc k l d :
  owns k cur l → ikcd_alive k →
  post (dkm_resume cur pc) (at_dkm k l d) (λ k' pc', k' = at_dkm k l d ∨ tells k l k' pc').
Proof.
  intros Ho Hal. unfold dkm_resume, dkm_do_req_wait. destruct pc; k_post; try (by left); [|].
  - eapply post_mono; [by apply after_map_tells|]. by right.
  - eapply post_mono; [apply after_creat_nop|]. intros ? ? ->. right. by apply tells_quiet, nop_wants_nothing.
Qed.

Lemma put_resp_quiet p rq a k l d :
  owns k p l →
  post (dkm_put_resp p rq a) (at_dkm k l d) (λ k' _, ∃ d', k' = at_dkm k l d' ∧ (d' = d ∨ pending_req d' = 0%Z)).
Proof.
  intros Ho. unfold dkm_put_resp. apply post_bind. eapply post_eq; [reflexivity|].
  unfold find_task_by_pid, at_dkm at 1. cbn [tasks with_dkms].
  change (List.find _ (tasks k)) with (find_task_by_pid p k). rewrite Ho. cbn [dkm].
  k_post; try (eexists; split; [reflexivity|by auto]).
  destruct (arg0 a); [done| |done]. k_post. eexists. split; [reflexivity|by auto].
Qed.

(** * Every step *)

Lemma execve_owner k m cur jf jr jo filename k' pc :
  kinv (Sys k m) → m !! cur = None → dkm_execve cur jf jr jo filename k = Ok k' pc →
  k' = k ∨ ∃ l d, owns k cur l ∧ dkms k !! l = Some d ∧ req d = DKM_NOP.
Proof.
  intros Hi Hm Hrun. unfold dkm_execve in Hrun. erewrite bind_Ok in Hrun by reflexivity.
  case_decide; [left; by injection Hrun as <- _|]. right.
  unfold current_dkm, mbind, M_bind in Hrun.
  destruct (find_task_by_pid cur k) as [[q [l|]]|] eqn:Ef; [|done|done].
  pose proof (find_task_pid _ _ _ Ef) as [Hin Hq]. cbn in Hq. subst q.
  destruct (inv_valid _ Hi _ l Hin eq_refl) as [d Hd]. exists l, d. split_and!; [done..|].
  pose proof (inv_pc _ Hi _ l d Hin eq_refl Hd) as Hp. unfold at_pc in Hp. cbn in Hp. by rewrite Hm in Hp.
Qed.

(** The step told ikcd, or there is nothing to tell. *)
Definition told (k k' : kernel) : Prop := pending k' = [] ∨ sigusr2 k' ≠ sigusr2 k.

Lemma told_refl k : pending k = [] → told k k.
Proof. by left. Qed.

Lemma tells_told {A} k l d k' (a : A) :
  dkms k !! l = Some d → pending k = [] → tells k l k' a → told k k'.
Proof.
  intros Hd Hp (k0 & d' & ss & Hs & -> & E & Hss). destruct ss as [|x ss].
  - left. apply (pending_at k); auto.
  - right. change (sigusr2 (at_dkm k0 l d')) with (sigusr2 k0). rewrite E. intros Hc.
    apply (f_equal length) in Hc. rewrite length_app in Hc. cbn in Hc. lia.
Qed.

Lemma execve_told k m cur jf jr jo filename k' pc :
  kinv (Sys k m) → m !! cur = None → ikcd_alive k → pending k = [] →
  dkm_execve cur jf jr jo filename k = Ok k' pc → told k k'.
Proof.
  intros Hi Hm Hal Hp E. destruct (execve_owner _ _ _ _ _ _ _ _ _ Hi Hm E) as [->|(l & d & Ho & Hd & Hn)];
    [by left|].
  pose proof (execve_tells cur jf jr jo filename k l d Ho Hal Hn) as Ht.
  rewrite (at_dkm_id k l d Hd) in Ht. eapply post_elim in Ht; [|exact E]. by eapply tells_told.
Qed.

Lemma resume_told k m cur pc k' pc' :
  kinv (Sys k m) → m !! cur = Some pc → ikcd_alive k → pending k = [] →
  dkm_resume cur pc k = Ok k' pc' → told k k'.
Proof.
  intros Hi Hm Hal Hp E. destruct (inv_sleep _ Hi _ _ Hm) as (_ & l & Ho).
  destruct (inv_valid _ Hi _ l (owns_in _ _ _ Ho) eq_refl) as [d Hd]. cbn in Hd.
  pose proof (resume_tells cur pc k l d Ho Hal) as Ht. rewrite (at_dkm_id k l d Hd) in Ht.
  eapply post_elim in Ht; [|exact E]. destruct Ht as [->|Ht]; [by left|by eapply tells_told].
Qed.

Lemma put_resp_told k m p rq a k' c :
  kinv (Sys k m) → pending k = [] → dkm_put_resp p rq a k = Ok k' c → told k k'.
Proof.
  intros Hi Hp E. destruct (find_task_by_pid p k) as [[q [l|]]|] eqn:Ef.
  - pose proof (find_task_pid _ _ _ Ef) as [Hin Hq]. cbn in Hq. subst q.
    destruct (inv_valid _ Hi _ l Hin eq_refl) as [d Hd]. cbn in Hd.
    pose proof (put_resp_quiet p rq a k l d Ef) as Ht. rewrite (at_dkm_id k l d Hd) in Ht.
    eapply post_elim in Ht; [|exact E]. destruct Ht as (d' & -> & [->|Hd']); left.
    + by rewrite (at_dkm_id k l d Hd).
    + apply (pending_at k); [apply same_but_refl|by apply idle_wants_nothing|done].
  - unfold dkm_put_resp in E. erewrite bind_Ok in E by reflexivity. by rewrite Ef in E.
  - unfold dkm_put_resp in E. erewrite bind_Ok in E by reflexivity. rewrite Ef in E.
    injection E as <- _. by left.
Qed.

Lemma call_told k m cur cmd p rq a e a' k' :
  kinv (Sys k m) → m !! cur = None → pending k = [] →
  sys_dkmctl cur cmd p rq a k = Ok k' (Return e a') → told k k'.
Proof.
  intros Hi Hm Hp. unfold sys_dkmctl, do_dkmctl. repeat case_decide; intros Hrun.
  - injection Hrun as <- _ _. by left.
  - injection Hrun as <- _ _. by left.
  - pose proof (get_req_pending k m a Hi) as Hg. rewrite Hp in Hg. rewrite Hrun in Hg.
    injection Hg as -> _ _. by left.
  - apply get_args_same in Hrun as ->. by left.
  - by eapply put_resp_told.
  - eapply do_req_refused in Hrun as ->; [by left|done..].
  - injection Hrun as <- _ _. by left.
Qed.

(** The new task has the block of its parent, which runs and asks for nothing, and the
    new block asks for nothing. *)
Lemma fork_told k m cur child junk v k' :
  kinv (Sys k m) → pending k = [] → do_fork cur child junk k = Ok k' v → told k k'.
Proof.
  intros Hi Hp E. left. unfold do_fork, mbind, M_bind in E.
  destruct (current_dkm cur k) as [k1 parent|] eqn:Ec; [|done].
  assert (k1 = k ∧ ∃ q, Task q parent ∈ tasks k) as [-> [q Hq]].
  { unfold current_dkm in Ec. destruct (find_task_by_pid cur k) as [[q p]|] eqn:Ef; [|done].
    injection Ec as <- <-. split; [done|]. exists q. by apply (find_task_pid _ _ _ Ef). }
  injection E as <- _. apply pending_nil. rewrite pending_nil in Hp.
  assert (∀ t l d, t ∈ tasks k → dkm t = Some l → <[kfresh k := set_r_pid junk new_dkm]> (dkms k) !! l = Some d →
    wants_service d = false) as Hold.
  { intros t l d Ht El. destruct (decide (kfresh k = l)) as [<-|Hne].
    - rewrite lookup_insert_eq. by intros [= <-].
    - rewrite lookup_insert_ne by done. by eapply wanted_inv; [apply Hp|]. }
  intros t Ht. cbn [tasks dkms] in *. destruct (dkm t) as [l|] eqn:El; [|by unfold wanted; rewrite El].
  eapply wanted_None; [exact El|]. intros d. apply elem_of_app in Ht as [Ht| ->%list_elem_of_singleton].
  - apply set_task_dkm_in in Ht as [(_ & El' & _)|(_ & Ht)].
    + rewrite El in El'. injection El' as ->. rewrite lookup_insert_eq. by intros [= <-].
    + by eapply Hold.
  - cbn in El. subst parent. by eapply (Hold (Task q (Some l))).
Qed.

Lemma kstep_told s s' :
  kinv s → kstep s s' → ikcd_alive (kern s) → pending (kern s) = [] → told (kern s) (kern s').
Proof.
  intros Hi Hs Hal Hp. destruct Hs; cbn [kern] in *.
  - by eapply execve_told.
  - by eapply resume_told.
  - by eapply call_told.
  - by eapply fork_told.
  - left. apply pending_nil. rewrite pending_nil in Hp. intros t Ht. apply Hp. cbn [tasks with_tasks] in Ht.
    by apply list_elem_of_filter in Ht as [_ ?].
Qed.
