(* ===== verification/IkcState.v ===== *)
(** The memory of ikcd: its requests (src/src/include/ikc.h lines 46-61) and the addresses
    of their clients in a heap, the backlog list, the two queues and the packets it has
    sent; and the functions of ikcr.c and ikcd.c that work on one request
    (src/src/ikcd/ikcr.c lines 266-315, ikcd.c lines 229-238).

    The threads of ikcd share this state.  [malloc] succeeds, and a new block holds
    arbitrary contents. *)

From Stdlib Require Import ZArith Lia Strings.Byte.
From stdpp Require Import base list gmap strings.
From S2P Require Import Prelude.
From S2P Require Import Cbuf.
From S2P Require Import Ikcp.
From S2P Require Import Ikcq.

(** The address of a client; [sin_addr] in host byte order. *)
Record sockaddr_in : Type := SockAddr { sin_addr : Z; sin_port : Z }.

#[export] Instance sockaddr_eq_dec : EqDecision sockaddr_in.
Proof. solve_decision. Defined.

(** What [rq_argv.arg<n>] points to: the field [r_node] or [r_pid] of the request itself,
    or a block. *)
Inductive arg : Type := ArgNull | ArgRNode | ArgRPid | ArgBuf (b : buf).

Record ikc_request : Type := Req {
  cliaddr : ptr;
  cli_len : Z;
  request_nbr : Z;
  host_id : Z;
  thread_id : Z;
  seq_nbr : Z;
  req : Z;
  o_node : cstr;
  r_node : buf;
  o_pid : Z;
  r_pid : Z;
  rq_arg0 : arg;
  rq_arg1 : arg
}.

Definition set_r_pid (z : Z) (r : ikc_request) : ikc_request :=
  Req (cliaddr r) (cli_len r) (request_nbr r) (host_id r) (thread_id r) (seq_nbr r) (req r)
      (o_node r) (r_node r) (o_pid r) z (rq_arg0 r) (rq_arg1 r).
Definition set_seq_nbr (z : Z) (r : ikc_request) : ikc_request :=
  Req (cliaddr r) (cli_len r) (request_nbr r) (host_id r) (thread_id r) z (req r)
      (o_node r) (r_node r) (o_pid r) (r_pid r) (rq_arg0 r) (rq_arg1 r).
Definition set_args (a0 a1 : arg) (r : ikc_request) : ikc_request :=
  Req (cliaddr r) (cli_len r) (request_nbr r) (host_id r) (thread_id r) (seq_nbr r) (req r)
      (o_node r) (r_node r) (o_pid r) (r_pid r) a0 a1.

(** An element of the backlog list. *)
Record ikc_backlog_list : Type := BElem { request : loc; next : ptr; prev : ptr }.

(** A packet that arrives at the socket of a worker: none within the timeout, a failed
    [recvfrom], or its bytes. *)
Inductive reply : Type := Timeout | RecvError | Packet (p : buf).

(** [sent] are the packets that have been sent, [replies] those that will arrive, and
    [executed] the numbers of the requests that have been executed, newest first: no
    function reads [sent] or [executed]. *)
Record ikcd : Type := Ikcd {
  requests : gmap loc ikc_request;
  addrs : gmap loc sockaddr_in;
  backlog : gmap loc ikc_backlog_list;
  list_head : ptr;
  backlog_mutex : bool;
  fresh : loc;
  pending_in : ikc_queue_head;
  pending_out : ikc_queue_head;
  sent : list (sockaddr_in * buf);
  replies : list reply;
  executed : list Z
}.

Definition with_requests (h : gmap loc ikc_request) (s : ikcd) : ikcd :=
  Ikcd h (addrs s) (backlog s) (list_head s) (backlog_mutex s) (fresh s) (pending_in s) (pending_out s) (sent s) (replies s) (executed s).
Definition with_addrs (h : gmap loc sockaddr_in) (s : ikcd) : ikcd :=
  Ikcd (requests s) h (backlog s) (list_head s) (backlog_mutex s) (fresh s) (pending_in s) (pending_out s) (sent s) (replies s) (executed s).
Definition with_backlog (h : gmap loc ikc_backlog_list) (s : ikcd) : ikcd :=
  Ikcd (requests s) (addrs s) h (list_head s) (backlog_mutex s) (fresh s) (pending_in s) (pending_out s) (sent s) (replies s) (executed s).
Definition with_head (p : ptr) (s : ikcd) : ikcd :=
  Ikcd (requests s) (addrs s) (backlog s) p (backlog_mutex s) (fresh s) (pending_in s) (pending_out s) (sent s) (replies s) (executed s).
Definition with_bmutex (b : bool) (s : ikcd) : ikcd :=
  Ikcd (requests s) (addrs s) (backlog s) (list_head s) b (fresh s) (pending_in s) (pending_out s) (sent s) (replies s) (executed s).
Definition with_fresh (l : loc) (s : ikcd) : ikcd :=
  Ikcd (requests s) (addrs s) (backlog s) (list_head s) (backlog_mutex s) l (pending_in s) (pending_out s) (sent s) (replies s) (executed s).
Definition with_queues (qi qo : ikc_queue_head) (s : ikcd) : ikcd :=
  Ikcd (requests s) (addrs s) (backlog s) (list_head s) (backlog_mutex s) (fresh s) qi qo (sent s) (replies s) (executed s).
Definition with_sent (l : list (sockaddr_in * buf)) (s : ikcd) : ikcd :=
  Ikcd (requests s) (addrs s) (backlog s) (list_head s) (backlog_mutex s) (fresh s) (pending_in s) (pending_out s) l (replies s) (executed s).
Definition with_replies (l : list reply) (s : ikcd) : ikcd :=
  Ikcd (requests s) (addrs s) (backlog s) (list_head s) (backlog_mutex s) (fresh s) (pending_in s) (pending_out s) (sent s) l (executed s).
Definition with_executed (l : list Z) (s : ikcd) : ikcd :=
  Ikcd (requests s) (addrs s) (backlog s) (list_head s) (backlog_mutex s) (fresh s) (pending_in s) (pending_out s) (sent s) (replies s) l.

(** * Memory *)

(** The value at a pointer into one of the heaps. *)
Definition deref {A} (heap : ikcd → gmap loc A) (p : ptr) : M ikcd A :=
  match p with
  | None => stop NullDeref
  | Some l => λ s, match heap s !! l with Some v => Ok s v | None => Stop BadPtr end
  end.

Definition store {A} (heap : ikcd → gmap loc A) (put : gmap loc A → ikcd → ikcd) (p : ptr) (g : A → A) : M ikcd unit :=
  match p with
  | None => stop NullDeref
  | Some l => λ s, match heap s !! l with Some v => Ok (put (<[l := g v]> (heap s)) s) () | None => Stop BadPtr end
  end.

Definition malloc {A} (heap : ikcd → gmap loc A) (put : gmap loc A → ikcd → ikcd) (junk : A) : M ikcd loc := λ s,
  Ok (with_fresh (Pos.succ (fresh s)) (put (<[fresh s := junk]> (heap s)) s)) (fresh s).

Definition free {A} (heap : ikcd → gmap loc A) (put : gmap loc A → ikcd → ikcd) (p : ptr) : M ikcd unit :=
  match p with
  | None => mret ()
  | Some l => λ s, match heap s !! l with Some _ => Ok (put (delete l (heap s)) s) () | None => Stop BadPtr end
  end.

(** An operation on one of the queues. *)
Definition on_pending_in {A} (m : M ikc_queue_head A) : M ikcd A := λ s,
  match m (pending_in s) with Ok q a => Ok (with_queues q (pending_out s) s) a | Stop f => Stop f end.
Definition on_pending_out {A} (m : M ikc_queue_head A) : M ikcd A := λ s,
  match m (pending_out s) with Ok q a => Ok (with_queues (pending_in s) q s) a | Stop f => Stop f end.

(** [sendto(sockfd, packet, packet_len, 0, addr, _)] *)
Definition sendto (addr : sockaddr_in) (packet : buf) (packet_len : Z) : M ikcd unit :=
  d ← access (buf_read packet 0 packet_len);
  modify (λ s, with_sent ((addr, d) :: sent s) s).

(** * One request *)

(** [__ikc_free_request] *)
Definition ikc_free_request (r : loc) : M ikcd unit :=
  v ← deref requests (Some r);
  match cliaddr v with Some _ => free addrs with_addrs (cliaddr v) | None => mret () end.

Definition ikcr_respond_to_client (r : loc) : M ikcd Z :=
  v ← deref requests (Some r);
  if decide (req v = IKC_PROC_CREAT_REQ) then
    '(packet, packet_len) ← access (ikcp_pack_proc_creat_resp (ikcr_unpack_req_id (request_nbr v)) (r_pid v));
    _ ← (if decide (0 < packet_len)%Z then
           a ← deref addrs (cliaddr v);
           sendto a packet packet_len
         else mret ());
    mret 0%Z
  else stop Exit.

(** The demonstration answers with the pid 76.  [executed] gets the number of the request of
    every call. *)
Definition ikcr_proceed_incoming_request (r : loc) : M ikcd Z :=
  v ← deref requests (Some r);
  _ ← modify (λ s, with_executed (request_nbr v :: executed s) s);
  _ ← (if decide (req v = IKC_PROC_CREAT_REQ)
       then store requests with_requests (Some r) (set_r_pid 76) else mret ());
  mret 0%Z.
