(* ===== verification/Ikcbl.v ===== *)
(** The backlog of ikcd (src/src/ikcd/ikcbl.c): a doubly linked list of the requests that
    have been answered, to answer them again when a client repeats one. *)

From Stdlib Require Import ZArith Lia Strings.Byte.
From stdpp Require Import base list gmap strings.
From S2P Require Import Prelude.
From S2P Require Import Cbuf.
From S2P Require Import Ikcp.
From S2P Require Import Ikcq.
From S2P Require Import IkcState.

Definition set_request (r : loc) (e : ikc_backlog_list) : ikc_backlog_list := BElem r (next e) (prev e).
Definition set_next (p : ptr) (e : ikc_backlog_list) : ikc_backlog_list := BElem (request e) p (prev e).
Definition set_prev (p : ptr) (e : ikc_backlog_list) : ikc_backlog_list := BElem (request e) (next e) p.

Definition bderef : ptr → M ikcd ikc_backlog_list := deref backlog.
Definition bstore : ptr → (ikc_backlog_list → ikc_backlog_list) → M ikcd unit := store backlog with_backlog.

Definition block : M ikcd unit := λ s,
  if backlog_mutex s then Stop Deadlock else Ok (with_bmutex true s) ().
Definition bunlock : M ikcd unit := modify (with_bmutex false).

(** The mutex that the head points to is a fresh one. *)
Definition ikcbl_init_bl : M ikcd Z :=
  _ ← modify (with_head None);
  _ ← modify (with_bmutex false);
  mret 0%Z.

Definition ikcbl_add_request (junk : ikc_backlog_list) (r : loc) : M ikcd Z :=
  l ← malloc backlog with_backlog junk;
  let new_list_elem := Some l in
  _ ← block;
  _ ← bstore new_list_elem (set_request r);
  h ← gets list_head;
  _ ← match h with
      | None =>
        _ ← modify (with_head new_list_elem);
        _ ← bstore new_list_elem (set_next None);
        bstore new_list_elem (set_prev None)
      | Some _ =>
        _ ← bstore new_list_elem (set_next h);
        _ ← bstore h (set_prev new_list_elem);
        _ ← bstore new_list_elem (set_prev None);
        modify (with_head new_list_elem)
      end;
  _ ← bunlock;
  mret 0%Z.

(** [while(to_find != NULL && go(to_find->request)) to_find = to_find->next] *)
Fixpoint bl_loop (fuel : nat) (go : ikc_request → M ikcd bool) (to_find : ptr) : M ikcd ptr :=
  match fuel with
  | 0 => stop OutOfFuel
  | S fuel =>
    match to_find with
    | None => mret None
    | Some _ =>
      e ← bderef to_find;
      v ← deref requests (Some (request e));
      b ← go v;
      if b : bool then bl_loop fuel go (next e) else mret to_find
    end
  end.

Definition bl_find (go : ikc_request → M ikcd bool) : M ikcd ptr :=
  h ← gets list_head;
  n ← gets (λ s, S (size (backlog s)));
  bl_loop n go h.

(** The head of the list is not changed. *)
Definition ikcbl_remove_request (nbr : Z) : M ikcd Z :=
  to_find ← bl_find (λ v, mret (bool_decide (request_nbr v ≠ nbr)));
  match to_find with
  | None => mret (-1)%Z
  | Some _ =>
    e ← bderef to_find;
    _ ← match next e with Some _ => bstore (next e) (set_prev (prev e)) | None => mret () end;
    e ← bderef to_find;
    _ ← match prev e with Some _ => bstore (prev e) (set_next (next e)) | None => mret () end;
    _ ← ikc_free_request (request e);
    _ ← free requests with_requests (Some (request e));
    _ ← free backlog with_backlog to_find;
    mret 0%Z
  end.

(** The address that is copied has the size of [struct sockaddr_in], [cli_len]. *)
Definition ikcbl_try_respond_from_backlog (r : loc) : M ikcd Z :=
  _ ← block;
  to_find ← bl_find (λ v, w ← deref requests (Some r); mret (bool_decide (request_nbr v ≠ request_nbr w)));
  match to_find with
  | None => _ ← bunlock; mret (-1)%Z
  | Some _ =>
    e ← bderef to_find;
    v ← deref requests (Some (request e));
    w ← deref requests (Some r);
    a ← deref addrs (cliaddr w);
    _ ← store addrs with_addrs (cliaddr v) (λ _, a);
    _ ← ikcr_respond_to_client (request e);
    _ ← bunlock;
    mret 0%Z
  end.

(** The loop stops at the first request with the same host or the same thread; then the
    request with the number of the new request is removed. *)
Definition ikcbl_remove_threads_last_request (r : loc) : M ikcd Z :=
  _ ← block;
  to_find ← bl_find (λ v, w ← deref requests (Some r);
    mret (bool_decide (host_id v ≠ host_id w ∧ thread_id v ≠ thread_id w)));
  match to_find with
  | None => _ ← bunlock; mret (-1)%Z
  | Some _ =>
    w ← deref requests (Some r);
    _ ← ikcbl_remove_request (request_nbr w);
    _ ← bunlock;
    mret 0%Z
  end.
