(* ===== verification/IkcblRep.v ===== *)
(** The backlog as a list in the heap: what its operations do to it. *)

From Stdlib Require Import ZArith Lia Strings.Byte.
From stdpp Require Import base list gmap strings.
From S2P Require Import Prelude.
From S2P Require Import Cbuf.
From S2P Require Import Ikcp.
From S2P Require Import Ikcq.
From S2P Require Import IkcState.
From S2P Require Import Ikcbl.

(** * Representation *)

Definition bfirst (ls : list (loc * loc)) : ptr := fst <$> head ls.

Fixpoint bseg (h : gmap loc ikc_backlog_list) (prv : ptr) (ls : list (loc * loc)) : Prop :=
  match ls with
  | [] => True
  | (l, r) :: ls => h !! l = Some (BElem r (bfirst ls) prv) ∧ bseg h (Some l) ls
  end.

(** A request of the backlog with the address of its client. *)
Definition answered (s : ikcd) (r : loc) : Prop :=
  ∃ v a addr, requests s !! r = Some v ∧ cliaddr v = Some a ∧ addrs s !! a = Some addr ∧
    req v = IKC_PROC_CREAT_REQ.

(** The backlog holds the elements [ls] (location, request) and its mutex is free. *)
Record brep (s : ikcd) (ls : list (loc * loc)) : Prop := {
  brep_nodup : NoDup ls.*1;
  brep_head : list_head s = bfirst ls;
  brep_seg : bseg (backlog s) None ls;
  brep_fresh l : is_Some (backlog s !! l) → (l < fresh s)%positive;
  brep_mutex : backlog_mutex s = false;
  brep_requests r : r ∈ ls.*2 → answered s r
}.

Lemma bseg_frame h h' prv ls :
  bseg h prv ls → (∀ l, l ∈ ls.*1 → h' !! l = h !! l) → bseg h' prv ls.
Proof.
  revert prv. induction ls as [|[l r] ls IH]; intros prv; simpl; [done|].
  intros [Hl Hs] Hf. split; [by rewrite Hf by left|]. apply IH; [done|]. intros. apply Hf. by right.
Qed.

Lemma bseg_dom h prv ls l : bseg h prv ls → l ∈ ls.*1 → is_Some (h !! l).
Proof.
  revert prv. induction ls as [|[k r] ls IH]; intros prv; simpl; [by intros _ ?%elem_of_nil|].
  intros [Hk Hs] [->|Hl]%elem_of_cons; [by eexists|by eapply IH].
Qed.

Lemma brep_size s ls : brep s ls → length ls ≤ size (backlog s).
Proof.
  intros Hr. rewrite <- (length_fmap fst), <- size_dom.
  rewrite <- (size_list_to_set (C := gset loc) ls.*1) by apply Hr. apply subseteq_size.
  intros l Hl%elem_of_list_to_set. apply elem_of_dom. by eapply bseg_dom; [apply Hr|].
Qed.

(** * The search *)

(** The first element whose request does not satisfy [b]. *)
Definition bl_first (s : ikcd) (b : ikc_request → bool) (ls : list (loc * loc)) : option (loc * loc) :=
  List.find (λ x, match requests s !! x.2 with Some v => negb (b v) | None => false end) ls.

Lemma bl_loop_rep s go b ls prv n :
  (∀ v, go v s = Ok s (b v)) → bseg (backlog s) prv ls →
  (∀ r, r ∈ ls.*2 → is_Some (requests s !! r)) → length ls < n →
  bl_loop n go (bfirst ls) s = Ok s (fst <$> bl_first s b ls).
Proof.
  intros Hgo. revert prv n. induction ls as [|[l r] ls IH]; intros prv [|n] Hs Hr Hn; simpl in Hn; try lia; [done|].
  destruct Hs as [Hl Hs]. cbn [bfirst head fmap option_fmap option_map fst bl_loop].
  erewrite bind_Ok by (unfold bderef, deref; by rewrite Hl). cbn [request next].
  destruct (Hr r) as [v Hv]; [by left|].
  erewrite bind_Ok by (unfold deref; by rewrite Hv). erewrite bind_Ok by apply Hgo.
  unfold bl_first. cbn [List.find snd]. rewrite Hv. destruct (b v); [|done].
  apply (IH (Some l)); [done| |lia]. intros r' ?. apply Hr. by right.
Qed.

Lemma brep_requests_some s ls r : brep s ls → r ∈ ls.*2 → is_Some (requests s !! r).
Proof. intros Hb Hr. destruct (brep_requests _ _ Hb r Hr) as (v & _ & _ & Hv & _). by exists v. Qed.

Lemma bl_find_rep s go b ls :
  (∀ v, go v s = Ok s (b v)) → bseg (backlog s) None ls → list_head s = bfirst ls →
  (∀ r, r ∈ ls.*2 → is_Some (requests s !! r)) → length ls ≤ size (backlog s) →
  bl_find go s = Ok s (fst <$> bl_first s b ls).
Proof.
  intros Hgo Hs Hh Hr Hn. unfold bl_find. erewrite bind_Ok by reflexivity.
  erewrite bind_Ok by reflexivity. rewrite Hh. eapply bl_loop_rep; [done..|lia].
Qed.

Lemma block_Ok s : backlog_mutex s = false → block s = Ok (with_bmutex true s) ().
Proof. intros Hm. unfold block. by rewrite Hm. Qed.

Lemma unblock s : backlog_mutex s = false → with_bmutex false (with_bmutex true s) = s.
Proof. intros Hm. destruct s. cbn in *. by subst. Qed.

Lemma unblock_Ok {A} s (a : A) : backlog_mutex s = false → Ok (with_bmutex false (with_bmutex true s)) a = Ok s a.
Proof. intros. by rewrite unblock. Qed.

Lemma brep_unlocked s ls : brep s ls → s = with_bmutex false s.
Proof. intros Hb. pose proof (brep_mutex _ _ Hb) as Hm. destruct s. cbn in *. by subst. Qed.

(** The element with a request number. *)
Definition bl_number (s : ikcd) (n : Z) (ls : list (loc * loc)) : option (loc * loc) :=
  bl_first s (λ v, bool_decide (request_nbr v ≠ n)) ls.

Lemma bl_number_Some s n ls l r :
  bl_number s n ls = Some (l, r) → (l, r) ∈ ls ∧ ∃ v, requests s !! r = Some v ∧ request_nbr v = n.
Proof.
  intros H. apply find_some in H as [Hin Hb]. cbn in Hb. split; [by apply list_elem_of_In|].
  destruct (requests s !! r) as [v|]; [|done]. exists v. split; [done|].
  apply negb_true_iff, bool_decide_eq_false in Hb. by apply dec_stable.
Qed.

(** * The operations *)

Lemma deref_eq {A} (heap : ikcd → gmap loc A) s l v :
  heap s !! l = Some v → deref heap (Some l) s = Ok s v.
Proof. intros Hv. unfold deref. by rewrite Hv. Qed.

Lemma deref_bind {A} s r w (k : ikc_request → M ikcd A) :
  requests s !! r = Some w → (deref requests (Some r) ≫= k) (with_bmutex true s) = k w (with_bmutex true s).
Proof. intros Hw. by erewrite bind_Ok by (by apply deref_eq). Qed.

(** The search while the mutex is held. *)
Lemma find_locked s ls go b :
  brep s ls → (∀ v, go v (with_bmutex true s) = Ok (with_bmutex true s) (b v)) →
  bl_find go (with_bmutex true s) = Ok (with_bmutex true s) (fst <$> bl_first s b ls).
Proof.
  intros Hb Hgo. apply (bl_find_rep (with_bmutex true s)); [done|apply Hb|apply Hb| |exact (brep_size _ _ Hb)].
  intros r Hr. exact (brep_requests_some s ls r Hb Hr).
Qed.

Lemma try_respond_absent s ls r w :
  brep s ls → requests s !! r = Some w → bl_number s (request_nbr w) ls = None →
  ikcbl_try_respond_from_backlog r s = Ok s (-1)%Z.
Proof.
  intros Hb Hw Hn. unfold ikcbl_try_respond_from_backlog.
  erewrite bind_Ok by (apply block_Ok, Hb).
  erewrite bind_Ok by (apply (find_locked s ls _ (λ v, bool_decide (request_nbr v ≠ request_nbr w)) Hb); intros ?; by rewrite (deref_bind _ _ _ _ Hw)).
  change (bl_first s _ ls) with (bl_number s (request_nbr w) ls). rewrite Hn. by apply unblock_Ok, Hb.
Qed.

(** The bytes of a response. *)
Definition creat_resp_bytes (seq pid : Z) : buf :=
  [byte_of IKC_VERSION; byte_of IKC_PROC_CREAT_RESP] ++ le_bytes 2 seq ++ le_bytes 4 pid.

Lemma pack_resp_eq seq pid : ikcp_pack_proc_creat_resp seq pid = Some (creat_resp_bytes seq pid, 8%Z).
Proof. done. Qed.

Definition sending (addr : sockaddr_in) (d : buf) (s : ikcd) : ikcd := with_sent ((addr, d) :: sent s) s.

Lemma respond_eq s r v a addr :
  requests s !! r = Some v → cliaddr v = Some a → addrs s !! a = Some addr → req v = IKC_PROC_CREAT_REQ →
  ikcr_respond_to_client r s =
    Ok (sending addr (creat_resp_bytes (ikcr_unpack_req_id (request_nbr v)) (r_pid v)) s) 0%Z.
Proof.
  intros Hv Ha Had Hr. unfold ikcr_respond_to_client. erewrite bind_Ok by (by apply deref_eq).
  rewrite decide_True by done. rewrite pack_resp_eq. cbn [access]. erewrite bind_Ok by reflexivity.
  cbn beta iota. rewrite decide_True by done. rewrite Ha.
  erewrite bind_Ok; [reflexivity|]. erewrite bind_Ok by (by apply deref_eq). done.
Qed.

(** A request that has been answered is answered again, to the address of the new one. *)
Lemma try_respond_present s ls r w aw addr l r0 v a0 :
  brep s ls → requests s !! r = Some w → cliaddr w = Some aw → addrs s !! aw = Some addr →
  bl_number s (request_nbr w) ls = Some (l, r0) → requests s !! r0 = Some v → cliaddr v = Some a0 →
  ikcbl_try_respond_from_backlog r s =
    Ok (sending addr (creat_resp_bytes (ikcr_unpack_req_id (request_nbr w)) (r_pid v))
      (with_addrs (<[a0 := addr]> (addrs s)) s)) 0%Z.
Proof.
  intros Hb Hw Haw Haddr Hn Hv Ha0. pose proof (bl_number_Some _ _ _ _ _ Hn) as (Hin & v' & Hv' & Hnbr).
  rewrite Hv in Hv'. injection Hv' as <-.
  unfold ikcbl_try_respond_from_backlog. erewrite bind_Ok by (apply block_Ok, Hb).
  erewrite bind_Ok by (apply (find_locked s ls _ (λ v, bool_decide (request_nbr v ≠ request_nbr w)) Hb); intros ?; by rewrite (deref_bind _ _ _ _ Hw)).
  change (bl_first s _ ls) with (bl_number s (request_nbr w) ls). rewrite Hn. cbn [fmap option_fmap option_map fst].
  assert (l ∈ ls.*1) as Hl by (by apply (list_elem_of_fmap_2 fst _ (l, r0))).
  assert (r0 ∈ ls.*2) as Hr0 by (by apply (list_elem_of_fmap_2 snd _ (l, r0))).
  destruct (brep_requests _ _ Hb r0 Hr0) as (v' & a' & addr' & Hv' & Ha' & Haddr' & Hreq).
  rewrite Hv in Hv'. injection Hv' as <-. rewrite Ha0 in Ha'. injection Ha' as <-.
  assert (∃ nx pv, backlog s !! l = Some (BElem r0 nx pv)) as (nx & pv & He).
  { pose proof (brep_seg _ _ Hb) as Hs. pose proof (brep_nodup _ _ Hb) as Hnd. clear -Hin Hs Hnd.
    revert Hs. generalize (@None loc) as prv. induction ls as [|[k q] ls IH]; [by apply elem_of_nil in Hin|].
    intros prv [Hk Hs]. apply elem_of_cons in Hin as [[= -> ->]|Hin]; [by do 2 eexists|].
    apply NoDup_cons in Hnd as [_ Hnd]. by eapply IH. }
  erewrite bind_Ok by (by apply deref_eq). cbn [request].
  erewrite bind_Ok by (by apply deref_eq). erewrite bind_Ok by (by apply deref_eq).
  rewrite Haw. erewrite bind_Ok by (by apply deref_eq). rewrite Ha0.
  erewrite bind_Ok by (unfold store; cbn; by rewrite Haddr').
  erewrite bind_Ok by (eapply respond_eq; [exact Hv|exact Ha0|apply lookup_insert_eq|done]).
  rewrite Hnbr. destruct s. cbn. pose proof (brep_mutex _ _ Hb) as Hm. cbn in Hm. by subst.
Qed.

(** While no request has the number of the new one, nothing is removed. *)
Lemma remove_last_absent s ls r w :
  brep s ls → requests s !! r = Some w → bl_number s (request_nbr w) ls = None →
  ∃ e, ikcbl_remove_threads_last_request r s = Ok s e.
Proof.
  intros Hb Hw Hn. unfold ikcbl_remove_threads_last_request.
  erewrite bind_Ok by (apply block_Ok, Hb).
  erewrite bind_Ok by (apply (find_locked s ls _ (λ v, bool_decide (host_id v ≠ host_id w ∧ thread_id v ≠ thread_id w)) Hb); intros ?; by rewrite (deref_bind _ _ _ _ Hw)).
  destruct (bl_first s _ ls) as [[l r0]|]; cbn [fmap option_fmap option_map fst].
  - erewrite bind_Ok by (by apply deref_eq).
    assert (ikcbl_remove_request (request_nbr w) (with_bmutex true s) = Ok (with_bmutex true s) (-1)%Z) as E.
    { unfold ikcbl_remove_request. erewrite bind_Ok by (by apply (find_locked s ls _ (λ v, bool_decide (request_nbr v ≠ request_nbr w)) Hb)).
      change (bl_first s _ ls) with (bl_number s (request_nbr w) ls). by rewrite Hn. }
    erewrite bind_Ok by exact E. exists 0%Z. by apply unblock_Ok, Hb.
  - exists (-1)%Z. by apply unblock_Ok, Hb.
Qed.

(** * Adding *)

Lemma runs_bstore l g s e (Q : ikcd → unit → Prop) :
  backlog s !! l = Some e → Q (with_backlog (<[l := g e]> (backlog s)) s) () → runs (bstore (Some l) g) s Q.
Proof. intros He HQ. unfold runs, bstore, store. by rewrite He. Qed.

Ltac b_step :=
  lazymatch goal with
  | |- runs (_ ≫= _) _ _ => apply runs_bind
  | |- runs (mret _) _ _ => apply runs_ret
  | |- runs (gets _) _ _ => apply runs_gets
  | |- runs (modify _) _ _ => apply runs_modify
  | |- runs bunlock _ _ => apply runs_modify
  | |- runs (malloc _ _ _) _ _ => eapply runs_eq; [reflexivity|]
  | |- runs block _ _ => eapply runs_eq; [by apply block_Ok|]
  | |- runs (bstore (Some _) _) _ _ => eapply runs_bstore; [cbn; map_reads; done|]
  end; cbn beta iota.

(** What else the state holds. *)
Definition same_rest (s s' : ikcd) : Prop :=
  requests s' = requests s ∧ addrs s' = addrs s ∧ sent s' = sent s ∧
  pending_in s' = pending_in s ∧ pending_out s' = pending_out s ∧ replies s' = replies s ∧ executed s' = executed s.

Lemma add_rep junk r s ls :
  brep s ls → answered s r →
  runs (ikcbl_add_request junk r) s (λ s' v, v = 0%Z ∧ brep s' ((fresh s, r) :: ls) ∧
    fresh s' = Pos.succ (fresh s) ∧ same_rest s s').
Proof.
  intros Hb Ha. pose proof (brep_mutex _ _ Hb) as Hm.
  assert (∀ k, k ∈ ls.*1 → k ≠ fresh s) as Hne.
  { intros k Hk ->. pose proof (brep_fresh _ _ Hb (fresh s)) as Hl.
    specialize (Hl (bseg_dom _ _ _ _ (brep_seg _ _ Hb) Hk)). lia. }
  assert (∀ s', requests s' = requests s → addrs s' = addrs s → fresh s' = Pos.succ (fresh s) →
    backlog_mutex s' = false → list_head s' = Some (fresh s) →
    bseg (backlog s') None ((fresh s, r) :: ls) →
    (∀ k, is_Some (backlog s' !! k) → k = fresh s ∨ is_Some (backlog s !! k)) →
    brep s' ((fresh s, r) :: ls)) as Hmk.
  { intros s' Hr Had Hf Hmu Hh Hs Hd. split; [|done|done| |done|].
    - apply NoDup_cons. split; [|apply Hb]. by intros ?%Hne.
    - intros k [->|Hk]%Hd; rewrite Hf; [lia|]. pose proof (brep_fresh _ _ Hb k Hk). lia.
    - intros q Hq. unfold answered. rewrite Hr, Had. apply elem_of_cons in Hq as [->|Hq]; [done|].
      by apply (brep_requests _ _ Hb). }
  unfold ikcbl_add_request. do 9 b_step. cbn [list_head with_backlog with_bmutex with_fresh].
  rewrite (brep_head _ _ Hb). destruct ls as [|[h rh] ls]; cbn [bfirst head fmap option_fmap option_map fst].
  - repeat b_step. split; [done|]. split; [|by split]. apply Hmk; try done; cbn.
    + map_reads. done.
    + intros k. destruct (decide (k = fresh s)); [by left|]. map_reads. by right.
  - assert (h ≠ fresh s) by (apply Hne; by left).
    pose proof (brep_seg _ _ Hb) as [Hh Hs]. cbn in Hh. repeat b_step.
    split; [done|]. split; [|by split]. apply Hmk; try done; cbn.
    + split; [by map_reads|]. split; [by map_reads|].
      pose proof (brep_nodup _ _ Hb) as [Hn _]%NoDup_cons.
      eapply bseg_frame; [exact Hs|]. intros k Hk.
      assert (k ≠ fresh s) by (apply Hne; by right). assert (h ≠ k) by (by intros ->). by map_reads.
    + intros k. destruct (decide (k = fresh s)); [by left|].
      destruct (decide (h = k)) as [<-|]; [right; by eexists|]. map_reads. by right.
Qed.

(** * Removing *)

(** The first element is freed and the head still points to it; [b]: whether the mutex
    is held. *)
Lemma remove_head_dangles s0 s b l r ls v :
  brep s0 ((l, r) :: ls) → s = with_bmutex b s0 → requests s !! r = Some v →
  ∃ s' a, ikcbl_remove_request (request_nbr v) s = Ok s' 0%Z ∧ list_head s' = Some l ∧
    backlog s' !! l = None ∧ backlog_mutex s' = b ∧ cliaddr v = Some a ∧
    requests s' = delete r (requests s) ∧ addrs s' = delete a (addrs s) ∧ fresh s' = fresh s.
Proof.
  intros Hb -> Hv. cbn in Hv. set (s := with_bmutex b s0). unfold ikcbl_remove_request.
  erewrite bind_Ok.
  2: { apply (bl_find_rep s _ (λ v', bool_decide (request_nbr v' ≠ request_nbr v)) ((l, r) :: ls));
       [done|apply Hb|apply Hb| |exact (brep_size _ _ Hb)].
       intros q Hq. exact (brep_requests_some _ _ _ Hb Hq). }
  unfold bl_first. cbn [List.find snd]. change (requests s) with (requests s0). rewrite Hv. rewrite bool_decide_eq_false_2 by (intros []; done).
  cbn [negb fmap option_fmap option_map fst].
  pose proof (brep_seg _ _ Hb) as [Hl Hs]. cbn in Hl.
  destruct (brep_requests _ _ Hb r) as (v' & a & addr & Hv' & Ha & Haddr & _); [by left|].
  rewrite Hv in Hv'. injection Hv' as <-.
  erewrite bind_Ok by (apply deref_eq; exact Hl). cbn [next].
  assert (∃ h e, (match bfirst ls with Some _ => bstore (bfirst ls) (set_prev (prev (BElem r (bfirst ls) None)))
      | None => mret () end) s = Ok (with_backlog h s) () ∧ h !! l = Some (BElem r (bfirst ls) None) ∧ e = ()) as (h & e & E & Hh & _).
  { destruct ls as [|[l2 r2] ls]; cbn [bfirst head fmap option_fmap option_map fst].
    - exists (backlog s), (). split; [by destruct s0|done].
    - destruct Hs as [Hl2 _]. pose proof (brep_nodup _ _ Hb) as [Hn _]%NoDup_cons.
      eexists _, (). split; [unfold bstore, store; cbn; by rewrite Hl2|]. split; [|done].
      rewrite lookup_insert_ne; [done|]. intros ->. apply Hn. by left. }
  erewrite bind_Ok by exact E. erewrite bind_Ok by (by apply deref_eq). cbn [prev].
  erewrite bind_Ok by reflexivity. cbn [request].
  erewrite bind_Ok.
  2: { unfold ikc_free_request. erewrite bind_Ok by (apply deref_eq; exact Hv). rewrite Ha.
       unfold free. cbn. by rewrite Haddr. }
  erewrite bind_Ok by (unfold free; cbn; by rewrite Hv).
  erewrite bind_Ok by (unfold free; cbn; by rewrite Hh).
  eexists _, a. split; [reflexivity|]. cbn. split; [apply Hb|]. split; [apply lookup_delete_eq|done].
Qed.
