(* ===== verification/Ikcd.v ===== *)
(** The threads of ikcd (src/src/ikcd/ikcd.c and the functions of ikcr.c that they call):
    the collector of incoming packets, the workers for incoming and outgoing requests,
    and the loop that fetches requests from the kernel.

    A thread is given by what it does between two waits on its condition variable.  Not
    under src/, and parameters here: the resolver, the message queue to csda, and the
    environment variable with the name of this host.  The network is what [replies] says
    arrives and [sent] records.  The kernel is reached through the system call only,
    whose interface is the class [DkmctlCall]. *)

From Stdlib Require Import ZArith Lia Strings.Byte.
From stdpp Require Import base list gmap strings.
From S2P Require Import Prelude.
From S2P Require Import Cbuf.
From S2P Require Import Ctext.
From S2P Require Import Ikcp.
From S2P Require Import Ikcq.
From S2P Require Import IkcState.
From S2P Require Import Ikcbl.
From S2P Require Dkmctl.

Definition IKC_PORT : Z := 7876.
Definition IKC_MAX_ATTEMPTS : nat := 2.
Definition READ_REQ : Z := 22.
Definition sizeof_sockaddr_in : Z := 16.

(** [dkmctl(cmd, pid, req, rq_argv)] as the daemon calls it. *)
Class DkmctlCall (K : Type) : Type :=
  dkmctl : Z → Z → Z → Dkmctl.req_argv → M K Dkmctl.ctl.

(** The system call of the kernel model, made by the task [ikcd]. *)
Definition kernel_dkmctl (ikcd : Z) : DkmctlCall Dkmctl.kernel := Dkmctl.sys_dkmctl ikcd.

(** [ikc_init_queues] and [ikcbl_init_bl] *)
Definition ikc_init_queues : M ikcd Z :=
  _ ← modify (λ s, with_queues (Ikcq.with_mutex false (with_queue None (pending_in s)))
                               (Ikcq.with_mutex false (with_queue None (pending_out s))) s);
  mret 0%Z.

(** * Incoming requests *)

(** [junk] is what the new request holds, [jq] what the new queue element holds. *)
Definition ikcr_queue_process_creation_request (junk : ikc_request) (jq : ikc_request_queue)
    (cli : sockaddr_in) (cli_len : Z) (packet : buf) : M ikcd Z :=
  r ← malloc requests with_requests junk;
  '(request_id, pid, host, filename, argv) ← access (ikcp_unpack_proc_creat_req packet);
  a ← malloc addrs with_addrs cli;
  let nbr := ikcr_pack_request_number (sin_addr cli) request_id in
  _ ← store requests with_requests (Some r) (λ v,
        Req (Some a) cli_len nbr (ikcr_unpack_host_id nbr) (ikcr_unpack_thread_id nbr)
            (ikcr_unpack_seq_number nbr) IKC_PROC_CREAT_REQ host (r_node v) pid (r_pid v)
            (ArgBuf (filename ++ [NUL])) (ArgBuf (argv ++ [NUL])));
  _ ← on_pending_in (ikcq_queue_request jq r);
  mret 0%Z.

(** A round of [ikc_incoming_request_collector] for a packet. *)
Definition ikc_incoming_packet (junk : ikc_request) (jq : ikc_request_queue)
    (cli : sockaddr_in) (cli_len : Z) (packet : buf) : M ikcd unit :=
  if decide (Z.of_nat (length packet) < IKC_MIN_PACKET_SIZE)%Z then mret ()
  else
    v ← access (buf_get packet 0);
    t ← access (buf_get packet 1);
    if decide (schar v ≠ IKC_VERSION) then mret ()
    else if decide (schar t = IKC_PROC_CREAT_REQ) then
      _ ← ikcr_queue_process_creation_request junk jq cli cli_len packet; mret ()
    else mret ().

(** The body of the [if] and of the loop of [ikc_in_request_worker]. *)
Definition ikc_in_execute (jb : ikc_backlog_list) (r : loc) : M ikcd unit :=
  _ ← ikcbl_remove_threads_last_request r;
  _ ← ikcr_proceed_incoming_request r;
  _ ← ikcr_respond_to_client r;
  _ ← ikcbl_add_request jb r;
  mret ().

Definition ikc_in_request (jb : ikc_backlog_list) (r : loc) : M ikcd unit :=
  e ← ikcbl_try_respond_from_backlog r;
  if decide (e < 0)%Z then ikc_in_execute jb r else mret ().

(** The worker from a wake-up to its next wait. *)
Fixpoint ikc_in_request_worker (fuel : nat) (jb : ikc_backlog_list) : M ikcd unit :=
  match fuel with
  | 0 => stop OutOfFuel
  | S fuel =>
    '(e, ro) ← on_pending_in (ikcq_dequeue_request true);
    if decide (e < 0)%Z then mret ()
    else match ro with
         | Some r => _ ← ikc_in_request jb r; ikc_in_request_worker fuel jb
         | None => stop Uninit
         end
  end.

(** * Outgoing requests *)

Definition next_reply : M ikcd reply := λ s,
  match replies s with
  | [] => Ok s Timeout
  | p :: ps => Ok (with_replies ps s) p
  end.

(** The string an argument of the request [v] points to. *)
Definition arg_str (v : ikc_request) (a : arg) : M ikcd cstr :=
  match a with
  | ArgNull => stop NullDeref
  | ArgRNode => access (buf_str (r_node v) 0)
  | ArgRPid => access (buf_str (le_bytes 4 (r_pid v)) 0)
  | ArgBuf b => access (buf_str b 0)
  end.

Section ikcd.
Context {K : Type} `{!DkmctlCall K}.
Context (gethostbyname : cstr → option Z) (servaddr_room : Z) (hostname : cstr).
Context (server_id client_id : Z) (msq : Z → cstr → option cstr).

Definition on_ikcd {A} (m : M ikcd A) : M (ikcd * K) A := λ s,
  match m s.1 with Ok i a => Ok (i, s.2) a | Stop f => Stop f end.
Definition on_kernel {A} (m : M K A) : M (ikcd * K) A := λ s,
  match m s.2 with Ok k a => Ok (s.1, k) a | Stop f => Stop f end.

(** [memcpy(&servaddr.sin_addr, serv_ip, sizeof(struct sockaddr_in))] writes sixteen bytes
    from the field on, which is at offset four of a structure of sixteen bytes: the
    last four lie behind [servaddr].  [servaddr_room] is how many bytes can be written from
    the field on before something that the function uses is overwritten, which is up to
    the compiler.  The first four of the bytes are the address; the others go to
    [sin_zero], which is not used, and behind. *)
Definition copy_sin_addr (ip : Z) : M ikcd sockaddr_in :=
  if decide (servaddr_room < sizeof_sockaddr_in)%Z then stop OutOfBounds
  else mret (SockAddr ip IKC_PORT).

Definition ikcr_proceed_outgoing_request (r : loc) (tid : Z) : M ikcd Z :=
  v ← deref requests (Some r);
  node ← access (buf_str (r_node v) 0);
  match gethostbyname node with
  | None => stop Exit
  | Some ip =>
    servaddr ← copy_sin_addr ip;
    if decide (req v = IKC_PROC_CREAT_REQ) then
      _ ← store requests with_requests (Some r) (λ v, set_args (rq_arg0 v) (ArgBuf [NUL]) v);
      v ← deref requests (Some r);
      arg0 ← arg_str v (rq_arg0 v);
      arg1 ← arg_str v (rq_arg1 v);
      '(packet, packet_len) ← access (ikcp_pack_proc_creat_req
          (ikcr_pack_request_id tid (seq_nbr v)) (o_pid v) (o_node v) arg0 arg1);
      _ ← sendto servaddr packet packet_len;
      answer ← next_reply;
      match answer with
      | Timeout | RecvError => mret (-1)%Z
      | Packet p =>
        '(seq, pid) ← access (ikcp_unpack_proc_creat_resp p);
        _ ← store requests with_requests (Some r) (λ v, set_r_pid pid (set_seq_nbr seq v));
        mret 0%Z
      end
    else mret 0%Z
  end.

(** [None]: the returned variable has not been set. *)
Definition ikc_respond_to_kernel (r : loc) : M (ikcd * K) (option Z) :=
  v ← on_ikcd (deref requests (Some r));
  if decide (req v = IKC_PROC_CREAT_REQ) then
    _ ← on_ikcd (store requests with_requests (Some r) (λ v, set_args ArgRPid (rq_arg1 v) v));
    c ← on_kernel (dkmctl Dkmctl.DKM_PUT_RESP (o_pid v) (req v)
                    (Dkmctl.Argv (Dkmctl.UInt (r_pid v)) Dkmctl.UNone));
    match c with Dkmctl.Return error _ => mret (Some error) | Dkmctl.Sleep => mret None end
  else mret None.

(** [while(attempts < IKC_MAX_ATTEMPTS && error < 0)] with [n] attempts left. *)
Fixpoint attempts_loop (n : nat) (r : loc) (tid error : Z) : M ikcd Z :=
  match n with
  | 0 => mret error
  | S n =>
    if decide (error < 0)%Z then
      error ← ikcr_proceed_outgoing_request r tid;
      attempts_loop n r tid error
    else mret error
  end.

(** The body of the loop of [ikc_out_request_worker]; [seq] is its local counter. *)
Definition ikc_out_request (tid seq : Z) (r : loc) : M (ikcd * K) Z :=
  let seq := next_seq seq in
  _ ← on_ikcd (store requests with_requests (Some r) (set_seq_nbr seq));
  _ ← on_ikcd (attempts_loop IKC_MAX_ATTEMPTS r tid (-1));
  _ ← ikc_respond_to_kernel r;
  mret seq.

Fixpoint ikc_out_request_worker (fuel : nat) (tid seq : Z) : M (ikcd * K) Z :=
  match fuel with
  | 0 => stop OutOfFuel
  | S fuel =>
    '(e, ro) ← on_ikcd (on_pending_out (ikcq_dequeue_request true));
    if decide (e < 0)%Z then mret seq
    else match ro with
         | Some r => seq ← ikc_out_request tid seq r; ikc_out_request_worker fuel tid seq
         | None => stop Uninit
         end
  end.

(** * Requests of the kernel *)

(** The queue that [msgctl(client_id, IPC_RMID, NULL)] at [out] removes: without a queue of
    the server the variable has no value yet, and [junk_id] is what it holds. *)
Definition ikcr_removed_queue (junk_id : Z) : Z :=
  if decide (server_id < 0)%Z then junk_id else client_id.

(** The error and the node.  [server_id] and [client_id] are what [msgget] returns, [msq]
    is what csda answers to a message in the queue of the client, if it does.  The queues
    are not part of the state; which one is removed at the end is [ikcr_removed_queue]. *)
Definition ikcr_best_node_for_app {S} (appname : cstr) : M S (Z * cstr) :=
  if decide (server_id < 0)%Z then mret (-1, hostname)%Z
  else if decide (client_id < 0)%Z then mret (-1, hostname)%Z
  else
    msg ← sprintf 257 (decimal client_id ++ lit " " ++ appname);
    match msq client_id msg with
    | None => mret (-1, hostname)%Z
    | Some node => mret (0%Z, node)
    end.

(** One round of [ikc_get_request_from_kernel] after [DKM_GET_REQ] has returned [p] and
    [rq]: [true] means [goto again].  [junk] and [jb] are what the new request and the
    block for the file name hold. *)
Definition ikc_serve_request (app_name : buf) (junk : ikc_request) (jb : buf) (jq : ikc_request_queue)
    (p rq : Z) : M (ikcd * K) (bool * buf) :=
  if decide (rq = Dkmctl.MAP_REQ) then
    c ← on_kernel (dkmctl Dkmctl.DKM_GET_ARGS p rq (Dkmctl.Argv (Dkmctl.UBuf app_name) (Dkmctl.UInt rq)));
    match c with
    | Dkmctl.Return error (Dkmctl.Argv (Dkmctl.UBuf app_name) a1) =>
      if decide (error = 1%Z) then stop Exit
      else
        app ← access (buf_str app_name 0);
        '(_, best_node) ← ikcr_best_node_for_app app;
        _ ← on_kernel (dkmctl Dkmctl.DKM_PUT_RESP p rq (Dkmctl.Argv (Dkmctl.UBuf (best_node ++ [NUL])) a1));
        mret (true, app_name)
    | _ => stop BadPtr
    end
  else if decide (rq = IKC_PROC_CREAT_REQ) then
    r ← on_ikcd (malloc requests with_requests junk);
    _ ← on_ikcd (store requests with_requests (Some r) (λ v,
          Req (cliaddr v) (cli_len v) (request_nbr v) (host_id v) (thread_id v) (seq_nbr v) rq
              (o_node v) (r_node v) p (r_pid v) ArgRNode (ArgBuf jb)));
    v ← on_ikcd (deref requests (Some r));
    c ← on_kernel (dkmctl Dkmctl.DKM_GET_ARGS p rq (Dkmctl.Argv (Dkmctl.UBuf (r_node v)) (Dkmctl.UBuf jb)));
    match c with
    | Dkmctl.Return error (Dkmctl.Argv (Dkmctl.UBuf node) (Dkmctl.UBuf file)) =>
      if decide (error = 1%Z) then stop Exit
      else
        host ← sprintf IKC_MAX_NODE_LEN hostname;
        _ ← on_ikcd (store requests with_requests (Some r) (λ v,
              Req (cliaddr v) (cli_len v) (request_nbr v) (host_id v) (thread_id v) (seq_nbr v) (req v)
                  host node (o_pid v) (r_pid v) ArgRNode (ArgBuf file)));
        _ ← on_ikcd (on_pending_out (ikcq_queue_request jq r));
        mret (true, app_name)
    | _ => stop BadPtr
    end
  else if decide (rq = READ_REQ) then mret (true, app_name)
  else mret (false, app_name).

Fixpoint ikc_get_request_from_kernel (fuel : nat) (app_name : buf) (junk : ikc_request) (jb : buf)
    (jq : ikc_request_queue) : M (ikcd * K) Z :=
  match fuel with
  | 0 => stop OutOfFuel
  | S fuel =>
    c ← on_kernel (dkmctl Dkmctl.DKM_GET_REQ 0 0 (Dkmctl.Argv (Dkmctl.UInt 0) (Dkmctl.UInt 0)));
    match c with
    | Dkmctl.Return error (Dkmctl.Argv (Dkmctl.UInt p) (Dkmctl.UInt rq)) =>
      if decide (error = 1%Z) then mret 0%Z
      else
        '(again, app_name) ← ikc_serve_request app_name junk jb jq p rq;
        if again : bool then ikc_get_request_from_kernel fuel app_name junk jb jq else mret (-1)%Z
    | _ => stop BadPtr
    end
  end.
End ikcd.
