(* ===== verification/IkcdIn.v ===== *)
(** The workers for incoming requests (Ikcd.v): every request that reaches a worker is
    answered, a worker executes a request number at most once, and the backlog never
    shrinks. *)

From Stdlib Require Import ZArith Lia Strings.Byte.
From stdpp Require Import base list gmap strings.
From S2P Require Import Prelude.
From S2P Require Import Cbuf.
From S2P Require Import Ikcp.
From S2P Require Import Ikcq.
From S2P Require Import IkcqRep.
From S2P Require Import IkcqProps.
From S2P Require Import IkcState.
From S2P Require Import Ikcbl.
From S2P Require Import IkcblRep.
From S2P Require Import Ikcd.

(** * One request *)

(** A queued request: its location, its number and the address of its client. *)
Record job : Type := Job { job_req : loc; job_nbr : Z; job_addr : sockaddr_in }.

Definition job_ok (s : ikcd) (j : job) : Prop :=
  ∃ w aw, requests s !! job_req j = Some w ∧ request_nbr w = job_nbr j ∧ cliaddr w = Some aw ∧
    addrs s !! aw = Some (job_addr j) ∧ req w = IKC_PROC_CREAT_REQ.

(** No two of the requests [R] share the address of a client. *)
Definition addrs_owned (s : ikcd) (R : list loc) : Prop :=
  ∀ r1 r2 v1 v2 a, r1 ∈ R → r2 ∈ R → requests s !! r1 = Some v1 → requests s !! r2 = Some v2 →
    cliaddr v1 = Some a → cliaddr v2 = Some a → r1 = r2.

(** The next block is not in use. *)
Definition mem_fresh (s : ikcd) : Prop :=
  (∀ r, is_Some (requests s !! r) → (r < fresh s)%positive) ∧
  (∀ a, is_Some (addrs s !! a) → (a < fresh s)%positive).

(** The numbers and the pids of the backlog. *)
Definition bl_abs (s : ikcd) (ls : list (loc * loc)) (bk : list (Z * Z)) : Prop :=
  Forall2 (λ x y, ∃ v, requests s !! x.2 = Some v ∧ request_nbr v = y.1 ∧ r_pid v = y.2) ls bk.

(** The pid that answers a request with a number, and the backlog afterwards. *)
Definition a_answer (bk : list (Z * Z)) (n : Z) : Z * list (Z * Z) :=
  match List.find (λ y, Z.eqb y.1 n) bk with
  | Some y => (y.2, bk)
  | None => (76%Z, (n, 76%Z) :: bk)
  end.

(** The executions that it takes. *)
Definition a_new (bk : list (Z * Z)) (n : Z) : list Z :=
  match List.find (λ y, Z.eqb y.1 n) bk with Some _ => [] | None => [n] end.

Lemma bl_abs_find s ls bk n :
  bl_abs s ls bk →
  match bl_number s n ls with
  | Some (l, r) => ∃ v, requests s !! r = Some v ∧ List.find (λ y, Z.eqb y.1 n) bk = Some (n, r_pid v)
  | None => List.find (λ y, Z.eqb y.1 n) bk = None
  end.
Proof.
  unfold bl_number, bl_first. induction 1 as [|[l r] [m p] ls bk (v & Hv & Hm & Hp) Hall IH]; [done|].
  cbn in *. rewrite Hv. destruct (Z.eqb_spec m n) as [E|Hne].
  - rewrite bool_decide_eq_false_2 by (intros H; apply H; congruence). cbn. exists v.
    split; [done|]. congruence.
  - rewrite bool_decide_eq_true_2 by congruence. cbn. exact IH.
Qed.

Lemma bl_abs_frame s s' ls bk :
  bl_abs s ls bk → (∀ r, r ∈ ls.*2 → requests s' !! r = requests s !! r) → bl_abs s' ls bk.
Proof.
  induction 1 as [|[l r] [m p] ls bk (v & Hv & ?) Hall IH]; intros Hf; [constructor|].
  constructor; [exists v; cbn in *; rewrite Hf by (by left); done|].
  apply IH. intros. apply Hf. by right.
Qed.

Definition response (n pid : Z) : buf := creat_resp_bytes (ikcr_unpack_req_id n) pid.

Lemma brep_frame s s' ls :
  brep s ls → backlog s' = backlog s → list_head s' = list_head s → fresh s' = fresh s →
  backlog_mutex s' = backlog_mutex s →
  (∀ r, r ∈ ls.*2 → requests s' !! r = requests s !! r ∧ addrs s' = addrs s) → brep s' ls.
Proof.
  intros [H1 H2 H3 H4 H5 H6] Eb Eh Ef Em Er. split; rewrite ?Eb, ?Eh, ?Ef, ?Em; try done.
  intros r Hr. destruct (Er r Hr) as [E1 E2]. unfold answered. rewrite E1, E2. by apply H6.
Qed.

Lemma owned_update s R w r z r1 r2 v1 v2 a :
  addrs_owned s R → requests s !! r = Some w → r1 ∈ R → r2 ∈ R →
  <[r := set_r_pid z w]> (requests s) !! r1 = Some v1 → <[r := set_r_pid z w]> (requests s) !! r2 = Some v2 →
  cliaddr v1 = Some a → cliaddr v2 = Some a → r1 = r2.
Proof.
  intros Ho Hw HR1 HR2 H1 H2 E1 E2.
  assert (∀ q v, <[r := set_r_pid z w]> (requests s) !! q = Some v → cliaddr v = Some a →
    ∃ v', requests s !! q = Some v' ∧ cliaddr v' = Some a) as Hx.
  { intros q v Hq Ea. destruct (decide (r = q)) as [<-|]; [|rewrite lookup_insert_ne in Hq; eauto].
    rewrite lookup_insert_eq in Hq. injection Hq as <-. by exists w. }
  destruct (Hx _ _ H1 E1) as (u1 & ? & ?), (Hx _ _ H2 E2) as (u2 & ? & ?). by apply (Ho r1 r2 u1 u2 a).
Qed.

(** A request that is executed: it is answered with the pid 76 and is the newest of the
    backlog. *)
Lemma execute_rep jb s ls r w aw addr :
  brep s ls → requests s !! r = Some w → cliaddr w = Some aw → addrs s !! aw = Some addr →
  req w = IKC_PROC_CREAT_REQ → r ∉ ls.*2 → bl_number s (request_nbr w) ls = None →
  runs (ikc_in_execute jb r) s (λ s' _, brep s' ((fresh s, r) :: ls) ∧ fresh s' = Pos.succ (fresh s) ∧
    requests s' = <[r := set_r_pid 76 w]> (requests s) ∧ addrs s' = addrs s ∧
    sent s' = (addr, response (request_nbr w) 76) :: sent s ∧ pending_in s' = pending_in s ∧
    executed s' = request_nbr w :: executed s).
Proof.
  intros Hb Hw Haw Haddr Hreq Hnot E. unfold ikc_in_execute.
  destruct (remove_last_absent s ls _ w Hb Hw E) as [e Er].
  apply runs_bind. eapply runs_eq; [exact Er|]. cbn beta iota.
  set (w' := set_r_pid 76 w).
  set (s1 := with_requests (<[r := w']> (requests s)) (with_executed (request_nbr w :: executed s) s)).
  apply runs_bind. eapply (runs_eq _ _ s1 0%Z).
  { unfold ikcr_proceed_incoming_request. erewrite bind_Ok by (by apply deref_eq).
    erewrite bind_Ok by reflexivity. rewrite decide_True by done.
    erewrite bind_Ok by (unfold store; cbn; by rewrite Hw). done. }
  cbn beta iota. apply runs_bind.
  eapply runs_eq; [apply (respond_eq s1 _ w' aw addr); [apply lookup_insert_eq|done..]|].
  cbn beta iota. set (s2 := sending _ _ s1).
  assert (brep s2 ls) as Hb2.
  { apply (brep_frame s); [exact Hb|done..|]. intros q Hq. split; [|done].
    apply lookup_insert_ne. by intros ->. }
  assert (answered s2 r) as Ha2.
  { exists w', aw, addr. split_and!; [apply lookup_insert_eq|done..]. }
  apply runs_bind. eapply runs_mono; [by apply add_rep|].
  intros s3 e3 (_ & Hb3 & Hf3 & Hr3 & Had3 & Hs3 & Hp3 & _ & _ & He3). cbn beta iota. by apply runs_ret.
Qed.

(** What a round of the worker does: the backlog and the address that is answered. *)
Lemma in_request_rep jb s ls bk j R :
  brep s ls → bl_abs s ls bk → addrs_owned s R → job_req j ∈ R → ls.*2 ⊆ R → mem_fresh s → job_ok s j → job_req j ∉ ls.*2 →
  runs (ikc_in_request jb (job_req j)) s (λ s' _, ∃ ls',
    brep s' ls' ∧ bl_abs s' ls' (a_answer bk (job_nbr j)).2 ∧ addrs_owned s' R ∧ mem_fresh s' ∧
    sent s' = (job_addr j, response (job_nbr j) (a_answer bk (job_nbr j)).1) :: sent s ∧
    executed s' = a_new bk (job_nbr j) ++ executed s ∧
    (ls'.*2 = ls.*2 ∨ ls'.*2 = job_req j :: ls.*2) ∧ pending_in s' = pending_in s ∧
    (∀ j', job_ok s j' → job_req j' ∈ R → job_req j' ≠ job_req j → job_req j' ∉ ls.*2 → job_ok s' j')).
Proof.
  intros Hb Hbk Hown HjR HlsR [Hmr Hma] (w & aw & Hw & Hn & Haw & Haddr & Hreq) Hnot.
  unfold ikc_in_request, a_answer, a_new. pose proof (bl_abs_find _ _ _ (job_nbr j) Hbk) as Hf.
  rewrite <- Hn in Hf |- *. destruct (bl_number s (request_nbr w) ls) as [[l r0]|] eqn:E.
  - destruct Hf as (v & Hv & ->). pose proof (bl_number_Some _ _ _ _ _ E) as (Hin & _).
    assert (r0 ∈ ls.*2) as Hr0 by (by apply (list_elem_of_fmap_2 snd _ (l, r0))).
    destruct (brep_requests _ _ Hb r0 Hr0) as (v' & a0 & addr0 & Hv' & Ha0 & Haddr0 & Hreq0).
    rewrite Hv in Hv'. injection Hv' as <-.
    apply runs_bind. eapply runs_eq; [by eapply (try_respond_present s ls)|]. cbn beta iota.
    rewrite decide_False by lia. apply runs_ret. cbn [snd fst]. exists ls. split_and!.
    + destruct Hb as [H1 H2 H3 H4 H5 H6]. split; try done. intros r Hr.
      destruct (H6 r Hr) as (v' & a' & addr' & ? & ? & Ha' & ?). exists v', a'. cbn.
      destruct (decide (a0 = a')) as [<-|]; [exists (job_addr j)|exists addr']; map_reads; done.
    + exact Hbk.
    + exact Hown.
    + split; [exact Hmr|]. intros a. cbn. destruct (decide (a0 = a)) as [<-|]; map_reads; [|apply Hma].
      intros _. apply Hma. by eexists.
    + done.
    + done.
    + by left.
    + done.
    + intros j' (w' & a' & ? & ? & ? & ? & ?) Hj'R Hne Hnin. exists w', a'. cbn.
      split_and!; try done. rewrite lookup_insert_ne; [done|]. intros ->.
      apply Hnin. rewrite <- (Hown r0 (job_req j') v w' a'); auto.
  - apply runs_bind. eapply runs_eq; [by eapply (try_respond_absent s ls)|]. cbn beta iota.
    rewrite decide_True by lia. rewrite Hf. cbn [snd fst]. rewrite Hn.
    eapply runs_mono; [by eapply (execute_rep jb s ls (job_req j) w aw (job_addr j))|].
    intros s3 _ (Hb3 & Hf3 & Hr3 & Had3 & Hs3 & Hp3 & He3).
    assert (∀ r, r ≠ job_req j → requests s3 !! r = requests s !! r) as Hsame.
    { intros r Hr. rewrite Hr3. apply lookup_insert_ne. congruence. }
    exists ((fresh s, job_req j) :: ls). split_and!; [done|..].
    + constructor; [exists (set_r_pid 76 w); rewrite Hr3; split_and!; [apply lookup_insert_eq|done..]|].
      apply (bl_abs_frame s); [exact Hbk|]. intros r Hr. apply Hsame. by intros ->.
    + intros r1 r2 v1 v2 a HR1 HR2. rewrite Hr3. by apply (owned_update s R w).
    + split; intros x; rewrite ?Hr3, ?Had3, Hf3.
      * destruct (decide (job_req j = x)) as [<-|]; map_reads.
        -- intros _. pose proof (Hmr (job_req j) ltac:(by eexists)). lia.
        -- intros Hx%Hmr. lia.
      * intros Hx%Hma. lia.
    + by rewrite Hs3, Hn.
    + by rewrite He3, Hn.
    + by right.
    + by rewrite Hp3.
    + intros j' (v & a & ? & ? & ? & ? & ?) _ Hne _. exists v, a. rewrite Had3, Hsame; done.
Qed.

(** * The worker *)

(** The pids that answer a sequence of numbers, and the backlog afterwards. *)
Fixpoint a_answers (bk : list (Z * Z)) (ns : list Z) : list Z * list (Z * Z) :=
  match ns with
  | [] => ([], bk)
  | n :: ns => let '(p, bk) := a_answer bk n in let '(ps, bk) := a_answers bk ns in (p :: ps, bk)
  end.

(** The numbers that are executed for a sequence of numbers. *)
Fixpoint a_executed (bk : list (Z * Z)) (ns : list Z) : list Z :=
  match ns with
  | [] => []
  | n :: ns => a_new bk n ++ a_executed (a_answer bk n).2 ns
  end.

(** The packets that answer jobs with pids. *)
Definition packets (js : list job) (ps : list Z) : list (sockaddr_in * buf) :=
  zip_with (λ j p, (job_addr j, response (job_nbr j) p)) js ps.

(** A state in which the jobs [js] are queued and the backlog is [bk]. *)
Record in_state (s : ikcd) (ls : list (loc * loc)) (bk : list (Z * Z)) (js : list job) : Prop := {
  in_rep : brep s ls;
  in_abs : bl_abs s ls bk;
  in_owned : addrs_owned s ((job_req <$> js) ++ ls.*2);
  in_fresh : mem_fresh s;
  in_jobs : Forall (job_ok s) js;
  in_distinct : NoDup ((job_req <$> js) ++ ls.*2);
  in_queue : ∃ log, holds_queue (pending_in s) (Fifo (job_req <$> js) log)
}.

Lemma dequeue_in s r rs log :
  holds_queue (pending_in s) (Fifo (r :: rs) log) →
  ∃ q, on_pending_in (ikcq_dequeue_request true) s = Ok (with_queues q (pending_out s) s) (0%Z, Some r) ∧
    holds_queue q (Fifo rs log).
Proof.
  intros Hq. destruct (ikcq_dequeue_refines true _ _ Hq) as (q & E & Hq'). exists q.
  unfold on_pending_in. by rewrite E.
Qed.

Lemma dequeue_in_empty s log :
  holds_queue (pending_in s) (Fifo [] log) →
  ∃ q, on_pending_in (ikcq_dequeue_request true) s = Ok (with_queues q (pending_out s) s) (- E_IKC_NOQUEUE, None)%Z ∧
    holds_queue q (Fifo [] log).
Proof.
  intros Hq. destruct (ikcq_dequeue_refines true _ _ Hq) as (q & E & Hq'). exists q.
  unfold on_pending_in. by rewrite E.
Qed.

Lemma in_state_step jb s ls bk j js :
  in_state s ls bk (j :: js) →
  ∃ s1 s2 ls2, on_pending_in (ikcq_dequeue_request true) s = Ok s1 (0%Z, Some (job_req j)) ∧
    ikc_in_request jb (job_req j) s1 = Ok s2 () ∧
    in_state s2 ls2 (a_answer bk (job_nbr j)).2 js ∧
    sent s2 = (job_addr j, response (job_nbr j) (a_answer bk (job_nbr j)).1) :: sent s ∧
    executed s2 = a_new bk (job_nbr j) ++ executed s.
Proof.
  intros [Hb Ha Ho Hm [Hj Hjs]%Forall_cons Hnd [log Hq]].
  cbn [fmap list_fmap app] in Hnd, Hq. apply NoDup_cons in Hnd as [Hn Hnd].
  destruct (dequeue_in _ _ _ _ Hq) as (q & E & Hq'). set (s1 := with_queues q (pending_out s) s) in *.
  assert (brep s1 ls) as Hb1 by (by apply (brep_frame s)).
  assert (job_req j ∉ ls.*2) as Hnl by (intros ?; apply Hn, elem_of_app; by right).
  assert (job_req j ∈ (job_req <$> j :: js) ++ ls.*2) as HjR by (by left).
  assert (ls.*2 ⊆ (job_req <$> j :: js) ++ ls.*2) as HlsR by set_solver.
  destruct (runs_inv _ _ _ (in_request_rep jb s1 ls bk j _ Hb1 Ha Ho HjR HlsR Hm Hj Hnl))
    as (s2 & [] & E2 & ls2 & Hb2 & Ha2 & Ho2 & Hm2 & Hs2 & He2 & Hsub & Hp2 & Hpres).
  exists s1, s2, ls2. split_and!; [done|done| |done|done].
  split; [done|done| |done| | |exists log; by rewrite Hp2].
  - intros r1 r2 v1 v2 a H1 H2. apply Ho2; destruct Hsub as [E0|E0]; rewrite E0 in *; set_solver.
  - apply Forall_forall. intros j' Hin. rewrite Forall_forall in Hjs. apply Hpres.
    + by apply Hjs.
    + apply elem_of_app. left. right. by apply list_elem_of_fmap_2.
    + intros Heq. apply Hn, elem_of_app. left. rewrite <- Heq. by apply list_elem_of_fmap_2.
    + intros Hin2. apply NoDup_app in Hnd as (_ & Hdis & _). eapply Hdis; [|exact Hin2].
      by apply list_elem_of_fmap_2.
  - destruct Hsub as [->| ->]; [done|]. rewrite <- Permutation_middle. by apply NoDup_cons.
Qed.

Lemma a_answers_cons bk n ns :
  a_answers bk (n :: ns) = ((a_answer bk n).1 :: (a_answers (a_answer bk n).2 ns).1, (a_answers (a_answer bk n).2 ns).2).
Proof. simpl. destruct (a_answer bk n) as [p bk1]. simpl. by destruct (a_answers bk1 ns). Qed.

Lemma a_answers_length bk ns : length (a_answers bk ns).1 = length ns.
Proof.
  revert bk. induction ns as [|n ns IH]; intros bk; [done|]. rewrite a_answers_cons. cbn. by rewrite IH.
Qed.

Lemma ikc_in_worker_run jb s ls bk js fuel :
  in_state s ls bk js → length js < fuel →
  ∃ s' ls', ikc_in_request_worker fuel jb s = Ok s' () ∧
    in_state s' ls' (a_answers bk (job_nbr <$> js)).2 [] ∧
    sent s' = rev (packets js (a_answers bk (job_nbr <$> js)).1) ++ sent s ∧
    executed s' = rev (a_executed bk (job_nbr <$> js)) ++ executed s.
Proof.
  revert s ls bk fuel. induction js as [|j js IH]; intros s ls bk [|fuel] Hs Hf; simpl in Hf; try lia;
    cbn [ikc_in_request_worker].
  - pose proof Hs as [Hb Ha Ho Hm Hj Hnd [log Hq]]. destruct (dequeue_in_empty _ _ Hq) as (q & E & Hq').
    erewrite bind_Ok by exact E. cbn beta iota.
    exists (with_queues q (pending_out s) s), ls. split_and!; [done| |done|done].
    split; [by apply (brep_frame s)|done|done|done|constructor|done|by exists log].
  - destruct (in_state_step jb _ _ _ _ _ Hs) as (s1 & s2 & ls2 & E1 & E2 & Hs2 & Hsent & Hexec).
    destruct (IH s2 ls2 _ fuel Hs2) as (s' & ls' & E3 & Hs' & Hsent' & Hexec'); [lia|].
    exists s', ls'. erewrite bind_Ok by exact E1. cbn beta iota.
    rewrite decide_False by lia. erewrite bind_Ok by exact E2.
    split; [exact E3|]. change (job_nbr <$> j :: js) with (job_nbr j :: (job_nbr <$> js)).
    rewrite a_answers_cons. cbn [fst snd]. split; [done|].
    rewrite Hsent', Hsent, Hexec', Hexec. cbn [packets zip_with rev a_executed].
    rewrite <- app_assoc. split; [done|]. unfold a_new.
    destruct (List.find _ bk); [done|]. cbn [app rev]. by rewrite <- app_assoc.
Qed.

(** a worker that wakes up answers every queued request, in the order of the queue and
    to the address of its client, and waits again with an empty queue.  A request whose
    number is in the backlog is answered with the pid that is there, and every other is
    executed and its number added: nothing is ever removed from the backlog. *)
Theorem ikc_in_worker_answers jb s ls bk js fuel :
  in_state s ls bk js → length js < fuel →
  ∃ s' ls', ikc_in_request_worker fuel jb s = Ok s' () ∧
    in_state s' ls' (a_answers bk (job_nbr <$> js)).2 [] ∧
    sent s' = rev (packets js (a_answers bk (job_nbr <$> js)).1) ++ sent s ∧
    executed s' = rev (a_executed bk (job_nbr <$> js)) ++ executed s.
Proof. apply ikc_in_worker_run. Qed.

(** ** What that means for the numbers *)

Lemma a_answer_find bk n : List.find (λ y, Z.eqb y.1 n) (a_answer bk n).2 = Some (n, (a_answer bk n).1).
Proof.
  unfold a_answer. destruct (List.find _ bk) as [y|] eqn:E.
  - cbn. rewrite E. apply find_some in E as [_ Hy%Z.eqb_eq]. by destruct y; cbn in *; subst.
  - cbn. by rewrite Z.eqb_refl.
Qed.

Lemma a_answer_keeps bk n m y :
  List.find (λ y, Z.eqb y.1 m) bk = Some y → List.find (λ y, Z.eqb y.1 m) (a_answer bk n).2 = Some y.
Proof.
  intros Hm. unfold a_answer. destruct (List.find (λ y, Z.eqb y.1 n) bk) as [y'|] eqn:E; [done|].
  cbn. destruct (Z.eqb_spec n m) as [->|]; [congruence|done].
Qed.

Lemma a_answers_keeps bk ns m y :
  List.find (λ y, Z.eqb y.1 m) bk = Some y → List.find (λ y, Z.eqb y.1 m) (a_answers bk ns).2 = Some y.
Proof.
  revert bk. induction ns as [|n ns IH]; intros bk Hm; [done|].
  rewrite a_answers_cons. cbn [snd]. by apply IH, a_answer_keeps.
Qed.

Lemma a_answers_lookup bk ns i n :
  ns !! i = Some n →
  ∃ p, (a_answers bk ns).1 !! i = Some p ∧
    List.find (λ y, Z.eqb y.1 n) (a_answers bk ns).2 = Some (n, p).
Proof.
  revert bk i. induction ns as [|m ns IH]; intros bk [|i] Hi; simplify_eq/=; [| ].
  - rewrite (surjective_pairing (a_answer bk n)), (surjective_pairing (a_answers (a_answer bk n).2 ns)). cbn.
    eexists. split; [done|]. apply a_answers_keeps, a_answer_find.
  - rewrite (surjective_pairing (a_answer bk m)), (surjective_pairing (a_answers (a_answer bk m).2 ns)). cbn.
    by apply IH.
Qed.

Lemma a_answer_nodup bk n : NoDup bk.*1 → NoDup (a_answer bk n).2.*1.
Proof.
  intros Hnd. unfold a_answer. destruct (List.find (λ y, Z.eqb y.1 n) bk) as [y|] eqn:E; [done|].
  cbn. apply NoDup_cons. split; [|done]. intros ([m p] & -> & Hin)%list_elem_of_fmap.
  apply list_elem_of_In, (find_none _ _ E) in Hin. cbn in Hin. lia.
Qed.

Lemma a_answers_nodup bk ns : NoDup bk.*1 → NoDup (a_answers bk ns).2.*1.
Proof.
  revert bk. induction ns as [|n ns IH]; intros bk Hnd; [done|].
  rewrite a_answers_cons. by apply IH, a_answer_nodup.
Qed.

Lemma a_answer_numbers bk n m : m ∈ (a_answer bk n).2.*1 ↔ m = n ∨ m ∈ bk.*1.
Proof.
  unfold a_answer. destruct (List.find (λ y, Z.eqb y.1 n) bk) as [y|] eqn:E.
  - apply find_some in E as [Hin Hy%Z.eqb_eq]. cbn. split; [by right|]. intros [->|]; [|done].
    rewrite <- Hy. apply list_elem_of_fmap_2. by apply list_elem_of_In.
  - cbn. apply elem_of_cons.
Qed.

Lemma a_new_elem bk n m : m ∈ a_new bk n ↔ m = n ∧ m ∉ bk.*1.
Proof.
  unfold a_new. destruct (List.find (λ y, Z.eqb y.1 n) bk) as [y|] eqn:E.
  - apply find_some in E as [Hin Hy%Z.eqb_eq]. split; [by intros ?%elem_of_nil|]. intros [-> Hn]. destruct Hn.
    rewrite <- Hy. apply list_elem_of_fmap_2. by apply list_elem_of_In.
  - rewrite list_elem_of_singleton. split; [|by intros []]. intros ->. split; [done|].
    intros ([k p] & -> & Hin)%list_elem_of_fmap. apply list_elem_of_In, (find_none _ _ E) in Hin. cbn in Hin. lia.
Qed.

Lemma a_executed_elem bk ns m : m ∈ a_executed bk ns ↔ m ∈ ns ∧ m ∉ bk.*1.
Proof.
  revert bk. induction ns as [|n ns IH]; intros bk; cbn [a_executed]; [set_solver|].
  rewrite elem_of_app, a_new_elem, IH, a_answer_numbers, elem_of_cons.
  destruct (decide (m = n)); naive_solver.
Qed.

Lemma a_executed_nodup bk ns : NoDup (a_executed bk ns).
Proof.
  revert bk. induction ns as [|n ns IH]; intros bk; cbn [a_executed]; [apply NoDup_nil_2|].
  apply NoDup_app. split_and!; [|intros m [-> _]%a_new_elem [_ Hm]%a_executed_elem; apply Hm|apply IH].
  - unfold a_new. destruct (List.find _ bk); [apply NoDup_nil_2|apply NoDup_singleton].
  - apply a_answer_numbers. by left.
Qed.

Lemma a_answers_numbers bk ns m : m ∈ (a_answers bk ns).2.*1 ↔ m ∈ ns ∨ m ∈ bk.*1.
Proof.
  revert bk. induction ns as [|n ns IH]; intros bk; [cbn; set_solver|].
  rewrite a_answers_cons. cbn [snd]. rewrite IH, a_answer_numbers, elem_of_cons. naive_solver.
Qed.

(** The search for a number finds its only entry. *)
Lemma find_number (l : list (Z * Z)) n p :
  NoDup l.*1 → (n, p) ∈ l → List.find (λ y, Z.eqb y.1 n) l = Some (n, p).
Proof.
  induction l as [|[m q] l IH]; intros Hnd Hin; [by apply elem_of_nil in Hin|].
  apply NoDup_cons in Hnd as [Hm Hnd]. cbn. apply elem_of_cons in Hin as [[= -> ->]|Hin]; [by rewrite Z.eqb_refl|].
  destruct (Z.eqb_spec m n) as [->|]; [|by apply IH].
  destruct Hm. by apply (list_elem_of_fmap_2 fst _ (n, p)).
Qed.

Lemma find_number_in (l : list (Z * Z)) n p : List.find (λ y, Z.eqb y.1 n) l = Some (n, p) → (n, p) ∈ l.
Proof. intros Hl. apply find_some in Hl as [Hl _]. by apply list_elem_of_In. Qed.

(** C38: a request number is executed at most once by a worker that no other worker
    interrupts (two that overlap can execute it twice, see IkcdRace).  The numbers it
    executes, of which [executed] is the record, are distinct; they are those of the
    queued requests that were not in the backlog before, so that a client that comes back
    to a number, as its sequence numbers do after 1024 requests, gets the answer of the old
    request and nothing is executed.  If so far no number has been executed twice and all
    that have are in the backlog, this is so afterwards.  The numbers of the backlog are
    distinct, every answered number is among them with the pid it was answered with, and
    a number that was in the backlog before is still there and has been answered with its
    old pid. *)
Theorem ikc_in_at_most_once jb s ls bk js fuel :
  in_state s ls bk js → NoDup bk.*1 → length js < fuel →
  ∃ s' ls' bk' ps ex, ikc_in_request_worker fuel jb s = Ok s' () ∧
    executed s' = rev ex ++ executed s ∧ NoDup ex ∧
    (∀ n, n ∈ ex ↔ n ∈ job_nbr <$> js ∧ n ∉ bk.*1) ∧
    (NoDup (executed s) → executed s ⊆ bk.*1 → NoDup (executed s') ∧ executed s' ⊆ bk'.*1) ∧
    bl_abs s' ls' bk' ∧ NoDup bk'.*1 ∧
    sent s' = rev (packets js ps) ++ sent s ∧ length ps = length js ∧
    (∀ i j p, js !! i = Some j → ps !! i = Some p → (job_nbr j, p) ∈ bk') ∧
    (∀ n p, (n, p) ∈ bk → (n, p) ∈ bk') ∧
    (∀ i j p, js !! i = Some j → (job_nbr j, p) ∈ bk → ps !! i = Some p).
Proof.
  intros Hs Hnd Hf. destruct (ikc_in_worker_run jb s ls bk js fuel Hs Hf) as (s' & ls' & E & Hs' & Hsent & Hex).
  set (ns := job_nbr <$> js) in *.
  assert (∀ i j, js !! i = Some j → ns !! i = Some (job_nbr j)) as Hns.
  { intros i j Hj. unfold ns. by rewrite list_lookup_fmap, Hj. }
  exists s', ls', (a_answers bk ns).2, (a_answers bk ns).1, (a_executed bk ns). split_and!; try done.
  - apply a_executed_nodup.
  - apply a_executed_elem.
  - intros Hnd0 Hsub. rewrite Hex, rev_alt. fold (reverse (a_executed bk ns)). split.
    + apply NoDup_app. split_and!; [rewrite reverse_Permutation; apply a_executed_nodup| |done].
      intros m Hm. rewrite elem_of_reverse, a_executed_elem in Hm. intros ?%Hsub. by apply Hm.
    + intros m [Hm|Hm%Hsub]%elem_of_app; apply a_answers_numbers; [left|by right].
      rewrite elem_of_reverse, a_executed_elem in Hm. apply Hm.
  - apply Hs'.
  - by apply a_answers_nodup.
  - rewrite a_answers_length. apply length_fmap.
  - intros i j p Hj Hp. destruct (a_answers_lookup bk ns i _ (Hns _ _ Hj)) as (p' & Hp' & Hf').
    rewrite Hp in Hp'. injection Hp' as <-. by apply find_number_in.
  - intros n p Hin. by apply find_number_in, a_answers_keeps, find_number.
  - intros i j p Hj Hin. destruct (a_answers_lookup bk ns i _ (Hns _ _ Hj)) as (p' & Hp' & Hf').
    pose proof (a_answers_keeps bk ns _ _ (find_number _ _ _ Hnd Hin)). congruence.
Qed.
