(* ===== verification/IkcdCollect.v ===== *)
(** The collector of incoming packets with the workers (Ikcd.v): from the packet of a
    client to the answer. *)

From Stdlib Require Import ZArith Lia Strings.Byte.
From stdpp Require Import base list gmap strings.
From S2P Require Import Prelude.
From S2P Require Import Cbuf.
From S2P Require Import Ikcp.
From S2P Require Import Ikcq.
From S2P Require Import IkcqRep.
From S2P Require Import IkcqProps.
From S2P Require Import IkcState.
From S2P Require Import Ikcbl.
From S2P Require Import IkcblRep.
From S2P Require Import Ikcd.
From S2P Require Import IkcdIn.

Lemma queue_in jq r s rs log :
  holds_queue (pending_in s) (Fifo rs log) →
  ∃ q, on_pending_in (ikcq_queue_request jq r) s = Ok (with_queues q (pending_out s) s) 0%Z ∧
    holds_queue q (Fifo (rs ++ [r]) log).
Proof.
  intros Hq. destruct (ikcq_queue_refines jq r _ _ Hq) as (q & E & Hq'). exists q.
  unfold on_pending_in. by rewrite E.
Qed.

(** A new request with a new address does not disturb what the state holds. *)
Lemma brep_new s s' ls :
  brep s ls → mem_fresh s → backlog s' = backlog s → list_head s' = list_head s →
  backlog_mutex s' = backlog_mutex s → (fresh s ≤ fresh s')%positive →
  (∀ r, r ≠ fresh s → requests s' !! r = requests s !! r) →
  (∀ a, (a < fresh s)%positive → addrs s' !! a = addrs s !! a) → brep s' ls.
Proof.
  intros [H1 H2 H3 H4 H5 H6] [Hr Ha] Eb Eh Em Hf Er Ea. split; rewrite ?Eb, ?Eh, ?Em; try done.
  - intros l Hl%H4. lia.
  - intros r Hin. destruct (H6 r Hin) as (v & a & addr & Hv & Hc & Had & Hq).
    assert (r ≠ fresh s) by (intros ->; specialize (Hr (fresh s) ltac:(by eexists)); lia).
    assert (a < fresh s)%positive by (apply Ha; by eexists).
    exists v, a, addr. by rewrite Er, Ea.
Qed.

(** What the collector adds: a request [w] and the address [cli] it points to, in the next
    two blocks. *)
Record adds_request (s s' : ikcd) (w : ikc_request) (cli : sockaddr_in) : Prop := {
  add_requests r : r ≠ fresh s → requests s' !! r = requests s !! r;
  add_addrs a : a ≠ Pos.succ (fresh s) → addrs s' !! a = addrs s !! a;
  add_new : requests s' !! fresh s = Some w;
  add_cliaddr : cliaddr w = Some (Pos.succ (fresh s));
  add_addr : addrs s' !! Pos.succ (fresh s) = Some cli;
  add_req : req w = IKC_PROC_CREAT_REQ;
  add_fresh : fresh s' = Pos.succ (Pos.succ (fresh s));
  add_backlog : backlog s' = backlog s ∧ list_head s' = list_head s ∧ backlog_mutex s' = backlog_mutex s
}.

Section adds.
Context (s s' : ikcd) (w : ikc_request) (cli : sockaddr_in).
Hypothesis Hadd : adds_request s s' w cli.
Hypothesis Hfresh : mem_fresh s.

Lemma old_request r v : requests s !! r = Some v → r ≠ fresh s.
Proof. destruct Hfresh as [Hr _]. intros Hv ->. specialize (Hr (fresh s) ltac:(by eexists)). lia. Qed.

Lemma old_addr a v : addrs s !! a = Some v → a ≠ Pos.succ (fresh s).
Proof. destruct Hfresh as [_ Ha]. intros Hv ->. specialize (Ha _ ltac:(by eexists)). lia. Qed.

Lemma adds_brep ls : brep s ls → brep s' ls.
Proof.
  destruct Hadd as [Hr Ha _ _ _ _ Hf (? & ? & ?)]. intros Hb. apply (brep_new s); try done; [lia|].
  intros a Hlt. apply Ha. lia.
Qed.

Lemma adds_abs ls bk : brep s ls → bl_abs s ls bk → bl_abs s' ls bk.
Proof.
  intros Hb Hbk. apply (bl_abs_frame s); [exact Hbk|]. intros r Hr. apply (add_requests _ _ _ _ Hadd).
  destruct (brep_requests_some _ _ _ Hb Hr) as [v Hv]. by eapply old_request.
Qed.

Lemma adds_job j : job_ok s j → job_ok s' j.
Proof.
  intros (v & a & Hv & ? & ? & Ha & ?). exists v, a.
  rewrite (add_requests _ _ _ _ Hadd) by (by eapply old_request).
  by rewrite (add_addrs _ _ _ _ Hadd) by (by eapply old_addr).
Qed.

Lemma adds_mem_fresh : mem_fresh s'.
Proof.
  destruct Hfresh as [Hmr Hma], Hadd as [Hr Ha _ _ _ _ Hf _]. split; intros x Hx; rewrite Hf.
  - destruct (decide (x = fresh s)) as [->|Hne]; [lia|]. rewrite Hr in Hx by done. apply Hmr in Hx. lia.
  - destruct (decide (x = Pos.succ (fresh s))) as [->|Hne]; [lia|]. rewrite Ha in Hx by done.
    apply Hma in Hx. lia.
Qed.

(** The new request shares its address with none of the others. *)
Lemma adds_owned R :
  (∀ r, r ∈ R → ∃ v a addr, requests s !! r = Some v ∧ cliaddr v = Some a ∧ addrs s !! a = Some addr) →
  addrs_owned s R → addrs_owned s' (fresh s :: R).
Proof.
  intros HR Ho.
  assert (∀ r v a, r ∈ fresh s :: R → requests s' !! r = Some v → cliaddr v = Some a →
    (r = fresh s ∧ a = Pos.succ (fresh s)) ∨ (r ∈ R ∧ requests s !! r = Some v ∧ a ≠ Pos.succ (fresh s)))
    as Hcase.
  { intros r v a Hin Hv Hc. apply elem_of_cons in Hin as [->|Hin].
    - left. rewrite (add_new _ _ _ _ Hadd) in Hv. injection Hv as <-.
      rewrite (add_cliaddr _ _ _ _ Hadd) in Hc. by injection Hc as <-.
    - right. destruct (HR r Hin) as (v' & a' & addr & Hv' & Ha' & Haddr).
      rewrite (add_requests _ _ _ _ Hadd) in Hv by (by eapply old_request).
      rewrite Hv in Hv'. injection Hv' as <-. rewrite Hc in Ha'. injection Ha' as <-.
      split_and!; [done|done|]. by eapply old_addr. }
  intros r1 r2 v1 v2 a I1 I2 V1 V2 E1 E2.
  destruct (Hcase _ _ _ I1 V1 E1) as [[-> ->]|(I1' & V1' & N1)],
    (Hcase _ _ _ I2 V2 E2) as [[-> C2]|(I2' & V2' & N2)]; try done.
  by apply (Ho r1 r2 v1 v2 a).
Qed.
End adds.

(** Every request that is queued or in the backlog is allocated with its address. *)
Lemma in_state_allocated s ls bk js r :
  in_state s ls bk js → r ∈ (job_req <$> js) ++ ls.*2 →
  ∃ v a addr, requests s !! r = Some v ∧ cliaddr v = Some a ∧ addrs s !! a = Some addr.
Proof.
  intros [Hb _ _ _ Hj _ _] [(j & -> & Hjin)%list_elem_of_fmap|Hin]%elem_of_app.
  - rewrite Forall_forall in Hj. destruct (Hj j Hjin) as (v & a & ? & _ & ? & ? & _). by exists v, a, (job_addr j).
  - destruct (brep_requests _ _ Hb r Hin) as (v & a & addr & ? & ? & ? & _). by exists v, a, addr.
Qed.

(** The state with the new job at the end of the queue. *)
Lemma in_state_add s s' ls bk js w cli log :
  in_state s ls bk js → adds_request s s' w cli →
  holds_queue (pending_in s') (Fifo ((job_req <$> js) ++ [fresh s]) log) →
  in_state s' ls bk (js ++ [Job (fresh s) (request_nbr w) cli]).
Proof.
  intros Hs Hadd Hq. pose proof Hs as [Hb Ha Ho Hf Hj Hnd _].
  assert (∀ r, r ∈ (job_req <$> js) ++ ls.*2 → ∃ v a addr,
    requests s !! r = Some v ∧ cliaddr v = Some a ∧ addrs s !! a = Some addr) as HR
    by (intros; by eapply in_state_allocated).
  split.
  - by eapply adds_brep.
  - by eapply adds_abs.
  - intros r1 r2 v1 v2 a I1 I2. apply (adds_owned s s' w cli Hadd Hf _ HR Ho); rewrite fmap_app in I1, I2; set_solver.
  - by eapply adds_mem_fresh.
  - apply Forall_app. split; [eapply Forall_impl; [exact Hj|intros; by eapply adds_job]|].
    constructor; [|constructor]. destruct Hadd. by eexists w, _.
  - rewrite fmap_app, <- app_assoc. cbn [fmap list_fmap app]. rewrite <- Permutation_middle.
    apply NoDup_cons. split; [|done]. intros Hin. destruct (HR _ Hin) as (v & _ & _ & Hv & _).
    by eapply old_request.
  - exists log. by rewrite fmap_app.
Qed.

(** The collector appends a job to the queue. *)
Lemma collect_rep junk jq cli n packet s ls bk js id pid host file argv :
  in_state s ls bk js → ikcp_unpack_proc_creat_req packet = Some (id, pid, host, file, argv) →
  runs (ikcr_queue_process_creation_request junk jq cli n packet) s (λ s' _,
    in_state s' ls bk (js ++ [Job (fresh s) (ikcr_pack_request_number (sin_addr cli) id) cli]) ∧
    sent s' = sent s ∧ executed s' = executed s).
Proof.
  intros Hs Hu. pose proof Hs as [_ _ _ _ _ _ [log Hq]]. unfold ikcr_queue_process_creation_request.
  apply runs_bind. eapply runs_eq; [reflexivity|]. cbn beta iota.
  rewrite Hu. apply runs_bind. eapply runs_eq; [reflexivity|]. cbn beta iota.
  apply runs_bind. eapply runs_eq; [reflexivity|]. cbn beta iota zeta.
  apply runs_bind. eapply runs_eq; [unfold store; cbn; rewrite lookup_insert_eq; reflexivity|]. cbn beta iota.
  match goal with |- runs _ ?x _ => set (s1 := x) end.
  destruct (queue_in jq (fresh s) s1 _ _ Hq) as (q & E & Hq'). apply runs_bind.
  eapply runs_eq; [exact E|]. cbn beta iota. apply runs_ret. split; [|done].
  eassert (adds_request s (with_queues q (pending_out s1) s1) _ cli) as Hadd.
  { split.
    - intros r Hr. unfold s1. cbn. by map_reads.
    - intros a Ha. unfold s1. cbn. by map_reads.
    - unfold s1. cbn. apply lookup_insert_eq.
    - reflexivity.
    - unfold s1. cbn. apply lookup_insert_eq.
    - reflexivity.
    - reflexivity.
    - done. }
  exact (in_state_add _ _ _ _ _ _ _ log Hs Hadd Hq').
Qed.

(** ikcd when it starts. *)
Definition ikcd_init : ikcd := Ikcd ∅ ∅ ∅ None false 1 ikc_init_queue ikc_init_queue [] [] [].

Lemma init_in_state : in_state ikcd_init [] [] [].
Proof.
  split.
  - split; [apply NoDup_nil_2|done|done|by intros l []|done|by intros r ?%elem_of_nil].
  - constructor.
  - by intros r1 r2 v1 v2 a ?%elem_of_nil.
  - split; intros x []; done.
  - constructor.
  - apply NoDup_nil_2.
  - exists []. apply init_holds.
Qed.

(** A packet that arrives. *)
Record arrival : Type := Arrival { from : sockaddr_in; bytes : buf }.

Definition arrive (junk : ikc_request) (jq : ikc_request_queue) (n : Z) (p : arrival) : M ikcd unit :=
  ikc_incoming_packet junk jq (from p) n (bytes p).

Fixpoint arrive_all (junk : ikc_request) (jq : ikc_request_queue) (n : Z) (ps : list arrival) : M ikcd unit :=
  match ps with [] => mret () | p :: ps => _ ← arrive junk jq n p; arrive_all junk jq n ps end.

(** A well-formed process creation request with the number [nbr]. *)
Definition creat_request (p : arrival) (nbr : Z) : Prop :=
  ∃ b0 b1 rest id pid host file argv, bytes p = b0 :: b1 :: rest ∧
    schar b0 = IKC_VERSION ∧ schar b1 = IKC_PROC_CREAT_REQ ∧
    ikcp_unpack_proc_creat_req (bytes p) = Some (id, pid, host, file, argv) ∧
    nbr = ikcr_pack_request_number (sin_addr (from p)) id.

Lemma arrive_rep junk jq n s ls bk js p nbr :
  in_state s ls bk js → creat_request p nbr →
  runs (arrive junk jq n p) s (λ s' _, ∃ r, in_state s' ls bk (js ++ [Job r nbr (from p)]) ∧ sent s' = sent s ∧
    executed s' = executed s).
Proof.
  intros Hs (b0 & b1 & rest & id & pid & host & file & argv & Eb & H0 & H1 & Hu & ->).
  unfold arrive, ikc_incoming_packet. rewrite decide_False by (rewrite Eb; simpl; unfold IKC_MIN_PACKET_SIZE; lia).
  assert (buf_get (bytes p) 0 = Some b0 ∧ buf_get (bytes p) 1 = Some b1) as [E0 E1] by by rewrite Eb.
  rewrite E0, E1. apply runs_bind, runs_ret, runs_bind, runs_ret.
  rewrite decide_False by congruence. rewrite decide_True by done.
  apply runs_bind. eapply runs_mono; [by eapply collect_rep|]. intros s' _ (Hs' & Hsent & Hexec). apply runs_ret. eauto.
Qed.

Lemma arrive_all_rep junk jq n ps nbrs s ls bk js :
  in_state s ls bk js → Forall2 creat_request ps nbrs →
  runs (arrive_all junk jq n ps) s (λ s' _, ∃ js', in_state s' ls bk (js ++ js') ∧ sent s' = sent s ∧
    executed s' = executed s ∧
    job_nbr <$> js' = nbrs ∧ job_addr <$> js' = from <$> ps).
Proof.
  intros Hs Hps. revert s js Hs. induction Hps as [|p nbr ps nbrs Hp Hps IH]; intros s js Hs; cbn [arrive_all].
  - apply runs_ret. exists []. by rewrite app_nil_r.
  - apply runs_bind. eapply runs_mono; [by eapply arrive_rep|]. intros s1 _ (r & Hs1 & Hsent1 & Hexec1).
    eapply runs_mono; [by apply IH|]. intros s2 _ (js' & Hs2 & Hsent2 & Hexec2 & Hn & Ha).
    exists (Job r nbr (from p) :: js'). rewrite <- app_assoc in Hs2. cbn [fmap list_fmap job_nbr job_addr].
    split_and!; [done|congruence|congruence|by f_equal|by f_equal].
Qed.

(** The answers to requests with given numbers, from given addresses. *)
Definition answers (ps : list arrival) (nbrs pids : list Z) : list (sockaddr_in * buf) :=
  zip_with (λ a np, (a, response np.1 np.2)) (from <$> ps) (zip nbrs pids).

Lemma packets_answers js ps nbrs pids :
  job_nbr <$> js = nbrs → job_addr <$> js = from <$> ps → packets js pids = answers ps nbrs pids.
Proof.
  intros <- Ha. unfold answers. rewrite <- Ha. clear Ha. unfold packets. revert pids.
  induction js as [|j js IH]; intros [|p pids]; [done..|]. cbn. f_equal. apply IH.
Qed.

(** C37: the process creation requests that reach a freshly started ikcd are queued by the
    collector and answered by a worker in the order of their arrival, one packet each, to
    the address they came from; the first request with a number is executed and the
    repetitions get the same answer: [executed] are the distinct numbers. *)
Theorem ikc_packets_answered junk jq jb n ps nbrs fuel :
  Forall2 creat_request ps nbrs → length ps < fuel →
  ∃ s s', arrive_all junk jq n ps ikcd_init = Ok s () ∧ sent s = [] ∧
    ikc_in_request_worker fuel jb s = Ok s' () ∧
    sent s' = rev (answers ps nbrs (a_answers [] nbrs).1) ∧
    queue (pending_in s') = None ∧
    executed s' = rev (a_executed [] nbrs).
Proof.
  intros Hps Hf.
  destruct (runs_inv _ _ _ (arrive_all_rep junk jq n ps nbrs _ _ _ _ init_in_state Hps))
    as (s & [] & E & js & Hs & Hsent & Hexec & Hn & Ha). cbn in Hsent, Hexec.
  assert (length js = length ps) as Hl by (rewrite <- (length_fmap job_addr), Ha; apply length_fmap).
  destruct (ikc_in_worker_run jb s [] [] js fuel Hs) as (s' & ls' & E' & Hs' & Hsent' & Hexec'); [lia|].
  exists s, s'. rewrite Hn in *. split_and!; [done|done|done| | |by rewrite Hexec', Hexec, app_nil_r].
  - rewrite Hsent', Hsent, app_nil_r. f_equal. by apply packets_answers.
  - destruct (in_queue _ _ _ _ Hs') as (log & _ & _ & [|? ls] & Hls & Hq); [|done].
    apply (qrep_queue _ _ Hq).
Qed.

(** * Examples: a request from one host, its repetition, and a request of another host *)
Definition example_packet (addr seq : Z) : arrival :=
  Arrival (SockAddr addr 4000)
    (default [] (fst <$> ikcp_pack_proc_creat_req (ikcr_pack_request_id 1 seq) 300 (lit "here") (lit "/bin/ls") [])).

Definition example_arrivals : list arrival :=
  [example_packet 42 7; example_packet 42 7; example_packet 43 7].
Definition example_numbers : list Z :=
  [ikcr_pack_request_number 42 (ikcr_pack_request_id 1 7);
   ikcr_pack_request_number 42 (ikcr_pack_request_id 1 7);
   ikcr_pack_request_number 43 (ikcr_pack_request_id 1 7)].

Lemma example_requests : Forall2 creat_request example_arrivals example_numbers.
Proof.
  repeat constructor; do 3 eexists; exists (ikcr_pack_request_id 1 7), 300%Z, (lit "here"), (lit "/bin/ls"), [];
    split_and!; vm_compute; reflexivity.
Qed.

(** Blocks of arbitrary contents. *)
Definition junk_request : ikc_request := Req None 0 0 0 0 0 0 [] (replicate 65 NUL) 0 7 ArgNull ArgNull.
Definition junk_elem : ikc_request_queue := QElem 1 None None.
Definition junk_backlog : ikc_backlog_list := BElem 1 None None.

Lemma ikc_packets_answered_witness :
  ∃ s s', arrive_all junk_request junk_elem 16 example_arrivals ikcd_init = Ok s () ∧ sent s = [] ∧
    ikc_in_request_worker 4 junk_backlog s = Ok s' () ∧
    sent s' = rev (answers example_arrivals example_numbers (a_answers [] example_numbers).1) ∧
    queue (pending_in s') = None ∧
    executed s' = rev (a_executed [] example_numbers).
Proof.
  exact (ikc_packets_answered junk_request junk_elem junk_backlog 16 example_arrivals example_numbers 4
    example_requests (le_n 4)).
Defined.

Lemma example_in_state : ∃ s js, in_state s [] [] js ∧ job_nbr <$> js = example_numbers.
Proof.
  destruct (runs_inv _ _ _ (arrive_all_rep junk_request junk_elem 16 _ _ _ _ _ _ init_in_state example_requests))
    as (s & [] & _ & js & Hs & _ & _ & Hn & _). by exists s, js.
Qed.

Lemma ikc_in_worker_answers_witness :
  ∃ s js s' ls', job_nbr <$> js = example_numbers ∧
    ikc_in_request_worker (S (length js)) junk_backlog s = Ok s' () ∧
    in_state s' ls' (a_answers [] example_numbers).2 [] ∧
    sent s' = rev (packets js (a_answers [] example_numbers).1) ++ sent s ∧
    executed s' = rev (a_executed [] example_numbers) ++ executed s.
Proof.
  destruct example_in_state as (s & js & Hs & Hn).
  destruct (ikc_in_worker_answers junk_backlog s [] [] js (S (length js)) Hs (le_n _)) as (s' & ls' & H).
  rewrite Hn in H. by exists s, js, s', ls'.
Defined.

Lemma ikc_in_at_most_once_witness :
  ∃ s js s' ls' bk' ps ex, job_nbr <$> js = example_numbers ∧
    ikc_in_request_worker (S (length js)) junk_backlog s = Ok s' () ∧
    executed s' = rev ex ++ executed s ∧ NoDup ex ∧ (∀ n, n ∈ ex ↔ n ∈ example_numbers) ∧
    bl_abs s' ls' bk' ∧ NoDup bk'.*1 ∧ sent s' = rev (packets js ps) ++ sent s ∧ length ps = length js.
Proof.
  destruct example_in_state as (s & js & Hs & Hn).
  destruct (ikc_in_at_most_once junk_backlog s [] [] js (S (length js)) Hs (NoDup_nil_2) (le_n _))
    as (s' & ls' & bk' & ps & ex & H1 & H2 & H3 & H4 & _ & H5 & H6 & H7 & H8 & _).
  exists s, js, s', ls', bk', ps, ex. rewrite Hn in H4. split_and!; try done.
  intros n. rewrite H4. split; [by intros []|]. intros. split; [done|by intros ?%elem_of_nil].
Defined.
