(* ===== verification/IkcdOut.v ===== *)
(** The backlog when a request is removed, the worker for outgoing requests, and the
    service of the kernel's requests (Ikcbl.v, Ikcd.v). *)

From Stdlib Require Import ZArith Lia Strings.Byte.
From stdpp Require Import base list gmap strings.
From S2P Require Import Prelude.
From S2P Require Import Cbuf.
From S2P Require Import Ctext.
From S2P Require Import Csp.
From S2P Require Import Ikcp.
From S2P Require Import Ikcq.
From S2P Require Import IkcState.
From S2P Require Import Ikcbl.
From S2P Require Import IkcblRep.
From S2P Require Import Ikcd.
From S2P Require Import IkcdIn.
From S2P Require Import IkcdCollect.
From S2P Require Dkmctl.
From S2P Require DkmctlInv.
From S2P Require DkmctlProps.

(** * Removing the newest request *)

(** [ikcbl_remove_request] of the newest request of the backlog frees its element and
    leaves the head of the list pointing to it, so that the next search reads freed
    memory. *)
Theorem ikcbl_remove_newest_dangles s l r ls v :
  brep s ((l, r) :: ls) → requests s !! r = Some v →
  ∃ s', ikcbl_remove_request (request_nbr v) s = Ok s' 0%Z ∧ list_head s' = Some l ∧
    backlog s' !! l = None ∧ ∀ q, ikcbl_try_respond_from_backlog q s' = Stop BadPtr.
Proof.
  intros Hb Hv. destruct (remove_head_dangles s s false l r ls v Hb (brep_unlocked s _ Hb) Hv) as (s' & a & E & Hh & Hl & Hm & _).
  exists s'. split_and!; [done..|]. intros q. unfold ikcbl_try_respond_from_backlog.
  erewrite bind_Ok by (by apply block_Ok).
  erewrite bind_Stop; [done|]. unfold bl_find. erewrite bind_Ok by reflexivity.
  erewrite bind_Ok by reflexivity. cbn [list_head with_bmutex]. rewrite Hh. cbn [bl_loop].
  erewrite bind_Stop; [done|]. unfold bderef, deref. cbn. by rewrite Hl.
Qed.

(** The backlog after one request. *)
Lemma example_backlog : ∃ s l r ls v, brep s ((l, r) :: ls) ∧ requests s !! r = Some v.
Proof.
  destruct example_in_state as (s & js & Hs & Hn).
  destruct (ikc_in_worker_run junk_backlog s [] [] js (S (length js)) Hs (le_n _)) as (s' & ls' & _ & Hs' & _).
  rewrite Hn in Hs'. pose proof (in_abs _ _ _ _ Hs') as Habs. pose proof (in_rep _ _ _ _ Hs') as Hrep.
  destruct ls' as [|[l r] ls']; [by inversion Habs|].
  inversion Habs as [|? ? ? ? (v & Hv & _)]. by exists s', l, r, ls', v.
Qed.

Lemma ikcbl_remove_newest_dangles_witness :
  ∃ s l v s', ikcbl_remove_request (request_nbr v) s = Ok s' 0%Z ∧ list_head s' = Some l ∧
    backlog s' !! l = None ∧ ∀ q, ikcbl_try_respond_from_backlog q s' = Stop BadPtr.
Proof.
  destruct example_backlog as (s & l & r & ls & v & Hb & Hv).
  destruct (ikcbl_remove_newest_dangles s l r ls v Hb Hv) as (s' & H). by exists s, l, v, s'.
Defined.

(** * Outgoing requests *)

(** A request as [ikc_get_request_from_kernel] queues it: the first argument is the
    field [r_node], with the name of the node. *)
Definition out_request (s : ikcd) (r : loc) (v : ikc_request) (node : cstr) : Prop :=
  requests s !! r = Some v ∧ req v = IKC_PROC_CREAT_REQ ∧ rq_arg0 v = ArgRNode ∧
  buf_str (r_node v) 0 = Some node ∧ (14 + strlen (o_node v) + strlen node < 2 ^ 16)%Z.

Definition out_packet (tid : Z) (v : ikc_request) (node : cstr) : buf :=
  creat_req_bytes (ikcr_pack_request_id tid (seq_nbr v)) (o_pid v) (o_node v) node [].

(** A packet that [ikcp_unpack_proc_creat_resp] can read. *)
Definition readable (p : buf) (seq pid : Z) : Prop := ikcp_unpack_proc_creat_resp p = Some (seq, pid).

Definition out_sent (r : loc) (v : ikc_request) (d : sockaddr_in * buf) (ps : list reply) (s : ikcd) : ikcd :=
  with_replies ps (with_sent (d :: sent s) (with_requests (<[r := v]> (requests s)) s)).

Lemma length_creat_req_bytes seq pid host file argv :
  length (creat_req_bytes seq pid host file argv) = 14 + length host + length file + length argv.
Proof. unfold creat_req_bytes. rewrite !length_app, !length_string_bytes, !length_le_bytes. simpl. lia. Qed.

Lemma sendto_all addr d s : sendto addr d (Z.of_nat (length d)) s = Ok (sending addr d s) ().
Proof.
  unfold sendto. pose proof (buf_read_app [] d [] 0 (Z.of_nat (length d)) eq_refl eq_refl) as E.
  rewrite app_nil_r in E. cbn [app] in E. by rewrite E.
Qed.

Section Out.
Context (gethostbyname : cstr → option Z) (servaddr_room : Z) (r : loc) (tid : Z) (node : cstr) (ip : Z).
Context (Hip : gethostbyname node = Some ip).
(** The copy of the address overwrites nothing that is used. *)
Context (Hroom : (sizeof_sockaddr_in ≤ servaddr_room)%Z).

(** One attempt. *)
Lemma attempt_rep s v :
  out_request s r v node →
  let d := (SockAddr ip IKC_PORT, out_packet tid v node) in
  let v' := set_args ArgRNode (ArgBuf [NUL]) v in
  ikcr_proceed_outgoing_request gethostbyname servaddr_room r tid s =
    match replies s with
    | [] => Ok (out_sent r v' d [] s) (-1)%Z
    | (Timeout | RecvError) :: ps => Ok (out_sent r v' d ps s) (-1)%Z
    | Packet p :: ps =>
      match ikcp_unpack_proc_creat_resp p with
      | Some (q, pid) => Ok (out_sent r (set_r_pid pid (set_seq_nbr q v')) d ps s) 0%Z
      | None => Stop OutOfBounds
      end
    end.
Proof.
  intros (Hv & Hreq & Ha & Hn & Hl) d v'. unfold ikcr_proceed_outgoing_request.
  erewrite bind_Ok by (by apply deref_eq). rewrite Hn. cbn [access]. erewrite bind_Ok by reflexivity.
  rewrite Hip. unfold copy_sin_addr. rewrite decide_False by lia.
  erewrite bind_Ok by reflexivity. rewrite decide_True by done.
  erewrite bind_Ok by (unfold store; by rewrite Hv). rewrite Ha. fold v'.
  erewrite bind_Ok by (apply deref_eq; apply lookup_insert_eq).
  unfold arg_str. cbn [rq_arg0 rq_arg1 v' set_args r_node o_node o_pid seq_nbr]. rewrite Hn.
  erewrite bind_Ok by reflexivity. erewrite bind_Ok by reflexivity.
  rewrite ikcp_pack_req_eq by (change (strlen []) with 0%Z; lia). erewrite bind_Ok by reflexivity.
  cbn beta iota. fold (out_packet tid v node).
  replace (14 + strlen (o_node v) + strlen node + strlen [])%Z with (Z.of_nat (length (out_packet tid v node)))
    by (unfold out_packet; rewrite length_creat_req_bytes; unfold strlen; simpl; lia).
  erewrite bind_Ok by apply sendto_all.
  unfold next_reply, sending. cbn [replies with_sent with_requests].
  destruct (replies s) as [|[| |p] ps] eqn:E.
  - erewrite bind_Ok by (cbn [replies with_sent with_requests]; rewrite E; reflexivity). cbn beta iota.
    unfold out_sent, with_replies. destruct s; cbn in *; by subst.
  - erewrite bind_Ok by (cbn [replies with_sent with_requests]; rewrite E; reflexivity). done.
  - erewrite bind_Ok by (cbn [replies with_sent with_requests]; rewrite E; reflexivity). done.
  - erewrite bind_Ok by (cbn [replies with_sent with_requests]; rewrite E; reflexivity). cbn beta iota.
    destruct (ikcp_unpack_proc_creat_resp p) as [[q pid]|]; [|done]. cbn [access].
    erewrite bind_Ok by reflexivity. cbn beta iota. erewrite bind_Ok.
    2: { unfold store. cbn [requests with_replies with_sent with_requests]. rewrite lookup_insert_eq. reflexivity. }
    unfold out_sent. cbn. by rewrite insert_insert_eq.
Qed.

Lemma out_sent_request s v v' d ps :
  out_request s r v node → v' = set_args ArgRNode (ArgBuf [NUL]) v →
  out_request (out_sent r v' d ps s) r v' node.
Proof. intros (Hv & ? & ? & ? & ?) ->. split; [apply lookup_insert_eq|done]. Qed.

(** An answer that does not come, or cannot be received. *)
Definition lost (a : reply) : Prop := match a with Packet _ => False | _ => True end.

Lemma attempt_lost s v a ps :
  out_request s r v node → replies s = a :: ps → lost a →
  ikcr_proceed_outgoing_request gethostbyname servaddr_room r tid s =
    Ok (out_sent r (set_args ArgRNode (ArgBuf [NUL]) v) (SockAddr ip IKC_PORT, out_packet tid v node) ps s) (-1)%Z.
Proof. intros Hr E Ha. rewrite (attempt_rep s v Hr), E. by destruct a. Qed.

Lemma attempt_answered s v p q pid ps :
  out_request s r v node → replies s = Packet p :: ps → readable p q pid →
  ikcr_proceed_outgoing_request gethostbyname servaddr_room r tid s =
    Ok (out_sent r (set_r_pid pid (set_seq_nbr q (set_args ArgRNode (ArgBuf [NUL]) v)))
          (SockAddr ip IKC_PORT, out_packet tid v node) ps s) 0%Z.
Proof. intros Hr E Hp. rewrite (attempt_rep s v Hr), E. unfold readable in Hp. by rewrite Hp. Qed.

(** an outgoing request is sent at most twice, the second time with the same number
    and the same bytes, and the first packet that arrives is taken as its answer whatever
    its number is.  The packet names the node as the file to execute and has no
    arguments: the file name that the kernel gave is not sent. *)
Theorem ikc_out_retries s v a p q pid ps :
  out_request s r v node → readable p q pid → lost a →
  let d := (SockAddr ip IKC_PORT, creat_req_bytes (ikcr_pack_request_id tid (seq_nbr v)) (o_pid v) (o_node v) node []) in
  (replies s = Packet p :: ps → ∃ s' v', attempts_loop gethostbyname servaddr_room IKC_MAX_ATTEMPTS r tid (-1) s = Ok s' 0%Z ∧
     sent s' = d :: sent s ∧ replies s' = ps ∧ requests s' !! r = Some v' ∧ r_pid v' = pid) ∧
  (replies s = a :: Packet p :: ps → ∃ s' v', attempts_loop gethostbyname servaddr_room IKC_MAX_ATTEMPTS r tid (-1) s = Ok s' 0%Z ∧
     sent s' = d :: d :: sent s ∧ replies s' = ps ∧ requests s' !! r = Some v' ∧ r_pid v' = pid) ∧
  (replies s = a :: a :: ps → ∃ s' v', attempts_loop gethostbyname servaddr_room IKC_MAX_ATTEMPTS r tid (-1) s = Ok s' (-1)%Z ∧
     sent s' = d :: d :: sent s ∧ replies s' = ps ∧ requests s' !! r = Some v' ∧ r_pid v' = r_pid v).
Proof.
  intros Hr Hp Ha d. unfold IKC_MAX_ATTEMPTS. cbn [attempts_loop]. rewrite !decide_True by lia.
  split_and!; intros E.
  - erewrite bind_Ok by (by eapply attempt_answered). cbn beta iota. rewrite decide_False by lia.
    do 2 eexists. split_and!; [reflexivity|done|done|apply lookup_insert_eq|done].
  - erewrite bind_Ok by (by eapply attempt_lost). cbn beta iota. rewrite decide_True by lia.
    erewrite bind_Ok by (by eapply attempt_answered; [by eapply out_sent_request|..]).
    do 2 eexists. split_and!; [reflexivity|done|done|apply lookup_insert_eq|done].
  - erewrite bind_Ok by (by eapply attempt_lost). cbn beta iota. rewrite decide_True by lia.
    erewrite bind_Ok by (by eapply attempt_lost; [by eapply out_sent_request|..]).
    do 2 eexists. split_and!; [reflexivity|done|done|apply lookup_insert_eq|done].
Qed.

(** a request that is never answered is reported to the kernel like one that is: the
    worker ignores the error and puts the pid that the new request happened to hold. *)
Theorem ikc_out_unanswered {K} `{!DkmctlCall K} s (k k' : K) v seq a ps e args :
  out_request s r v node → lost a → replies s = a :: a :: ps →
  dkmctl Dkmctl.DKM_PUT_RESP (o_pid v) IKC_PROC_CREAT_REQ (Dkmctl.Argv (Dkmctl.UInt (r_pid v)) Dkmctl.UNone) k =
    Ok k' (Dkmctl.Return e args) →
  ∃ s', ikc_out_request gethostbyname servaddr_room tid seq r (s, k) = Ok (s', k') (next_seq seq) ∧
    length (sent s') = 2 + length (sent s).
Proof.
  intros (Hv & Hreq & Harg & Hnode & Hlen) Ha E Hk. unfold ikc_out_request.
  erewrite bind_Ok by (unfold on_ikcd, store; cbn [fst snd]; by rewrite Hv).
  set (v1 := set_seq_nbr (next_seq seq) v). set (s1 := with_requests (<[r := v1]> (requests s)) s).
  assert (out_request s1 r v1 node) as Hr1 by (split; [apply lookup_insert_eq|done]).
  erewrite bind_Ok.
  2: { unfold on_ikcd, IKC_MAX_ATTEMPTS. cbn [fst snd attempts_loop]. rewrite !decide_True by lia.
       erewrite bind_Ok by (by eapply attempt_lost). cbn beta iota. rewrite decide_True by lia.
       erewrite bind_Ok by (by eapply attempt_lost; [by eapply out_sent_request|..]). reflexivity. }
  erewrite bind_Ok.
  2: { unfold ikc_respond_to_kernel. erewrite bind_Ok.
       2: { unfold on_ikcd. cbn [fst snd]. erewrite deref_eq by apply lookup_insert_eq. reflexivity. }
       cbn [req set_args]. rewrite decide_True by done. erewrite bind_Ok.
       2: { unfold on_ikcd, store, out_sent. cbn [fst snd requests with_replies with_sent with_requests].
            rewrite lookup_insert_eq. reflexivity. }
       erewrite bind_Ok by (unfold on_kernel; cbn [fst snd req r_pid o_pid set_args set_seq_nbr v1]; rewrite Hreq, Hk; reflexivity).
       reflexivity. }
  eexists. split; [reflexivity|]. done.
Qed.
End Out.

(** An outgoing request in an ikcd whose network loses the first packet. *)
Definition example_out : ikc_request :=
  Req None 0 0 0 0 3 IKC_PROC_CREAT_REQ (lit "here") (lit "far" ++ replicate 62 NUL) 10 7 ArgRNode
    (ArgBuf (lit "/bin/ls" ++ [NUL])).
Definition example_ikcd (ps : list reply) : ikcd :=
  with_replies ps (with_requests {[1%positive := example_out]} ikcd_init).
Definition resolver (node : cstr) : option Z := if decide (node = lit "far") then Some 42%Z else None.

Lemma example_out_request ps : out_request (example_ikcd ps) 1 example_out (lit "far").
Proof. split_and!; done. Qed.

Lemma ikc_out_retries_witness :
  ∃ s' v', attempts_loop resolver 16 IKC_MAX_ATTEMPTS 1 2 (-1) (example_ikcd [Timeout; Packet (creat_resp_bytes 9 76)]) =
      Ok s' 0%Z ∧ length (sent s') = 2 ∧ requests s' !! 1%positive = Some v' ∧ r_pid v' = 76%Z.
Proof.
  destruct (ikc_out_retries resolver 16 1 2 (lit "far") 42 eq_refl ltac:(done)
    (example_ikcd [Timeout; Packet (creat_resp_bytes 9 76)]) example_out Timeout (creat_resp_bytes 9 76) 9 76 []
    (example_out_request _) eq_refl I) as (_ & H & _).
  destruct (H eq_refl) as (s' & v' & H1 & H2 & _ & H3 & H4).
  exists s', v'. split; [exact H1|]. split; [by rewrite H2|done].
Defined.

(** The kernel after the answer 7 for its process. *)
Definition answered_kernel : Dkmctl.kernel :=
  DkmctlInv.at_dkm DkmctlInv.example_kernel 2 (Dkmctl.set_state Dkmctl.REQ_NOT_IN_PROGRESS
    (Dkmctl.set_pending 0 (Dkmctl.set_r_pid 7 DkmctlProps.sleeping_dkm))).

Lemma ikc_out_unanswered_witness :
  ∃ s', ikc_out_request (DkmctlCall0 := kernel_dkmctl 5) resolver 16 2 first_seq 1
      (example_ikcd [Timeout; Timeout], DkmctlProps.sleeping_kernel) = Ok (s', answered_kernel) 0%Z ∧
    length (sent s') = 2.
Proof.
  exact (ikc_out_unanswered (DkmctlCall0 := kernel_dkmctl 5) resolver 16 1 2 (lit "far") 42 eq_refl ltac:(done)
    (example_ikcd [Timeout; Timeout]) DkmctlProps.sleeping_kernel answered_kernel example_out first_seq
    Timeout [] 0 (Dkmctl.Argv (Dkmctl.UInt 7) Dkmctl.UNone) (example_out_request _) I eq_refl eq_refl).
Defined.

(** * Requests of the kernel *)

Section Serve.
Context (server_id client_id : Z) (msq : Z → cstr → option cstr) (hostname : cstr) (ikcd_pid : Z).


(** The node that csda names, or this host. *)
Definition chosen_node (app : cstr) : cstr :=
  if decide (server_id < 0 ∨ client_id < 0)%Z then hostname
  else default hostname (msq client_id (decimal client_id ++ lit " " ++ app)).

Lemma best_node_eq {S} app (s : S) :
  (Z.of_nat (length (decimal client_id ++ lit " " ++ app)) < 257)%Z →
  ∃ e, ikcr_best_node_for_app hostname server_id client_id msq app s = Ok s (e, chosen_node app).
Proof.
  intros Hl. unfold ikcr_best_node_for_app, chosen_node.
  destruct (decide (server_id < 0)%Z); [rewrite decide_True by lia; by eexists|].
  destruct (decide (client_id < 0)%Z); [rewrite decide_True by lia; by eexists|].
  rewrite decide_False by lia. erewrite bind_Ok by (by apply sprintf_Ok).
  destruct (msq _ _); by eexists.
Qed.

Lemma on_kernel_Ok {A} (f : M Dkmctl.kernel A) (i : ikcd) k k' a :
  f k = Ok k' a → on_kernel f (i, k) = Ok (i, k') a.
Proof. intros E. unfold on_kernel. cbn [fst snd]. by rewrite E. Qed.

Lemma holds_access {S} b s (st : S) :
  DkmctlProps.holds_str (Some b) s → NUL ∉ s → access (buf_str b 0) st = Ok st s.
Proof.
  intros [rest [= ->]] Hs. change (s ++ NUL :: rest) with ([] ++ s ++ NUL :: rest). by rewrite buf_str_app.
Qed.

(** The kernel has no request left. *)
Lemma no_more k l d m a :
  DkmctlInv.kinv (DkmctlInv.Sys (DkmctlInv.at_dkm k l d) m) → DkmctlProps.idle_others k l →
  Dkmctl.wants_service d = false →
  Dkmctl.sys_dkmctl ikcd_pid Dkmctl.DKM_GET_REQ 0 0 a (DkmctlInv.at_dkm k l d) =
    Ok (DkmctlInv.at_dkm k l d) (Dkmctl.Return 1 (Dkmctl.Argv (Dkmctl.UInt (-1)) (Dkmctl.UInt (-1)))).
Proof.
  intros Hi Hidle Hn. rewrite DkmctlProps.get_req_call.
  destruct (DkmctlInv.get_req_spec _ _ a Hi) as [[E _]|(p & l' & d' & Ho' & Hd' & Hw & _)]; [done|].
  exfalso. destruct (decide (l' = l)) as [->|Hne].
  - rewrite DkmctlInv.at_dkm_dkm in Hd'. injection Hd' as <-. by rewrite Hn in Hw.
  - rewrite DkmctlInv.at_dkm_ne in Hd' by done. by rewrite (Hidle p l' d') in Hw.
Qed.

Lemma done_wants_nothing d : Dkmctl.pending_req d = 0%Z → Dkmctl.wants_service d = false.
Proof. intros Hp. apply bool_decide_eq_false. intros [H _]. lia. Qed.

(** A map request is answered, and nothing else of the kernel changes. *)
Lemma serve_map_run (i : ikcd) k m cur l d fn on app_name junk jb jq fuel :
  let serve := ikc_get_request_from_kernel (DkmctlCall0 := kernel_dkmctl ikcd_pid) hostname server_id client_id msq in
  DkmctlInv.kinv (DkmctlInv.Sys (DkmctlInv.at_dkm k l d) m) → DkmctlInv.owns k cur l →
  DkmctlProps.asks Dkmctl.MAP_REQ d → DkmctlProps.names fn on d → DkmctlProps.idle_others k l →
  NUL ∉ fn → length fn < length app_name →
  (Z.of_nat (length (decimal client_id ++ lit " " ++ fn)) < 257)%Z →
  NUL ∉ chosen_node fn → length (chosen_node fn) < Z.to_nat Dkmctl.NODE_LEN →
  ∃ d', serve (2 + fuel) app_name junk jb jq (i, DkmctlInv.at_dkm k l d) = Ok (i, DkmctlInv.at_dkm k l d') 0%Z ∧
    DkmctlInv.kinv (DkmctlInv.Sys (DkmctlInv.at_dkm k l d') m) ∧ Dkmctl.pending_req d' = 0%Z ∧
    DkmctlProps.located fn on (chosen_node fn) d'.
Proof.
  intros serve Hi Ho Ha Hn Hidle Hfn Hub Hmsg Hnn Hnl. subst serve.
  destruct (runs_inv _ _ _ (DkmctlProps.get_req_only ikcd_pid (Dkmctl.Argv (Dkmctl.UInt 0) (Dkmctl.UInt 0)) k l d m cur
    Dkmctl.MAP_REQ Hi Ho Ha ltac:(done) Hidle)) as (? & ? & E1 & -> & ->).
  set (d2 := Dkmctl.set_state Dkmctl.REQ_IN_GET_REQ d) in *.
  assert (Dkmctl.req d2 = Dkmctl.MAP_REQ) as Hr2 by apply Ha.
  destruct (runs_inv _ _ _ (DkmctlProps.get_args_map_runs ikcd_pid cur k l d2 fn on app_name
    (Dkmctl.UInt Dkmctl.MAP_REQ) Ho Hr2 Hn Hfn Hub)) as (? & ? & E2 & -> & b & -> & Hb).
  destruct (best_node_eq fn (i, DkmctlInv.at_dkm k l d2) Hmsg) as [e Ebest].
  destruct (runs_inv _ _ _ (DkmctlProps.put_resp_map_runs ikcd_pid cur k l d2 fn on (chosen_node fn)
    (chosen_node fn ++ [NUL]) (Dkmctl.UInt Dkmctl.MAP_REQ) Ho Hr2 Hn Hnn Hnl ltac:(by exists [])))
    as (? & ? & E3 & -> & d3 & -> & Hloc & Hr3 & Hp3).
  assert (DkmctlInv.kinv (DkmctlInv.Sys (DkmctlInv.at_dkm k l d3) m)) as Hi3.
  { eapply DkmctlInv.kinv_put_resp; [|exact E3]. by eapply (DkmctlInv.kinv_get_req _ _ (Dkmctl.Argv (Dkmctl.UInt 0) (Dkmctl.UInt 0))); [exact Hi|exact E1]. }
  exists d3. split; [|done].
  cbn [ikc_get_request_from_kernel plus].
  erewrite bind_Ok by (apply on_kernel_Ok; exact E1). cbn beta iota.
  rewrite decide_False by lia. erewrite bind_Ok.
  2: { unfold ikc_serve_request. rewrite decide_True by done.
       erewrite bind_Ok by (apply on_kernel_Ok; exact E2). cbn beta iota.
       rewrite decide_False by lia. erewrite bind_Ok by (by apply holds_access).
       erewrite bind_Ok by (exact Ebest). cbn beta iota.
       erewrite bind_Ok by (apply on_kernel_Ok; exact E3). reflexivity. }
  cbn beta iota. erewrite bind_Ok; [|apply on_kernel_Ok; eapply no_more; [exact Hi3|done|by apply done_wants_nothing]]. cbn beta iota.
  by rewrite decide_True.
Qed.

(** when a process sleeps in a map request and ikcd is signalled,
    [ikc_get_request_from_kernel] asks csda for the best node of the application, stores
    its answer, or the name of this host if there is none, as the node of the process,
    finishes the request, and returns when the kernel has no more. *)
Theorem ikc_serves_map_request (i : ikcd) k m cur l d fn on app_name junk jb jq fuel :
  let serve := ikc_get_request_from_kernel (DkmctlCall0 := kernel_dkmctl ikcd_pid) hostname server_id client_id msq in
  DkmctlInv.kinv (DkmctlInv.Sys k m) → DkmctlInv.owns k cur l → Dkmctl.dkms k !! l = Some d →
  DkmctlProps.asks Dkmctl.MAP_REQ d → DkmctlProps.names fn on d → DkmctlProps.idle_others k l →
  NUL ∉ fn → length fn < length app_name →
  (Z.of_nat (length (decimal client_id ++ lit " " ++ fn)) < 257)%Z →
  NUL ∉ chosen_node fn → length (chosen_node fn) < Z.to_nat Dkmctl.NODE_LEN →
  ∃ k' d', serve (2 + fuel) app_name junk jb jq (i, k) = Ok (i, k') 0%Z ∧
    Dkmctl.dkms k' !! l = Some d' ∧ Dkmctl.pending_req d' = 0%Z ∧
    DkmctlProps.located fn on (chosen_node fn) d'.
Proof.
  intros serve Hi Ho Hd Ha Hn Hidle Hfn Hub Hmsg Hnn Hnl. rewrite <- (DkmctlInv.at_dkm_id k l d Hd) in Hi |- *.
  destruct (serve_map_run i k m cur l d fn on app_name junk jb jq fuel Hi Ho Ha Hn Hidle Hfn Hub Hmsg Hnn Hnl)
    as (d' & E & _ & ?).
  exists (DkmctlInv.at_dkm k l d'), d'. split; [exact E|]. split; [apply DkmctlInv.at_dkm_dkm|done].
Qed.
End Serve.

(** The process 10 asks for the node of [/bin/ls]; csda answers [far]. *)
Definition asking_dkm : Dkmctl.dkm_struct :=
  Dkmctl.Dkm 0 1 Dkmctl.REQ_IN_DO_REQ Dkmctl.MAP_REQ 0 (Some (lit "/bin/ls" ++ [NUL]))
    (Some (lit "here" ++ [NUL])) (Some (replicate 65 NUL)).
Definition asking_kernel : Dkmctl.kernel := DkmctlInv.at_dkm DkmctlInv.example_kernel 2 asking_dkm.

Lemma asking_kinv : DkmctlInv.kinv (DkmctlInv.Sys asking_kernel {[10%Z := Dkmctl.InMap]}).
Proof.
  apply (DkmctlInv.kinv_focus DkmctlInv.example_kernel ∅ 10 2 Dkmctl.InMap);
    [apply DkmctlInv.example_kinv|done|done| |done].
  split; [done|]. left. split; [done|by left].
Qed.

Lemma asking_idle : DkmctlProps.idle_others asking_kernel 2.
Proof.
  intros p l d Hl _. unfold asking_kernel. rewrite DkmctlInv.at_dkm_ne by done.
  rewrite DkmctlInv.example_dkms. case_decide; [|done]. by intros [= <-].
Qed.

Definition answers_far (_ : Z) (_ : cstr) : option cstr := Some (lit "far").

Lemma ikc_serves_map_request_witness :
  ∃ k' d', ikc_get_request_from_kernel (DkmctlCall0 := kernel_dkmctl 5) (lit "here") 1 2 answers_far 2
      (replicate 257 NUL) junk_request (replicate 257 NUL) junk_elem (ikcd_init, asking_kernel) = Ok (ikcd_init, k') 0%Z ∧
    Dkmctl.dkms k' !! 2%positive = Some d' ∧ Dkmctl.pending_req d' = 0%Z ∧
    DkmctlProps.located (lit "/bin/ls") (lit "here") (lit "far") d'.
Proof.
  exact (ikc_serves_map_request 1 2 answers_far (lit "here") 5 ikcd_init asking_kernel _ 10 2 asking_dkm
    (lit "/bin/ls") (lit "here") (replicate 257 NUL) junk_request (replicate 257 NUL) junk_elem 0
    asking_kinv eq_refl eq_refl ltac:(done)
    ltac:(split_and!; [by exists []|by exists []|by exists (replicate 65 NUL)]) asking_idle
    ltac:(by apply (bool_decide_unpack _)) ltac:(vm_compute; lia) ltac:(vm_compute; done)
    ltac:(by apply (bool_decide_unpack _)) ltac:(vm_compute; lia)).
Defined.
