(* ===== verification/Remote.v ===== *)
(** The execution of a file on another host, through all the parts that take part in it:
    the process in [dkm_execve], the kernel and ikcd of its host, the packets between the
    hosts, and ikcd of the other host (Dkmctl.v, Ikcd.v).

    The first part follows a process creation request inside ikcd on the host of the
    process: from the kernel to the queue, and from the queue through a worker to the
    answer of the kernel. *)

From Stdlib Require Import ZArith Lia Strings.Byte.
From stdpp Require Import base list gmap strings.
From S2P Require Import Prelude.
From S2P Require Import Cbuf.
From S2P Require Import Ctext.
From S2P Require Import Csp.
From S2P Require Import Ikcp.
From S2P Require Import Ikcq.
From S2P Require Import IkcqRep.
From S2P Require Import IkcqProps.
From S2P Require Import IkcState.
From S2P Require Import Ikcbl.
From S2P Require Import IkcblRep.
From S2P Require Import Ikcd.
From S2P Require Import IkcdIn.
From S2P Require Import IkcdCollect.
From S2P Require Import IkcdOut.
From S2P Require Dkmctl.
From S2P Require DkmctlInv.
From S2P Require DkmctlProps.
Import DkmctlInv(at_dkm, kinv, owns, Sys).
Import DkmctlProps(asks, located, idle_others, holds_str).
Import DkmctlProps(asks, served, names, located, idle_others, holds_str).

(** * The queue for outgoing requests *)

Lemma queue_out jq r s rs log :
  holds_queue (pending_out s) (Fifo rs log) →
  ∃ q, on_pending_out (ikcq_queue_request jq r) s = Ok (with_queues (pending_in s) q s) 0%Z ∧
    holds_queue q (Fifo (rs ++ [r]) log).
Proof.
  intros Hq. destruct (ikcq_queue_refines jq r _ _ Hq) as (q & E & Hq'). exists q.
  unfold on_pending_out. by rewrite E.
Qed.

Lemma dequeue_out s r rs log :
  holds_queue (pending_out s) (Fifo (r :: rs) log) →
  ∃ q, on_pending_out (ikcq_dequeue_request true) s = Ok (with_queues (pending_in s) q s) (0%Z, Some r) ∧
    holds_queue q (Fifo rs log).
Proof.
  intros Hq. destruct (ikcq_dequeue_refines true _ _ Hq) as (q & E & Hq'). exists q.
  unfold on_pending_out. by rewrite E.
Qed.

Lemma dequeue_out_empty s log :
  holds_queue (pending_out s) (Fifo [] log) →
  ∃ q, on_pending_out (ikcq_dequeue_request true) s =
      Ok (with_queues (pending_in s) q s) (- E_IKC_NOQUEUE, None)%Z ∧
    holds_queue q (Fifo [] log).
Proof.
  intros Hq. destruct (ikcq_dequeue_refines true _ _ Hq) as (q & E & Hq'). exists q.
  unfold on_pending_out. by rewrite E.
Qed.

Lemma on_ikcd_Ok {K A} (f : M ikcd A) i (k : K) i' a :
  f i = Ok i' a → on_ikcd f (i, k) = Ok (i', k) a.
Proof. intros E. unfold on_ikcd. cbn [fst snd]. by rewrite E. Qed.

(** * From the kernel to the queue *)

(** The queue for outgoing requests is [r] alone, and [r] is the request [v]. *)
Definition queued (i : ikcd) (r : loc) (v : ikc_request) : Prop :=
  requests i !! r = Some v ∧ ∃ log, holds_queue (pending_out i) (Fifo [r] log).

Section ServeCreat.
Context (server_id client_id : Z) (msq : Z → cstr → option cstr) (hostname : cstr) (ikcd_pid : Z).
Context (junk : ikc_request) (jb : buf) (jq : ikc_request_queue).

Abbreviation round := (ikc_serve_request (DkmctlCall0 := kernel_dkmctl ikcd_pid) hostname server_id client_id msq).

(** One round: the arguments are fetched and the request is queued. *)
Lemma serve_creat_round i k cur l d fn on rn app_name log :
  owns k cur l → Dkmctl.req d = Dkmctl.PROC_CREAT_REQ → located fn on rn d → NUL ∉ fn → NUL ∉ rn →
  length rn < length (r_node junk) → length fn < length jb →
  (Z.of_nat (length hostname) < IKC_MAX_NODE_LEN)%Z →
  holds_queue (pending_out i) (Fifo [] log) →
  ∃ i' r v, round app_name junk jb jq cur Dkmctl.PROC_CREAT_REQ (i, at_dkm k l d) =
      Ok (i', at_dkm k l d) (true, app_name) ∧
    queued i' r v ∧ req v = IKC_PROC_CREAT_REQ ∧ rq_arg0 v = ArgRNode ∧ buf_str (r_node v) 0 = Some rn ∧
    o_node v = hostname ∧ o_pid v = cur ∧ sent i' = sent i ∧ replies i' = replies i.
Proof.
  intros Ho Hr Hloc Hfn Hrn Hlr Hlf Hlh Hq.
  destruct (runs_inv _ _ _ (DkmctlProps.get_args_creat_runs ikcd_pid cur k l d fn on rn (r_node junk) jb
    Ho Hr Hloc Hfn Hrn Hlr Hlf)) as (? & ? & E & -> & b & b' & -> & Hb & Hb').
  set (v := Req (cliaddr junk) (cli_len junk) (request_nbr junk) (host_id junk) (thread_id junk)
    (seq_nbr junk) IKC_PROC_CREAT_REQ hostname b cur (r_pid junk) ArgRNode (ArgBuf b')).
  set (r := fresh i).
  set (i1 := with_requests (<[r := v]> (requests i)) (with_fresh (Pos.succ r) i)).
  destruct (queue_out jq r i1 [] log Hq) as (q & Eq & Hq').
  exists (with_queues (pending_in i1) q i1), r, v. split.
  - unfold ikc_serve_request. rewrite decide_False by done. rewrite decide_True by done.
    erewrite bind_Ok by (apply on_ikcd_Ok; reflexivity). cbn beta iota.
    erewrite bind_Ok by (apply on_ikcd_Ok; unfold store; cbn; rewrite lookup_insert_eq; reflexivity).
    erewrite bind_Ok by (apply on_ikcd_Ok, deref_eq; cbn; apply lookup_insert_eq).
    cbn [r_node]. erewrite bind_Ok by (apply on_kernel_Ok; exact E). cbn beta iota.
    rewrite decide_False by lia. erewrite bind_Ok by (by apply sprintf_Ok).
    erewrite bind_Ok by (apply on_ikcd_Ok; unfold store; cbn; rewrite lookup_insert_eq; reflexivity).
    cbn. rewrite !insert_insert_eq. erewrite bind_Ok by (apply on_ikcd_Ok; exact Eq). done.
  - assert (buf_str b 0 = Some rn) as Hs.
    { destruct Hb as [rest [= ->]]. change (rn ++ NUL :: rest) with ([] ++ rn ++ NUL :: rest).
      by rewrite buf_str_app. }
    split_and!; try done. split; [apply lookup_insert_eq|by exists log].
Qed.

Lemma taken_wants_nothing d : Dkmctl.wants_service (Dkmctl.set_state Dkmctl.REQ_IN_GET_REQ d) = false.
Proof. apply bool_decide_eq_false. intros (_ & H & _). done. Qed.

Abbreviation serve :=
  (ikc_get_request_from_kernel (DkmctlCall0 := kernel_dkmctl ikcd_pid) hostname server_id client_id msq).

(** The signal handler's work for a process creation request. *)
Lemma serve_creat_run i k m cur l d fn on rn app_name log fuel :
  kinv (Sys (at_dkm k l d) m) → owns k cur l → asks Dkmctl.PROC_CREAT_REQ d → located fn on rn d →
  idle_others k l → NUL ∉ fn → NUL ∉ rn →
  length rn < length (r_node junk) → length fn < length jb →
  (Z.of_nat (length hostname) < IKC_MAX_NODE_LEN)%Z →
  holds_queue (pending_out i) (Fifo [] log) →
  ∃ i' r v, serve (2 + fuel) app_name junk jb jq (i, at_dkm k l d) =
      Ok (i', at_dkm k l (Dkmctl.set_state Dkmctl.REQ_IN_GET_REQ d)) 0%Z ∧
    queued i' r v ∧ req v = IKC_PROC_CREAT_REQ ∧ rq_arg0 v = ArgRNode ∧ buf_str (r_node v) 0 = Some rn ∧
    o_node v = hostname ∧ o_pid v = cur ∧ sent i' = sent i ∧ replies i' = replies i.
Proof.
  intros Hi Ho Ha Hloc Hidle Hfn Hrn Hlr Hlf Hlh Hq.
  destruct (runs_inv _ _ _ (DkmctlProps.get_req_only ikcd_pid (Dkmctl.Argv (Dkmctl.UInt 0) (Dkmctl.UInt 0))
    k l d m cur Dkmctl.PROC_CREAT_REQ Hi Ho Ha ltac:(done) Hidle)) as (? & ? & E1 & -> & ->).
  set (d2 := Dkmctl.set_state Dkmctl.REQ_IN_GET_REQ d) in *.
  destruct (serve_creat_round i k cur l d2 fn on rn app_name log Ho ltac:(apply Ha) Hloc Hfn Hrn Hlr Hlf Hlh Hq)
    as (i' & r & v & E2 & Hv).
  exists i', r, v. split; [|exact Hv]. cbn [ikc_get_request_from_kernel plus].
  erewrite bind_Ok by (apply on_kernel_Ok; exact E1). cbn beta iota. rewrite decide_False by lia.
  erewrite bind_Ok by exact E2. cbn beta iota.
  assert (kinv (Sys (at_dkm k l d2) m)) as Hi2.
  { by eapply (DkmctlInv.kinv_get_req _ _ (Dkmctl.Argv (Dkmctl.UInt 0) (Dkmctl.UInt 0))); [exact Hi|exact E1]. }
  erewrite bind_Ok; [|apply on_kernel_Ok; eapply (no_more ikcd_pid k l d2 m); [done..|apply taken_wants_nothing]].
  cbn beta iota. by rewrite decide_True.
Qed.
End ServeCreat.

(** * From the queue to the answer of the kernel *)

Section Worker.
Context (gethostbyname : cstr → option Z) (servaddr_room : Z) (tid : Z) (node : cstr) (ip : Z) (ikcd_pid : Z).
Context (Hip : gethostbyname node = Some ip) (Hroom : (sizeof_sockaddr_in ≤ servaddr_room)%Z).

(** The request reaches the node: the answers before [p] are lost. *)
Lemma attempts_run r s v lost_ones p q pid ps :
  out_request s r v node → Forall lost lost_ones → length lost_ones < IKC_MAX_ATTEMPTS →
  readable p q pid → replies s = lost_ones ++ Packet p :: ps →
  ∃ s' v', attempts_loop gethostbyname servaddr_room IKC_MAX_ATTEMPTS r tid (-1) s = Ok s' 0%Z ∧
    requests s' !! r = Some v' ∧ r_pid v' = pid ∧ o_pid v' = o_pid v ∧ req v' = req v ∧
    sent s' = replicate (S (length lost_ones)) (SockAddr ip IKC_PORT, out_packet tid v node) ++ sent s ∧
    replies s' = ps ∧ pending_out s' = pending_out s.
Proof.
  unfold IKC_MAX_ATTEMPTS. intros Hr Hl Hn Hp E. cbn [attempts_loop]. rewrite decide_True by lia.
  destruct lost_ones as [|a [|]]; cbn in Hn; try lia.
  - erewrite bind_Ok by (eapply (attempt_answered gethostbyname); [exact Hip|exact Hroom|done|exact E|done]).
    cbn beta iota. rewrite decide_False by lia.
    do 2 eexists. split; [reflexivity|]. split; [apply lookup_insert_eq|done].
  - apply Forall_cons in Hl as [Ha _].
    erewrite bind_Ok by (eapply (attempt_lost gethostbyname); [exact Hip|exact Hroom|done|exact E|done]).
    cbn beta iota. rewrite decide_True by lia.
    erewrite bind_Ok by (eapply (attempt_answered gethostbyname); [exact Hip|exact Hroom|by eapply out_sent_request|reflexivity|exact Hp]).
    do 2 eexists. split; [reflexivity|]. split; [apply lookup_insert_eq|done].
Qed.

(** The worker that wakes up for this request. *)
Lemma out_worker_run i k l d r v seq lost_ones p q pid ps fuel :
  let v1 := set_seq_nbr (next_seq seq) v in
  queued i r v → req v = IKC_PROC_CREAT_REQ → rq_arg0 v = ArgRNode → buf_str (r_node v) 0 = Some node →
  (14 + strlen (o_node v) + strlen node < 2 ^ 16)%Z →
  owns k (o_pid v) l → Dkmctl.req d = Dkmctl.PROC_CREAT_REQ →
  Forall lost lost_ones → length lost_ones < IKC_MAX_ATTEMPTS → readable p q pid →
  replies i = lost_ones ++ Packet p :: ps →
  ∃ i', ikc_out_request_worker (DkmctlCall0 := kernel_dkmctl ikcd_pid) gethostbyname servaddr_room (2 + fuel) tid seq
      (i, at_dkm k l d) =
      Ok (i', at_dkm k l (Dkmctl.set_state Dkmctl.REQ_NOT_IN_PROGRESS (Dkmctl.set_pending 0
        (Dkmctl.set_r_pid pid d)))) (next_seq seq) ∧
    sent i' = replicate (S (length lost_ones)) (SockAddr ip IKC_PORT, out_packet tid v1 node) ++ sent i ∧
    replies i' = ps ∧ ∃ log, holds_queue (pending_out i') (Fifo [] log).
Proof.
  intros v1 [Hv [log Hq]] Hreq Harg Hnode Hlen Ho Hrq Hlost Hn Hp E.
  destruct (dequeue_out i r [] log Hq) as (q1 & Edq & Hq1). set (i1 := with_queues (pending_in i) q1 i) in *.
  set (i2 := with_requests (<[r := v1]> (requests i1)) i1).
  assert (out_request i2 r v1 node) as Hr1 by (split; [apply lookup_insert_eq|done]).
  destruct (attempts_run r i2 v1 lost_ones p q pid ps Hr1 Hlost Hn Hp E)
    as (i3 & v3 & Eat & Hv3 & Hpid & Hop & Hr3 & Hs3 & Hps3 & Hpo).
  change (o_pid v1) with (o_pid v) in Hop. change (req v1) with (req v) in Hr3. rewrite Hreq in Hr3.
  rewrite <- Hop in Ho.
  destruct (runs_inv _ _ _ (DkmctlProps.put_resp_creat_runs ikcd_pid (o_pid v3) k l d (r_pid v3) Dkmctl.UNone Ho Hrq))
    as (? & ? & Epr & -> & ->).
  set (i4 := with_requests (<[r := set_args ArgRPid (rq_arg1 v3) v3]> (requests i3)) i3).
  assert (holds_queue (pending_out i4) (Fifo [] log)) as Hq4 by (change (pending_out i4) with (pending_out i3); by rewrite Hpo).
  destruct (dequeue_out_empty i4 log Hq4) as (q5 & Edq' & Hq5).
  exists (with_queues (pending_in i4) q5 i4). rewrite <- Hpid. split; [|by split_and!; [..|exists log]].
  cbn [ikc_out_request_worker plus]. erewrite bind_Ok by (apply on_ikcd_Ok; exact Edq).
  cbn beta iota. rewrite decide_False by lia. erewrite bind_Ok.
  2: { unfold ikc_out_request. erewrite bind_Ok by (apply on_ikcd_Ok; unfold store; cbn [requests with_queues i1]; by rewrite Hv).
       erewrite bind_Ok by (apply on_ikcd_Ok; exact Eat).
       erewrite bind_Ok; [reflexivity|]. unfold ikc_respond_to_kernel.
       erewrite bind_Ok by (apply on_ikcd_Ok, deref_eq; exact Hv3). rewrite decide_True by done.
       erewrite bind_Ok by (apply on_ikcd_Ok; unfold store; by rewrite Hv3).
       erewrite bind_Ok by (apply on_kernel_Ok; rewrite Hr3; exact Epr). reflexivity. }
  erewrite bind_Ok by (apply on_ikcd_Ok; exact Edq'). cbn beta iota. by rewrite decide_True by done.
Qed.
End Worker.

(** * The other host *)

Lemma a_answer_again bk n pid : a_answer ((n, pid) :: bk) n = (pid, (n, pid) :: bk).
Proof. unfold a_answer. cbn. by rewrite Z.eqb_refl. Qed.

Lemma a_answers_again bk n pid c :
  a_answers ((n, pid) :: bk) (replicate c n) = (replicate c pid, (n, pid) :: bk).
Proof. induction c as [|c IH]; [done|]. cbn [replicate a_answers]. by rewrite a_answer_again, IH. Qed.

Lemma a_executed_again bk n pid c : a_executed ((n, pid) :: bk) (replicate c n) = [].
Proof.
  induction c as [|c IH]; [done|]. cbn [replicate a_executed]. rewrite a_answer_again. cbn [snd].
  rewrite IH. unfold a_new. cbn. by rewrite Z.eqb_refl.
Qed.

Lemma a_executed_new bk n c :
  List.find (λ y, Z.eqb y.1 n) bk = None → a_executed bk (replicate (S c) n) = [n].
Proof.
  intros E. cbn [replicate a_executed]. unfold a_new, a_answer. rewrite E. cbn [snd].
  by rewrite a_executed_again.
Qed.

(** A new request that arrives several times is executed once. *)
Lemma a_answers_new bk n c :
  List.find (λ y, Z.eqb y.1 n) bk = None →
  a_answers bk (replicate (S c) n) = (replicate (S c) 76%Z, (n, 76%Z) :: bk).
Proof. intros E. cbn [replicate a_answers]. unfold a_answer. by rewrite E, a_answers_again. Qed.

Lemma packets_replicate js c addr n pid :
  job_nbr <$> js = replicate c n → job_addr <$> js = replicate c addr →
  packets js (replicate c pid) = replicate c (addr, response n pid).
Proof.
  revert js. induction c as [|c IH]; intros [|j js]; try done. cbn. intros [= <- Hn] [= <- Ha].
  f_equal. by apply IH.
Qed.

Lemma rev_replicate {A} n (x : A) : rev (replicate n x) = replicate n x.
Proof.
  induction n as [|n IH]; [done|]. cbn [replicate rev]. by rewrite IH, <- replicate_cons_app.
Qed.

(** ikcd gets [S c] copies of a request whose number is not in its backlog. *)
Lemma other_host_run junk jq jb n s ls bk p nbr c :
  in_state s ls bk [] → creat_request p nbr → List.find (λ y, Z.eqb y.1 nbr) bk = None →
  ∃ s1 s2 ls2, arrive_all junk jq n (replicate (S c) p) s = Ok s1 () ∧
    ikc_in_request_worker (2 + c) jb s1 = Ok s2 () ∧
    in_state s2 ls2 ((nbr, 76%Z) :: bk) [] ∧
    sent s2 = replicate (S c) (from p, response nbr 76) ++ sent s ∧
    executed s1 = executed s ∧ executed s2 = nbr :: executed s.
Proof.
  intros Hs Hp Hnew.
  assert (Forall2 creat_request (replicate (S c) p) (replicate (S c) nbr)) as Hps.
  { generalize (S c). induction n0; constructor; done. }
  destruct (runs_inv _ _ _ (arrive_all_rep junk jq n _ _ _ _ _ _ Hs Hps))
    as (s1 & [] & E & js & Hs1 & Hsent & Hexec & Hn & Ha). cbn [app] in Hs1.
  rewrite fmap_replicate in Ha.
  assert (length js = S c) as Hl by (rewrite <- (length_fmap job_nbr), Hn; apply length_replicate).
  destruct (ikc_in_worker_run jb s1 ls bk js (2 + c) Hs1) as (s2 & ls2 & E2 & Hs2 & Hsent2 & Hexec2); [lia|].
  rewrite Hn, a_answers_new in Hs2, Hsent2 by done. rewrite Hn, a_executed_new, Hexec in Hexec2 by done.
  exists s1, s2, ls2. split_and!; [done..| |done|done]. cbn [fst] in Hsent2.
  by rewrite Hsent2, Hsent, (packets_replicate js (S c) (from p) nbr), rev_replicate.
Qed.

(** The packet of an outgoing request, as the other host reads it. *)
Lemma out_packet_request tid v node addr :
  NUL ∉ o_node v → NUL ∉ node → (strlen (o_node v) < IKC_MAX_NODE_LEN)%Z →
  (14 + strlen (o_node v) + strlen node < 2 ^ 16)%Z → (- 2 ^ 31 ≤ o_pid v < 2 ^ 31)%Z →
  let id := ikcr_pack_request_id tid (seq_nbr v) in
  ikcp_unpack_proc_creat_req (out_packet tid v node) = Some (id, o_pid v, o_node v, node, []) ∧
  creat_request (Arrival addr (out_packet tid v node)) (ikcr_pack_request_number (sin_addr addr) id).
Proof.
  intros Hh Hn Hlh Hl Hp id.
  assert (0 ≤ id < 2 ^ 16)%Z as Hid by (apply Z.mod_pos_bound; lia).
  assert (ikcp_unpack_proc_creat_req (out_packet tid v node) = Some (id, o_pid v, o_node v, node, [])) as E.
  { apply ikcp_unpack_req_eq; try done; [by apply not_elem_of_nil|change (strlen []) with 0%Z; lia]. }
  split; [exact E|]. do 3 eexists. exists id, (o_pid v), (o_node v), node, []. by split_and!.
Qed.

Lemma response_readable n pid : (- 2 ^ 31 ≤ pid < 2 ^ 31)%Z → readable (response n pid) (ikcr_unpack_req_id n) pid.
Proof.
  intros Hp. assert (0 ≤ ikcr_unpack_req_id n < 2 ^ 16)%Z as Hn by (apply Z.mod_pos_bound; lia).
  destruct (ikcp_proc_creat_resp_roundtrip _ _ Hn Hp) as (p & E & Hu).
  rewrite pack_resp_eq in E. by injection E as <- _.
Qed.

(** * From [dkm_execve] to the process creation request *)

Section Host.
Context (server_id client_id : Z) (msq : Z → cstr → option cstr) (hostname : cstr) (ikcd_pid : Z).
Context (app_name : buf) (junk : ikc_request) (jb : buf) (jq : ikc_request_queue).
Context (k : Dkmctl.kernel) (m : gmap Z Dkmctl.exec_pc) (cur : Z) (l : positive) (fn : cstr).

Local Abbreviation serve :=
  (ikc_get_request_from_kernel (DkmctlCall0 := kernel_dkmctl ikcd_pid) hostname server_id client_id msq).
Local Abbreviation node := (chosen_node server_id client_id msq hostname fn).

Context (Hinv : kinv (Sys k m)) (Howns : owns k cur l) (Hserved : served k cur).
Context (Hidle : idle_others k l) (Hpc : m !! cur = None).
Context (Hfn : NUL ∉ fn) (Hnn : NUL ∉ Dkmctl.nodename k) (Hnode : NUL ∉ node).
Context (Hnl : length (Dkmctl.nodename k) < Z.to_nat Dkmctl.NODE_LEN).
Context (Hnodel : length node < Z.to_nat Dkmctl.NODE_LEN).
Context (Happ : length fn < length app_name).
Context (Hmsg : (Z.of_nat (length (decimal client_id ++ lit " " ++ fn)) < 257)%Z).

(** The map request: csda has named another node, and the process asks for a process
    there. *)
Lemma ask_other_host i jf jr jo :
  node ≠ Dkmctl.nodename k → length jf = S (length fn) → length jr = Z.to_nat Dkmctl.NODE_LEN →
  length jo = Z.to_nat Dkmctl.NODE_LEN →
  ∃ k1 k2 k3 d, Dkmctl.dkm_execve cur jf jr jo fn k = Ok k1 Dkmctl.InMap ∧
    serve 2 app_name junk jb jq (i, k1) = Ok (i, k2) 0%Z ∧
    Dkmctl.dkm_resume cur Dkmctl.InMap k2 = Ok (at_dkm k3 l d) Dkmctl.InCreat ∧
    DkmctlInv.same_but k k3 ∧
    kinv (Sys (at_dkm k3 l d) (<[cur := Dkmctl.InCreat]> (<[cur := Dkmctl.InMap]> m))) ∧
    asks Dkmctl.PROC_CREAT_REQ d ∧ Dkmctl.distributed d = 1%Z ∧
    located fn (Dkmctl.nodename k) node d.
Proof.
  intros Hne Hjf Hjr Hjo.
  destruct (DkmctlInv.inv_valid _ Hinv _ l (DkmctlInv.owns_in _ _ _ Howns) eq_refl) as [d0 Hd0]. cbn in Hd0.
  pose proof (DkmctlProps.execve_runs cur jf jr jo fn k l d0 Howns Hserved Hjf Hjr Hjo Hnl) as H1.
  rewrite (DkmctlInv.at_dkm_id k l d0 Hd0) in H1.
  destruct (runs_inv _ _ _ H1) as (? & ? & E1 & -> & d1 & -> & Ha & Hnames).
  set (k0 := DkmctlInv.signalled cur k) in *.
  assert (kinv (Sys (at_dkm k0 l d1) (<[cur := Dkmctl.InMap]> m))) as Hi1 by (by eapply DkmctlInv.kinv_execve in E1).
  destruct (serve_map_run server_id client_id msq hostname ikcd_pid i k0 _ cur l d1 fn (Dkmctl.nodename k)
    app_name junk jb jq 0 Hi1 Howns Ha Hnames Hidle Hfn Happ Hmsg Hnode Hnodel)
    as (d2 & E2 & Hi2 & Hp & Hloc).
  pose proof (DkmctlProps.resume_map_runs cur k0 l d2 _ _ _ Howns Hserved Hloc Hnn Hnode Hp) as H3.
  destruct (runs_inv _ _ _ H3) as (? & ? & E3 & k3 & d3 & Hs3 & -> & Hloc3 & Hd3 & Hend).
  rewrite decide_False in Hend by done. destruct Hend as (-> & Ha3 & _).
  assert (kinv (Sys (at_dkm k3 l d3) (<[cur := Dkmctl.InCreat]> (<[cur := Dkmctl.InMap]> m)))) as Hi3
    by (by eapply DkmctlInv.kinv_resume in E3; [|exact Hi2|apply lookup_insert_eq]).
  exists (at_dkm k0 l d1), (at_dkm k0 l d2), k3, d3. split_and!; try done.
Qed.

(** * The whole execution *)

Context (gethostbyname : cstr → option Z) (servaddr_room : Z) (ip tid seq : Z).
Context (Hip : gethostbyname node = Some ip) (Hroom : (sizeof_sockaddr_in ≤ servaddr_room)%Z).
Context (Hnamed : NUL ∉ hostname) (Hnamel : (strlen hostname < IKC_MAX_NODE_LEN)%Z).
Context (Hjunk : length (r_node junk) = Z.to_nat IKC_MAX_NODE_LEN).
Context (Hjb : length fn < length jb) (Hcur : (- 2 ^ 31 ≤ cur < 2 ^ 31)%Z).

Local Abbreviation worker := (ikc_out_request_worker (DkmctlCall0 := kernel_dkmctl ikcd_pid) gethostbyname servaddr_room 2 tid seq).

(** The id of the request, the packet, and the number that the other host gives it. *)
Definition request_id : Z := ikcr_pack_request_id tid (next_seq seq).
Definition request_packet : buf := creat_req_bytes request_id cur hostname node [].
Definition number_at (addr : sockaddr_in) : Z := ikcr_pack_request_number (sin_addr addr) request_id.

(** C2: the request of a process that executes a file for which csda names another host goes
    there and back.  The process sleeps twice, and each time ikcd fetches its request from the
    kernel.  The packet for the other host is sent again if its first answer is lost, and
    then arrives there twice; ikcd of the other host, in any state in which it has not seen
    the number of the request, proceeds the request once (nothing when the packets arrive,
    and one number is added to [executed] by the worker) and answers both packets with the
    same pid, and this is the pid that the process returns with.  What the other host reads
    from the packet is the pid of the process, the name of its host, the name of the other
    host where the file should be, and no arguments: the name [fn] of the file stays
    behind.  The hypothesis on [servaddr_room] is that the copy of the address in
    [ikcr_proceed_outgoing_request] overwrites nothing. *)
Theorem remote_execution i log jf jr jo iB ls bk addr jqB jb0 junkB n lost_ones ps :
  node ≠ Dkmctl.nodename k → length jf = S (length fn) → length jr = Z.to_nat Dkmctl.NODE_LEN →
  length jo = Z.to_nat Dkmctl.NODE_LEN →
  holds_queue (pending_out i) (Fifo [] log) →
  in_state iB ls bk [] → List.find (λ y, Z.eqb y.1 (number_at addr)) bk = None →
  Forall lost lost_ones → length lost_ones < IKC_MAX_ATTEMPTS →
  let answer := response (number_at addr) 76 in
  let copies {A} : A → list A := replicate (S (length lost_ones)) in
  replies i = lost_ones ++ Packet answer :: ps →
  ∃ k1 k2 k3 k4 k5 k6 d i1 i2 iB1 iB2 lsB,
    Dkmctl.dkm_execve cur jf jr jo fn k = Ok k1 Dkmctl.InMap ∧
    serve 2 app_name junk jb jq (i, k1) = Ok (i, k2) 0%Z ∧
    Dkmctl.dkm_resume cur Dkmctl.InMap k2 = Ok k3 Dkmctl.InCreat ∧
    serve 2 app_name junk jb jq (i, k3) = Ok (i1, k4) 0%Z ∧
    worker (i1, k4) = Ok (i2, k5) (next_seq seq) ∧
    sent i2 = copies (SockAddr ip IKC_PORT, request_packet) ++ sent i ∧ replies i2 = ps ∧
    ikcp_unpack_proc_creat_req request_packet = Some (request_id, cur, hostname, node, []) ∧
    arrive_all junkB jqB n (copies (Arrival addr request_packet)) iB = Ok iB1 () ∧
    ikc_in_request_worker (2 + length lost_ones) jb0 iB1 = Ok iB2 () ∧
    sent iB2 = copies (addr, answer) ++ sent iB ∧
    executed iB1 = executed iB ∧ executed iB2 = number_at addr :: executed iB ∧
    in_state iB2 lsB ((number_at addr, 76%Z) :: bk) [] ∧
    Dkmctl.dkm_resume cur Dkmctl.InCreat k5 = Ok k6 (Dkmctl.Returned 0) ∧
    Dkmctl.dkms k6 !! l = Some d ∧ Dkmctl.r_pid d = 76%Z ∧ Dkmctl.req d = Dkmctl.DKM_NOP ∧
    Dkmctl.distributed d = 1%Z ∧ located fn (Dkmctl.nodename k) node d.
Proof.
  intros Hne Hjf Hjr Hjo Hq HB Hnew Hlost Hll answer copies Hrep.
  destruct (ask_other_host i jf jr jo Hne Hjf Hjr Hjo)
    as (k1 & k2 & k3 & d & E1 & E2 & E3 & Hsame & Hi3 & Ha & Hdist & Hloc).
  pose proof (DkmctlInv.same_but_owns _ _ _ _ Hsame Howns) as Ho3.
  assert (idle_others k3 l) as Hidle3.
  { destruct Hsame as (Ht & Hd & _). intros p l' d'. rewrite Hd. intros Hne' Ho'.
    by apply (Hidle p), (DkmctlInv.owns_tasks k3). }
  destruct (serve_creat_run server_id client_id msq hostname ikcd_pid junk jb jq i k3 _ cur l d fn _ node
    app_name log 0 Hi3 Ho3 Ha Hloc Hidle3 Hfn Hnode ltac:(by rewrite Hjunk) Hjb Hnamel Hq)
    as (i1 & r & v & E4 & Hqd & Hreq & Harg & Hstr & Hon & Hop & Hs1 & Hr1).
  set (v1 := set_seq_nbr (next_seq seq) v).
  assert (o_node v1 = hostname) as Hon1 by done. assert (o_pid v1 = cur) as Hop1 by done.
  assert (out_packet tid v1 node = request_packet) as Epkt by (unfold out_packet; by rewrite Hon1, Hop1).
  assert (14 + strlen (o_node v) + strlen node < 2 ^ 16)%Z as Hlen.
  { rewrite Hon. unfold strlen, IKC_MAX_NODE_LEN, Dkmctl.NODE_LEN in *. lia. }
  rewrite <- Hop in Ho3.
  destruct (out_worker_run gethostbyname servaddr_room tid node ip ikcd_pid Hip Hroom i1 k3 l (Dkmctl.set_state Dkmctl.REQ_IN_GET_REQ d)
    r v seq lost_ones answer (ikcr_unpack_req_id (number_at addr)) 76 ps 0 Hqd Hreq Harg Hstr Hlen Ho3
    ltac:(apply Ha) Hlost Hll ltac:(by apply response_readable) ltac:(by rewrite Hr1))
    as (i2 & E5 & Hs2 & Hps & _). fold v1 in Hs2. rewrite Epkt, Hs1 in Hs2.
  destruct (out_packet_request tid v1 node addr) as [Hread Hreqp]; [by rewrite Hon1|done|by rewrite Hon1|exact Hlen|by rewrite Hop1|].
  rewrite Epkt in Hread, Hreqp. rewrite Hon1, Hop1 in Hread. change (ikcr_pack_request_number _ _) with (number_at addr) in Hreqp.
  destruct (other_host_run junkB jqB jb0 n iB ls bk _ _ (length lost_ones) HB Hreqp Hnew)
    as (iB1 & iB2 & lsB & E6 & E7 & HB2 & HsB & HxB1 & HxB2).
  rewrite Hop in Ho3.
  match type of E5 with _ = Ok (_, at_dkm _ _ ?d5) _ =>
    destruct (runs_inv _ _ _ (DkmctlProps.resume_creat_runs cur k3 l d5 Ho3 eq_refl)) as (? & ? & E8 & -> & ->) end.
  do 6 eexists. eexists _, i1, i2, iB1, iB2, lsB.
  split_and!; [exact E1|exact E2|exact E3|exact E4|exact E5|done|done|exact Hread|exact E6|exact E7|done|done|done|done|exact E8|
    apply DkmctlInv.at_dkm_dkm|done..].
Qed.
End Host.

(** * Example: process 10 of the host [here] executes [/bin/ls]; csda names the host [far],
    and the first answer of [far] is lost. *)

Definition here_addr : sockaddr_in := SockAddr 7 4000.
Definition far_answer : buf := response (number_at 1 first_seq here_addr) 76.
Definition here_ikcd : ikcd := with_replies [Timeout; Packet far_answer] ikcd_init.

Lemma remote_execution_witness :
  ∃ k1 k2 k3 k4 k5 k6 d i1 i2 iB1 iB2,
    Dkmctl.dkm_execve 10 (DkmctlProps.zeros 8) (DkmctlProps.zeros 65) (DkmctlProps.zeros 65) (lit "/bin/ls")
      DkmctlInv.example_kernel = Ok k1 Dkmctl.InMap ∧
    Dkmctl.dkm_resume 10 Dkmctl.InMap k2 = Ok k3 Dkmctl.InCreat ∧
    ikc_out_request_worker (DkmctlCall0 := kernel_dkmctl 5) resolver 16 2 1 first_seq (i1, k4) = Ok (i2, k5) 0%Z ∧
    length (sent i2) = 2 ∧
    ikc_in_request_worker 3 junk_backlog iB1 = Ok iB2 () ∧
    sent iB2 = [(here_addr, far_answer); (here_addr, far_answer)] ∧
    executed iB1 = [] ∧ executed iB2 = [number_at 1 first_seq here_addr] ∧
    Dkmctl.dkm_resume 10 Dkmctl.InCreat k5 = Ok k6 (Dkmctl.Returned 0) ∧
    Dkmctl.dkms k6 !! 2%positive = Some d ∧ Dkmctl.r_pid d = 76%Z.
Proof.
  destruct (remote_execution 1 2 answers_far (lit "here") 5 (replicate 257 NUL) junk_request
    (replicate 257 NUL) junk_elem DkmctlInv.example_kernel ∅ 10 2 (lit "/bin/ls")
    DkmctlInv.example_kinv DkmctlProps.example_owns DkmctlProps.example_served DkmctlProps.example_idle_10
    eq_refl ltac:(by_decision) ltac:(by_decision) ltac:(by_decision) ltac:(vm_compute; lia) ltac:(vm_compute; lia)
    ltac:(vm_compute; lia) ltac:(vm_compute; done) resolver 16 42 1 first_seq eq_refl ltac:(done)
    ltac:(by_decision) ltac:(vm_compute; done) eq_refl ltac:(vm_compute; lia) ltac:(lia)
    here_ikcd [] (DkmctlProps.zeros 8) (DkmctlProps.zeros 65) (DkmctlProps.zeros 65) ikcd_init [] []
    here_addr junk_elem junk_backlog junk_request 16 [Timeout] []
    ltac:(vm_compute; done) eq_refl eq_refl eq_refl init_holds init_in_state eq_refl
    ltac:(by repeat constructor) (le_n 2) eq_refl)
    as (k1 & k2 & k3 & k4 & k5 & k6 & d & i1 & i2 & iB1 & iB2 & lsB & H1 & _ & H3 & _ & H5 & H6 & _ & _ & _ & H7 & H8 & X1 & X2 & _ & H9 & H10 & H11 & _).
  exists k1, k2, k3, k4, k5, k6, d, i1, i2, iB1, iB2.
  split_and!; [exact H1|exact H3|exact H5|by rewrite H6|exact H7|exact H8|exact X1|exact X2|exact H9|exact H10|exact H11].
Defined.
