(* ===== verification/CsdaMsq.v ===== *)
(** The thread of csd that answers ikcd over a message queue (src/src/csd/csda.c lines
    47-98), and its client in ikcd (ikcr.c lines 333-388, [ikcr_best_node_for_app] of
    Ikcd.v): the text of a request is read as it was written, and the node that ikcd
    stores for a process is the best node of csd.

    The queue itself belongs to the system: a message is what [msgrcv] returns, [None] for
    an error, and an answer is what [msgsnd] is called with. *)

From Stdlib Require Import ZArith Lia Floats.SpecFloat.
From stdpp Require Import base list gmap strings.
From S2P Require Import Prelude Cbuf Ctext CsdbKey CsdbState Csdb CsdbSpec CsdbRep.
From S2P Require Import CsdbStore.
From S2P Require Import CsdbRefine CsdbTrace Csp Csd CsdProps Csc CscProps Csda CsdaProps.
From S2P Require Ikcd.
Import Ikcd(ikcr_best_node_for_app).

(** * [sscanf(req.msg, "%d %s", &client_id, app_name)] *)

Definition is_digit (c : byte) : bool := bool_decide (48 ≤ byte_val c ≤ 57)%Z.
Definition digits_value (s : cstr) : Z := foldl (λ z c, 10 * z + (byte_val c - 48))%Z 0%Z s.

(** A [%d] conversion; what a number that does not fit an [int] gives is not defined by the
    language, and is its value here. *)
Definition scan_d (s : cstr) : option (Z * cstr) :=
  let s := skip_space s in
  let '(neg, s) := match s with
                   | c :: s' => if decide (c = minus) then (true, s')
                                else if decide (c = byte_of 43) then (false, s') else (false, s)
                   | [] => (false, s)
                   end in
  match span is_digit s with
  | ([], _) => None
  | (ds, rest) => Some ((if neg : bool then - digits_value ds else digits_value ds)%Z, rest)
  end.

(** What the two variables hold afterwards: a conversion that fails leaves its own and
    those after it as they are. *)
Definition scan_request (msg : cstr) (client_id : Z) (app_name : cstr) : Z * cstr :=
  match scan_d msg with
  | None => (client_id, app_name)
  | Some (id, rest) =>
    match scan_s rest with
    | None => (id, app_name)
    | Some (app, _) => (id, app)
    end
  end.

(** * The thread *)

(** The variables of the thread; they keep their values from one request to the next, and
    start with what the memory holds. *)
Record bn_vars : Type := Vars { client_id : Z; app_name : cstr; best_node : cstr }.

(** The queue id and the text of an answer. *)
Definition bn_answer : Type := Z * cstr.

Section csda.
Context {S : Type} `{!CsStore S}.

(** The body of the loop for a message. *)
Definition best_node_round (hostname : cstr) (v : bn_vars) (msg : buf) : M S (bn_vars * bn_answer) :=
  text ← access (buf_str msg 0);
  let '(id, app) := scan_request text (client_id v) (app_name v) in
  node ← best_node_request hostname app (best_node v);
  resp ← strcpy NODE_SIZE node;
  mret (Vars id app node, (id, resp)).

(** The loop: each element is what [msgrcv] returns and the flag that is read after the
    answer.  An error of [msgrcv] goes back to [msgrcv] without looking at the flag.  The
    answers, and whether the thread has ended. *)
Fixpoint csda_best_node_server_thread (hostname : cstr) (v : bn_vars) (msgs : list (option buf * bool))
    : M S (list bn_answer * bool) :=
  match msgs with
  | [] => mret ([], false)
  | (None, _) :: msgs => csda_best_node_server_thread hostname v msgs
  | (Some msg, should_exit) :: msgs =>
    '(v, a) ← best_node_round hostname v msg;
    if should_exit : bool then mret ([a], true)
    else
      '(as_, ended) ← csda_best_node_server_thread hostname v msgs;
      mret (a :: as_, ended)
  end.

(** What a client with the queue [id] gets for a message, if the thread answers in the
    state [s]: the queue is the one named in the message. *)
Definition csd_answers (hostname : cstr) (v : bn_vars) (s : S) (id : Z) (msg : cstr) : option cstr :=
  match best_node_round hostname v (msg ++ [NUL]) s with
  | Ok _ (_, (to, node)) => if decide (to = id) then Some node else None
  | Stop _ => None
  end.
End csda.

(** * The text of a request *)

Lemma digits_value_app ds d : digits_value (ds ++ [d]) = (10 * digits_value ds + (byte_val d - 48))%Z.
Proof. unfold digits_value. by rewrite foldl_app. Qed.

Lemma byte_val_digit z : byte_val (digit z) = (48 + z `mod` 10)%Z.
Proof.
  unfold digit. rewrite byte_val_of. apply Z.mod_small.
  pose proof (Z.mod_pos_bound z 10 ltac:(lia)). lia.
Qed.

Lemma is_digit_digit z : is_digit (digit z) = true.
Proof.
  apply bool_decide_eq_true. rewrite byte_val_digit. pose proof (Z.mod_pos_bound z 10 ltac:(lia)). lia.
Qed.

Lemma decimal_loop_spec fuel z acc :
  (0 ≤ z < 10 ^ Z.of_nat fuel)%Z → 0 < fuel →
  ∃ ds, decimal_loop fuel z acc = ds ++ acc ∧ ds ≠ [] ∧ Forall (λ c, is_digit c = true) ds ∧ digits_value ds = z.
Proof.
  revert z acc. induction fuel as [|fuel IH]; intros z acc Hz Hf; [lia|]. cbn [decimal_loop].
  pose proof (Z.div_mod z 10 ltac:(lia)) as Hdm. pose proof (Z.mod_pos_bound z 10 ltac:(lia)) as Hm.
  case_decide as E.
  - exists [digit z]. split_and!; [done|done|by repeat constructor; apply is_digit_digit|].
    unfold digits_value. cbn [foldl]. rewrite byte_val_digit. lia.
  - rewrite Nat2Z.inj_succ, Z.pow_succ_r in Hz by lia.
    assert (0 < z / 10)%Z by (pose proof (Z.div_pos z 10 ltac:(lia) ltac:(lia)); lia).
    destruct (IH (z / 10)%Z (digit z :: acc)) as (ds & -> & Hn & Hd & Hv).
    + split; [lia|]. apply Z.div_lt_upper_bound; lia.
    + destruct fuel; [cbn in Hz; lia|lia].
    + exists (ds ++ [digit z]). rewrite <- app_assoc. split_and!; [done|by destruct ds| |].
      * apply Forall_app. split; [done|by repeat constructor; apply is_digit_digit].
      * rewrite digits_value_app, byte_val_digit, Hv. lia.
Qed.

Lemma decimal_spec z :
  (0 ≤ z < 10 ^ 20)%Z →
  decimal z ≠ [] ∧ Forall (λ c, is_digit c = true) (decimal z) ∧ digits_value (decimal z) = z.
Proof.
  intros Hz. unfold decimal. destruct (decimal_loop_spec 20 z [] Hz ltac:(lia)) as (ds & -> & H).
  by rewrite app_nil_r.
Qed.

Lemma is_digit_plain c : is_digit c = true → is_space c = false ∧ c ≠ minus ∧ c ≠ byte_of 43 ∧ c ≠ NUL.
Proof. by destruct c. Qed.

Lemma scan_request_eq id app id0 app0 :
  (0 ≤ id < 10 ^ 20)%Z → token app →
  scan_request (decimal id ++ lit " " ++ app) id0 app0 = (id, app).
Proof.
  intros Hid Happ. destruct (decimal_spec id Hid) as (Hn & Hd & Hv). unfold scan_request, scan_d.
  destruct (decimal id) as [|c ds] eqn:E; [done|]. pose proof Hd as [Hc _]%Forall_cons.
  destruct (is_digit_plain c Hc) as (Hs & Hm & Hp & _). cbn [Datatypes.app skip_space]. rewrite Hs.
  rewrite decide_False by done. rewrite decide_False by done.
  change (c :: ds ++ lit " " ++ app) with ((c :: ds) ++ space :: app).
  rewrite span_app; [|done|by intros x [= <-]].
  cbn beta iota. rewrite Hv. unfold scan_s.
  pose proof (skip_space_token app [] Happ) as Hsk. rewrite app_nil_r in Hsk. rewrite Hsk.
  destruct Happ as [Hne Hf]. rewrite <- (app_nil_r app), span_app; [|..|done].
  - by destruct app; rewrite ?app_nil_r.
  - eapply Forall_impl; [exact Hf|]. by intros x ->.
Qed.

(** the queue id and the name of the application that ikcd writes into a request are
    those that csd reads out of it. *)
Theorem bn_request_roundtrip id app id0 app0 :
  (0 ≤ id < 10 ^ 20)%Z → token app →
  scan_request (decimal id ++ lit " " ++ app) id0 app0 = (id, app).
Proof. apply scan_request_eq. Qed.

(** * The sign of a benchmark *)

(** Not a negative number, or not a number. *)
Definition unsigned (d : double) : Prop :=
  match d with S754_zero s | S754_infinity s | S754_finite s _ _ => s = false | S754_nan => True end.

Lemma round_aux_unsigned m e l : unsigned (binary_round_aux dprec demax false m e l).
Proof.
  unfold binary_round_aux. destruct (shr_fexp _ _ m e l) as [m1 e1].
  destruct (shr_fexp _ _ _ e1 loc_Exact) as [m2 e2]. by destruct (shr_m m2); [|destruct (Z.leb _ _)|].
Qed.

Lemma normalize_unsigned m e : (0 ≤ m)%Z → unsigned (binary_normalize dprec demax m e false).
Proof.
  intros Hm. unfold binary_normalize. destruct m as [|p|p]; [done| |lia].
  unfold binary_round. destruct (shl_align _ _ _). apply round_aux_unsigned.
Qed.

Lemma d_of_Z_unsigned z : (0 ≤ z)%Z → unsigned (d_of_Z z).
Proof. apply normalize_unsigned. Qed.

Lemma d_add_unsigned a b : unsigned a → unsigned b → unsigned (d_add a b).
Proof.
  unfold d_add. destruct a as [s|s| |s m e], b as [s'|s'| |s' m' e']; cbn; intros; subst; try done.
  apply normalize_unsigned. cbn. lia.
Qed.

Lemma d_mul_unsigned a b : unsigned a → unsigned b → unsigned (d_mul a b).
Proof.
  unfold d_mul. destruct a as [s|s| |s m e], b as [s'|s'| |s' m' e']; cbn; intros; subst; try done.
  apply round_aux_unsigned.
Qed.

Lemma d_div_unsigned a b : unsigned a → unsigned b → unsigned (d_div a b).
Proof.
  unfold d_div. destruct a as [s|s| |s m e], b as [s'|s'| |s' m' e']; cbn; intros; subst; try done.
  destruct (SFdiv_core_binary _ _ _ _ _ _) as [[q e''] l]. apply round_aux_unsigned.
Qed.

Lemma d_decimal_unsigned m k : (0 ≤ m)%Z → unsigned (d_decimal m k).
Proof. intros. apply d_div_unsigned; apply d_of_Z_unsigned; [done|]. apply Z.pow_nonneg. lia. Qed.

Lemma digits_nonneg s : ∀ acc n, (0 ≤ acc)%Z → (0 ≤ (digits s acc n).1.1)%Z.
Proof.
  induction s as [|c s IH]; intros acc n Hacc; cbn [digits]; [done|]. cbv zeta.
  case_decide; [apply IH; lia|done].
Qed.

(** A number that is written without a sign. *)
Definition unsigned_text (s : cstr) : Prop := head (skip_space s) ≠ Some minus.

Lemma atof_unsigned s : unsigned_text s → unsigned (atof s).
Proof.
  unfold unsigned_text, atof. intros Hs.
  destruct (skip_space s) as [|c t]; [by apply d_decimal_unsigned|]. cbn [head] in Hs.
  rewrite decide_False by congruence.
  match goal with |- context [let '(neg, s) := ?q in _] => assert (∃ u, q = (false, u)) as [u ->] end.
  { case_decide; by eexists. }
  cbv beta iota zeta.
  pose proof (digits_nonneg u 0 0 ltac:(lia)) as Hi.
  destruct (digits u 0 0) as [[i n] r]. cbn [fst] in Hi. destruct r as [|x r]; [by apply d_decimal_unsigned|].
  case_decide; [|by apply d_decimal_unsigned].
  pose proof (digits_nonneg r i 0 Hi) as Hj. destruct (digits r i 0) as [[j k] r'].
  by apply d_decimal_unsigned.
Qed.

Lemma inverse_unsigned d : unsigned d → unsigned (inverse d).
Proof.
  intros. apply d_div_unsigned; [by apply d_of_Z_unsigned|]. apply d_add_unsigned; [by apply d_of_Z_unsigned|done].
Qed.

Lemma bench_of_unsigned l1 l5 l15 : unsigned l1 → unsigned l5 → unsigned l15 → unsigned (bench_of l1 l5 l15).
Proof.
  intros. unfold bench_of.
  assert (∀ l m, unsigned l → (0 ≤ m)%Z → unsigned (d_mul (inverse l) (d_decimal m 1))) as Hterm.
  { intros l m Hl Hm. apply d_mul_unsigned; [by apply inverse_unsigned|by apply d_decimal_unsigned]. }
  apply d_add_unsigned; [apply d_add_unsigned|]; apply Hterm; done || lia.
Qed.

(** As an [int] it is not the error -1. *)
Lemma d_to_int_unsigned d : unsigned d → (0 ≤ d_to_int d)%Z.
Proof.
  destruct d as [s|s| |s m e]; cbn; try done. intros ->. case_decide; [|apply Z.div_pos; lia].
  apply Z.mul_nonneg_nonneg; [lia|]. apply Z.pow_nonneg. lia.
Qed.

(** The load averages in the database are written without a sign, as csd writes them. *)
Definition loads_unsigned (x : tree) (n : cstr) : Prop :=
  ∀ f v, f ∈ [lit "avg1"; lit "avg5"; lit "avg15"] → load_at x n f = Some v → unsigned_text v.

Lemma bench_unsigned x n : loads_unsigned x n → unsigned (bench x n).
Proof.
  intros H. unfold bench.
  destruct (load_at x n (lit "avg1")) as [l1|] eqn:E1; [|done].
  destruct (load_at x n (lit "avg5")) as [l5|] eqn:E5; [|done].
  destruct (load_at x n (lit "avg15")) as [l15|] eqn:E15; [|done].
  apply bench_of_unsigned; apply atof_unsigned; eapply H; [..|exact E1| |exact E5| |exact E15]; set_solver.
Qed.

(** * An answer of csd *)

(** The node [n] is capable and alive with the greatest benchmark, or it is this host
    because no benchmark of such a node exceeds -1. *)
Definition best_or_host (x : tree) (host : cstr) (nodes : list cstr) (n : cstr) : Prop :=
  (n ∈ nodes ∧ alive x n ∧ ∀ n', n' ∈ nodes → alive x n' → d_gt (bench x n') (bench x n) = false) ∨
  (n = host ∧ ∀ n', n' ∈ nodes → alive x n' → d_gt (bench x n') (d_of_Z (-1)) = false).

Section Answer.
Context (s : csdb) (x : tree) (host app text : cstr) (id : Z).
Context (Hdb : db_at s x) (Happ : token app) (Hnul : NUL ∉ app) (Hfree : dot_free app) (Hlen : length app ≤ 200).
Context (Hcap : leaf_at x [lit "app"; app; lit "capnodes"] = Some text).
Context (Hok : Forall (node_ok NODE_SIZE x) (strtok [space] text)).
Context (Hpos : Forall (loads_unsigned x) (strtok [space] text)).
Context (Hhost : (strlen host < NODE_SIZE)%Z) (Hid : (0 ≤ id < 10 ^ 20)%Z).

Lemma best_node_request_runs nn :
  runs (best_node_request host app nn) s (λ s' n, db_at s' x ∧ (strlen n < NODE_SIZE)%Z ∧
    best_or_host x host (strtok [space] text) n).
Proof using All.
  unfold best_node_request. apply runs_bind.
  eapply runs_eq; [apply sprintf_Ok; unfold APP_SIZE; lia|]. cbn beta.
  apply runs_bind. eapply runs_mono; [by eapply best_node_runs|].
  intros s' [r n] (Hs' & m & Em & Hm & Hbest). cbn [fst snd] in *. subst r. cbv zeta.
  destruct Hm as [[-> ->]|(Hin & Ha & ->)].
  - rewrite decide_True by done. unfold strcpy. eapply runs_eq; [by apply sprintf_Ok|].
    split; [done|]. split; [done|]. right. by split.
  - rewrite Forall_forall in Hok, Hpos.
    pose proof (d_to_int_unsigned _ (bench_unsigned x n (Hpos n Hin))). rewrite decide_False by lia.
    apply runs_ret. split; [done|]. split; [apply (Hok n Hin)|]. by left.
Qed.

Lemma request_text : NUL ∉ decimal id ++ lit " " ++ app.
Proof using Hid Hnul.
  destruct (decimal_spec id Hid) as (_ & Hd & _). rewrite !not_elem_of_app. split_and!; [|by_decision|done].
  intros Hin. rewrite Forall_forall in Hd. by destruct (is_digit_plain _ (Hd _ Hin)) as (_ & _ & _ & []).
Qed.

Lemma best_node_round_runs v rest :
  runs (best_node_round host v ((decimal id ++ lit " " ++ app) ++ NUL :: rest)) s (λ s' r, db_at s' x ∧
    r.2.1 = id ∧ best_or_host x host (strtok [space] text) r.2.2).
Proof using All.
  unfold best_node_round. apply runs_bind. eapply runs_eq.
  { change ((decimal id ++ lit " " ++ app) ++ NUL :: rest) with ([] ++ (decimal id ++ lit " " ++ app) ++ NUL :: rest).
    rewrite buf_str_app by (done || apply request_text). reflexivity. }
  cbn beta. assert (scan_request (decimal id ++ lit " " ++ app) (client_id v) (app_name v) = (id, app)) as ->
    by (by apply scan_request_eq).
  apply runs_bind. eapply runs_mono; [apply best_node_request_runs|].
  intros s' n (Hs' & Hn & Hbest). apply runs_bind. eapply runs_eq; [by apply sprintf_Ok|]. by apply runs_ret.
Qed.

(** C19: when ikcd asks csd over the message queue for the node of an application, csd reads
    the name that ikcd wrote and answers to the queue of ikcd, and the node that ikcd gets
    is alive, capable of the application and has the greatest benchmark of such nodes, or
    it is the host of csd. *)
Theorem ikcd_gets_best_node {T} (t : T) v server_id hostname :
  (0 ≤ server_id)%Z → (Z.of_nat (length (decimal id ++ lit " " ++ app)) < 257)%Z →
  ∃ node, ikcr_best_node_for_app hostname server_id id (csd_answers host v s) app t = Ok t (0%Z, node) ∧
    best_or_host x host (strtok [space] text) node.
Proof using All.
  intros Hs Hl. destruct (runs_inv _ _ _ (best_node_round_runs v [])) as (s' & [v' [to node]] & E & _ & Hto & Hbest).
  cbn [fst snd] in Hto, Hbest. subst to. exists node. split; [|exact Hbest]. unfold ikcr_best_node_for_app.
  rewrite decide_False by lia. rewrite decide_False by lia. erewrite bind_Ok by (by apply sprintf_Ok).
  unfold csd_answers. rewrite E. by rewrite decide_True.
Qed.
End Answer.
