(* ===== verification/IkcdMain.v ===== *)
(** The main thread of ikcd (src/src/ikcd/ikcd.c lines 361-399 and 437-467) together with the
    kernel that signals it: how SIGUSR2 leads to a call of [ikc_get_request_from_kernel],
    and that no request of the kernel is forgotten once SIGUSR2 is blocked.

    The thread is a state machine whose states are the points of [main] between which a
    signal can arrive or the kernel can run something else.  A standard signal is not
    queued: it is pending or not.  [sigsuspend(&null_mask)] unblocks everything while it
    waits, returns after a handler has run, and then restores the mask. *)

From Stdlib Require Import ZArith Lia Strings.Byte.
From stdpp Require Import base list gmap strings relations.
From S2P Require Import Prelude.
From S2P Require Import Cbuf.
From S2P Require Import Ctext.
From S2P Require Import Ikcq.
From S2P Require Import IkcState.
From S2P Require Import Ikcd.
From S2P Require Import Dkmctl.
From S2P Require Import DkmctlInv.
From S2P Require Import DkmctlProps.
From S2P Require Import DkmctlSignal.

(** * The handlers *)

Definition SIGINT : Z := 2.
Definition SIGUSR2 : Z := 12.
Definition SIGTERM : Z := 15.

Inductive handler : Set := on_sigusr2 | on_sigterm_int.

(** What [sigaction] has been called with. *)
Definition install_handler : list (Z * handler) :=
  [(SIGUSR2, on_sigusr2); (Z.lor SIGTERM SIGINT, on_sigterm_int)].

(** The handler of a signal, or its default action. *)
Definition handler_of (sig : Z) : option handler := (list_to_map install_handler : gmap Z handler) !! sig.

(** * The state *)

(** Where the thread is: before the registration, before the first [sigprocmask], before
    and in [sigsuspend], at the test of the flag, before it is cleared, before SIGUSR2 is
    blocked, before [DKM_GET_REQ], in the service of a request, and in [ikc_log_exit]. *)
Inductive main_pc : Set :=
  | Register | Unmask | BeforeSuspend | InSuspend | TestFlag | ClearFlag | BlockSignal | GetRequest
  | Serving (p rq : Z) | Exited.

#[export] Instance main_pc_eq_dec : EqDecision main_pc.
Proof. solve_decision. Defined.

(** [blocked] is SIGUSR2 in the mask that the thread has outside [sigsuspend]; [arrived] is
    a pending SIGUSR2; [others] is the kernel with the processes that sleep in it. *)
Record mainloop : Type := Main {
  pc : main_pc;
  blocked : bool;
  arrived : bool;
  sig_usr2_flag : bool;
  others : sys
}.

Definition at_pc_with (q : main_pc) (s : mainloop) : mainloop :=
  Main q (blocked s) (arrived s) (sig_usr2_flag s) (others s).

(** The kernel after a call of the thread. *)
Definition with_kernel (k : kernel) (s : mainloop) : mainloop :=
  Main (pc s) (blocked s) (arrived s) (sig_usr2_flag s) (Sys k (pcs (others s))).

(** A handler returns to where it interrupted the thread, but [sigsuspend] returns. *)
Definition after_handler (q : main_pc) : main_pc := match q with InSuspend => TestFlag | _ => q end.

(** SIGUSR2 can be delivered. *)
Definition deliverable (s : mainloop) : bool :=
  arrived s && (negb (blocked s) || bool_decide (pc s = InSuspend)).

(** * The steps *)

Section Main.
Context (hostname : cstr) (server_id client_id : Z) (msq : Z → cstr → option cstr).
Context (me : Z).

(** The steps of the thread itself.  The memory of ikcd is shared with the other threads
    and therefore arbitrary when a request is served. *)
Inductive main_step : mainloop → mainloop → Prop :=
  | m_register s k e a :
      pc s = Register → sys_dkmctl me DKM_IKCD_REG me 0 no_argv (kern (others s)) = Ok k (Return e a) →
      main_step s (at_pc_with Unmask (with_kernel k s))
  | m_unmask s :
      pc s = Unmask → main_step s (Main BeforeSuspend false (arrived s) (sig_usr2_flag s) (others s))
  | m_suspend s : pc s = BeforeSuspend → main_step s (at_pc_with InSuspend s)
  | m_test s :
      pc s = TestFlag → main_step s (at_pc_with (if sig_usr2_flag s then ClearFlag else BeforeSuspend) s)
  | m_clear s :
      pc s = ClearFlag → main_step s (Main BlockSignal (blocked s) (arrived s) false (others s))
  | m_block s :
      pc s = BlockSignal → main_step s (Main GetRequest true (arrived s) (sig_usr2_flag s) (others s))
  | m_get s k e p rq :
      pc s = GetRequest →
      sys_dkmctl me DKM_GET_REQ 0 0 (Argv (UInt 0) (UInt 0)) (kern (others s)) =
        Ok k (Return e (Argv (UInt p) (UInt rq))) →
      main_step s (at_pc_with (if decide (e = 1)%Z then BeforeSuspend else Serving p rq) (with_kernel k s))
  | m_serve s i i' k app_name app_name' junk jb jq p rq again :
      pc s = Serving p rq →
      ikc_serve_request (DkmctlCall0 := kernel_dkmctl me) hostname server_id client_id msq
        app_name junk jb jq p rq (i, kern (others s)) = Ok (i', k) (again, app_name') →
      main_step s (at_pc_with (if again : bool then GetRequest else Exited) (with_kernel k s))
  | m_deliver s :
      deliverable s = true →
      main_step s (Main (after_handler (pc s)) (blocked s) false true (others s)).

(** Everything else: the handler of SIGTERM, and the processes of the host.  They leave
    ikcd registered and alive; what the kernel has sent is pending. *)
Inductive world_step : mainloop → mainloop → Prop :=
  | w_term s k e a :
      sys_dkmctl me DKM_IKCD_UNREG 0 0 no_argv (kern (others s)) = Ok k (Return e a) →
      world_step s (at_pc_with (after_handler (pc s)) (with_kernel k s))
  | w_kernel s w :
      kstep (others s) w →
      dkm_ikcd_pid (kern w) = dkm_ikcd_pid (kern (others s)) →
      is_Some (find_task_by_pid me (kern w)) →
      world_step s (Main (pc s) (blocked s)
        (arrived s || bool_decide (sigusr2 (kern w) ≠ sigusr2 (kern (others s)))) (sig_usr2_flag s) w).

Definition loop_step (s s' : mainloop) : Prop := main_step s s' ∨ world_step s s'.

(** ikcd before its registration; [b] is the mask it was started with. *)
Definition main_init (b : bool) (w : sys) : mainloop := Main Register b false false w.
End Main.

Section Main.
Context (hostname : cstr) (server_id client_id : Z) (msq : Z → cstr → option cstr).
Context (me : Z).

Local Abbreviation main_step := (main_step hostname server_id client_id msq me).
Local Abbreviation loop_step := (loop_step hostname server_id client_id msq me).

(** ikcd is registered or nobody is, and it is alive. *)
Definition registered (k : kernel) : Prop :=
  (dkm_ikcd_pid k = me ∨ dkm_ikcd_pid k ≤ 0)%Z ∧ is_Some (find_task_by_pid me k).

Lemma registered_alive k : registered k → ikcd_alive k.
Proof. intros [[E|H] Hme] Hpos; [by rewrite E|lia]. Qed.

Lemma registered_same k k' :
  registered k → dkm_ikcd_pid k' = dkm_ikcd_pid k → tasks k' = tasks k → registered k'.
Proof. unfold registered, find_task_by_pid. by intros H -> ->. Qed.

(** ** What serving a request does to the kernel *)

Lemma on_ikcd_inv {K A} (f : M ikcd A) i (k : K) i' k' a : on_ikcd f (i, k) = Ok (i', k') a → k' = k.
Proof. unfold on_ikcd. cbn. destruct (f i); by intros [= _ <- _]. Qed.

Lemma on_kernel_inv {A} (f : M kernel A) i k i' k' a :
  on_kernel f (i, k) = Ok (i', k') a → f k = Ok k' a.
Proof. unfold on_kernel. cbn. destruct (f k); by intros [= _ <- <-]. Qed.

Lemma access_inv {S A} (o : option A) (s s' : S) a : access o s = Ok s' a → s' = s.
Proof. destruct o; [|done]. by intros [= <- _]. Qed.

Lemma sprintf_inv {S} n m (s s' : S) a : sprintf n m s = Ok s' a → s' = s.
Proof. unfold sprintf. case_decide; [|done]. by intros [= <- _]. Qed.

Lemma best_node_inv {S} app (s s' : S) a :
  ikcr_best_node_for_app hostname server_id client_id msq app s = Ok s' a → s' = s.
Proof.
  unfold ikcr_best_node_for_app. repeat case_decide; try by intros [= <- _].
  intros (s1 & m & E & Er)%bind_inv. apply sprintf_inv in E as ->. by destruct (msq _ _); injection Er as <- _.
Qed.

(** The call that changes it is [DKM_PUT_RESP], if there is one. *)
Lemma serve_kernel i i' k k' app_name junk jb jq p rq r :
  ikc_serve_request (DkmctlCall0 := kernel_dkmctl me) hostname server_id client_id msq
    app_name junk jb jq p rq (i, k) = Ok (i', k') r →
  k' = k ∨ ∃ a c, dkm_put_resp p rq a k = Ok k' c.
Proof.
  unfold ikc_serve_request. repeat case_decide; intros E; [|
    |by injection E as _ <- _; left|by injection E as _ <- _; left].
  - apply bind_inv in E as ([i1 k1] & c & E1 & E). apply on_kernel_inv in E1.
    unfold dkmctl, kernel_dkmctl in E1; rewrite get_args_call in E1. apply get_args_same in E1 as ->.
    destruct c as [e [[| |b] a1]|]; try done. case_decide; [done|].
    apply bind_inv in E as ([i2 k2] & app & E2 & E). apply access_inv in E2 as [= -> ->].
    apply bind_inv in E as ([i2 k2] & [e2 best] & E3 & E). apply best_node_inv in E3 as [= -> ->].
    apply bind_inv in E as ([i2 k2] & c & E4 & E). apply on_kernel_inv in E4. injection E as _ <- _.
    right. by do 2 eexists.
  - left. apply bind_inv in E as ([i1 k1] & l & E1 & E). apply on_ikcd_inv in E1 as ->.
    apply bind_inv in E as ([i2 k2] & u & E2 & E). apply on_ikcd_inv in E2 as ->.
    apply bind_inv in E as ([i3 k3] & v & E3 & E). apply on_ikcd_inv in E3 as ->.
    apply bind_inv in E as ([i4 k4] & c & E4 & E). apply on_kernel_inv in E4.
    unfold dkmctl, kernel_dkmctl in E4; rewrite get_args_call in E4. apply get_args_same in E4 as ->.
    destruct c as [e [[| |b] [| |b']]|]; try done. case_decide; [done|].
    apply bind_inv in E as ([i5 k5] & h & E5 & E). apply sprintf_inv in E5 as [= -> ->].
    apply bind_inv in E as ([i6 k6] & u6 & E6 & E). apply on_ikcd_inv in E6 as ->.
    apply bind_inv in E as ([i7 k7] & u7 & E7 & E). apply on_ikcd_inv in E7 as ->.
    by injection E as _ <- _.
Qed.
(** ** The invariant *)

(** The thread is on its way to [DKM_GET_REQ]. *)
Definition heading (s : mainloop) : Prop :=
  match pc s with
  | TestFlag => sig_usr2_flag s = true
  | ClearFlag | BlockSignal | GetRequest | Serving _ _ | Exited => True
  | _ => False
  end.

(** Once the thread has blocked SIGUSR2. *)
Definition armed (s : mainloop) : Prop := blocked s = true ∧ pc s ≠ Register ∧ pc s ≠ Unmask.

Definition attended (s : mainloop) : Prop :=
  pending (kern (others s)) = [] ∨ arrived s = true ∨ heading s.

Record loop_inv (s : mainloop) : Prop := {
  loop_kinv : kinv (others s);
  loop_reg : registered (kern (others s));
  loop_att : armed s → attended s
}.

(** A step of the thread keeps what holds of the kernel. *)
Lemma loop_inv_keep s s' :
  loop_inv s → kinv (others s') → dkm_ikcd_pid (kern (others s')) = dkm_ikcd_pid (kern (others s)) →
  tasks (kern (others s')) = tasks (kern (others s)) → (armed s' → attended s') → loop_inv s'.
Proof. intros [Hk Hr _] ? ? ? ?. split; [done|by eapply registered_same|done]. Qed.

Lemma get_req_same k m a k' c :
  kinv (Sys k m) → dkm_get_req a k = Ok k' c →
  dkm_ikcd_pid k' = dkm_ikcd_pid k ∧ tasks k' = tasks k ∧
  (∀ r, c = Return 1 r → pending k' = []).
Proof.
  intros Hi E. pose proof (get_req_pending k m a Hi) as Hp.
  destruct (get_req_spec k m a Hi) as [[E' _]|(p & l & d & _ & _ & _ & E')]; rewrite E' in E, Hp.
  - injection E as <- <-. split_and!; [done..|]. intros r _.
    destruct (pending k) as [|[]]; [done|]. by destruct Hp as (? & ? & _).
  - injection E as <- <-. by split_and!.
Qed.

Lemma put_resp_same k m p rq a k' c :
  kinv (Sys k m) → dkm_put_resp p rq a k = Ok k' c →
  kinv (Sys k' m) ∧ dkm_ikcd_pid k' = dkm_ikcd_pid k ∧ tasks k' = tasks k.
Proof.
  intros Hi E. split; [by eapply kinv_put_resp|].
  destruct (find_task_by_pid p k) as [[q [l|]]|] eqn:Ef.
  - pose proof (find_task_pid _ _ _ Ef) as [Hin Hq]. cbn in Hq. subst q.
    destruct (inv_valid _ Hi _ l Hin eq_refl) as [d Hd]. cbn in Hd.
    pose proof (put_resp_quiet p rq a k l d Ef) as Ht. rewrite (at_dkm_id k l d Hd) in Ht.
    eapply post_elim in Ht; [|exact E]. by destruct Ht as (d' & -> & _).
  - unfold dkm_put_resp in E. erewrite bind_Ok in E by reflexivity. by rewrite Ef in E.
  - unfold dkm_put_resp in E. erewrite bind_Ok in E by reflexivity. rewrite Ef in E. by injection E as <- _.
Qed.

Lemma main_step_inv s s' : (0 < me)%Z → loop_inv s → main_step s s' → loop_inv s'.
Proof.
  intros Hme Hi Hs. pose proof Hi as [Hk Hr Hatt].
  destruct Hs as [s k e a Hpc E|s Hpc|s Hpc|s Hpc|s Hpc|s Hpc|s k e p rq Hpc E
    |s i i' k app app' junk jb jq p rq again Hpc E|s Hd].
  - injection E as <- _ _. split; [by apply kinv_ikcd; destruct (others s)| |by intros (_ & _ & [])].
    split; [by left|apply Hr].
  - apply (loop_inv_keep s); try done. by intros [[=] _].
  - apply (loop_inv_keep s); try done. intros [Hb _].
    destruct Hatt as [?|[?|Hh]]; [by unfold armed; rewrite Hpc|by left|by right; left|]. unfold heading in Hh. by rewrite Hpc in Hh.
  - apply (loop_inv_keep s); try done. intros [Hb _].
    destruct Hatt as [?|[?|Hh]]; [by unfold armed; rewrite Hpc|by left|by right; left|]. unfold heading in Hh. rewrite Hpc in Hh.
    right. right. unfold heading. cbn. by rewrite Hh.
  - apply (loop_inv_keep s); try done. by right; right.
  - apply (loop_inv_keep s); try done. by right; right.
  - destruct (others s) as [k0 m] eqn:Eo. cbn [kern] in *. rewrite get_req_call in E.
    destruct (get_req_same k0 m _ k _ Hk E) as (E1 & E2 & E3).
    apply (loop_inv_keep s); unfold with_kernel, at_pc_with; cbn [others kern]; rewrite ?Eo; try done.
    + by eapply kinv_get_req.
    + intros _. case_decide as H1; [|by right; right]. subst e. left. cbn. by eapply E3.
  - destruct (others s) as [k0 m] eqn:Eo. cbn [kern] in *.
    assert (kinv (Sys k m) ∧ dkm_ikcd_pid k = dkm_ikcd_pid k0 ∧ tasks k = tasks k0) as (E1 & E2 & E3).
    { destruct (serve_kernel _ _ _ _ _ _ _ _ _ _ _ E) as [->|(a & c & Ep)]; [done|by eapply put_resp_same]. }
    apply (loop_inv_keep s); unfold with_kernel, at_pc_with; cbn [others kern]; rewrite ?Eo; try done.
    intros _. right; right. by destruct again.
  - apply (loop_inv_keep s); try done. intros (Hb & _ & _). right. right.
    unfold deliverable in Hd. apply andb_true_iff in Hd as [_ Hd]. cbn in Hb. rewrite Hb in Hd. cbn in Hd.
    apply bool_decide_eq_true in Hd. unfold heading. cbn. by rewrite Hd.
Qed.

Lemma world_step_inv s s' : loop_inv s → world_step me s s' → loop_inv s'.
Proof.
  intros [Hk [Hreg Hme] Hatt] Hs. destruct Hs as [s k e a E|s w Hs Ep Hal].
  - injection E as <- _ _. split; [by apply kinv_ikcd; destruct (others s)|split; [right; cbn; lia|done]|].
    intros (Hb & H1 & H2). destruct Hatt as [?|[?|Hh]]; [|by left|by right; left|].
    + split; [done|]. by cbn in H1, H2; split; intros E; rewrite E in H1, H2.
    + right. right. unfold heading in *. cbn. by destruct (pc s).
  - split; [by eapply kinv_step|by unfold registered; cbn [others]; rewrite Ep|].
    intros Harm. destruct (Hatt Harm) as [Hp|[Ha|Hh]].
    + destruct (kstep_told _ _ Hk Hs ltac:(by apply registered_alive) Hp) as [?|Hne]; [by left|].
      right; left. cbn. rewrite bool_decide_eq_true_2 by done. apply orb_true_r.
    + right; left. cbn. by rewrite Ha.
    + by right; right.
Qed.

Lemma loop_inv_reach b w s :
  (0 < me)%Z → kinv w → registered (kern w) → rtc loop_step (main_init b w) s → loop_inv s.
Proof.
  intros Hme Hw Hr Hs. assert (loop_inv (main_init b w)) as Hi by (split; [done..|by intros (_ & [] & _)]).
  induction Hs as [|s1 s2 s3 [Hm|Ho] _ IH]; [done| |]; apply IH.
  - by eapply main_step_inv.
  - by eapply world_step_inv.
Qed.

(** * Properties *)

(** C24: once the main thread has blocked SIGUSR2 for the first time, it never sleeps while
    a process waits to be served: when it is in [sigsuspend] and no signal is pending for
    it, there is no request that [DKM_GET_REQ] would report, whatever the processes, the
    other threads and a SIGTERM have done in between. *)
Theorem ikc_no_request_forgotten b w s :
  (0 < me)%Z → kinv w → registered (kern w) → rtc loop_step (main_init b w) s →
  blocked s = true → pc s = InSuspend → arrived s = false → pending (kern (others s)) = [].
Proof.
  intros Hme Hw Hr Hs Hb Hpc Ha. destruct (loop_inv_reach b w s Hme Hw Hr Hs) as [_ _ Hatt].
  destruct Hatt as [?|[?|Hh]]; [by unfold armed; rewrite Hpc|done|congruence|]. unfold heading in Hh. by rewrite Hpc in Hh.
Qed.

(** The steps from each point of the loop to [DKM_GET_REQ]. *)
Definition to_get (s : mainloop) : Prop :=
  ∃ s', rtc main_step s s' ∧ pc s' = GetRequest ∧ others s' = others s.

Lemma to_get_step s s' : main_step s s' → others s' = others s → to_get s' → to_get s.
Proof. intros Hs Eo (s2 & Hr & Hpc & E). exists s2. split_and!; [by eapply rtc_l|done|congruence]. Qed.

Lemma to_get_block s : pc s = BlockSignal → to_get s.
Proof. intros E. eapply to_get_step; [by apply m_block|done|]. eexists. by split; [apply rtc_refl|]. Qed.

Lemma to_get_clear s : pc s = ClearFlag → to_get s.
Proof. intros E. eapply to_get_step; [by apply m_clear|done|by apply to_get_block]. Qed.

Lemma to_get_flag s : pc s = TestFlag → sig_usr2_flag s = true → to_get s.
Proof.
  intros E Hf. eapply to_get_step; [by apply m_test|done|]. rewrite Hf. by apply to_get_clear.
Qed.

Lemma to_get_suspended s : pc s = InSuspend → arrived s = true → to_get s.
Proof.
  intros E Ha. eapply to_get_step; [apply m_deliver|done|apply to_get_flag; cbn; by rewrite ?E].
  unfold deliverable. rewrite Ha, bool_decide_eq_true_2 by done. apply orb_true_r.
Qed.

Lemma to_get_suspend s : pc s = BeforeSuspend → arrived s = true → to_get s.
Proof. intros E Ha. eapply to_get_step; [by apply m_suspend|done|by apply to_get_suspended]. Qed.

Lemma attended_to_get s :
  armed s → attended s → pending (kern (others s)) ≠ [] → (∀ p rq, pc s ≠ Serving p rq) → pc s ≠ Exited →
  to_get s.
Proof.
  intros (_ & H1 & H2) [?|Hatt] Hp H3 H4; [done|]. unfold heading in Hatt.
  destruct (pc s) eqn:E; try done.
  - apply to_get_suspend; [done|by destruct Hatt].
  - apply to_get_suspended; [done|by destruct Hatt].
  - destruct (sig_usr2_flag s) eqn:Ef; [by apply to_get_flag|].
    eapply to_get_step; [by apply m_test|done|]. rewrite Ef. apply to_get_suspend; [done|by destruct Hatt].
  - by apply to_get_clear.
  - by apply to_get_block.
  - exists s. by split_and!; [apply rtc_refl|..].
  - by edestruct H3.
Qed.

(** C25: from every reachable state in which SIGUSR2 has been blocked once, a process
    waits, and the thread is not in the middle of another request, the steps of the thread
    alone lead to [DKM_GET_REQ], which takes the first process that waits. *)
Theorem ikc_waiting_request_taken b w s :
  (0 < me)%Z → kinv w → registered (kern w) → rtc loop_step (main_init b w) s →
  armed s → pending (kern (others s)) ≠ [] → (∀ p rq, pc s ≠ Serving p rq) → pc s ≠ Exited →
  ∃ s' p rq, rtc main_step s s' ∧ pc s' = Serving p rq ∧
    pending (kern (others s)) = (p, rq) :: pending (kern (others s')).
Proof.
  intros Hme Hw Hr Hs Harm Hp H3 H4. destruct (loop_inv_reach b w s Hme Hw Hr Hs) as [Hk _ Hatt].
  destruct (attended_to_get s Harm (Hatt Harm) Hp H3 H4) as (s1 & Hsteps & Hpc & Eo).
  rewrite <- Eo in Hk, Hp |- *. destruct (others s1) as [k m] eqn:E1. cbn [kern] in *.
  pose proof (get_req_pending k m (Argv (UInt 0) (UInt 0)) Hk) as Hg.
  destruct (pending k) as [|[p rq] rest]; [done|]. destruct Hg as (k' & E & Hrest & _).
  exists (at_pc_with (Serving p rq) (with_kernel k' s1)), p, rq. split_and!; [|done|by cbn; rewrite Hrest].
  eapply rtc_r; [exact Hsteps|].
  pose proof (m_get hostname server_id client_id msq me s1 k' 0 p rq Hpc) as Hm.
  rewrite decide_False in Hm by done. apply Hm. by rewrite E1.
Qed.

(** a SIGUSR2 that arrives between the registration and the first [sigsuspend] sets
    the flag, which nobody tests: the thread sleeps and can do no step of its own, and the
    request that the signal announced waits. *)
Theorem ikc_first_signal_lost s :
  pc s = BeforeSuspend → blocked s = false → arrived s = true →
  ∃ s', rtc main_step s s' ∧ pc s' = InSuspend ∧ sig_usr2_flag s' = true ∧ others s' = others s ∧
    ∀ s'', ¬ main_step s' s''.
Proof.
  intros Hpc Hb Ha.
  eexists. split; [eapply rtc_l; [apply m_deliver|eapply rtc_l; [apply m_suspend|apply rtc_refl]]|].
  - unfold deliverable. by rewrite Ha, Hb.
  - cbn. by rewrite Hpc.
  - split_and!; [done..|]. intros s'' Hs. by inversion Hs.
Qed.
End Main.

(** [sigaction(SIGTERM|SIGINT)] installs a handler for SIGTERM alone. *)
Lemma ikc_sigint_default : handler_of SIGTERM = Some on_sigterm_int ∧ handler_of SIGINT = None.
Proof. done. Qed.
