(* ===== verification/IkcdRace.v ===== *)
(** A fault of ikcd that needs two threads: a request that is repeated while it is
    executed (Ikcd.v, Ikcbl.v). *)

From Stdlib Require Import ZArith Lia Strings.Byte.
From stdpp Require Import base list gmap strings.
From S2P Require Import Prelude.
From S2P Require Import Cbuf.
From S2P Require Import Ikcp.
From S2P Require Import Ikcq.
From S2P Require Import IkcState.
From S2P Require Import Ikcbl.
From S2P Require Import IkcblRep.
From S2P Require Import Ikcd.
From S2P Require Import IkcdIn.
From S2P Require Import IkcdCollect.

(** * Two workers with the same request *)

(** Adding to a backlog whose head dangles writes to freed memory. *)
Lemma add_dangling jb r s l :
  backlog_mutex s = false → list_head s = Some l → backlog s !! l = None → (l < fresh s)%positive →
  ikcbl_add_request jb r s = Stop BadPtr.
Proof.
  intros Hm Hh Hl Hf. unfold ikcbl_add_request.
  erewrite bind_Ok by reflexivity. cbn beta iota zeta.
  erewrite bind_Ok by (by apply block_Ok). cbn beta iota.
  erewrite bind_Ok.
  2: { unfold bstore, store. cbn [backlog with_bmutex with_fresh with_backlog]. rewrite lookup_insert_eq. reflexivity. }
  erewrite bind_Ok by reflexivity. cbn [list_head with_backlog with_bmutex with_fresh]. rewrite Hh.
  erewrite bind_Stop; [done|].
  erewrite bind_Ok.
  2: { unfold bstore, store. cbn [backlog with_bmutex with_fresh with_backlog]. rewrite lookup_insert_eq. reflexivity. }
  erewrite bind_Stop; [done|]. unfold bstore, store. cbn [backlog with_bmutex with_fresh with_backlog].
  rewrite !lookup_insert_ne by lia. by rewrite Hl.
Qed.

(** C40: a client that repeats a request while a worker executes the first one: if a second
    worker looks into the backlog before the first adds the request, both execute it;
    the second then finds the first one as the last request of the thread, frees it
    while it is the head of the backlog, and its own addition writes to freed memory. *)
Theorem ikc_in_race jb s ls r1 r2 w1 w2 a1 a2 addr1 addr2 :
  brep s ls → mem_fresh s → r1 ≠ r2 → r1 ∉ ls.*2 → a1 ≠ a2 →
  requests s !! r1 = Some w1 → cliaddr w1 = Some a1 → addrs s !! a1 = Some addr1 →
  requests s !! r2 = Some w2 → cliaddr w2 = Some a2 → addrs s !! a2 = Some addr2 →
  req w1 = IKC_PROC_CREAT_REQ → req w2 = IKC_PROC_CREAT_REQ →
  request_nbr w1 = request_nbr w2 → host_id w1 = host_id w2 → bl_number s (request_nbr w1) ls = None →
  ∃ s1, ikcbl_try_respond_from_backlog r1 s = Ok s (-1)%Z ∧
    ikcbl_try_respond_from_backlog r2 s = Ok s (-1)%Z ∧
    ikc_in_execute jb r1 s = Ok s1 () ∧ ikc_in_execute jb r2 s1 = Stop BadPtr.
Proof.
  intros Hb [_ Hma] Hne Hnot Hna Hw1 Ha1 Haddr1 Hw2 Ha2 Haddr2 Hq1 Hq2 Hnbr Hhost Hn.
  destruct (runs_inv _ _ _ (execute_rep jb s ls r1 w1 a1 addr1 Hb Hw1 Ha1 Haddr1 Hq1 Hnot Hn))
    as (s1 & [] & E1 & Hb1 & Hf1 & Hr1 & Had1 & _).
  exists s1. split_and!; [by eapply try_respond_absent|eapply try_respond_absent; [done..|by rewrite <- Hnbr]|done|].
  assert (requests s1 !! r1 = Some (set_r_pid 76 w1)) as Hw1' by (rewrite Hr1; apply lookup_insert_eq).
  assert (requests s1 !! r2 = Some w2) as Hw2' by (by rewrite Hr1, lookup_insert_ne).
  destruct (remove_head_dangles s1 (with_bmutex true s1) true (fresh s) r1 ls _ Hb1 eq_refl Hw1')
    as (s2 & a & E2 & Hh2 & Hl2 & Hm2 & Ha & Hr2 & Had2 & Hf2).
  cbn in Ha. rewrite Ha1 in Ha. injection Ha as <-. cbn [request_nbr set_r_pid] in E2.
  assert (ikcbl_remove_threads_last_request r2 s1 = Ok (with_bmutex false s2) 0%Z) as E3.
  { unfold ikcbl_remove_threads_last_request. erewrite bind_Ok by (apply block_Ok, Hb1).
    erewrite bind_Ok by (apply (find_locked s1 _ _ (λ v, bool_decide (host_id v ≠ host_id w2 ∧ thread_id v ≠ thread_id w2)) Hb1);
      intros ?; by rewrite (deref_bind _ _ _ _ Hw2')).
    unfold bl_first. cbn [List.find snd]. rewrite Hw1'. cbn [host_id thread_id set_r_pid].
    rewrite bool_decide_eq_false_2 by tauto. cbn [negb fmap option_fmap option_map fst].
    erewrite bind_Ok by (apply deref_eq; exact Hw2'). rewrite <- Hnbr. erewrite bind_Ok by exact E2. done. }
  set (s3 := with_bmutex false s2) in *.
  assert (requests s3 !! r2 = Some w2) as Hw3.
  { change (requests s3) with (requests s2). rewrite Hr2. cbn. by rewrite lookup_delete_ne. }
  unfold ikc_in_execute. erewrite bind_Ok by exact E3. cbn beta iota.
  erewrite bind_Ok.
  2: { unfold ikcr_proceed_incoming_request. erewrite bind_Ok by (by apply deref_eq).
       erewrite bind_Ok by reflexivity. rewrite decide_True by done.
       erewrite bind_Ok by (unfold store; cbn [requests with_executed]; by rewrite Hw3). reflexivity. }
  erewrite bind_Ok.
  2: { eapply (respond_eq _ r2 (set_r_pid 76 w2) a2 addr2); [apply lookup_insert_eq|done| |done].
       change (addrs _) with (addrs s2) at 1. rewrite Had2. cbn. rewrite lookup_delete_ne by done. by rewrite Had1. }
  erewrite bind_Stop; [done|]. apply (add_dangling jb r2 _ (fresh s)); [done|exact Hh2|exact Hl2|].
  change (fresh s < fresh s2)%positive. rewrite Hf2. cbn. rewrite Hf1. lia.
Qed.

(** A request and its repetition in an ikcd with an empty backlog. *)
Definition race_request (a : loc) : ikc_request :=
  Req (Some a) 16 (ikcr_pack_request_number 42 (ikcr_pack_request_id 1 7)) 42 1 7 IKC_PROC_CREAT_REQ
    (lit "here") [] 300 0 ArgNull ArgNull.
Definition race_ikcd : ikcd :=
  with_fresh 5 (with_requests {[1%positive := race_request 3; 2%positive := race_request 4]}
    (with_addrs {[3%positive := SockAddr 42 4000; 4%positive := SockAddr 42 4000]} ikcd_init)).

Lemma race_brep : brep race_ikcd [].
Proof. split; try done; [apply NoDup_nil_2|by intros l []|by intros r ?%elem_of_nil]. Qed.

Lemma race_fresh : mem_fresh race_ikcd.
Proof.
  split; intros x; cbn; intros [v Hv];
    apply lookup_insert_Some in Hv as [[<- _]|[_ [<- _]%lookup_singleton_Some]]; cbn; lia.
Qed.

Lemma ikc_in_race_witness :
  ∃ s1, ikcbl_try_respond_from_backlog 1 race_ikcd = Ok race_ikcd (-1)%Z ∧
    ikcbl_try_respond_from_backlog 2 race_ikcd = Ok race_ikcd (-1)%Z ∧
    ikc_in_execute junk_backlog 1 race_ikcd = Ok s1 () ∧ ikc_in_execute junk_backlog 2 s1 = Stop BadPtr.
Proof.
  exact (ikc_in_race junk_backlog race_ikcd [] 1 2 (race_request 3) (race_request 4) 3 4
    (SockAddr 42 4000) (SockAddr 42 4000) race_brep race_fresh ltac:(done) (not_elem_of_nil _) ltac:(done)
    eq_refl eq_refl eq_refl eq_refl eq_refl eq_refl eq_refl eq_refl eq_refl eq_refl eq_refl).
Defined.
