(* ===== verification/IkcdThreads.v ===== *)
(** The threads of ikcd and their condition variables (src/src/ikcd/ikcd.c lines 176-183 and
    210-217, ikcr.c lines 254-260, ikcd.c lines 313-319): the workers for one queue and the
    thread that queues requests, as a step relation.

    The steps of the queue are the functions of ikcq.c (Ikcq.v); each runs under the mutex
    of the queue and is one step.  A signal wakes one waiting worker and has no effect if
    none waits; a worker also wakes up without a signal.  What a worker does with a
    request, and how long, is left open here (Ikcd.v has it). *)

From Stdlib Require Import ZArith Lia.
From stdpp Require Import base list gmap strings.
From S2P Require Import Prelude.
From S2P Require Import Ikcq.
From S2P Require Import IkcqRep.
From S2P Require Import IkcqProps.

(** A worker: before [pthread_cond_wait], in it, before the next [ikcq_dequeue_request], or
    in the body of the loop with a request. *)
Inductive worker : Set := Entering | Waiting | Draining | Handling (r : loc).

#[export] Instance worker_eq_dec : EqDecision worker.
Proof. solve_decision. Defined.

(** [signal_due]: a request has been queued and its signal is still to come.  [arrived] and
    [handled] record the requests that have been queued, and those whose worker is done. *)
Record threads : Type := Threads {
  pending : ikc_queue_head;
  workers : list worker;
  signal_due : bool;
  arrived : list loc;
  handled : list loc
}.

(** It will look at the queue again. *)
Definition busy (w : worker) : bool :=
  match w with Draining | Handling _ => true | Entering | Waiting => false end.

(** [Woken]: a signal with its worker; [Unneeded] and [Missed]: a signal while no worker
    waits, with and without a busy one; [Spurious]: a worker wakes up without a signal. *)
Inductive event : Set := Arrive (r : loc) | Woken | Unneeded | Missed | Spurious | Inside.

#[export] Instance event_eq_dec : EqDecision event.
Proof. solve_decision. Defined.

(** From outside; the others are what the threads do by themselves. *)
Definition from_outside (e : event) : bool :=
  match e with Arrive _ | Spurious => true | Woken | Unneeded | Missed | Inside => false end.
Definition wakes (e : event) : bool := match e with Woken | Spurious => true | _ => false end.

Inductive tstep : event → threads → threads → Prop :=
  | t_queue q q' jq r ws ar ha :
      ikcq_queue_request jq r q = Ok q' 0%Z →
      tstep (Arrive r) (Threads q ws false ar ha) (Threads q' ws true (ar ++ [r]) ha)
  | t_signal q ws i ar ha :
      ws !! i = Some Waiting →
      tstep Woken (Threads q ws true ar ha) (Threads q (<[i := Draining]> ws) false ar ha)
  | t_signal_lost q ws ar ha :
      Waiting ∉ ws →
      tstep (if existsb busy ws then Unneeded else Missed) (Threads q ws true ar ha) (Threads q ws false ar ha)
  | t_spurious q ws i b ar ha :
      ws !! i = Some Waiting →
      tstep Spurious (Threads q ws b ar ha) (Threads q (<[i := Draining]> ws) b ar ha)
  | t_wait q ws i b ar ha :
      ws !! i = Some Entering →
      tstep Inside (Threads q ws b ar ha) (Threads q (<[i := Waiting]> ws) b ar ha)
  | t_take q q' ws i b e r ar ha :
      ws !! i = Some Draining → ikcq_dequeue_request true q = Ok q' (e, Some r) → (0 ≤ e)%Z →
      tstep Inside (Threads q ws b ar ha) (Threads q' (<[i := Handling r]> ws) b ar ha)
  | t_done q ws i b r ar ha :
      ws !! i = Some (Handling r) →
      tstep Inside (Threads q ws b ar ha) (Threads q (<[i := Draining]> ws) b ar (ha ++ [r]))
  | t_empty q q' ws i b e o ar ha :
      ws !! i = Some Draining → ikcq_dequeue_request true q = Ok q' (e, o) → (e < 0)%Z →
      tstep Inside (Threads q ws b ar ha) (Threads q' (<[i := Entering]> ws) b ar ha).

(** A run with its events, the last one at the end. *)
Inductive truns (s0 : threads) : list event → threads → Prop :=
  | truns_nil : truns s0 [] s0
  | truns_snoc es e s s' : truns s0 es s → tstep e s s' → truns s0 (es ++ [e]) s'.

(** [n] workers that have been created and an empty queue. *)
Definition threads_init (n : nat) : threads := Threads ikc_init_queue (replicate n Entering) false [] [].

(** * What a worker holds *)

Definition held (w : worker) : option loc := match w with Handling r => Some r | _ => None end.
Definition in_hand (ws : list worker) : list loc := omap held ws.

Lemma in_hand_insert ws i w w' :
  ws !! i = Some w → in_hand (<[i := w']> ws) ++ option_list (held w) ≡ₚ option_list (held w') ++ in_hand ws.
Proof.
  intros Hi. pose proof (lookup_lt_Some _ _ _ Hi) as Hlt. unfold in_hand.
  rewrite insert_take_drop by done. rewrite <- (take_drop_middle ws i w Hi) at 3.
  rewrite !omap_app. cbn. destruct (held w), (held w'); cbn; rewrite <- ?app_assoc; cbn; solve_Permutation.
Qed.

(** The queue and who has which request. *)
Record tinv (n : nat) (s : threads) (rs : list loc) : Prop := {
  tinv_queue : ∃ log, holds_queue (pending s) (Fifo rs log);
  tinv_split : arrived s ≡ₚ handled s ++ in_hand (workers s) ++ rs;
  tinv_workers : length (workers s) = n
}.

(** No worker has been woken up since a signal that was needed found none waiting. *)
Definition missed_since (es : list event) : Prop :=
  ∃ es1 es2, es = es1 ++ Missed :: es2 ∧ Forall (λ e, wakes e = false) es2.

(** Somebody is going to look at the queue, if there is something in it. *)
Definition attended (es : list event) (s : threads) (rs : list loc) : Prop :=
  rs = [] ∨ signal_due s = true ∨ existsb busy (workers s) = true ∨ missed_since es.

(** What is left to do without events from outside. *)
Definition weight (w : worker) : nat :=
  match w with Waiting => 0 | Entering => 1 | Draining => 2 | Handling _ => 3 end.
Definition work (s : threads) (rs : list loc) : nat :=
  2 * length rs + sum_list_with weight (workers s) + if signal_due s then 3 else 0.

Lemma weight_insert ws i w w' :
  ws !! i = Some w → sum_list_with weight (<[i := w']> ws) + weight w = weight w' + sum_list_with weight ws.
Proof.
  intros Hi. pose proof (lookup_lt_Some _ _ _ Hi) as Hlt.
  rewrite insert_take_drop by done. rewrite <- (take_drop_middle ws i w Hi) at 3.
  rewrite !sum_list_with_app. cbn. lia.
Qed.

Lemma weight_le ws : sum_list_with weight ws ≤ 3 * length ws.
Proof. induction ws as [|[] ws IH]; cbn in *; lia. Qed.

Lemma busy_insert ws i w : i < length ws → busy w = true → existsb busy (<[i := w]> ws) = true.
Proof.
  intros Hi Hw. apply existsb_exists. exists w. split; [|done].
  apply list_elem_of_In. by apply list_elem_of_insert.
Qed.

(** A worker that was not busy is replaced. *)
Lemma busy_keep ws i w w' :
  ws !! i = Some w → busy w = false → existsb busy ws = true → existsb busy (<[i := w']> ws) = true.
Proof.
  intros Hi Hw (x & Hx & Hb)%existsb_exists. apply list_elem_of_In, list_elem_of_lookup in Hx as [j Hj].
  apply existsb_exists. exists x. split; [|done]. apply list_elem_of_In, list_elem_of_lookup. exists j.
  rewrite list_lookup_insert_ne; [done|]. intros ->. rewrite Hi in Hj. injection Hj as ->. by rewrite Hw in Hb.
Qed.

Lemma missed_snoc es e : wakes e = false → missed_since es → missed_since (es ++ [e]).
Proof.
  intros He (es1 & es2 & -> & Hf). exists es1, (es2 ++ [e]). rewrite <- app_assoc. split; [done|].
  apply Forall_app. split; [done|]. by constructor.
Qed.

Lemma attended_snoc es e s s' rs :
  wakes e = false → signal_due s' = signal_due s →
  (existsb busy (workers s) = true → existsb busy (workers s') = true) →
  attended es s rs → attended (es ++ [e]) s' rs.
Proof.
  intros He Hd Hb [H|[H|[H|H]]]; [by left|right; left; congruence|right; right; left; auto|].
  right; right; right. by apply missed_snoc.
Qed.

(** The functions of the queue, on a queue with the requests [rs]. *)
Lemma queue_runs jq r q rs log q' e :
  holds_queue q (Fifo rs log) → ikcq_queue_request jq r q = Ok q' e → ∃ log, holds_queue q' (Fifo (rs ++ [r]) log).
Proof.
  intros Hq E. destruct (ikcq_queue_refines jq r _ _ Hq) as (q1 & E1 & Hq1). rewrite E in E1.
  injection E1 as -> _. by exists log.
Qed.

Lemma dequeue_runs q rs log :
  holds_queue q (Fifo rs log) → ∃ q' e o, ikcq_dequeue_request true q = Ok q' (e, o) ∧
    holds_queue q' (Fifo (tail rs) log) ∧ o = head rs ∧ ((e < 0)%Z ↔ rs = []).
Proof.
  intros Hq. pose proof (ikcq_dequeue_refines true _ _ Hq) as Hr. unfold a_dequeue_request in Hr.
  destruct rs as [|r rs]; cbn in Hr; destruct Hr as (q' & E & Hq'); exists q'; do 2 eexists;
    (split; [exact E|]; split_and!; [done|done|]); unfold E_IKC_NOQUEUE; split; done || lia.
Qed.

Lemma tstep_inv n es e s s' rs :
  tinv n s rs → attended es s rs → tstep e s s' →
  ∃ rs', tinv n s' rs' ∧ attended (es ++ [e]) s' rs' ∧ (from_outside e = false → work s' rs' < work s rs).
Proof.
  intros [[log Hq] Hsp Hn] Ha Hs.
  destruct Hs as [q q' jq r ws ar ha E|q ws i ar ha Hw|q ws ar ha Hw|q ws i b ar ha Hw|q ws i b ar ha Hw|
    q q' ws i b e r ar ha Hw E He|q ws i b r ar ha Hw|q q' ws i b e o ar ha Hw E He]; cbn in Hq, Hsp, Hn;
    try (pose proof (lookup_lt_Some _ _ _ Hw) as Hlt; pose proof (in_hand_insert ws i _ Draining Hw) as Hd);
    try pose proof (weight_insert ws i _ Draining Hw) as Hdw; cbn in Hdw || idtac.
  - exists (rs ++ [r]). split_and!; [|by right; left|done].
    split; [by eapply queue_runs|cbn|done]. rewrite Hsp, <- !app_assoc. done.
  - exists rs. cbn in Hd. rewrite app_nil_r in Hd. split_and!.
    + split; [by exists log|cbn; by rewrite Hd|cbn; by rewrite length_insert].
    + right; right; left. by apply busy_insert.
    + intros _. unfold work. cbn in *. lia.
  - exists rs. split_and!.
    + split; [by exists log|done|done].
    + destruct (existsb busy ws) eqn:Eb; [right; right; by left|].
      right; right; right. exists es, []. by split.
    + intros _. unfold work. cbn. lia.
  - exists rs. cbn in Hd. rewrite app_nil_r in Hd. split_and!; [|right; right; left; by apply busy_insert|done].
    split; [by exists log|cbn; by rewrite Hd|cbn; by rewrite length_insert].
  - exists rs. pose proof (in_hand_insert ws i _ Waiting Hw) as Hd'. cbn in Hd'. rewrite app_nil_r in Hd'.
    split_and!.
    + split; [by exists log|cbn; by rewrite Hd'|cbn; by rewrite length_insert].
    + eapply attended_snoc; [done|..|exact Ha]; [done|]. intros Hb. by eapply busy_keep.
    + intros _. pose proof (weight_insert ws i _ Waiting Hw). unfold work. cbn in *. lia.
  - destruct (dequeue_runs _ _ _ Hq) as (q1 & e1 & o1 & E1 & Hq1 & Ho & He1). rewrite E in E1.
    injection E1 as <- <- <-. destruct rs as [|r0 rs]; [pose proof (proj2 He1 eq_refl); lia|].
    cbn in Ho. injection Ho as ->. exists rs.
    pose proof (in_hand_insert ws i _ (Handling r0) Hw) as Hd'. cbn in Hd'. rewrite app_nil_r in Hd'.
    split_and!.
    + split; [by exists log|cbn|cbn; by rewrite length_insert]. rewrite Hsp, Hd'. solve_Permutation.
    + right; right; left. by apply busy_insert.
    + intros _. pose proof (weight_insert ws i _ (Handling r0) Hw). unfold work. cbn in *. lia.
  - exists rs. split_and!.
    + split; [by exists log|cbn|cbn; by rewrite length_insert]. rewrite Hsp. cbn in Hd. rewrite <- Hd. solve_Permutation.
    + right; right; left. by apply busy_insert.
    + intros _. unfold work. cbn in *. lia.
  - destruct (dequeue_runs _ _ _ Hq) as (q1 & e1 & o1 & E1 & Hq1 & Ho & He1). rewrite E in E1.
    injection E1 as <- <- <-. apply He1 in He as ->. exists [].
    pose proof (in_hand_insert ws i _ Entering Hw) as Hd'. cbn in Hd'. rewrite app_nil_r in Hd'.
    split_and!; [|by left|].
    + split; [by exists log|cbn; by rewrite Hd'|cbn; by rewrite length_insert].
    + intros _. pose proof (weight_insert ws i _ Entering Hw). unfold work. cbn in *. lia.
Qed.

Lemma truns_inv n es s : truns (threads_init n) es s → ∃ rs, tinv n s rs ∧ attended es s rs.
Proof.
  induction 1 as [|es e s s' _ (rs & Hi & Ha) Hs].
  - exists []. split; [|by left]. split; [exists []; apply init_holds| |apply length_replicate].
    cbn. induction n as [|n IH]; [done|exact IH].
  - destruct (tstep_inv n es e s s' rs Hi Ha Hs) as (rs' & ? & ? & _). by exists rs'.
Qed.

(** Steps from inside use up the work. *)
Lemma inside_bound n es0 s rs es s' :
  tinv n s rs → attended es0 s rs → truns s es s' → Forall (λ e, from_outside e = false) es →
  ∃ rs', tinv n s' rs' ∧ attended (es0 ++ es) s' rs' ∧ length es + work s' rs' ≤ work s rs.
Proof.
  intros Hi Ha Hr. induction Hr as [|es e s1 s2 _ IH Hs]; intros Hf.
  - exists rs. rewrite app_nil_r. by split_and!.
  - apply Forall_app in Hf as [Hf [He _]%Forall_cons]. destruct (IH Hf) as (rs1 & Hi1 & Ha1 & Hl).
    destruct (tstep_inv n _ e s1 s2 rs1 Hi1 Ha1 Hs) as (rs2 & Hi2 & Ha2 & Hw). specialize (Hw He).
    exists rs2. rewrite app_assoc, length_app. split_and!; [done|done|]. change (length [e]) with 1. lia.
Qed.

(** Nothing happens by itself any more. *)
Definition at_rest (s : threads) : Prop := ∀ e s', tstep e s s' → from_outside e = true.

Lemma at_rest_waiting n s rs :
  tinv n s rs → at_rest s → Forall (λ w, w = Waiting) (workers s) ∧ signal_due s = false.
Proof.
  intros [[log Hq] _ _] Hrest. destruct s as [q ws b ar ha]. cbn in *. split.
  - apply Forall_lookup. intros i [| | |r] Hi; [exfalso|done|exfalso|exfalso].
    + by discriminate (Hrest _ _ (t_wait q ws i b ar ha Hi)).
    + destruct (dequeue_runs _ _ _ Hq) as (q' & e & o & E & _ & Ho & He).
      destruct (decide (e < 0)%Z) as [Hneg|Hpos]; [by discriminate (Hrest _ _ (t_empty q q' ws i b e o ar ha Hi E Hneg))|].
      destruct rs as [|r rs]; [by destruct Hpos; apply He|]. cbn in Ho. subst o.
      by discriminate (Hrest _ _ (t_take q q' ws i b e r ar ha Hi E ltac:(lia))).
    + by discriminate (Hrest _ _ (t_done q ws i b r ar ha Hi)).
  - destruct b; [exfalso|done]. destruct (decide (Waiting ∈ ws)) as [[i Hi]%list_elem_of_lookup|Hn].
    + by discriminate (Hrest _ _ (t_signal q ws i ar ha Hi)).
    + pose proof (Hrest _ _ (t_signal_lost q ws ar ha Hn)) as He. by destruct (existsb busy ws).
Qed.

Lemma all_waiting ws : Forall (λ w, w = Waiting) ws → in_hand ws = [] ∧ existsb busy ws = false.
Proof. induction 1 as [|w ws -> _ [H1 H2]]; [done|]. split; [exact H1|exact H2]. Qed.

(** C39: what the workers of ikcd make of the requests of one queue, in every run.  Each
    request that has been queued has been handled, is in the hands of one worker, or is
    in the queue, and only one of these.  Without new requests and spurious wake-ups the
    threads come to rest, after a number of steps that the queue and the workers bound; then every worker
    waits, and if requests are left in the queue, there has been a signal that came when no
    worker waited or was going to look at the queue again, and no worker has been woken
    up since: with every signal that was needed received, all requests have been handled. *)
Theorem ikc_threads_serve n es s :
  truns (threads_init n) es s →
  ∃ rs log, holds_queue (pending s) (Fifo rs log) ∧
    arrived s ≡ₚ handled s ++ in_hand (workers s) ++ rs ∧ length (workers s) = n ∧
    (∀ es' s', truns s es' s' → Forall (λ e, from_outside e = false) es' → length es' ≤ 2 * length rs + 3 * n + 3) ∧
    (at_rest s → Forall (λ w, w = Waiting) (workers s) ∧ arrived s ≡ₚ handled s ++ rs ∧
       (rs = [] ∨ missed_since es)).
Proof.
  intros Hr. destruct (truns_inv n es s Hr) as (rs & Hi & Ha). pose proof Hi as [[log Hq] Hsp Hn].
  exists rs, log. split_and!; [done..| |].
  - intros es' s' Hr' Hf. destruct (inside_bound n es s rs es' s' Hi Ha Hr' Hf) as (rs' & _ & _ & Hl).
    pose proof (weight_le (workers s)). rewrite Hn in *. unfold work in Hl. destruct (signal_due s); lia.
  - intros Hrest. destruct (at_rest_waiting n s rs Hi Hrest) as [Hw Hdue].
    destruct (all_waiting _ Hw) as [Hh Hb]. rewrite Hh in Hsp. split_and!; [done|done|].
    unfold attended in Ha. rewrite Hdue, Hb in Ha. naive_solver.
Qed.

(** ** A request that stays *)

Lemma wait_all q n k ha ar b :
  k ≤ n →
  let st k := Threads q (replicate k Waiting ++ replicate (n - k) Entering) b ar ha in
  truns (st 0) (replicate k Inside) (st k).
Proof.
  intros Hk st. induction k as [|k IH]; [constructor|].
  replace (replicate (S k) Inside) with (replicate k Inside ++ [Inside]) by (by rewrite replicate_S_end).
  eapply truns_snoc; [apply IH; lia|]. unfold st.
  replace (replicate (S k) Waiting ++ replicate (n - S k) Entering)
    with (<[k := Waiting]> (replicate k Waiting ++ replicate (n - k) Entering)).
  - apply t_wait. rewrite lookup_app_r, length_replicate by (rewrite length_replicate; lia).
    apply lookup_replicate_2. lia.
  - rewrite replicate_S_end, <- app_assoc, insert_app_r_alt by (rewrite length_replicate; lia).
    rewrite length_replicate, Nat.sub_diag. by replace (n - k) with (S (n - S k)) by lia.
Qed.

Lemma truns_app s0 es1 s1 es2 s2 : truns s0 es1 s1 → truns s1 es2 s2 → truns s0 (es1 ++ es2) s2.
Proof.
  intros H1 H2. induction H2 as [|es e s s' _ IH Hs]; [by rewrite app_nil_r|].
  rewrite app_assoc. by eapply truns_snoc.
Qed.

Lemma waiting_rests q n ar ha : at_rest (Threads q (replicate n Waiting) false ar ha).
Proof.
  intros e s' Hs. inversion Hs; subst; try done;
    match goal with H : replicate _ _ !! _ = Some _ |- _ => apply lookup_replicate_1 in H as [? _]; done end.
Qed.

(** a wake-up can be lost.  A request that is queued and signalled while no worker
    waits (each has found the queue empty, or has just been created, and is on its way to
    [pthread_cond_wait]) stays in the queue with every worker asleep: nothing but another
    request or a spurious wake-up makes the threads move again. *)
Theorem ikc_wakeup_lost n (jq : ikc_request_queue) r :
  ∃ es s log, truns (threads_init n) es s ∧ holds_queue (pending s) (Fifo [r] log) ∧ handled s = [] ∧
    arrived s = [r] ∧ workers s = replicate n Waiting ∧ at_rest s.
Proof.
  destruct (ikcq_queue_refines jq r _ _ init_holds) as (q & E & Hq). cbn in Hq.
  pose proof (wait_all q n n [] [r] false (le_n n)) as Hw. cbn beta zeta in Hw.
  rewrite Nat.sub_diag, Nat.sub_0_r, app_nil_r in Hw. cbn [replicate app] in Hw.
  eexists _, (Threads q (replicate n Waiting) false [r] []), []. split; [|by split_and!; [..|apply waiting_rests]].
  eapply truns_app; [|exact Hw].
  eapply truns_snoc; [eapply truns_snoc; [constructor|exact (t_queue _ _ jq r (replicate n Entering) [] [] E)]|].
  apply (t_signal_lost q (replicate n Entering)). intros Hin%elem_of_replicate. by destruct Hin.
Qed.

(** * Example: a worker that waits gets a request and handles it. *)

Definition one_request : ikc_queue_head :=
  match ikcq_queue_request (QElem 1 None None) 7 ikc_init_queue with Ok q _ => q | Stop _ => ikc_init_queue end.
Definition no_request : ikc_queue_head :=
  match ikcq_dequeue_request true one_request with Ok q _ => q | Stop _ => ikc_init_queue end.
Definition served_run : list event := [Inside; Arrive 7; Woken; Inside; Inside; Inside; Inside]%positive.
Definition served : threads := Threads no_request [Waiting] false [7%positive] [7%positive].

Lemma served_run_ends : truns (threads_init 1) served_run served.
Proof.
  unfold served_run.
  apply (truns_snoc _ [_; _; _; _; _; _] _ (Threads no_request [Entering] false [7%positive] [7%positive]));
    [|by apply (t_wait _ [Entering] 0)].
  apply (truns_snoc _ [_; _; _; _; _] _ (Threads no_request [Draining] false [7%positive] [7%positive]));
    [|by apply (t_empty no_request no_request [Draining] 0 _ (-2) None)].
  apply (truns_snoc _ [_; _; _; _] _ (Threads no_request [Handling 7] false [7%positive] []));
    [|by apply (t_done no_request [Handling 7] 0 false 7 _ [])].
  apply (truns_snoc _ [_; _; _] _ (Threads one_request [Draining] false [7%positive] []));
    [|by apply (t_take one_request no_request [Draining] 0 false 0)].
  apply (truns_snoc _ [_; _] _ (Threads one_request [Waiting] true [7%positive] []));
    [|by apply (t_signal one_request [Waiting] 0)].
  apply (truns_snoc _ [_] _ (Threads ikc_init_queue [Waiting] false [] []));
    [|by apply (t_queue ikc_init_queue one_request (QElem 1 None None) 7 [Waiting] [] [])].
  apply (truns_snoc _ [] _ (threads_init 1)); [constructor|].
  by apply (t_wait ikc_init_queue [Entering] 0).
Qed.

Lemma ikc_threads_serve_witness :
  arrived served ≡ₚ handled served ++ [] ∧ Forall (λ w, w = Waiting) (workers served) ∧
  ∀ es' s', truns served es' s' → Forall (λ e, from_outside e = false) es' → length es' ≤ 6.
Proof.
  destruct (ikc_threads_serve 1 served_run served served_run_ends) as (rs & log & Hq & _ & _ & Hl & Hrest).
  destruct (Hrest (waiting_rests no_request 1 _ _)) as (Hw & Hsp & Hrs).
  assert (rs = []) as ->.
  { destruct Hrs as [|(es1 & es2 & E & _)]; [done|]. exfalso.
    assert (Missed ∈ served_run) as Hin by (rewrite E; apply elem_of_app; right; by left).
    revert Hin. apply (bool_decide_unpack _). reflexivity. }
  split_and!; [exact Hsp|exact Hw|]. intros es' s' Hr Hf. specialize (Hl es' s' Hr Hf). cbn in Hl. lia.
Defined.
