(* ===== verification/ForkPid.v ===== *)
(** [get_pid] of src/src/dkmke/fork.c: the search for a process id that no task uses as
    its pid, its process group or its session, with the interval of ids
    ([last_pid], [next_safe]) that is known to be free.

    The scan of the tasks that starts again ([goto repeat]) takes fuel: an id is tried
    at most twice, so that [PID_FUEL] rounds are enough whenever an id is free. *)

From Stdlib Require Import ZArith Lia.
From stdpp Require Import base list sets relations.
From S2P Require Import Prelude.

#[local] Open Scope Z_scope.

(** * The state

    A task with its three ids, in the order of [for_each_task]; [last_pid] is a global
    variable, [next_safe] a static one. *)
Record ptask : Type := PTask { p_pid : Z; p_pgrp : Z; p_session : Z }.

Record pids : Type := Pids { last_pid : Z; next_safe : Z; ptasks : list ptask }.

(** linux/tasks.h and linux/sched.h *)
Definition PID_MAX : Z := 0x8000.
Definition CLONE_PID : Z := 0x1000.
Definition PID_FUEL : nat := Z.to_nat (2 * PID_MAX).

(** [last_pid & 0xffff8000] *)
Definition pid_overflow (p : Z) : bool := negb (Z.land (u32 p) 0xffff8000 =? 0).

(** The ids that a task uses. *)
Definition task_ids (t : ptask) : list Z := [p_pid t; p_pgrp t; p_session t].

(** [if(x > last_pid && next_safe > x) next_safe = x] *)
Definition lower_safe (last safe x : Z) : Z :=
  if decide (x > last ∧ safe > x) then x else safe.

(** * The search *)

(** A scan of the tasks: it ends with the new [next_safe], or has to be repeated with a
    new [last_pid]. *)
Inductive scan_result : Type := Scanned (safe : Z) | Again (last safe : Z).

Fixpoint scan_tasks (last safe : Z) (ts : list ptask) : scan_result :=
  match ts with
  | [] => Scanned safe
  | p :: ts =>
    if decide (p_pid p = last ∨ p_pgrp p = last ∨ p_session p = last) then
      let last := last + 1 in
      if decide (last >= safe) then Again (if pid_overflow last then 300 else last) PID_MAX
      else Again last safe
    else
      let safe := lower_safe last safe (p_pid p) in
      let safe := lower_safe last safe (p_pgrp p) in
      let safe := lower_safe last safe (p_session p) in
      scan_tasks last safe ts
  end.

(** The label [repeat]. *)
Fixpoint repeat_scan (fuel : nat) (last safe : Z) (ts : list ptask) : option (Z * Z) :=
  match fuel with
  | O => None
  | S fuel =>
    match scan_tasks last safe ts with
    | Scanned safe => Some (last, safe)
    | Again last safe => repeat_scan fuel last safe ts
    end
  end.

(** The label [inside]. *)
Definition find_pid (fuel : nat) (last : Z) : M pids unit := λ s,
  match repeat_scan fuel last PID_MAX (ptasks s) with
  | Some (last, safe) => Ok (Pids last safe (ptasks s)) ()
  | None => Stop OutOfFuel
  end.

(** [current_pid] is [current->pid]. *)
Definition get_pid_n (fuel : nat) (current_pid flags : Z) : M pids Z :=
  if decide (Z.land flags CLONE_PID ≠ 0) then mret current_pid
  else
    last ← gets (λ s, last_pid s + 1);
    safe ← gets next_safe;
    _ ← (if pid_overflow last then find_pid fuel 300
         else if decide (last >= safe) then find_pid fuel last
         else modify (λ s, Pids last safe (ptasks s)));
    gets last_pid.

Definition get_pid : Z → Z → M pids Z := get_pid_n PID_FUEL.

(** * Free ids *)

Definition used (ts : list ptask) (x : Z) : Prop := ∃ t, t ∈ ts ∧ x ∈ task_ids t.

#[export] Instance used_dec ts x : Decision (used ts x).
Proof.
  refine (cast_if (decide (Exists (λ t, x ∈ task_ids t) ts)));
    unfold used; by rewrite <- list.Exists_exists.
Defined.

Lemma used_cons p ts x : used (p :: ts) x ↔ x ∈ task_ids p ∨ used ts x.
Proof. unfold used. set_solver. Qed.

Lemma in_task_ids p x : x ∈ task_ids p ↔ p_pid p = x ∨ p_pgrp p = x ∨ p_session p = x.
Proof. unfold task_ids. set_solver. Qed.

(** No id of the tasks is between [last] and [safe]. *)
Definition gap (last safe : Z) (ts : list ptask) : Prop :=
  ∀ x, used ts x → last < x → safe ≤ x.

(** What holds between two calls. *)
Record pid_inv (s : pids) : Prop := {
  pid_last : 0 ≤ last_pid s < PID_MAX;
  pid_safe : next_safe s ≤ PID_MAX;
  pid_gap : gap (last_pid s) (next_safe s) (ptasks s);
  pid_range x : used (ptasks s) x → 0 ≤ x < PID_MAX
}.

Lemma pid_overflow_spec p : 0 ≤ p < 2 ^ 31 → pid_overflow p = bool_decide (PID_MAX ≤ p).
Proof.
  intros Hp. unfold pid_overflow, u32. rewrite Z.mod_small by lia.
  assert (Z.land p 0xffff8000 = 32768 * (p / 32768)) as ->.
  { change 0xffff8000 with (Z.ldiff (Z.ones 32) (Z.ones 15)).
    replace (32768 * (p / 32768)) with (Z.shiftl (Z.shiftr p 15) 15)
      by (rewrite Z.shiftl_mul_pow2, Z.shiftr_div_pow2 by lia; change (2 ^ 15) with 32768; lia).
    apply Z.bits_inj'. intros n Hn. rewrite Z.land_spec, Z.ldiff_spec, Z.shiftl_spec by lia.
    rewrite !Z.testbit_ones_nonneg by lia.
    destruct (Z.ltb_spec n 15).
    - rewrite (Z.testbit_neg_r (Z.shiftr p 15)) by lia. by rewrite !andb_false_r.
    - rewrite Z.shiftr_spec by lia. replace (n - 15 + 15) with n by lia.
      destruct (Z.ltb_spec n 32); [by rewrite !andb_true_r|].
      rewrite <- (Z.mod_small p (2 ^ 32)) by lia. rewrite Z.mod_pow2_bits_high by lia. done. }
  unfold PID_MAX. case_bool_decide; destruct (Z.eqb_spec (32768 * (p / 32768)) 0); simpl; try done;
    exfalso; pose proof (Z.div_mod p 32768); pose proof (Z.mod_pos_bound p 32768); lia.
Qed.

Lemma lower_safe_spec last safe x :
  let safe' := lower_safe last safe x in
  safe' ≤ safe ∧ (last < x → safe' ≤ x) ∧ (safe' = safe ∨ safe' = x ∧ last < x).
Proof. unfold lower_safe. destruct (decide _); lia. Qed.

(** A scan that ends has found [last] free, and the ids up to the new [next_safe]. *)
Lemma scan_tasks_Scanned last safe ts safe' :
  scan_tasks last safe ts = Scanned safe' →
  ¬ used ts last ∧ gap last safe' ts ∧ safe' ≤ safe.
Proof.
  revert safe. induction ts as [|p ts IH]; intros safe; cbn [scan_tasks].
  { intros [= <-]. unfold gap, used. set_solver by lia. }
  destruct (decide _) as [|Hn]; [by destruct (decide _)|].
  intros (Hu & Hg & Hs)%IH.
  pose proof (lower_safe_spec last safe (p_pid p)) as H1.
  set (s1 := lower_safe _ _ (p_pid p)) in *.
  pose proof (lower_safe_spec last s1 (p_pgrp p)) as H2.
  set (s2 := lower_safe _ _ (p_pgrp p)) in *.
  pose proof (lower_safe_spec last s2 (p_session p)) as H3.
  set (s3 := lower_safe _ _ (p_session p)) in *. cbn zeta in *.
  split_and!; [|..|lia].
  - rewrite used_cons, in_task_ids. naive_solver lia.
  - intros x [[Hx|[Hx|Hx]]%in_task_ids|Hx]%used_cons Hlt; [lia..|by apply Hg].
Qed.

(** A scan that is repeated has found [last] in use. *)
Lemma scan_tasks_Again last safe ts last' safe' :
  scan_tasks last safe ts = Again last' safe' →
  used ts last ∧
  (last' = last + 1 ∨ pid_overflow (last + 1) = true ∧ last' = 300) ∧
  (safe' = PID_MAX ∨ safe' ≤ safe).
Proof.
  revert safe. induction ts as [|p ts IH]; intros safe; cbn [scan_tasks]; [done|].
  destruct (decide _) as [Hu|Hn].
  - intros H. split; [rewrite used_cons, in_task_ids; by left|].
    destruct (decide _); [|naive_solver lia]. destruct (pid_overflow (last + 1)); naive_solver.
  - intros (Hu & Hl & Hs)%IH. split_and!; [rewrite used_cons; by right|done|].
    pose proof (lower_safe_spec last safe (p_pid p)) as H1.
    pose proof (lower_safe_spec last (lower_safe last safe (p_pid p)) (p_pgrp p)) as H2.
    pose proof (lower_safe_spec last (lower_safe last (lower_safe last safe (p_pid p)) (p_pgrp p)) (p_session p)) as H3.
    cbn zeta in *. destruct Hs as [->|Hs]; [by left|right; lia].
Qed.

Lemma scan_tasks_range last safe ts last' safe' :
  0 ≤ last < PID_MAX → safe ≤ PID_MAX →
  scan_tasks last safe ts = Again last' safe' →
  safe' ≤ PID_MAX ∧
  (last' = last + 1 ∧ last' < PID_MAX ∨ last' = 300 ∧ last = PID_MAX - 1).
Proof.
  unfold PID_MAX. intros Hl Hs. revert safe Hs.
  induction ts as [|p ts IH]; intros safe Hs; cbn [scan_tasks]; [done|].
  destruct (decide _).
  - rewrite pid_overflow_spec by lia. unfold PID_MAX.
    destruct (decide _); [|intros [= <- <-]; lia].
    case_bool_decide; intros [= <- <-]; lia.
  - apply IH. unfold lower_safe. repeat destruct (decide _); lia.
Qed.

(** How many ids the search tries before [q]. *)
Definition tries (q last : Z) : Z :=
  if decide (last ≤ q) then q - last else PID_MAX - last + (q - 300).

Lemma repeat_scan_finds q ts fuel last safe :
  300 ≤ q < PID_MAX → ¬ used ts q → 0 ≤ last < PID_MAX → safe ≤ PID_MAX →
  tries q last < Z.of_nat fuel →
  ∃ last' safe', repeat_scan fuel last safe ts = Some (last', safe') ∧
    ¬ used ts last' ∧ gap last' safe' ts ∧ safe' ≤ PID_MAX ∧
    0 ≤ last' < PID_MAX ∧ (last ≤ last' ∨ 300 ≤ last').
Proof.
  intros Hq Hfree. revert last safe. induction fuel as [|fuel IH]; intros last safe Hl Hs Hf.
  { unfold tries, PID_MAX in *. destruct (decide _); lia. }
  cbn [repeat_scan]. destruct (scan_tasks last safe ts) as [safe'|last' safe'] eqn:E.
  - apply scan_tasks_Scanned in E as (Hu & Hg & Hsafe).
    exists last, safe'. split_and!; try done; lia.
  - pose proof (scan_tasks_Again _ _ _ _ _ E) as (Hu & _ & _).
    apply scan_tasks_range in E as (Hs' & Hl'); [|done..].
    assert (last ≠ q) by (intros ->; done).
    destruct (IH last' safe') as (l & s & He & H1 & H2 & H3 & H4 & H5); [unfold PID_MAX in *; lia..| |].
    { unfold tries, PID_MAX in *. repeat destruct (decide _); lia. }
    exists l, s. split_and!; try done; unfold PID_MAX in *; lia.
Qed.

(** ** Few tasks leave an id free *)

Lemma used_concat ts x : used ts x ↔ x ∈ ts ≫= task_ids.
Proof. unfold used. rewrite list_elem_of_bind. naive_solver. Qed.

(** Fewer numbers than an interval has elements do not fill it. *)
Lemma free_exists (l : list Z) a n :
  (length l < n)%nat → ∃ q, a ≤ q < a + Z.of_nat n ∧ q ∉ l.
Proof.
  intros Hlen. destruct (decide (Exists (λ q, q ∉ l) (seqZ a (Z.of_nat n)))) as [He|Hn].
  - apply list.Exists_exists in He as (q & Hq%elem_of_seqZ & Hl). by exists q.
  - exfalso. assert (seqZ a (Z.of_nat n) ⊆+ l) as Hs.
    { apply NoDup_submseteq; [apply NoDup_seqZ|]. intros x Hx.
      destruct (decide (x ∈ l)); [done|]. exfalso. apply Hn, list.Exists_exists. eauto. }
    apply submseteq_length in Hs. rewrite length_seqZ in Hs. lia.
Qed.

(** The number of tasks of Linux 2.2 is at most [NR_TASKS] = 512 (4090 as configured at
    most); any number below a third of the ids will do. *)
Definition MAX_TASKS : Z := 10822.

Lemma free_pid ts : Z.of_nat (length ts) ≤ MAX_TASKS → ∃ q, 300 ≤ q < PID_MAX ∧ ¬ used ts q.
Proof.
  intros Hlen. destruct (free_exists (ts ≫= task_ids) 300 (Z.to_nat (PID_MAX - 300))) as (q & Hq & Hu).
  - assert (length (ts ≫= task_ids) = 3 * length ts)%nat as ->.
    { clear. induction ts; cbn in *; [done|]. lia. }
    apply Nat2Z.inj_lt. unfold MAX_TASKS, PID_MAX in *. lia.
  - exists q. rewrite used_concat. split; [|done]. revert Hq. unfold PID_MAX. lia.
Qed.

(** * [get_pid] *)

Lemma find_pid_runs s last :
  pid_inv s → 0 < last < PID_MAX → Z.of_nat (length (ptasks s)) ≤ MAX_TASKS →
  runs (find_pid PID_FUEL last) s (λ s' _,
    pid_inv s' ∧ ptasks s' = ptasks s ∧ 0 < last_pid s' ∧ ¬ used (ptasks s) (last_pid s')).
Proof.
  intros [Hlast Hsafe Hgap Hr] Hl Hlen. destruct (free_pid _ Hlen) as (q & Hq & Hu).
  destruct (repeat_scan_finds q (ptasks s) PID_FUEL last PID_MAX) as (l & sf & He & H); [done..|lia|lia| |].
  { unfold tries, PID_FUEL, PID_MAX in *. destruct (decide _); lia. }
  unfold find_pid, runs. rewrite He. cbn. destruct H as (H1 & H2 & H3 & H4 & H5).
  split_and!; [|done|lia|done]. split; cbn; [lia|lia|done|done].
Qed.

(** A call of [get_pid] returns (it does not search for ever), the id it returns is not
    the pid, process group or session of a task, and it is in range; the static
    [next_safe] stays a bound below which the next ids are free. *)
Lemma get_pid_unused s cur flags :
  pid_inv s → Z.land flags CLONE_PID = 0 → Z.of_nat (length (ptasks s)) ≤ MAX_TASKS →
  runs (get_pid cur flags) s (λ s' p,
    ¬ used (ptasks s) p ∧ 0 < p < PID_MAX ∧ p = last_pid s' ∧
    ptasks s' = ptasks s ∧ pid_inv s').
Proof.
  intros Hi Hf Hlen. unfold get_pid, get_pid_n. rewrite decide_False by lia.
  runs_auto. pose proof Hi as [Hlast Hsafe Hgap Hr].
  assert (∀ last, 0 < last < PID_MAX → runs (find_pid PID_FUEL last) s (λ s' _,
    runs (gets last_pid) s' (λ s'' p, ¬ used (ptasks s) p ∧ 0 < p < PID_MAX ∧ p = last_pid s'' ∧
      ptasks s'' = ptasks s ∧ pid_inv s''))) as Hfind.
  { intros last Hl. eapply runs_mono; [by apply find_pid_runs|].
    intros s' _ (Hi' & Ht & Hp & Hu). runs_auto. split_and!; try done. apply Hi'. }
  rewrite pid_overflow_spec by (unfold PID_MAX in *; lia).
  case_bool_decide; [apply Hfind; unfold PID_MAX in *; lia|].
  destruct (decide _); [apply Hfind; lia|]. runs_auto.
  assert (gap (last_pid s + 1) (next_safe s) (ptasks s)) by (intros x Hx ?; apply Hgap; [done|lia]).
  split_and!; try done; try lia.
  - intros Hx. specialize (Hgap _ Hx). lia.
  - split; cbn; [lia|done..].
Qed.

(** Where every id is in use the search does not end, whatever the fuel. *)
Theorem get_pid_hangs s fuel cur flags :
  pid_inv s → Z.land flags CLONE_PID = 0 →
  next_safe s ≤ last_pid s + 1 →
  (∀ q, 300 ≤ q < PID_MAX → used (ptasks s) q) →
  (∀ q, last_pid s < q < PID_MAX → used (ptasks s) q) →
  get_pid_n fuel cur flags s = Stop OutOfFuel.
Proof.
  intros Hi Hf Hs Hall Hrest. unfold get_pid_n. rewrite decide_False by lia.
  assert (∀ last safe, safe ≤ PID_MAX → 300 ≤ last < PID_MAX ∨ last_pid s < last < PID_MAX → 0 ≤ last →
    repeat_scan fuel last safe (ptasks s) = None) as Hn.
  { induction fuel as [|fuel IH]; intros last safe Hsafe Hl Hpos; [done|]. cbn.
    assert (used (ptasks s) last) as Hu by (destruct Hl; auto).
    destruct (scan_tasks _ _ _) as [sf|l sf] eqn:E.
    - by apply scan_tasks_Scanned in E as [? _].
    - apply scan_tasks_range in E; [|unfold PID_MAX in *; lia..].
      apply IH; unfold PID_MAX in *; lia. }
  pose proof (pid_last _ Hi). cbn.
  rewrite (bind_Ok _ _ s s (last_pid s + 1)), (bind_Ok _ _ s s (next_safe s)) by done.
  apply bind_Stop. rewrite pid_overflow_spec by (unfold PID_MAX in *; lia).
  case_bool_decide; [|rewrite decide_True by lia]; unfold find_pid;
    by rewrite Hn by (unfold PID_MAX in *; lia).
Qed.

(** * The ids of the tasks over time

    [do_fork] takes an id and later links the child into the list of the tasks; the
    child inherits the group and the session.  A task may end, and may change its group
    and session to ids that are in use (setpgid, setsid). *)
Definition link_task (t : ptask) (s : pids) : pids :=
  Pids (last_pid s) (next_safe s) (ptasks s ++ [t]).
Definition child_of (parent : ptask) (p : Z) : ptask :=
  PTask p (p_pgrp parent) (p_session parent).

Inductive pid_step : pids → pids → Prop :=
  | pid_fork parent flags s s' p :
      parent ∈ ptasks s → Z.land flags CLONE_PID = 0 →
      Z.of_nat (length (ptasks s)) ≤ MAX_TASKS →
      get_pid (p_pid parent) flags s = Ok s' p →
      pid_step s (link_task (child_of parent p) s')
  | pid_exit l safe ts1 t ts2 :
      pid_step (Pids l safe (ts1 ++ t :: ts2)) (Pids l safe (ts1 ++ ts2))
  | pid_regroup l safe ts1 t t' ts2 :
      p_pid t' = p_pid t →
      used (ts1 ++ t :: ts2) (p_pgrp t') → used (ts1 ++ t :: ts2) (p_session t') →
      pid_step (Pids l safe (ts1 ++ t :: ts2)) (Pids l safe (ts1 ++ t' :: ts2)).

Inductive pid_reach (s0 : pids) : pids → Prop :=
  | pid_reach_refl : pid_reach s0 s0
  | pid_reach_step s s' : pid_reach s0 s → pid_step s s' → pid_reach s0 s'.

(** No two tasks have the same pid. *)
Definition pids_unique (s : pids) : Prop := NoDup (p_pid <$> ptasks s).

(** Fewer ids in use keep the invariant. *)
Lemma pid_inv_sub l safe ts ts' :
  (∀ x, used ts' x → used ts x) → pid_inv (Pids l safe ts) → pid_inv (Pids l safe ts').
Proof.
  intros Hs [H1 H2 H3 H4]. split; cbn in *; [done|done| |auto].
  intros x Hx. apply H3. auto.
Qed.

Lemma used_app ts1 ts2 x : used (ts1 ++ ts2) x ↔ used ts1 x ∨ used ts2 x.
Proof. unfold used. set_solver. Qed.

Lemma used_child ts parent p x :
  parent ∈ ts → used (ts ++ [child_of parent p]) x → used ts x ∨ x = p.
Proof.
  intros Hp [Hx|Hx]%used_app; [by left|].
  apply used_cons in Hx as [ [<-|Hx]%in_task_ids|(? & ?%elem_of_nil & _)]; [by right| |done].
  left. exists parent. split; [done|]. apply in_task_ids. cbn in Hx. naive_solver.
Qed.

(** The child gets the last id that was found. *)
Lemma pid_inv_link s parent : pid_inv s → parent ∈ ptasks s → pid_inv (link_task (child_of parent (last_pid s)) s).
Proof.
  intros [H1 H2 H3 H4] Hp. split; cbn; [done|done| |]; intros x Hx; apply used_child in Hx; try done.
  - intros Hl. destruct Hx as [Hx|Hx]; [by apply H3|lia].
  - destruct Hx as [Hx|Hx]; [by apply H4|subst x; lia].
Qed.

Lemma pid_unused_fresh ts p : ¬ used ts p → p ∉ p_pid <$> ts.
Proof.
  intros Hu (t & -> & Ht)%list_elem_of_fmap. apply Hu. exists t. split; [done|].
  apply in_task_ids. by left.
Qed.

Lemma pid_step_inv s s' :
  pid_step s s' → pid_inv s ∧ pids_unique s → pid_inv s' ∧ pids_unique s'.
Proof.
  unfold pids_unique. intros Hstep [Hi Hu]. destruct Hstep as [parent flags s s' p Hp Hf Hlen Hg|l safe ts1 t ts2|l safe ts1 t t' ts2 Ep Hg Hs].
  - pose proof (get_pid_unused s (p_pid parent) flags Hi Hf Hlen) as Hr. unfold runs in Hr. rewrite Hg in Hr.
    destruct Hr as (Hn & Hr & -> & Ht & Hi'). split.
    + apply pid_inv_link; [done|by rewrite Ht].
    + cbn. rewrite Ht, fmap_app. apply NoDup_app. split_and!; [done| |by apply NoDup_singleton].
      intros x Hx. cbn. intros ->%list_elem_of_singleton. by apply pid_unused_fresh in Hn.
  - split.
    + eapply pid_inv_sub; [|exact Hi]. intros x. rewrite !used_app, used_cons. naive_solver.
    + cbn in *. rewrite fmap_app, fmap_cons in Hu. rewrite fmap_app.
      by apply NoDup_Permutation_proper with (y := p_pid t :: (p_pid <$> ts1) ++ (p_pid <$> ts2)) in Hu as [_ Hu]%NoDup_cons;
        [|by rewrite Permutation_middle].
  - split.
    + eapply pid_inv_sub; [|exact Hi]. intros x [Hx|[Hx|Hx]%used_cons]%used_app.
      * apply used_app. by left.
      * apply in_task_ids in Hx as [Hx|[<-|<-]]; [|done..]. rewrite Ep in Hx.
        apply used_app. right. apply used_cons. left. apply in_task_ids. by left.
      * apply used_app. right. apply used_cons. by right.
    + cbn in *. rewrite fmap_app, fmap_cons in *. by rewrite Ep.
Qed.

(** C29: As long as the forks do not overlap, in every reachable state the tasks have
    different pids, and a new child has an id that no task uses as pid, group or session. *)
Theorem pid_reach_unique s0 s :
  pid_inv s0 → pids_unique s0 → pid_reach s0 s → pids_unique s ∧ pid_inv s.
Proof.
  intros Hi Hu Hr. enough (pid_inv s ∧ pids_unique s) by naive_solver.
  induction Hr as [|s s' _ IH Hs]; [done|by apply (pid_step_inv s)].
Qed.

(** ** Forks that overlap

    Between [get_pid] and the linking of the child [do_fork] may sleep (in [copy_files],
    [copy_mm] and in the allocation of the [dkm_struct]), and other tasks fork.  The
    children whose id is taken and that are not linked are [pending]. *)
Inductive overlap_step : pids * list ptask → pids * list ptask → Prop :=
  | ov_take parent flags s s' p pending :
      parent ∈ ptasks s → Z.land flags CLONE_PID = 0 →
      get_pid (p_pid parent) flags s = Ok s' p →
      overlap_step (s, pending) (s', child_of parent p :: pending)
  | ov_link s t p1 p2 :
      overlap_step (s, p1 ++ t :: p2) (link_task t s, p1 ++ p2)
  | ov_exit l safe ts1 t ts2 pending :
      overlap_step (Pids l safe (ts1 ++ t :: ts2), pending) (Pids l safe (ts1 ++ ts2), pending).

(** A task that forks a child, which ends. *)
Definition fork_and_exit (parent : ptask) (s : option pids) : option pids :=
  match s ≫= λ s, match get_pid (p_pid parent) 0 s with Ok s' _ => Some s' | Stop _ => None end with
  | Some s' => Some s'
  | None => None
  end.

Lemma get_pid_ptasks fuel cur flags s s' p :
  get_pid_n fuel cur flags s = Ok s' p → ptasks s' = ptasks s.
Proof.
  unfold get_pid_n. destruct (decide _); [by intros [= <- _]|].
  unfold mbind, M_bind, gets, find_pid, modify.
  destruct (pid_overflow _); [by destruct (repeat_scan _ _ _ _) as [[]|]; intros [= <- _]|].
  destruct (decide _); [by destruct (repeat_scan _ _ _ _) as [[]|]; intros [= <- _]|].
  by intros [= <- _].
Qed.

Lemma fork_and_exit_steps parent pending n s s' :
  parent ∈ ptasks s → Nat.iter n (fork_and_exit parent) (Some s) = Some s' →
  ptasks s' = ptasks s ∧ rtc overlap_step (s, pending) (s', pending).
Proof.
  intros Hp. revert s'. induction n as [|n IH]; intros s'; [by intros [= <-]|].
  rewrite Nat.iter_succ.
  destruct (Nat.iter n _ _) as [s1|] eqn:E; [|by unfold fork_and_exit].
  destruct (IH s1 eq_refl) as [Ht Hr]. unfold fork_and_exit. cbn.
  destruct (get_pid (p_pid parent) 0 s1) as [s2 p|] eqn:Eg; [|done]. intros [= <-].
  assert (ptasks s2 = ptasks s1) as Ht2 by
    (by eapply get_pid_ptasks).
  split; [congruence|]. eapply (transitivity (R:=rtc overlap_step)); [exact Hr|].
  eapply rtc_l; [apply (ov_take parent 0 s1 s2 p); [by rewrite Ht|done|done]|].
  eapply rtc_l; [apply (ov_link s2 _ [] pending)|].
  apply rtc_once. pose proof (ov_exit (last_pid s2) (next_safe s2) (ptasks s2) (child_of parent p) [] pending) as H.
  rewrite app_nil_r in H. by destruct s2.
Qed.

(** With overlapping forks two tasks can get the same pid: the id of a child that is not
    linked yet is not seen by the search, which comes back to it after 32468 forks. *)
Lemma pid_race :
  let init := PTask 1 1 1 in
  let s := Pids 1 PID_MAX [init] in
  pid_inv s ∧ ∃ s', rtc overlap_step (s, []) (s', []) ∧ ¬ pids_unique s'.
Proof.
  intros init s. split.
  { split; cbn; [unfold PID_MAX; lia|done| |]; intros x [Hx|(? & ?%elem_of_nil & _)]%used_cons; try done;
      apply in_task_ids in Hx; cbn in Hx; unfold PID_MAX; lia. }
  (* the ids 2 .. 299 are used once *)
  destruct (Nat.iter 298 (fork_and_exit init) (Some s)) as [s1|] eqn:E1; [|by vm_compute in E1].
  assert (s1 = Pids 299 PID_MAX [init]) as -> by (vm_compute in E1; by injection E1 as <-).
  destruct (fork_and_exit_steps init [] 298 s _ ltac:(by left) E1) as [_ H1].
  set (s2 := Pids 300 PID_MAX [init]).
  destruct (Nat.iter (Z.to_nat 32467) (fork_and_exit init) (Some s2)) as [s3|] eqn:E3; [|by vm_compute in E3].
  assert (s3 = Pids (PID_MAX - 1) PID_MAX [init]) as -> by (vm_compute in E3; by injection E3 as <-).
  destruct (fork_and_exit_steps init [child_of init 300] (Z.to_nat 32467) s2 _ ltac:(by left) E3) as [_ H3].
  exists (link_task (child_of init 300) (link_task (child_of init 300) (Pids 300 PID_MAX [init]))). split.
  - eapply (transitivity (R:=rtc overlap_step)); [exact H1|].
    eapply rtc_l; [apply (ov_take init 0 _ s2 300); [by left|done|by vm_compute]|].
    eapply (transitivity (R:=rtc overlap_step)); [exact H3|].
    eapply rtc_l; [apply (ov_take init 0 _ (Pids 300 PID_MAX [init]) 300); [by left|done|by vm_compute]|].
    eapply rtc_l; [apply (ov_link _ _ [] [_])|]. apply rtc_once. apply (ov_link _ _ [] []).
  - unfold pids_unique. cbn. intros [_ [Hn _]%NoDup_cons]%NoDup_cons. apply Hn. by left.
Qed.
