(* ===== verification/ForkUid.v ===== *)
(** The users of src/src/dkmke/fork.c: [alloc_uid] and [free_uid] count the tasks of
    every user in [user_struct]s, which hang in the chains of a hash table.

    The spinlocks are empty on one processor.  [kmem_cache_alloc] may fail and may
    sleep: [alloc_uid] is also given as its two parts, before and after the allocation,
    between which other tasks run. *)

From Stdlib Require Import ZArith Lia.
From stdpp Require Import base list gmap.
From S2P Require Import Prelude.

#[local] Open Scope Z_scope.

(** * The state *)

(** What a [struct user_struct **pprev] points to: a slot of [uidhash] or the field
    [next] of an element. *)
Inductive pprev_ptr : Type := Slot (h : Z) | NextOf (l : positive).

Record user_struct : Type := User {
  ucount : Z; unext : option positive; upprev : pprev_ptr; uuid : Z
}.

(** The fields of a task that matter here. *)
Record utask : Type := UTask { tuid : Z; tuser : option positive }.

(** A [NULL] slot of [uidhash] has no entry. *)
Record usys : Type := USys {
  uidhash : gmap Z positive;
  users : gmap positive user_struct;
  ufresh : positive;
  utasks : gmap Z utask
}.

Definition with_uidhash (t : gmap Z positive) (s : usys) : usys :=
  USys t (users s) (ufresh s) (utasks s).
Definition with_users (m : gmap positive user_struct) (s : usys) : usys :=
  USys (uidhash s) m (ufresh s) (utasks s).
Definition with_utasks (m : gmap Z utask) (s : usys) : usys :=
  USys (uidhash s) (users s) (ufresh s) m.

Definition set_ucount (c : Z) (u : user_struct) : user_struct := User c (unext u) (upprev u) (uuid u).
Definition set_unext (n : option positive) (u : user_struct) : user_struct := User (ucount u) n (upprev u) (uuid u).
Definition set_upprev (p : pprev_ptr) (u : user_struct) : user_struct := User (ucount u) (unext u) p (uuid u).

(** linux/sched.h has [PIDHASH_SZ] = [NR_TASKS >> 2] = 128. *)
Definition PIDHASH_SZ : Z := 128.
Definition UIDHASH_SZ : Z := Z.shiftr PIDHASH_SZ 2.
Definition uidhashfn (uid : Z) : Z := Z.land (Z.lxor (Z.shiftr uid 8) uid) (UIDHASH_SZ - 1).

Definition EAGAIN : Z := 11.

(** * Memory *)

Definition uderef (l : positive) : M usys user_struct := λ s,
  match users s !! l with Some u => Ok s u | None => Stop BadPtr end.
Definition ustore (l : positive) (g : user_struct → user_struct) : M usys unit := λ s,
  match users s !! l with Some u => Ok (with_users (<[l := g u]> (users s)) s) () | None => Stop BadPtr end.
(** [*p = o] *)
Definition store_pprev (p : pprev_ptr) (o : option positive) : M usys unit :=
  match p with
  | Slot h => modify (λ s, with_uidhash (partial_alter (λ _, o) h (uidhash s)) s)
  | NextOf l => ustore l (set_unext o)
  end.

Definition utask_of (p : Z) : M usys utask := λ s,
  match utasks s !! p with Some t => Ok s t | None => Stop BadPtr end.
Definition set_user (p : Z) (o : option positive) : M usys unit :=
  t ← utask_of p;
  modify (λ s, with_utasks (<[p := UTask (tuid t) o]> (utasks s)) s).

(** * The hash table *)

Definition uid_hash_insert (up : positive) (hashent : Z) : M usys unit :=
  head ← gets (λ s, uidhash s !! hashent);
  _ ← ustore up (set_unext head);
  _ ← match head with Some n => ustore n (set_upprev (NextOf up)) | None => mret () end;
  _ ← ustore up (set_upprev (Slot hashent));
  store_pprev (Slot hashent) (Some up).

Definition uid_hash_remove (up : positive) : M usys unit :=
  u ← uderef up;
  _ ← match unext u with Some n => ustore n (set_upprev (upprev u)) | None => mret () end;
  u ← uderef up;
  store_pprev (upprev u) (unext u).

Fixpoint uid_find_loop (fuel : nat) (next : option positive) (uid : Z) : M usys (option positive) :=
  match fuel with
  | O => stop OutOfFuel
  | S fuel =>
    match next with
    | None => mret None
    | Some up =>
      u ← uderef up;
      if decide (uuid u ≠ uid) then uid_find_loop fuel (unext u) uid
      else
        _ ← ustore up (set_ucount (ucount u + 1));
        mret (Some up)
    end
  end.

(** The parameter [uid] is an unsigned short. *)
Definition uid_hash_find (uid hashent : Z) : M usys (option positive) := λ s,
  uid_find_loop (S (size (users s))) (uidhash s !! hashent) (u16 uid) s.

(** * Users of tasks *)

Definition free_uid (p : Z) : M usys unit :=
  t ← utask_of p;
  match tuser t with
  | None => mret ()
  | Some up =>
    _ ← set_user p None;
    u ← uderef up;
    _ ← ustore up (set_ucount (ucount u - 1));
    if decide (ucount u - 1 = 0) then
      _ ← uid_hash_remove up;
      modify (λ s, with_users (delete up (users s)) s)
    else mret ()
  end.

(** The first search. *)
Definition alloc_uid_find (p : Z) : M usys (option positive) :=
  t ← utask_of p;
  uid_hash_find (tuid t) (uidhashfn (tuid t)).

(** From the allocation on; [ok] says whether it succeeds.  A new block has arbitrary
    links, and its uid and count are set before it is seen by others. *)
Definition alloc_uid_add (ok : bool) (p : Z) : M usys Z :=
  if ok then
    t ← utask_of p;
    new ← gets ufresh;
    _ ← modify (λ s, USys (uidhash s) (<[new := User 1 None (NextOf new) (tuid t)]> (users s))
                       (Pos.succ new) (utasks s));
    o ← uid_hash_find (tuid t) (uidhashfn (tuid t));
    up ← match o with
         | Some up => _ ← modify (λ s, with_users (delete new (users s)) s); mret up
         | None => _ ← uid_hash_insert new (uidhashfn (tuid t)); mret new
         end;
    _ ← set_user p (Some up);
    mret 0
  else mret (- EAGAIN).

Definition alloc_uid (ok : bool) (p : Z) : M usys Z :=
  o ← alloc_uid_find p;
  match o with
  | None => alloc_uid_add ok p
  | Some up => _ ← set_user p (Some up); mret 0
  end.

(** The part of [do_fork] that takes a process of the user into account: the copy of the
    task, the limit, the count.  [rlim] is the soft limit of
    the parent for [RLIMIT_NPROC]. *)
Definition fork_user (cur child rlim : Z) : M usys Z :=
  t ← utask_of cur;
  match tuser t with
  | None =>
    _ ← modify (λ s, with_utasks (<[child := t]> (utasks s)) s); mret 0
  | Some up =>
    u ← uderef up;
    if decide (ucount u >= rlim) then mret (- EAGAIN)
    else
      _ ← ustore up (set_ucount (ucount u + 1));
      _ ← modify (λ s, with_utasks (<[child := t]> (utasks s)) s);
      mret 0
  end.
