(* ===== verification/ForkUidRep.v ===== *)
(** The invariant of the users of fork.c: the chains of the hash table are doubly linked
    lists that hold every [user_struct] exactly once, and every count is the number of
    tasks that point to it.  Every operation preserves it. *)

From Stdlib Require Import ZArith Lia.
From stdpp Require Import base list gmap fin_maps.
From S2P Require Import Prelude.
From S2P Require Import ForkUid.

#[local] Open Scope Z_scope.

(** * Chains *)

(** The elements [ls] hang one after the other from [o]; the first points back to [p]. *)
Fixpoint uchain (us : gmap positive user_struct) (p : pprev_ptr) (o : option positive) (ls : list positive) : Prop :=
  match ls with
  | [] => o = None
  | l :: ls => o = Some l ∧ ∃ u, us !! l = Some u ∧ upprev u = p ∧ uchain us (NextOf l) (unext u) ls
  end.

Definition same_links (us us' : gmap positive user_struct) (l : positive) : Prop :=
  (λ u, (unext u, upprev u)) <$> us !! l = (λ u, (unext u, upprev u)) <$> us' !! l.

Lemma uchain_ext us us' p o ls :
  (∀ l, l ∈ ls → same_links us us' l) → uchain us p o ls → uchain us' p o ls.
Proof.
  revert p o. induction ls as [|l ls IH]; intros p o Hs; [done|].
  intros (-> & u & Hu & Hp & Hc). split; [done|].
  specialize (Hs l ltac:(by left)) as Hl. unfold same_links in Hl. rewrite Hu in Hl. cbn in Hl.
  destruct (us' !! l) as [u'|]; [|done]. injection Hl as En Ep. exists u'.
  split_and!; [done|congruence|]. rewrite <- En. apply IH; [|done]. intros x Hx. apply Hs. by right.
Qed.

Lemma same_links_insert us l u x : us !! l = Some u → ∀ u', unext u' = unext u → upprev u' = upprev u →
  same_links us (<[l := u']> us) x.
Proof.
  intros Hu u' En Ep. unfold same_links. destruct (decide (x = l)) as [->|].
  - rewrite lookup_insert_eq, Hu. cbn. congruence.
  - by rewrite lookup_insert_ne.
Qed.

Lemma uchain_mem us p o ls l : uchain us p o ls → l ∈ ls → is_Some (us !! l).
Proof.
  revert p o. induction ls as [|x ls IH]; intros p o; [by intros _ ?%elem_of_nil|].
  intros (_ & u & Hu & _ & Hc) [->|Hl]%elem_of_cons; [by rewrite Hu|by eapply IH].
Qed.

(** What [uid_hash_remove] and the release make of the elements. *)
Definition relink (u : user_struct) (us : gmap positive user_struct) : gmap positive user_struct :=
  let us1 := match unext u with Some n => alter (set_upprev (upprev u)) n us | None => us end in
  match upprev u with NextOf q => alter (set_unext (unext u)) q us1 | Slot _ => us1 end.
Definition unlink_user (l : positive) (u : user_struct) (us : gmap positive user_struct) : gmap positive user_struct :=
  delete l (relink u us).
Definition unlink_slot (u : user_struct) (t : gmap Z positive) : gmap Z positive :=
  match upprev u with Slot h => partial_alter (λ _, unext u) h t | NextOf _ => t end.

Lemma unlink_other l u us x :
  x ≠ l → unext u ≠ Some x → upprev u ≠ NextOf x → unlink_user l u us !! x = us !! x.
Proof.
  intros Hl Hn Hp. unfold unlink_user, relink. rewrite lookup_delete_ne by done.
  destruct (upprev u), (unext u); rewrite ?lookup_alter_ne by congruence; done.
Qed.

Lemma unlink_ucount l u us x :
  x ≠ l → (λ v, (ucount v, uuid v)) <$> unlink_user l u us !! x = (λ v, (ucount v, uuid v)) <$> us !! x.
Proof.
  intros Hl. unfold unlink_user, relink. rewrite lookup_delete_ne by done.
  destruct (upprev u) as [h|q], (unext u) as [n|]; rewrite ?lookup_alter;
    repeat case_decide; subst; rewrite ?lookup_alter; repeat case_decide; destruct (us !! _); done.
Qed.

Lemma unlink_lookup l u us x v :
  unlink_user l u us !! x = Some v → x ≠ l ∧ ∃ w, us !! x = Some w ∧ ucount w = ucount v ∧ uuid w = uuid v.
Proof.
  intros Hv. assert (x ≠ l) as Hx by (intros ->; unfold unlink_user in Hv; by rewrite lookup_delete_eq in Hv).
  split; [done|]. pose proof (unlink_ucount l u us x Hx) as E. rewrite Hv in E.
  destruct (us !! x) as [w|]; [|done]. exists w. by injection E.
Qed.

Lemma unlink_keep l u us x w :
  us !! x = Some w → x ≠ l → ∃ v, unlink_user l u us !! x = Some v ∧ uuid v = uuid w.
Proof.
  intros Hw Hx. pose proof (unlink_ucount l u us x Hx) as E. rewrite Hw in E.
  destruct (unlink_user l u us !! x) as [v|]; [|done]. exists v. by injection E.
Qed.

(** The neighbours of an element. *)
Lemma uchain_head us p o ls : uchain us p o ls → o = head ls.
Proof. destruct ls; [done|]. by intros [-> _]. Qed.

Lemma uchain_at us p o a l b u :
  uchain us p o (a ++ l :: b) → us !! l = Some u →
  unext u = head b ∧ upprev u = match last a with Some y => NextOf y | None => p end ∧
  uchain us (NextOf l) (unext u) b.
Proof.
  intros Hc Hu. revert p o Hc. induction a as [|x a IH]; intros p o; cbn [app uchain].
  - intros (_ & u' & Hu' & Hp & Hc). assert (u' = u) as -> by congruence.
    split_and!; [by eapply uchain_head|done..].
  - intros (_ & v & _ & _ & Hc). destruct (IH _ _ Hc) as (En & Ep & Hb). split_and!; [done| |done].
    rewrite Ep. rewrite last_cons. by destruct (last a).
Qed.

(** A chain without one of its elements. *)
Lemma uchain_unlink_tail us p l b u :
  uchain us (NextOf l) (unext u) b → NoDup (l :: b) → upprev u = p →
  (∀ q, p = NextOf q → q ∉ l :: b) →
  uchain (unlink_user l u us) p (unext u) b.
Proof.
  intros Hc [Hl Hnd]%NoDup_cons Hp Hq. subst p.
  destruct b as [|n b]; [done|]. destruct Hc as (En & v & Hv & Epv & Hc).
  apply NoDup_cons in Hnd as [Hn Hnd]. split; [done|].
  assert (n ≠ l) by (intros ->; apply Hl; by left).
  assert (upprev u ≠ NextOf n) by (intros Hq'; apply (Hq n Hq'); right; by left).
  exists (set_upprev (upprev u) v). split_and!; [|done|].
  - unfold unlink_user, relink. rewrite En, lookup_delete_ne by done.
    assert (alter (set_upprev (upprev u)) n us !! n = Some (set_upprev (upprev u) v)) as Ha
      by (by rewrite lookup_alter_eq, Hv).
    destruct (upprev u) as [h|q]; [done|]. rewrite lookup_alter_ne by congruence. done.
  - eapply uchain_ext; [|exact Hc]. intros y Hy. unfold same_links. rewrite unlink_other; [done|..].
    + intros ->. apply Hl. by right.
    + rewrite En. intros [= ->]. done.
    + intros Hq'. apply (Hq y Hq'). right. by right.
Qed.

Lemma uchain_unlink us p o a l b u :
  uchain us p o (a ++ l :: b) → us !! l = Some u → NoDup (a ++ l :: b) →
  (∀ q, p = NextOf q → q ∉ a ++ l :: b) →
  uchain (unlink_user l u us) p (match a with [] => unext u | _ => o end) (a ++ b).
Proof.
  revert p o. induction a as [|x a IH]; intros p o Hc Hu Hnd Hq.
  { destruct (uchain_at _ _ _ [] _ _ _ Hc Hu) as (_ & Ep & Hb). by apply uchain_unlink_tail. }
  destruct (uchain_at _ _ _ (x :: a) _ _ _ Hc Hu) as (En & Ep & _).
  destruct Hc as (-> & v & Hv & Epv & Hc). cbn [app] in *. apply NoDup_cons in Hnd as [Hx Hnd].
  split; [done|]. rewrite last_cons in Ep.
  assert (x ≠ l) as Hxl by (intros ->; apply Hx, elem_of_app; right; by left).
  assert (unext u ≠ Some x) as Hnx.
  { rewrite En. intros Eb. apply Hx, elem_of_app. right. right. destruct b; simplify_eq/=. by left. }
  specialize (IH _ _ Hc Hu Hnd ltac:(by intros q [= <-])).
  destruct a as [|y a].
  - exists (set_unext (unext u) v). split_and!; [|done|exact IH]. cbn in Ep.
    unfold unlink_user, relink. rewrite Ep, lookup_delete_ne, lookup_alter_eq by done.
    destruct (unext u) as [n|]; [|by rewrite Hv]. rewrite lookup_alter_ne by congruence. by rewrite Hv.
  - exists v. split_and!; [|done|exact IH]. rewrite unlink_other; [done..|].
    rewrite Ep. destruct (last (y :: a)) as [z|] eqn:El; [|by apply last_None in El].
    intros [= ->]. apply last_Some in El as [a' El]. apply Hx, elem_of_app. left. rewrite El.
    apply elem_of_app. right. by left.
Qed.

(** * The invariant *)

(** The tasks that point to [l]. *)
Definition nrefs (m : gmap Z utask) (l : positive) : Z :=
  Z.of_nat (size (filter (λ kv, tuser kv.2 = Some l) m)).

Record uid_table (us : gmap positive user_struct) (t : gmap Z positive) (c : Z → list positive) : Prop := {
  ut_chain h : uchain us (Slot h) (t !! h) (c h);
  ut_nodup h : NoDup (c h);
  ut_hash h l u : l ∈ c h → us !! l = Some u → uidhashfn (uuid u) = h;
  ut_in l u : us !! l = Some u → l ∈ c (uidhashfn (uuid u));
  ut_uniq l1 l2 u1 u2 : us !! l1 = Some u1 → us !! l2 = Some u2 → uuid u1 = uuid u2 → l1 = l2;
  ut_range l u : us !! l = Some u → 0 ≤ uuid u < 2 ^ 16
}.

Record uinv (s : usys) : Prop := {
  uinv_table : ∃ c, uid_table (users s) (uidhash s) c;
  uinv_fresh l : is_Some (users s !! l) → (l < ufresh s)%positive;
  uinv_count l u : users s !! l = Some u → ucount u = nrefs (utasks s) l ∧ 0 < ucount u;
  uinv_task p t l : utasks s !! p = Some t → tuser t = Some l →
    ∃ u, users s !! l = Some u ∧ uuid u = tuid t;
  uinv_uid p t : utasks s !! p = Some t → 0 ≤ tuid t < 2 ^ 16
}.

(** ** The number of references *)

Lemma nrefs_insert m p t l :
  nrefs (<[p := t]> m) l =
  nrefs (delete p m) l + (if decide (tuser t = Some l) then 1 else 0).
Proof.
  unfold nrefs. rewrite <- insert_delete_eq. destruct (decide _) as [E|E].
  - rewrite map_filter_insert_True by done. rewrite map_size_insert_None; [lia|].
    apply map_lookup_filter_None. left. apply lookup_delete_eq.
  - rewrite map_filter_insert_False by done. rewrite delete_delete_eq. lia.
Qed.

Lemma nrefs_lookup m p t l :
  m !! p = Some t → nrefs m l = nrefs (delete p m) l + (if decide (tuser t = Some l) then 1 else 0).
Proof. intros Hp. rewrite <- nrefs_insert. by rewrite insert_id. Qed.

Lemma nrefs_nonneg m l : 0 ≤ nrefs m l.
Proof. unfold nrefs. lia. Qed.

Lemma delete_none_nrefs m p l : m !! p = None → nrefs (delete p m) l = nrefs m l.
Proof. intros Hp. by rewrite delete_id. Qed.

(** A task that changes from [o] to [o']. *)
Lemma nrefs_change m p t o l :
  m !! p = Some t →
  nrefs (<[p := UTask (tuid t) o]> m) l =
  nrefs m l - (if decide (tuser t = Some l) then 1 else 0) + (if decide (o = Some l) then 1 else 0).
Proof. intros Hp. rewrite nrefs_insert, (nrefs_lookup m p t) by done. cbn. lia. Qed.

(** ** Elements of the table *)

Lemma uid_table_count us t c l u x :
  us !! l = Some u → uid_table us t c → uid_table (<[l := set_ucount x u]> us) t c.
Proof.
  intros Hu [H1 H2 H3 H4 H5 H6].
  assert (∀ l' u', <[l := set_ucount x u]> us !! l' = Some u' → ∃ v, us !! l' = Some v ∧ uuid v = uuid u') as Hl.
  { intros l' u' [[<- <-]|[Hne Hu']]%lookup_insert_Some; [by exists u|by exists u']. }
  split.
  - intros h. eapply uchain_ext; [|apply H1]. intros y Hy. by apply same_links_insert with u.
  - done.
  - intros h l' u' Hin (v & Hv & <-)%Hl. by eapply H3.
  - intros l' u' (v & Hv & <-)%Hl. by apply H4.
  - intros l1 l2 u1 u2 (v1 & Hv1 & E1)%Hl (v2 & Hv2 & E2)%Hl E. eapply H5; [done..|congruence].
  - intros l' u' (v & Hv & <-)%Hl. by eapply H6.
Qed.

(** The element of a uid, if there is one. *)
Lemma uid_find_loop_spec us uid ls : ∀ p o fuel s,
  users s = us → uchain us p o ls → (length ls < fuel)%nat →
  (∃ l u, l ∈ ls ∧ us !! l = Some u ∧ uuid u = uid ∧
     uid_find_loop fuel o uid s = Ok (with_users (<[l := set_ucount (ucount u + 1) u]> us) s) (Some l)) ∨
  ((∀ l u, l ∈ ls → us !! l = Some u → uuid u ≠ uid) ∧ uid_find_loop fuel o uid s = Ok s None).
Proof.
  induction ls as [|x ls IH]; intros p o [|fuel] s Hs Hc Hf; cbn [length] in Hf; try lia.
  - cbn in Hc. subst o. right. split; [|done]. intros l u ?%elem_of_nil; done.
  - destruct Hc as (-> & v & Hv & Hp & Hc). cbn [uid_find_loop].
    rewrite (bind_Ok _ _ s s v) by (unfold uderef; by rewrite Hs, Hv).
    destruct (decide (uuid v ≠ uid)) as [Hne|Heq].
    + destruct (IH (NextOf x) (unext v) fuel s Hs Hc ltac:(lia)) as [(l & u & Hl & Hr)|[Hn Hr]].
      * left. exists l, u. split; [by right|done].
      * right. split; [|done]. intros l u [->|Hl]%elem_of_cons Hu; [congruence|by eapply Hn].
    + left. exists x, v. split_and!; [by left|done|lia|].
      unfold mbind, M_bind, ustore. by rewrite Hs, Hv.
Qed.

Lemma uchain_mono us us' p o ls : us ⊆ us' → uchain us p o ls → uchain us' p o ls.
Proof.
  intros Hs Hc. eapply uchain_ext; [|exact Hc]. intros l Hl. unfold same_links.
  destruct (uchain_mem _ _ _ _ _ Hc Hl) as [u Hu]. by rewrite Hu, (lookup_weaken _ _ _ _ Hu Hs).
Qed.

(** The heap may hold blocks that are not in the table. *)
Lemma uid_hash_find_spec s us c uid :
  us ⊆ users s → uid_table us (uidhash s) c → 0 ≤ uid < 2 ^ 16 →
  (∃ l u, us !! l = Some u ∧ uuid u = uid ∧
     uid_hash_find uid (uidhashfn uid) s =
       Ok (with_users (<[l := set_ucount (ucount u + 1) u]> (users s)) s) (Some l)) ∨
  ((∀ l u, us !! l = Some u → uuid u ≠ uid) ∧ uid_hash_find uid (uidhashfn uid) s = Ok s None).
Proof.
  intros Hsub Ht Hr. unfold uid_hash_find, u16. rewrite Z.mod_small by lia.
  pose proof (ut_chain _ _ _ Ht (uidhashfn uid)) as Hc.
  assert (length (c (uidhashfn uid)) < S (size (users s)))%nat as Hf.
  { enough (length (c (uidhashfn uid)) ≤ size (users s))%nat by lia.
    apply nodup_size; [by eapply ut_nodup|]. intros l Hl.
    destruct (uchain_mem _ _ _ _ _ Hc Hl) as [u Hu]. exists u. by eapply lookup_weaken. }
  destruct (uid_find_loop_spec (users s) uid _ _ _ _ s eq_refl (uchain_mono _ _ _ _ _ Hsub Hc) Hf)
    as [(l & u & Hl & Hu & H)|[Hn H]].
  - left. destruct (uchain_mem _ _ _ _ _ Hc Hl) as [u' Hu'].
    pose proof (lookup_weaken _ _ _ _ Hu' Hsub). assert (u' = u) as -> by congruence. by exists l, u.
  - right. split; [|done]. intros l u Hu E. eapply Hn; [|by eapply lookup_weaken|done]. rewrite <- E. by eapply ut_in.
Qed.

Lemma ustore_eq l u g s : users s !! l = Some u → ustore l g s = Ok (with_users (alter g l (users s)) s) ().
Proof. intros Hu. unfold ustore. by rewrite Hu, (insert_alter_eq _ _ _ g Hu). Qed.

(** ** The removal of an element *)

Lemma uid_hash_remove_eq s h a l b u :
  uchain (users s) (Slot h) (uidhash s !! h) (a ++ l :: b) → NoDup (a ++ l :: b) →
  users s !! l = Some u →
  uid_hash_remove l s = Ok (USys (unlink_slot u (uidhash s)) (relink u (users s)) (ufresh s) (utasks s)) ().
Proof.
  intros Hc Hnd Hu. destruct (uchain_at _ _ _ _ _ _ _ Hc Hu) as (En & Ep & Hb).
  unfold uid_hash_remove. rewrite (bind_Ok _ _ s s u) by (unfold uderef; by rewrite Hu).
  set (us1 := match unext u with Some n => alter (set_upprev (upprev u)) n (users s) | None => users s end).
  assert (us1 !! l = Some u) as Hu1.
  { unfold us1. destruct (unext u) as [n|]; [|done]. rewrite lookup_alter_ne; [done|]. intros ->.
    destruct b; simplify_eq/=. apply NoDup_app in Hnd as (_ & _ & [Hn _]%NoDup_cons). apply Hn. by left. }
  rewrite (bind_Ok _ _ s (with_users us1 s) ()).
  2: { unfold us1. destruct (unext u) as [n|] eqn:E; [|by destruct s].
    destruct b as [|n' b]; simplify_eq/=. destruct Hb as (_ & v & Hv & _). by rewrite (ustore_eq n' v). }
  rewrite (bind_Ok _ _ _ (with_users us1 s) u) by (unfold uderef; cbn; by rewrite Hu1).
  unfold unlink_slot, relink. fold us1. destruct (upprev u) as [h'|q] eqn:Eq; [done|]. cbn.
  assert (is_Some (us1 !! q)) as [v Hv].
  { destruct (last a) as [y|] eqn:El; [|done]. injection Ep as ->.
    assert (is_Some (users s !! y)) as Hy.
    { eapply uchain_mem; [exact Hc|]. apply last_Some in El as [a' ->]. set_solver. }
    unfold us1. destruct (unext u) as [n|]; [|done]. rewrite lookup_alter. case_decide; [subst|done].
    by apply fmap_is_Some. }
  by rewrite (ustore_eq q v) by done.
Qed.

Lemma uid_table_remove us t c l u :
  uid_table us t c → us !! l = Some u → ∃ c', uid_table (unlink_user l u us) (unlink_slot u t) c'.
Proof.
  intros [H1 H2 H3 H4 H5 H6] Hu. set (h := uidhashfn (uuid u)).
  pose proof (H4 _ _ Hu) as Hin. fold h in Hin.
  destruct (list_elem_of_split _ _ Hin) as (a & b & Ec).
  pose proof (H1 h) as Hc. rewrite Ec in Hc. pose proof (H2 h) as Hnd. rewrite Ec in Hnd.
  destruct (uchain_at _ _ _ _ _ _ _ Hc Hu) as (En & Ep & _).
  assert (∀ x, unext u = Some x ∨ upprev u = NextOf x → x ∈ c h) as Hnb.
  { intros x Hx. rewrite Ec. destruct Hx as [Hx|Hx].
    - rewrite Hx in En. destruct b; [done|]. injection En as <-. set_solver.
    - destruct (last a) as [y|] eqn:El; [|congruence]. apply last_Some in El as [a' ->]. set_solver by congruence. }
  assert (∀ l' u', unlink_user l u us !! l' = Some u' → l' ≠ l ∧ ∃ v, us !! l' = Some v ∧ uuid v = uuid u') as Hl.
  { intros l' u' (Hne & w & Hw & _ & E)%unlink_lookup. eauto. }
  exists (λ h', if decide (h' = h) then a ++ b else c h'). split.
  - intros h'. unfold unlink_slot. destruct (decide (h' = h)) as [->|Hne].
    + pose proof (uchain_unlink _ _ _ _ _ _ _ Hc Hu Hnd ltac:(done)) as Hc'. rewrite Ep.
      destruct a as [|x a]; [cbn; by rewrite lookup_partial_alter_eq|]. rewrite last_cons.
      by destruct (last a).
    + assert (uchain (unlink_user l u us) (Slot h') (t !! h') (c h')) as Hc'.
      { eapply uchain_ext; [|apply H1]. intros y Hy. unfold same_links.
        destruct (uchain_mem _ _ _ _ _ (H1 h') Hy) as [v Hv]. pose proof (H3 _ _ _ Hy Hv) as Eh.
        rewrite unlink_other; [done|..].
        - intros ->. assert (v = u) by congruence. subst v. by apply Hne.
        - intros E. specialize (Hnb y (or_introl E)). apply Hne. rewrite <- Eh. by eapply H3.
        - intros E. specialize (Hnb y (or_intror E)). apply Hne. rewrite <- Eh. by eapply H3. }
      rewrite Ep. destruct (last a); [done|]. by rewrite lookup_partial_alter_ne.
  - intros h'. case_decide; [|by apply H2]. rewrite <- Permutation_middle in Hnd. by apply NoDup_cons in Hnd as [_ Hnd].
  - intros h' l' u' Hin' Hl'. destruct (Hl _ _ Hl') as (Hne & v & Hv & <-). eapply H3; [|done].
    case_decide; [|done]. subst. rewrite Ec. set_solver.
  - intros l' u' Hl'. destruct (Hl _ _ Hl') as (Hne & v & Hv & <-). specialize (H4 _ _ Hv).
    case_decide as E; [|done]. rewrite E, Ec in H4. set_solver.
  - intros l1 l2 u1 u2 (_ & v1 & Hv1 & E1)%Hl (_ & v2 & Hv2 & E2)%Hl E. eapply H5; [done..|congruence].
  - intros l' u' (_ & v & Hv & <-)%Hl. by eapply H6.
Qed.
