(* ===== verification/ForkUidProps.v ===== *)
(** What the operations on users of fork.c do: they keep the invariant of ForkUidRep, so
    that the count of a user is the number of its tasks, also when other tasks run while
    [alloc_uid] sleeps in the allocation; and the process limit of [do_fork] follows. *)

From Stdlib Require Import ZArith Lia.
From stdpp Require Import base list gmap fin_maps.
From S2P Require Import Prelude.
From S2P Require Import ForkUid.
From S2P Require Import ForkUidRep.

#[local] Open Scope Z_scope.

(** * The insertion of an element *)

(** The element [u] at [new] in front of a chain that starts with [o]. *)
Definition enlink_next (o : option positive) (new : positive) (us : gmap positive user_struct) :=
  match o with Some n => alter (set_upprev (NextOf new)) n us | None => us end.
Definition enlink (o : option positive) (new : positive) (u : user_struct) (us : gmap positive user_struct) :=
  <[new := User (ucount u) o (Slot (uidhashfn (uuid u))) (uuid u)]> (enlink_next o new us).

Lemma uid_hash_insert_eq s us new u h :
  h = uidhashfn (uuid u) → us !! new = None → users s = <[new := u]> us →
  (∀ n, uidhash s !! h = Some n → is_Some (us !! n)) →
  uid_hash_insert new h s =
    Ok (USys (<[h := new]> (uidhash s)) (enlink (uidhash s !! h) new u us) (ufresh s) (utasks s)) ().
Proof.
  intros Eh Hnew Hs Hn. unfold uid_hash_insert.
  rewrite (bind_Ok _ _ s s (uidhash s !! h)) by done.
  set (u1 := set_unext (uidhash s !! h) u). set (us1 := enlink_next (uidhash s !! h) new us).
  rewrite (bind_Ok _ _ s (with_users (<[new := u1]> us) s) ()).
  2: { unfold ustore. rewrite Hs, lookup_insert_eq. by rewrite insert_insert_eq. }
  rewrite (bind_Ok _ _ _ (with_users (<[new := u1]> us1) s) ()).
  2: { unfold us1, enlink_next. destruct (uidhash s !! h) as [n|]; [|by destruct s].
    destruct (Hn n) as [v Hv]; [done|]. assert (n ≠ new) by congruence.
    rewrite (ustore_eq n v) by (cbn; by rewrite lookup_insert_ne).
    cbn. by rewrite alter_insert_ne. }
  unfold store_pprev, enlink. fold us1. rewrite <- Eh.
  rewrite (bind_Ok _ _ _ (with_users (<[new := set_upprev (Slot h) u1]> us1) s) ()); [done|].
  unfold ustore. cbn. by rewrite lookup_insert_eq, insert_insert_eq.
Qed.

Lemma enlink_ucount o new u us l :
  us !! new = None →
  (λ v, (ucount v, uuid v)) <$> enlink o new u us !! l =
  (λ v, (ucount v, uuid v)) <$> <[new := u]> us !! l.
Proof.
  intros Hnew. unfold enlink. destruct (decide (l = new)) as [->|Hne]; [by rewrite !lookup_insert_eq|].
  rewrite !lookup_insert_ne by done. unfold enlink_next. destruct o as [n|]; [|done].
  rewrite lookup_alter. case_decide; [subst|done]. by destruct (us !! l).
Qed.

Lemma enlink_keep o new u us l v :
  us !! l = Some v → us !! new = None → o ≠ Some l → enlink o new u us !! l = Some v.
Proof.
  intros Hv Hnew Ho. unfold enlink. rewrite lookup_insert_ne by congruence. unfold enlink_next.
  destruct o; [|done]. by rewrite lookup_alter_ne by congruence.
Qed.

(** The chain that gets the element, and the others. *)
Lemma enlink_chain us o h new u ls :
  uchain us (Slot h) o ls → NoDup ls → us !! new = None → h = uidhashfn (uuid u) →
  uchain (enlink o new u us) (Slot h) (Some new) (new :: ls).
Proof.
  intros Hc Hnd Hnew ->. split; [done|]. eexists. split_and!; [apply lookup_insert_eq|done|]. cbn.
  destruct ls as [|n ls]; [done|]. destruct Hc as (-> & v & Hv & Epv & Hc).
  split; [done|]. exists (set_upprev (NextOf new) v). split_and!; [|done|].
  - unfold enlink, enlink_next. rewrite lookup_insert_ne by congruence. by rewrite lookup_alter_eq, Hv.
  - eapply uchain_ext; [|exact Hc]. intros y Hy. unfold same_links.
    destruct (uchain_mem _ _ _ _ _ Hc Hy) as [w Hw]. rewrite (enlink_keep _ _ _ _ y w); [by rewrite Hw|done..|].
    intros [= ->]. by apply NoDup_cons in Hnd as [? _].
Qed.

Lemma uid_table_insert us t c new u :
  uid_table us t c → us !! new = None →
  (∀ l v, us !! l = Some v → uuid v ≠ uuid u) → 0 ≤ uuid u < 2 ^ 16 →
  let h := uidhashfn (uuid u) in
  uid_table (enlink (t !! h) new u us) (<[h := new]> t) (λ h', if decide (h' = h) then new :: c h else c h').
Proof.
  intros [H1 H2 H3 H4 H5 H6] Hnew Hne Hr h.
  assert (∀ l v, enlink (t !! h) new u us !! l = Some v →
    (l = new ∧ uuid v = uuid u) ∨ (l ≠ new ∧ ∃ w, us !! l = Some w ∧ uuid w = uuid v)) as Hl.
  { intros l v Hv. pose proof (enlink_ucount (t !! h) new u us l Hnew) as E. rewrite Hv in E.
    destruct (decide (l = new)) as [->|Hn]; [left|right; split; [done|]].
    - rewrite lookup_insert_eq in E. by injection E.
    - rewrite lookup_insert_ne in E by done. destruct (us !! l) as [w|]; [|done]. exists w. by injection E. }
  assert (∀ h', new ∉ c h') as Hnc by (intros h' Hin; destruct (uchain_mem _ _ _ _ _ (H1 h') Hin); congruence).
  split.
  - intros h'. destruct (decide (h' = h)) as [->|Hh].
    + rewrite lookup_insert_eq. by apply enlink_chain.
    + rewrite lookup_insert_ne by done. eapply uchain_ext; [|apply H1]. intros y Hy. unfold same_links.
      destruct (uchain_mem _ _ _ _ _ (H1 h') Hy) as [w Hw].
      rewrite (enlink_keep _ _ _ _ y w); [by rewrite Hw|done..|].
      intros Eh. apply Hh. rewrite <- (H3 _ _ _ Hy Hw). eapply H3; [|done].
      specialize (H1 h). rewrite Eh in H1. destruct (c h); [done|]. destruct H1 as [[= ->] _]. by left.
  - intros h'. case_decide; [|apply H2]. apply NoDup_cons. split; [apply Hnc|apply H2].
  - intros h' l v Hin Hv. destruct (Hl _ _ Hv) as [[-> ->]|(Hln & w & Hw & <-)].
    + case_decide; [by subst|]. by apply Hnc in Hin.
    + eapply H3; [|done]. case_decide; [|done]. subst. by apply elem_of_cons in Hin as [?|].
  - intros l v Hv. destruct (Hl _ _ Hv) as [[-> ->]|(Hln & w & Hw & <-)].
    + fold h. rewrite decide_True by done. by left.
    + case_decide as E; [right; rewrite <- E|]; by apply H4.
  - intros l1 l2 v1 v2 [[-> E1]|(Hl1 & w1 & Hw1 & E1)]%Hl [[-> E2]|(Hl2 & w2 & Hw2 & E2)]%Hl E; [done|..].
    + destruct (Hne _ _ Hw2). congruence.
    + destruct (Hne _ _ Hw1). congruence.
    + eapply H5; [done..|congruence].
  - intros l v [[-> ->]|(_ & w & Hw & <-)]%Hl; [done|by eapply H6].
Qed.

(** * The invariant after an operation *)

(** What is left to show when the task [p] changes the element it points to. *)
Lemma uinv_change s s' p t o :
  uinv s → utasks s !! p = Some t → utasks s' = <[p := UTask (tuid t) o]> (utasks s) →
  (∃ c, uid_table (users s') (uidhash s') c) →
  (∀ l, is_Some (users s' !! l) → (l < ufresh s')%positive) →
  (∀ l u, users s' !! l = Some u → ucount u = nrefs (utasks s') l ∧ 0 < ucount u) →
  (∀ l, o = Some l → ∃ u, users s' !! l = Some u ∧ uuid u = tuid t) →
  (∀ l u, users s !! l = Some u → 0 < nrefs (utasks s') l → ∃ u', users s' !! l = Some u' ∧ uuid u' = uuid u) →
  uinv s'.
Proof.
  intros [H1 H2 H3 H4 H5] Hp Et Ht Hf Hc Ho Hk. split; [done..| |].
  - intros q tq l. rewrite Et. intros [[<- <-]|[Hne Hq]]%lookup_insert_Some Hl; [by apply Ho|].
    destruct (H4 _ _ _ Hq Hl) as (u & Hu & <-). apply (Hk _ _ Hu). rewrite Et.
    pose proof (nrefs_nonneg (delete q (<[p:=UTask (tuid t) o]> (utasks s))) l).
    rewrite (nrefs_lookup _ q tq); [|by rewrite lookup_insert_ne]. rewrite decide_True by done. lia.
  - intros q tq. rewrite Et. intros [[<- <-]|[Hne Hq]]%lookup_insert_Some; [exact (H5 _ _ Hp)|exact (H5 _ _ Hq)].
Qed.

Lemma nrefs_zero_none m l : (∀ p t, m !! p = Some t → tuser t ≠ Some l) → nrefs m l = 0.
Proof.
  intros Hn. unfold nrefs. replace (filter _ m) with (∅ : gmap Z utask); [by rewrite map_size_empty|].
  symmetry. apply map_empty. intros p. apply map_lookup_filter_None. right. intros t Hp. by eapply Hn.
Qed.

(** A location that is not allocated has no references. *)
Lemma nrefs_free s l : uinv s → users s !! l = None → nrefs (utasks s) l = 0.
Proof.
  intros Hi Hl. apply nrefs_zero_none. intros p t Hp Ht.
  destruct (uinv_task _ Hi _ _ _ Hp Ht) as (u & Hu & _). congruence.
Qed.

(** ** [set_user] *)
Lemma set_user_eq p o s t :
  utasks s !! p = Some t →
  set_user p o s = Ok (with_utasks (<[p := UTask (tuid t) o]> (utasks s)) s) ().
Proof. intros Hp. unfold set_user, mbind, M_bind, utask_of. by rewrite Hp. Qed.

(** ** [free_uid] *)

Lemma free_uid_spec s p t :
  uinv s → utasks s !! p = Some t →
  runs (free_uid p) s (λ s' _, uinv s' ∧ utasks s' = <[p := UTask (tuid t) None]> (utasks s)).
Proof.
  intros Hi Hp. unfold free_uid. runs_step. eapply runs_eq; [unfold utask_of; by rewrite Hp|].
  destruct (tuser t) as [l|] eqn:El.
  2: { runs_auto. split; [done|]. rewrite insert_id; [done|]. rewrite Hp. by destruct t; simplify_eq/=. }
  destruct (uinv_task _ Hi _ _ _ Hp El) as (u & Hu & Eu). destruct (uinv_table _ Hi) as [c Ht].
  runs_step. eapply runs_eq; [by apply set_user_eq|]. set (m := <[p := _]> (utasks s)).
  runs_step. eapply runs_eq; [unfold uderef; cbn; by rewrite Hu|].
  runs_step. eapply runs_eq; [unfold ustore; cbn; by rewrite Hu|].
  set (us1 := <[l := set_ucount (ucount u - 1) u]> (users s)).
  assert (uid_table us1 (uidhash s) c) as Ht1 by (by apply uid_table_count).
  assert (∀ x, nrefs m x = nrefs (utasks s) x - if decide (x = l) then 1 else 0) as Hm.
  { intros x. unfold m. rewrite (nrefs_change _ _ t) by done. rewrite El. repeat case_decide; simplify_eq; lia. }
  destruct (uinv_count _ Hi _ _ Hu) as [Ec Hpos].
  destruct (decide (ucount u - 1 = 0)) as [E0|E0].
  - (* the last task of the user *)
    assert (us1 !! l = Some (set_ucount (ucount u - 1) u)) as Hu1 by apply lookup_insert_eq.
    pose proof (ut_in _ _ _ Ht1 _ _ Hu1) as Hin. destruct (list_elem_of_split _ _ Hin) as (a & b & Eab).
    set (s1 := USys (uidhash s) us1 (ufresh s) m).
    runs_step. eapply runs_eq.
    { apply (uid_hash_remove_eq s1 (uidhashfn (uuid u)) a l b (set_ucount (ucount u - 1) u)); [|..|done];
        cbn -[uidhashfn] in *; rewrite <- Eab; apply Ht1. }
    runs_auto. split; [|done].
    eapply (uinv_change s _ p t None Hi Hp); cbn; [done|by apply (uid_table_remove us1 _ c)| | |done|].
    + intros x [v (Hx & w & Hw & _)%unlink_lookup]. apply (uinv_fresh _ Hi).
      unfold us1 in Hw. rewrite lookup_insert_ne in Hw by done. by exists w.
    + intros x v (Hx & w & Hw & <- & _)%unlink_lookup. unfold us1 in Hw. rewrite lookup_insert_ne in Hw by done.
      rewrite Hm, decide_False by done. rewrite Z.sub_0_r. by apply (uinv_count _ Hi).
    + intros x v Hv Hr. rewrite Hm in Hr. destruct (decide (x = l)) as [->|Hx]; [lia|].
      apply unlink_keep; [|done]. unfold us1. by rewrite lookup_insert_ne.
  - runs_auto. split; [|done].
    eapply (uinv_change s _ p t None Hi Hp); cbn; [done|by exists c| | |done|].
    + intros x Hx. apply (uinv_fresh _ Hi). unfold us1 in Hx. by rewrite lookup_insert_is_Some in Hx; destruct Hx as [<-|[_ ?]].
    + intros x v [[<- <-]|[Hne Hv]]%lookup_insert_Some; rewrite Hm; cbn.
      * rewrite decide_True by done. lia.
      * rewrite decide_False by done. rewrite Z.sub_0_r. by apply (uinv_count _ Hi).
    + intros x v Hv _. unfold us1. destruct (decide (x = l)) as [->|].
      * rewrite lookup_insert_eq. eexists. split; [done|]. cbn. congruence.
      * rewrite lookup_insert_ne by done. by exists v.
Qed.

(** ** [alloc_uid] *)

(** A task without a user gets the element of its uid. *)
Lemma uinv_found s p t l u :
  uinv s → utasks s !! p = Some t → tuser t = None → users s !! l = Some u → uuid u = tuid t →
  ∀ f, (ufresh s ≤ f)%positive →
  uinv (USys (uidhash s) (<[l := set_ucount (ucount u + 1) u]> (users s)) f
             (<[p := UTask (tuid t) (Some l)]> (utasks s))).
Proof.
  intros Hi Hp Hn Hu Eu f Hf. destruct (uinv_table _ Hi) as [c Ht].
  assert (∀ x, nrefs (<[p := UTask (tuid t) (Some l)]> (utasks s)) x =
    nrefs (utasks s) x + if decide (x = l) then 1 else 0) as Hm.
  { intros x. rewrite (nrefs_change _ _ t) by done. rewrite Hn. repeat case_decide; simplify_eq; lia. }
  eapply (uinv_change s _ p t (Some l) Hi Hp); cbn; [done|exists c; by apply uid_table_count|..].
  - intros x Hx%lookup_insert_is_Some. enough (x < ufresh s)%positive by lia. apply (uinv_fresh _ Hi).
    destruct Hx as [<-|[_ ?]]; [by exists u|done].
  - intros x v [[<- <-]|[Hne Hv]]%lookup_insert_Some; rewrite Hm; cbn.
    + rewrite decide_True by done. pose proof (uinv_count _ Hi _ _ Hu). lia.
    + rewrite decide_False by done. rewrite Z.add_0_r. by apply (uinv_count _ Hi).
  - intros x [= <-]. eexists. rewrite lookup_insert_eq. split; [done|]. done.
  - intros x v Hv _. destruct (decide (x = l)) as [->|].
    + rewrite lookup_insert_eq. eexists. split; [done|]. cbn. congruence.
    + rewrite lookup_insert_ne by done. by exists v.
Qed.

(** A task without a user whose uid has no element gets a new one. *)
Lemma uinv_new s p t new u :
  uinv s → utasks s !! p = Some t → tuser t = None → new = ufresh s →
  u = User 1 None (NextOf new) (tuid t) →
  (∀ l v, users s !! l = Some v → uuid v ≠ tuid t) →
  uinv (USys (<[uidhashfn (tuid t) := new]> (uidhash s))
             (enlink (uidhash s !! uidhashfn (tuid t)) new u (users s)) (Pos.succ new)
             (<[p := UTask (tuid t) (Some new)]> (utasks s))).
Proof.
  intros Hi Hp Hn Enew Eu Hnone. destruct (uinv_table _ Hi) as [c Ht].
  assert (users s !! new = None) as Hnew.
  { destruct (users s !! new) eqn:E; [|done]. pose proof (uinv_fresh _ Hi new ltac:(by rewrite E)). lia. }
  set (o := uidhash s !! uidhashfn (tuid t)).
  assert (∀ x, nrefs (<[p := UTask (tuid t) (Some new)]> (utasks s)) x =
    nrefs (utasks s) x + if decide (x = new) then 1 else 0) as Hm.
  { intros x. rewrite (nrefs_change _ _ t) by done. rewrite Hn. repeat case_decide; simplify_eq; lia. }
  assert (∀ x w, enlink o new u (users s) !! x = Some w →
    ∃ w', <[new := u]> (users s) !! x = Some w' ∧ ucount w' = ucount w ∧ uuid w' = uuid w) as Hl.
  { intros x w Hw. pose proof (enlink_ucount o new u (users s) x Hnew) as E. rewrite Hw in E.
    destruct (<[new := u]> (users s) !! x) as [w'|]; [|done]. exists w'. by injection E. }
  assert (∀ x w', <[new := u]> (users s) !! x = Some w' →
    ∃ w, enlink o new u (users s) !! x = Some w ∧ uuid w = uuid w') as Hl'.
  { intros x w Hw. pose proof (enlink_ucount o new u (users s) x Hnew) as E. rewrite Hw in E.
    destruct (enlink _ _ _ _ !! x) as [w'|]; [|done]. exists w'. by injection E. }
  eapply (uinv_change s _ p t (Some new) Hi Hp); cbn; [done| |..].
  + pose proof (uid_table_insert (users s) (uidhash s) c new u Ht Hnew) as Hins.
    subst u. eexists. by apply Hins, (uinv_uid _ Hi _ _ Hp).
  + intros x [w (w' & Hw' & _)%Hl]. apply lookup_insert_Some in Hw' as [[<- _]|[_ Hw']]; [lia|].
    pose proof (uinv_fresh _ Hi x ltac:(by exists w')). lia.
  + intros x w (w' & Hw' & <- & _)%Hl. rewrite Hm. apply lookup_insert_Some in Hw' as [[<- <-]|[Hne Hw']].
    * rewrite decide_True by done. rewrite (nrefs_free s) by done. by rewrite Eu.
    * rewrite decide_False by done. rewrite Z.add_0_r. by apply (uinv_count _ Hi).
  + intros x [= <-]. destruct (Hl' new u) as (w & Hw & Ew); [apply lookup_insert_eq|].
    exists w. split; [done|by rewrite Ew, Eu].
  + intros x w Hw _. apply Hl'. rewrite lookup_insert_ne; [done|congruence].
Qed.

Definition got_user (s s' : usys) (p : Z) (t : utask) (r : Z) : Prop :=
  uinv s' ∧ (r = 0 ∧ ∃ l, utasks s' = <[p := UTask (tuid t) (Some l)]> (utasks s)).

Lemma alloc_uid_add_spec s p t :
  uinv s → utasks s !! p = Some t → tuser t = None →
  runs (alloc_uid_add true p) s (λ s' r, got_user s s' p t r).
Proof.
  intros Hi Hp Hn. destruct (uinv_table _ Hi) as [c Ht]. pose proof (uinv_uid _ Hi _ _ Hp) as Hr.
  set (new := ufresh s). set (u := User 1 None (NextOf new) (tuid t)).
  assert (users s !! new = None) as Hnew.
  { destruct (users s !! new) eqn:E; [|done]. pose proof (uinv_fresh _ Hi new ltac:(by rewrite E)). unfold new in *. lia. }
  unfold alloc_uid_add. runs_step. eapply runs_eq; [unfold utask_of; by rewrite Hp|]. runs_auto. fold new u.
  set (s1 := USys (uidhash s) (<[new := u]> (users s)) (Pos.succ new) (utasks s)).
  assert (users s ⊆ users s1) as Hsub by (by apply insert_subseteq).
  destruct (uid_hash_find_spec s1 (users s) c (tuid t) Hsub Ht Hr) as [(l & v & Hv & Ev & Hfind)|[Hnone Hfind]];
    (eapply runs_eq; [exact Hfind|]).
  - (* another task added the user during the allocation *)
    runs_auto. eapply runs_eq; [by apply set_user_eq|]. split; [|split; [done|by exists l]]. cbn.
    rewrite (delete_insert_ne _ new l), delete_insert_id by congruence.
    exact (uinv_found s p t l v Hi Hp Hn Hv Ev (Pos.succ new) ltac:(unfold new; lia)).
  - runs_auto. eapply runs_eq.
    { apply (uid_hash_insert_eq s1 (users s) new u); [done|done|done|].
      intros n En. pose proof (ut_chain _ _ _ Ht (uidhashfn (tuid t))) as Hc. cbn in En. rewrite En in Hc.
      destruct (c _); [done|]. destruct Hc as [[= ->] (w & Hw & _)]. by exists w. }
    runs_auto. eapply runs_eq; [by apply set_user_eq|]. split; [|split; [done|by exists new]]. cbn.
    by apply uinv_new.
Qed.

Lemma alloc_uid_spec s p t :
  uinv s → utasks s !! p = Some t → tuser t = None →
  runs (alloc_uid true p) s (λ s' r, got_user s s' p t r).
Proof.
  intros Hi Hp Hn. destruct (uinv_table _ Hi) as [c Ht]. pose proof (uinv_uid _ Hi _ _ Hp) as Hr.
  unfold alloc_uid, alloc_uid_find. runs_step. runs_step. eapply runs_eq; [unfold utask_of; by rewrite Hp|].
  destruct (uid_hash_find_spec s (users s) c (tuid t) ltac:(done) Ht Hr) as [(l & v & Hv & Ev & Hf)|[_ Hf]];
    (eapply runs_eq; [exact Hf|]).
  - cbn. runs_step. eapply runs_eq; [by apply set_user_eq|]. split; [|split; [done|by exists l]].
    exact (uinv_found s p t l v Hi Hp Hn Hv Ev (ufresh s) ltac:(lia)).
  - by apply alloc_uid_add_spec.
Qed.

Lemma alloc_uid_fails p s :
  alloc_uid_add false p s = Ok s (- EAGAIN).
Proof. done. Qed.

(** ** [do_fork] *)

(** The processes of a user. *)
Definition nproc (m : gmap Z utask) (uid : Z) : Z :=
  Z.of_nat (size (filter (λ kv, tuid kv.2 = uid ∧ tuser kv.2 ≠ None) m)).

Lemma uinv_nproc s l u : uinv s → users s !! l = Some u → ucount u = nproc (utasks s) (uuid u).
Proof.
  intros Hi Hu. destruct (uinv_count _ Hi _ _ Hu) as [-> _]. unfold nrefs, nproc. do 2 f_equal.
  destruct (uinv_table _ Hi) as [c Ht]. apply map_filter_ext. intros p t Hp. cbn. split.
  - intros El. destruct (uinv_task _ Hi _ _ _ Hp El) as (v & Hv & Ev). split; congruence.
  - intros [Et Hn]. destruct (tuser t) as [l'|] eqn:El; [|done].
    destruct (uinv_task _ Hi _ _ _ Hp El) as (v & Hv & Ev). f_equal.
    eapply (ut_uniq _ _ _ Ht); [done..|congruence].
Qed.

Lemma nrefs_new m p t l :
  m !! p = None → nrefs (<[p := t]> m) l = nrefs m l + (if decide (tuser t = Some l) then 1 else 0).
Proof. intros Hp. rewrite nrefs_insert, delete_none_nrefs by done. done. Qed.

Lemma fork_user_spec s cur child rlim t :
  uinv s → utasks s !! cur = Some t → utasks s !! child = None →
  runs (fork_user cur child rlim) s (λ s' r, uinv s' ∧
    if decide (tuser t ≠ None ∧ rlim ≤ nproc (utasks s) (tuid t)) then r = - EAGAIN ∧ s' = s
    else r = 0 ∧ utasks s' = <[child := t]> (utasks s)).
Proof.
  intros Hi Hc Hn. unfold fork_user. runs_step. eapply runs_eq; [unfold utask_of; by rewrite Hc|].
  assert (∀ q tq, <[child := t]> (utasks s) !! q = Some tq → ∃ q', utasks s !! q' = Some tq) as Hq.
  { intros q tq [[<- <-]|[_ Hq]]%lookup_insert_Some; eauto. }
  destruct (decide (tuser t ≠ None ∧ _)) as [Hl|Hl], (tuser t) as [l|] eqn:El; [|naive_solver| |].
  - destruct (uinv_task _ Hi _ _ _ Hc El) as (u & Hu & Eu). rewrite <- Eu, <- (uinv_nproc _ _ _ Hi Hu) in Hl.
    runs_step. eapply runs_eq; [unfold uderef; by rewrite Hu|]. rewrite decide_True by lia. by runs_auto.
  - destruct (uinv_task _ Hi _ _ _ Hc El) as (u & Hu & Eu). rewrite <- Eu, <- (uinv_nproc _ _ _ Hi Hu) in Hl.
    runs_step. eapply runs_eq; [unfold uderef; by rewrite Hu|].
    rewrite decide_False by (intros ?; apply Hl; split; [done|lia]). runs_step. eapply runs_eq; [unfold ustore; by rewrite Hu|]. runs_auto.
    split; [|done]. destruct (uinv_table _ Hi) as [c Ht]. split; cbn.
    + exists c. by apply uid_table_count.
    + intros x [<-|[_ Hx]]%lookup_insert_is_Some; apply (uinv_fresh _ Hi); [by exists u|done].
    + intros x v. rewrite nrefs_new, El by done. intros [[<- <-]|[Hne Hv]]%lookup_insert_Some.
      * rewrite decide_True by done. pose proof (uinv_count _ Hi _ _ Hu). cbn. lia.
      * rewrite decide_False by congruence. rewrite Z.add_0_r. by apply (uinv_count _ Hi).
    + intros q tq x (q' & Hq')%Hq Hx. destruct (uinv_task _ Hi _ _ _ Hq' Hx) as (v & Hv & Ev).
      destruct (decide (x = l)) as [->|]; [|rewrite lookup_insert_ne by done; by exists v].
      rewrite lookup_insert_eq. eexists. split; [done|]. cbn. congruence.
    + intros q tq (q' & Hq')%Hq. by apply (uinv_uid _ Hi q').
  - runs_auto. split; [|done]. split; cbn.
    + apply Hi.
    + apply Hi.
    + intros x v. rewrite nrefs_new, El by done. rewrite decide_False, Z.add_0_r by done. by apply (uinv_count _ Hi).
    + intros q tq x (q' & Hq')%Hq. by apply (uinv_task _ Hi q').
    + intros q tq (q' & Hq')%Hq. by apply (uinv_uid _ Hi q').
Qed.

(** * Tasks over time

    A task that sleeps in the allocation of [alloc_uid] goes on with [alloc_uid_add] in
    whatever state the others have left.  The callers (setuid, exit) change the uid, or
    end the task, when it has no user. *)
Inductive ustep : usys → usys → Prop :=
  | u_alloc s s' ok p t r :
      utasks s !! p = Some t → tuser t = None → alloc_uid ok p s = Ok s' r → ustep s s'
  | u_alloc_sleeper s s' ok p t r :
      utasks s !! p = Some t → tuser t = None → alloc_uid_add ok p s = Ok s' r → ustep s s'
  | u_free s s' p : free_uid p s = Ok s' () → ustep s s'
  | u_fork s s' cur child rlim r :
      utasks s !! child = None → fork_user cur child rlim s = Ok s' r → ustep s s'
  | u_setuid s p t uid :
      utasks s !! p = Some t → tuser t = None → 0 ≤ uid < 2 ^ 16 →
      ustep s (with_utasks (<[p := UTask uid None]> (utasks s)) s)
  | u_exit s p t :
      utasks s !! p = Some t → tuser t = None → ustep s (with_utasks (delete p (utasks s)) s).

Inductive ureach (s0 : usys) : usys → Prop :=
  | ureach_refl : ureach s0 s0
  | ureach_step s s' : ureach s0 s → ustep s s' → ureach s0 s'.

(** Tasks without users come and go. *)
Lemma uinv_tasks s m :
  uinv s → (∀ l, nrefs m l = nrefs (utasks s) l) →
  (∀ p t, m !! p = Some t → (∃ q, utasks s !! q = Some t) ∨ tuser t = None ∧ 0 ≤ tuid t < 2 ^ 16) →
  uinv (with_utasks m s).
Proof.
  intros Hi Hr Hm. split; cbn; [apply Hi..| | |].
  - intros l u Hu. rewrite Hr. by apply Hi.
  - intros p t l [[q Hq]|[? _]]%Hm Hl; [by eapply (uinv_task _ Hi)|congruence].
  - intros p t [[q Hq]|[_ ?]]%Hm; [by eapply (uinv_uid _ Hi)|done].
Qed.

Lemma nrefs_none m p t l : m !! p = Some t → tuser t = None → nrefs m l = nrefs (delete p m) l.
Proof. intros Hp Hn. rewrite (nrefs_lookup _ p t) by done. rewrite Hn, decide_False by done. lia. Qed.

Lemma alloc_uid_inv ok p t s s' r :
  uinv s → utasks s !! p = Some t → tuser t = None →
  alloc_uid ok p s = Ok s' r ∨ alloc_uid_add ok p s = Ok s' r → uinv s'.
Proof.
  intros Hi Hp Hn. destruct ok.
  - pose proof (alloc_uid_spec _ _ _ Hi Hp Hn) as H1. pose proof (alloc_uid_add_spec _ _ _ Hi Hp Hn) as H2.
    unfold runs in *. intros [E|E]; [rewrite E in H1; apply H1|rewrite E in H2; apply H2].
  - intros [E|E]; [|by injection E as <- _].
    (* a user that is found needs no allocation *)
    pose proof (alloc_uid_spec _ _ _ Hi Hp Hn) as H1. revert E H1. unfold alloc_uid, runs, mbind, M_bind.
    destruct (alloc_uid_find p s) as [s1 [l|]|] eqn:Ef; [| |done].
    + intros E. rewrite E. by intros [? _].
    + intros [= <- <-] _. revert Ef. unfold alloc_uid_find, mbind, M_bind, utask_of. rewrite Hp.
      destruct (uinv_table _ Hi) as [c Ht].
      destruct (uid_hash_find_spec s (users s) c (tuid t) ltac:(done) Ht (uinv_uid _ Hi _ _ Hp)) as [(l & u & _ & _ & ->)|[_ ->]];
        [done|by intros [= <-]].
Qed.

Lemma ustep_inv s s' : ustep s s' → uinv s → uinv s'.
Proof.
  intros [] Hi.
  - by eapply alloc_uid_inv; eauto.
  - by eapply alloc_uid_inv; eauto.
  - destruct (utasks s0 !! p) as [t|] eqn:Hp.
    + pose proof (free_uid_spec _ _ _ Hi Hp) as Hr. unfold runs in Hr. rewrite H in Hr. apply Hr.
    + unfold free_uid, mbind, M_bind, utask_of in H. by rewrite Hp in H.
  - destruct (utasks s0 !! cur) as [t|] eqn:Hp.
    + pose proof (fork_user_spec _ _ _ rlim _ Hi Hp H) as Hr. unfold runs in Hr. rewrite H0 in Hr. apply Hr.
    + unfold fork_user, mbind, M_bind, utask_of in H0. by rewrite Hp in H0.
  - apply uinv_tasks; [done| |].
    + intros l. rewrite nrefs_insert, (nrefs_none (utasks s0) p t) by done. rewrite decide_False by done. lia.
    + intros q tq [[<- <-]|[_ Hq]]%lookup_insert_Some; [by right|left; by exists q].
  - apply uinv_tasks; [done| |].
    + intros l. by rewrite (nrefs_none (utasks s0) p t).
    + intros q tq [_ Hq]%lookup_delete_Some. left. by exists q.
Qed.

(** The system at the start: no user has been counted yet. *)
Definition uinit (m : gmap Z utask) : usys := USys ∅ ∅ 1 m.

Lemma uinit_inv m :
  (∀ p t, m !! p = Some t → tuser t = None ∧ 0 ≤ tuid t < 2 ^ 16) → uinv (uinit m).
Proof.
  intros Hm. split; cbn.
  - exists (λ _, []). split; try done; [intros h; constructor|..]; intros; by set_solver.
  - intros l [? ?]. done.
  - done.
  - intros p t l Hp. destruct (Hm _ _ Hp). congruence.
  - intros p t Hp. by destruct (Hm _ _ Hp).
Qed.

(** C30: In every state that the operations reach from the start, also when allocations
    sleep and others add or remove users meanwhile, the chains of the hash table hold every
    element exactly once, a task points to the element of its uid, and the count there is
    the number of the processes of its user; an element without tasks does not exist. *)
Theorem uid_counts m s :
  (∀ p t, m !! p = Some t → tuser t = None ∧ 0 ≤ tuid t < 2 ^ 16) →
  ureach (uinit m) s →
  (∃ c, uid_table (users s) (uidhash s) c) ∧
  (∀ p t l, utasks s !! p = Some t → tuser t = Some l → ∃ u, users s !! l = Some u ∧
     uuid u = tuid t ∧ ucount u = nproc (utasks s) (tuid t)) ∧
  (∀ l u, users s !! l = Some u → 0 < nproc (utasks s) (uuid u)).
Proof.
  intros Hm Hr. assert (uinv s) as Hi.
  { induction Hr as [|s s' _ IH Hs]; [by apply uinit_inv|by eapply ustep_inv]. }
  split_and!; [apply Hi| |].
  - intros p t l Hp Hl. destruct (uinv_task _ Hi _ _ _ Hp Hl) as (u & Hu & <-).
    exists u. split_and!; [done..|by eapply uinv_nproc].
  - intros l u Hu. rewrite <- (uinv_nproc _ _ _ Hi Hu). by apply (uinv_count _ Hi _ _ Hu).
Qed.
