(* ===== verification/ExecArgs.v ===== *)
(** The arguments of a new program (src/src/dkmke/exec.c): [count], [copy_strings],
    [remove_arg_zero] and [setup_arg_pages] move the strings of execve from the memory
    of the caller to pages of the kernel, and these to the top of the new stack.

    User memory is a function from addresses to bytes ([None] faults) that does not
    change during the call.  [get_user], [strnlen_user], [copy_from_user] and
    [get_free_page] (asm/uaccess.h, linux/mm.h) are modelled as they are documented; a
    page that is allocated is cleared, and [free_pages] counts how many there are. *)

From Stdlib Require Import ZArith Lia Strings.Byte.
From stdpp Require Import base list gmap.
From S2P Require Import Prelude.
From S2P Require Import Cbuf.

#[local] Open Scope Z_scope.

(** * Constants and state *)

Definition PAGE_SIZE : Z := 4096.
Definition MAX_ARG_PAGES : Z := 32.
Definition STACK_TOP : Z := 0xC0000000.
Definition E2BIG : Z := 7.
Definition EFAULT : Z := 14.

(** [bprm->page]; a [NULL] slot has no entry. *)
Record astate : Type := AState { apages : gmap Z buf; free_pages : nat }.

Definition with_apages (m : gmap Z buf) (s : astate) : astate := AState m (free_pages s).

(** * User memory *)

Definition umem : Type := Z → option byte.

(** [copy_from_user(_, a, n)]: what cannot be read is zero. *)
Definition ubytes (um : umem) (a n : Z) : list byte := (λ k, default NUL (um (a + k))) <$> seqZ 0 n.

(** [get_user] of a pointer: [None] is [-EFAULT], and the pointer is then [NULL]. *)
Definition get_user (um : umem) (a : Z) : option Z :=
  b0 ← um a; b1 ← um (a + 1); b2 ← um (a + 2); b3 ← um (a + 3); Some (le_val [b0; b1; b2; b3]).

(** The length with the NUL, more than [n] where there is none in [n] bytes, 0 on a fault. *)
Fixpoint ulen (um : umem) (a : Z) (n : nat) : option nat :=
  match n with
  | O => Some 1%nat
  | S n => b ← um a; if decide (b = NUL) then Some 1%nat else S <$> ulen um (a + 1) n
  end.
Definition strnlen_user (um : umem) (a n : Z) : Z :=
  match ulen um a (Z.to_nat n) with Some k => Z.of_nat k | None => 0 end.

(** * [count] *)

Fixpoint count_loop (fuel : nat) (um : umem) (argv i max : Z) : option Z :=
  match fuel with
  | O => None
  | S fuel =>
    match get_user um argv with
    | None => Some (- EFAULT)
    | Some p =>
      if decide (p = 0) then Some i
      else if decide (i + 1 > max) then Some (- E2BIG)
      else count_loop fuel um (argv + 4) (i + 1) max
    end
  end.

(** The loop ends after [max] pointers at the latest. *)
Definition count (um : umem) (argv max : Z) : option Z :=
  if decide (argv = 0) then Some 0 else count_loop (Z.to_nat max + 2) um argv 0 max.

(** * [copy_strings] *)

(** [pag = (char * ) page\[i\]], allocated if it is not there: whether there is a page. *)
Definition arg_page (i : Z) : M astate bool := λ s,
  if decide (0 ≤ i < MAX_ARG_PAGES) then
    match apages s !! i with
    | Some _ => Ok s true
    | None =>
      match free_pages s with
      | O => Ok s false
      | S n => Ok (AState (<[i := replicate (Z.to_nat PAGE_SIZE) NUL]> (apages s)) n) true
      end
    end
  else Stop OutOfBounds.

(** [copy_from_user(pag + offset, str, n)] *)
Definition page_write (i offset : Z) (l : list byte) : M astate unit := λ s,
  match apages s !! i with
  | None => Stop NullDeref
  | Some b =>
    match buf_write b offset l with
    | Some b' => Ok (with_apages (<[i := b']> (apages s)) s) ()
    | None => Stop OutOfBounds
    end
  end.

(** The loop [while(len > 0)]; every round copies a byte at least. *)
Fixpoint copy_string_loop (fuel : nat) (sm : umem) (str pos len : Z) : M astate bool :=
  match fuel with
  | O => stop OutOfFuel
  | S fuel =>
    if decide (len > 0) then
      let offset := pos `mod` PAGE_SIZE in
      ok ← arg_page (pos / PAGE_SIZE);
      if ok : bool then
        let bytes_to_copy := if decide (PAGE_SIZE - offset > len) then len else PAGE_SIZE - offset in
        _ ← page_write (pos / PAGE_SIZE) offset (ubytes sm str bytes_to_copy);
        copy_string_loop fuel sm (str + bytes_to_copy) (pos + bytes_to_copy) (len - bytes_to_copy)
      else mret false
    else mret true
  end.

(** The loop [while(argc-- > 0)]; [am] is the memory of the array, [sm] that of the
    strings. *)
Fixpoint copy_strings_loop (am sm : umem) (argv : Z) (argc : nat) (p : Z) : M astate Z :=
  match argc with
  | O => mret p
  | S argc =>
    let str := default 0 (get_user am (argv + 4 * Z.of_nat argc)) in
    if decide (str = 0) then mret (u32 (- EFAULT))
    else
      let len := strnlen_user sm str p in
      if decide (len = 0 ∨ len > p) then mret (u32 (if decide (len ≠ 0) then - E2BIG else - EFAULT))
      else
        ok ← copy_string_loop (S (Z.to_nat len)) sm str (p - len) len;
        if ok : bool then copy_strings_loop am sm argv argc (p - len) else mret (u32 (- EFAULT))
  end.

(** [km] is the memory of the kernel, [um] that of the process. *)
Definition copy_strings (km um : umem) (argc argv p from_kmem : Z) : M astate Z :=
  if decide (s32 p <= 0) then mret p
  else copy_strings_loop (if decide (from_kmem = 0) then um else km)
         (if decide (from_kmem = 2) then km else um) argv (Z.to_nat argc) p.

(** The three calls in [do_execve]: the file name, the environment, the arguments; the
    new [bprm.p] and [bprm.exec].  [fnp] is the address of [bprm.filename]. *)
Definition bprm_p0 : Z := PAGE_SIZE * MAX_ARG_PAGES - 4.

Definition exec_copy_strings (km um : umem) (fnp argc argv envc envp : Z) : M astate (Z * Z) :=
  exec ← copy_strings km um 1 fnp bprm_p0 2;
  p ← copy_strings km um envc envp exec 0;
  p ← copy_strings km um argc argv p 0;
  mret (p, exec).

(** * [remove_arg_zero] *)

Definition page_read (i offset : Z) : M astate byte := λ s,
  match apages s !! i with
  | None => Stop NullDeref
  | Some b => match buf_get b offset with Some c => Ok s c | None => Stop OutOfBounds end
  end.

(** [i] is the slot of [page]. *)
Fixpoint remove_arg_loop (fuel : nat) (i offset p : Z) : M astate Z :=
  match fuel with
  | O => stop OutOfFuel
  | S fuel =>
    c ← page_read i offset;
    if decide (c = NUL) then mret (p + 1)
    else if decide (offset + 1 = PAGE_SIZE) then
      if decide (0 ≤ (p + 1) / PAGE_SIZE < MAX_ARG_PAGES)
      then remove_arg_loop fuel ((p + 1) / PAGE_SIZE) 0 (p + 1)
      else stop OutOfBounds
    else remove_arg_loop fuel i (offset + 1) (p + 1)
  end.

(** The new [bprm->p] and [bprm->argc]. *)
Definition remove_arg_zero (p argc : Z) : M astate (Z * Z) :=
  if decide (argc = 0) then mret (p, argc)
  else
    p' ← remove_arg_loop (Z.to_nat (MAX_ARG_PAGES * PAGE_SIZE)) (p / PAGE_SIZE) (p `mod` PAGE_SIZE) p;
    mret (p', argc - 1).

(** * [setup_arg_pages] *)

Record vm_area : Type := VmArea { vm_start : Z; vm_end : Z }.

(** The memory of the new program: its areas, the pages that [put_dirty_page] maps (by
    their addresses), [total_vm] and [rss]. *)
Record new_mm : Type := NewMm { mmap_areas : list vm_area; mapped : gmap Z buf; total_vm : Z; rss : Z }.

(** [i] is the slot, [n] how many are left. *)
Fixpoint put_pages (n : nat) (i stack_base : Z) (pages : gmap Z buf) (m : new_mm) : new_mm :=
  match n with
  | O => m
  | S n =>
    let m := match pages !! i with
             | Some b => NewMm (mmap_areas m) (<[stack_base := b]> (mapped m)) (total_vm m) (rss m + 1)
             | None => m
             end in
    put_pages n (i + 1) (stack_base + PAGE_SIZE) pages m
  end.

Record binprm_ptrs : Type := BinPtrs { bp : Z; bloader : Z; bexec : Z }.

(** [ok]: the allocation of the area succeeds. *)
Definition setup_arg_pages (ok : bool) (pages : gmap Z buf) (b : binprm_ptrs) (m : new_mm) : binprm_ptrs * new_mm :=
  let stack_base := STACK_TOP - MAX_ARG_PAGES * PAGE_SIZE in
  let p := bp b + stack_base in
  let b' := BinPtrs p (if decide (bloader b ≠ 0) then bloader b + stack_base else bloader b)
              (bexec b + stack_base) in
  let m := if ok then
             let start := p - p `mod` PAGE_SIZE in
             NewMm (VmArea start STACK_TOP :: mmap_areas m) (mapped m) ((STACK_TOP - start) / PAGE_SIZE) (rss m)
           else m in
  (b', put_pages (Z.to_nat MAX_ARG_PAGES) 0 stack_base pages m).
