(* ===== verification/ExecArgsProps.v ===== *)
(** The arguments of a new program: what [copy_strings] leaves in the argument pages, how
    [remove_arg_zero] takes the first string away, and where the new program finds its
    strings on the stack. *)

From Stdlib Require Import ZArith Lia Strings.Byte.
From stdpp Require Import base list gmap.
From S2P Require Import Prelude.
From S2P Require Import Cbuf.
From S2P Require Import ExecArgs.

#[local] Open Scope Z_scope.

(** * The pages as one memory *)

Definition amem (pages : gmap Z buf) (a : Z) : option byte :=
  pages !! (a / PAGE_SIZE) ≫= λ b, b !! Z.to_nat (a `mod` PAGE_SIZE).

Definition bytes_at (pages : gmap Z buf) (a : Z) (l : list byte) : Prop :=
  ∀ k b, l !! k = Some b → amem pages (a + Z.of_nat k) = Some b.

(** What was there is there outside the interval. *)
Definition keeps (lo hi : Z) (pages pages' : gmap Z buf) : Prop :=
  ∀ a b, amem pages a = Some b → ¬ (lo ≤ a < hi) → amem pages' a = Some b.

Record args_wf (s : astate) : Prop := {
  args_page i b : apages s !! i = Some b → Z.of_nat (length b) = PAGE_SIZE ∧ 0 ≤ i < MAX_ARG_PAGES;
  args_room : MAX_ARG_PAGES ≤ Z.of_nat (size (apages s)) + Z.of_nat (free_pages s)
}.

Lemma bytes_at_app pages a l1 l2 :
  bytes_at pages a (l1 ++ l2) ↔ bytes_at pages a l1 ∧ bytes_at pages (a + Z.of_nat (length l1)) l2.
Proof.
  unfold bytes_at. split.
  - intros H. split; intros k b Hk.
    + apply H. by apply lookup_app_l_Some.
    + rewrite <- Z.add_assoc, <- Nat2Z.inj_add. apply H. rewrite lookup_app_r by lia. rewrite <- Hk. f_equal. lia.
  - intros [H1 H2] k b [Hk|[Hl Hk]]%lookup_app_Some; [by apply H1|].
    specialize (H2 _ _ Hk). rewrite <- H2. f_equal. lia.
Qed.

Lemma bytes_at_keeps lo hi pages pages' a l :
  keeps lo hi pages pages' → bytes_at pages a l → a + Z.of_nat (length l) ≤ lo ∨ hi ≤ a → bytes_at pages' a l.
Proof.
  intros Hk Hb Ha k b Hl. apply Hk; [by apply Hb|]. apply lookup_lt_Some in Hl. lia.
Qed.

Lemma keeps_trans lo hi m1 m2 m3 : keeps lo hi m1 m2 → keeps lo hi m2 m3 → keeps lo hi m1 m3.
Proof. unfold keeps. eauto. Qed.

Lemma keeps_weaken lo hi lo' hi' m1 m2 : keeps lo hi m1 m2 → lo' ≤ lo → hi ≤ hi' → keeps lo' hi' m1 m2.
Proof. unfold keeps. intros H ? ? a b Ha Hn. apply H; [done|lia]. Qed.

Lemma keeps_bytes_before a lo hi m1 m2 l :
  keeps lo hi m1 m2 → bytes_at m1 a l → a + Z.of_nat (length l) ≤ lo → bytes_at m2 a l.
Proof. intros. eapply bytes_at_keeps; eauto. Qed.

(** ** Writes *)

Lemma buf_write_lookup m i l m' k :
  buf_write m i l = Some m' →
  m' !! k = if decide (Z.to_nat i ≤ k < Z.to_nat i + length l)%nat then l !! (k - Z.to_nat i)%nat else m !! k.
Proof.
  unfold buf_write. case_decide; [|done]. intros [= <-]. case_decide.
  - rewrite lookup_app_r by (rewrite length_take; lia). rewrite length_take.
    rewrite lookup_app_l by lia. f_equal. lia.
  - destruct (decide (k < Z.to_nat i)%nat).
    + rewrite lookup_app_l by (rewrite length_take; lia). by rewrite lookup_take_lt by lia.
    + rewrite !lookup_app_r by (rewrite ?length_take; lia). rewrite length_take, lookup_drop. f_equal. lia.
Qed.

Lemma length_ubytes um a n : 0 ≤ n → Z.of_nat (length (ubytes um a n)) = n.
Proof. intros. unfold ubytes. rewrite length_fmap, length_seqZ. lia. Qed.

Lemma ubytes_app um a n1 n2 :
  0 ≤ n1 → 0 ≤ n2 → ubytes um a (n1 + n2) = ubytes um a n1 ++ ubytes um (a + n1) n2.
Proof.
  intros. unfold ubytes. rewrite seqZ_app, fmap_app by lia. f_equal.
  apply list_eq. intros k. rewrite !list_lookup_fmap.
  destruct (decide (Z.of_nat k < n2)) as [Hk|Hk].
  - rewrite !lookup_seqZ_lt by lia. cbn. do 3 f_equal. lia.
  - by rewrite !lookup_seqZ_ge by lia.
Qed.

Lemma div_mod_page a i off : 0 ≤ off < PAGE_SIZE → a = PAGE_SIZE * i + off → a / PAGE_SIZE = i ∧ a `mod` PAGE_SIZE = off.
Proof.
  unfold PAGE_SIZE. intros Ho ->. split.
  - symmetry. by apply (Z.div_unique_pos _ _ _ off).
  - symmetry. by apply (Z.mod_unique_pos _ _ i).
Qed.

Lemma arg_page_spec s i :
  args_wf s → 0 ≤ i < MAX_ARG_PAGES →
  runs (arg_page i) s (λ s' ok, ok = true ∧ args_wf s' ∧ is_Some (apages s' !! i) ∧ ∀ lo, keeps lo lo (apages s) (apages s')).
Proof.
  intros Hw Hi. unfold arg_page, runs. rewrite decide_True by done.
  destruct (apages s !! i) as [b|] eqn:Eb; [split_and!; [done..|by exists b|by intros lo a c]|].
  destruct (free_pages s) as [|n] eqn:En.
  - exfalso. pose proof (args_room _ Hw) as Hr. rewrite En in Hr.
    assert ((dom (apages s) : gset Z) ⊆ list_to_set (filter (λ j, j ≠ i) (seqZ 0 MAX_ARG_PAGES))) as Hsub.
    { intros j [b Hb]%elem_of_dom. apply elem_of_list_to_set, list_elem_of_filter. rewrite elem_of_seqZ.
      pose proof (args_page _ Hw _ _ Hb) as [_ ?]. split; [congruence|lia]. }
    apply subseteq_size in Hsub. rewrite size_dom, size_list_to_set in Hsub by apply NoDup_filter, NoDup_seqZ.
    assert (length (filter (λ j, j ≠ i) (seqZ 0 MAX_ARG_PAGES)) < length (seqZ 0 MAX_ARG_PAGES))%nat as Hl.
    { apply (length_filter_lt _ _ i); [rewrite elem_of_seqZ; lia|by intros Hn; apply Hn]. }
    rewrite length_seqZ in Hl. unfold MAX_ARG_PAGES in *. lia.
  - cbn. split_and!; [done| |by rewrite lookup_insert_eq|].
    + split; cbn.
      * intros j b [[<- <-]|[_ Hb]]%lookup_insert_Some; [|by apply (args_page _ Hw)].
        rewrite length_replicate. unfold PAGE_SIZE. lia.
      * rewrite map_size_insert_None by done. pose proof (args_room _ Hw). lia.
    + intros lo a b Ha _. unfold amem in *. destruct (decide (a / PAGE_SIZE = i)) as [E|E].
      * rewrite E, Eb in Ha. done.
      * by rewrite lookup_insert_ne.
Qed.

Lemma page_write_spec s pos l :
  args_wf s → is_Some (apages s !! (pos / PAGE_SIZE)) →
  pos `mod` PAGE_SIZE + Z.of_nat (length l) ≤ PAGE_SIZE →
  runs (page_write (pos / PAGE_SIZE) (pos `mod` PAGE_SIZE) l) s (λ s' _,
    args_wf s' ∧ bytes_at (apages s') pos l ∧
    keeps pos (pos + Z.of_nat (length l)) (apages s) (apages s')).
Proof.
  intros Hw [b Hb] Hl. set (i := pos / PAGE_SIZE) in *. set (off := pos `mod` PAGE_SIZE) in *.
  destruct (args_page _ Hw _ _ Hb) as [Hlen Hi].
  assert (0 ≤ off < PAGE_SIZE) as Hoff by (apply Z.mod_pos_bound; unfold PAGE_SIZE; lia).
  assert (pos = PAGE_SIZE * i + off) as Hpos by (apply Z.div_mod; unfold PAGE_SIZE; lia).
  unfold page_write, runs. rewrite Hb. destruct (buf_write b off l) as [b'|] eqn:Ew.
  2: { unfold buf_write in Ew. rewrite decide_True in Ew by lia. done. }
  pose proof (length_buf_write _ _ _ _ Ew) as Hlen'. cbn. split_and!.
  - split; cbn.
    + intros j c [[<- <-]|[_ Hc]]%lookup_insert_Some; [split; [lia|done]|by apply (args_page _ Hw)].
    + rewrite map_size_insert, Hb. apply Hw.
  - intros k c Hk. pose proof (lookup_lt_Some _ _ _ Hk).
    destruct (div_mod_page (pos + Z.of_nat k) i (off + Z.of_nat k)) as [E1 E2]; [lia..|].
    unfold amem. rewrite E1, E2, lookup_insert_eq. cbn. rewrite (buf_write_lookup _ _ _ _ _ Ew).
    rewrite decide_True by lia. rewrite <- Hk. f_equal. lia.
  - intros a c Ha Hn. unfold amem in *. destruct (decide (a / PAGE_SIZE = i)) as [E|E]; [|by rewrite lookup_insert_ne].
    rewrite E, Hb in Ha. rewrite E, lookup_insert_eq. cbn in *. rewrite (buf_write_lookup _ _ _ _ _ Ew).
    pose proof (Z.mod_pos_bound a PAGE_SIZE ltac:(unfold PAGE_SIZE; lia)).
    pose proof (Z.div_mod a PAGE_SIZE ltac:(unfold PAGE_SIZE; lia)). rewrite decide_False; [done|]. rewrite E in *. lia.
Qed.

(** * A string *)

Lemma copy_string_loop_spec fuel sm : ∀ str pos len s,
  args_wf s → 0 ≤ pos → 0 ≤ len → pos + len ≤ MAX_ARG_PAGES * PAGE_SIZE → len < Z.of_nat fuel →
  runs (copy_string_loop fuel sm str pos len) s (λ s' ok, ok = true ∧ args_wf s' ∧
    bytes_at (apages s') pos (ubytes sm str len) ∧ keeps pos (pos + len) (apages s) (apages s')).
Proof.
  induction fuel as [|fuel IH]; intros str pos len s Hw Hp Hl Hmax Hf; [lia|]. cbn [copy_string_loop].
  destruct (decide (len > 0)) as [Hlen|Hlen].
  2: { assert (len = 0) as -> by lia. runs_auto. split_and!; [done..| |by intros a b].
       change (ubytes sm str 0) with (@nil byte). intros k b Hk. by rewrite lookup_nil in Hk. }
  set (off := pos `mod` PAGE_SIZE).
  assert (0 ≤ off < PAGE_SIZE) as Hoff by (apply Z.mod_pos_bound; unfold PAGE_SIZE; lia).
  assert (pos = PAGE_SIZE * (pos / PAGE_SIZE) + off) as Hpos by (apply Z.div_mod; unfold PAGE_SIZE; lia).
  set (n := if decide (PAGE_SIZE - off > len) then len else PAGE_SIZE - off).
  assert (0 < n ≤ len ∧ off + n ≤ PAGE_SIZE) as Hn by (unfold n; case_decide; lia).
  runs_step. eapply runs_mono; [apply arg_page_spec; [done|unfold MAX_ARG_PAGES, PAGE_SIZE in *; lia]|].
  intros s1 ? (-> & Hw1 & Hs1 & Hk1). runs_step.
  eapply runs_mono; [apply page_write_spec; [done..|]|].
  { rewrite length_ubytes by lia. lia. }
  intros s2 _ (Hw2 & Hb2 & Hk2). rewrite length_ubytes in Hk2 by lia.
  eapply runs_mono; [apply IH; [done|lia..]|]. intros s3 ok (-> & Hw3 & Hb3 & Hk3).
  replace (pos + n + (len - n)) with (pos + len) in Hk3 by lia. split_and!; [done..| |].
  - replace len with (n + (len - n)) at 1 by lia. rewrite ubytes_app by lia. apply bytes_at_app.
    rewrite length_ubytes by lia. split; [|done].
    eapply keeps_bytes_before; [exact Hk3|exact Hb2|]. rewrite length_ubytes by lia. lia.
  - eapply keeps_trans; [eapply keeps_weaken; [apply (Hk1 pos)|lia|lia]|].
    eapply keeps_trans; (eapply keeps_weaken; [eassumption|lia|lia]).
Qed.

(** * Arrays of strings *)

Definition ustring (um : umem) (a : Z) (s : cstr) : Prop :=
  a ≠ 0 ∧ (NUL ∉ s) ∧ (∀ k b, (s ++ [NUL]) !! k = Some b → um (a + Z.of_nat k) = Some b).

(** [argv] points to the strings [l]; the array is in the memory [am], they are in [sm]. *)
Definition uargv (am sm : umem) (argv : Z) (l : list cstr) : Prop :=
  ∀ i s, l !! i = Some s → ∃ p, get_user am (argv + 4 * Z.of_nat i) = Some p ∧ ustring sm p s.

Definition args_bytes (l : list cstr) : list byte := l ≫= (λ s, s ++ [NUL]).
Definition args_size (l : list cstr) : Z := Z.of_nat (length (args_bytes l)).

Lemma args_bytes_app l1 l2 : args_bytes (l1 ++ l2) = args_bytes l1 ++ args_bytes l2.
Proof. apply bind_app. Qed.

Lemma args_size_app l1 l2 : args_size (l1 ++ l2) = args_size l1 + args_size l2.
Proof. unfold args_size. rewrite args_bytes_app, length_app. lia. Qed.

Lemma args_size_one s : args_size [s] = Z.of_nat (length s) + 1.
Proof. unfold args_size. cbn. rewrite app_nil_r, length_app. cbn. lia. Qed.

Lemma ulen_spec um s : ∀ a n,
  NUL ∉ s → (∀ k b, (s ++ [NUL]) !! k = Some b → um (a + Z.of_nat k) = Some b) →
  ulen um a n = Some (S (Nat.min (length s) n)).
Proof.
  induction s as [|b s IH]; intros a [|n] Hn Hm; [done| |done|].
  - cbn. specialize (Hm 0%nat NUL eq_refl). rewrite Z.add_0_r in Hm. by rewrite Hm.
  - apply not_elem_of_cons in Hn as [Hb Hn]. cbn. pose proof (Hm 0%nat b eq_refl) as H0.
    rewrite Z.add_0_r in H0. rewrite H0. cbn. rewrite decide_False by congruence. rewrite (IH (a + 1) n); [done|done|].
    intros k c Hk. rewrite <- (Hm (S k) c) by done. f_equal. lia.
Qed.

Lemma strnlen_user_spec um a s n :
  ustring um a s → 0 ≤ n → strnlen_user um a n = Z.min (Z.of_nat (length s)) n + 1.
Proof. intros (_ & Hn & Hm) Hp. unfold strnlen_user. rewrite (ulen_spec um s) by done. lia. Qed.

Lemma ubytes_string um a s : ustring um a s → ubytes um a (Z.of_nat (length s) + 1) = s ++ [NUL].
Proof.
  intros (_ & _ & Hm). unfold ubytes. apply list_eq. intros k. rewrite list_lookup_fmap.
  destruct (decide (k < length (s ++ [NUL]))%nat) as [Hk|Hk].
  - destruct (lookup_lt_is_Some_2 _ _ Hk) as [b Hb]. rewrite length_app in Hk. cbn in Hk.
    rewrite lookup_seqZ_lt by lia. cbn. rewrite Z.add_0_l, (Hm _ _ Hb). by rewrite Hb.
  - rewrite (lookup_ge_None_2 (s ++ [NUL])) by lia. rewrite length_app in Hk. cbn in Hk.
    by rewrite lookup_seqZ_ge by lia.
Qed.

Lemma uargv_snoc am sm argv l s :
  uargv am sm argv (l ++ [s]) →
  uargv am sm argv l ∧ ∃ p, get_user am (argv + 4 * Z.of_nat (length l)) = Some p ∧ ustring sm p s.
Proof.
  intros H. split.
  - intros i x Hi. apply H. by apply lookup_app_l_Some.
  - apply H. by apply list_lookup_middle.
Qed.

Lemma copy_strings_loop_spec am sm argv l : ∀ p s,
  args_wf s → uargv am sm argv l → args_size l ≤ p → p ≤ MAX_ARG_PAGES * PAGE_SIZE →
  runs (copy_strings_loop am sm argv (length l) p) s (λ s' p', p' = p - args_size l ∧ args_wf s' ∧
    bytes_at (apages s') p' (args_bytes l) ∧ keeps p' p (apages s) (apages s')).
Proof.
  induction l as [|x l IH] using rev_ind; intros p s Hw Ha Hsz Hp.
  { runs_auto. unfold args_size. cbn. split_and!; [lia|done| |by intros a b].
    intros k b Hk. by rewrite lookup_nil in Hk. }
  apply uargv_snoc in Ha as (Ha & str & Hg & Hs). rewrite args_size_app, args_size_one in Hsz.
  assert (0 ≤ args_size l) by (unfold args_size; lia).
  rewrite length_app, Nat.add_1_r. cbn [copy_strings_loop]. rewrite Hg. cbn [default].
  assert (str ≠ 0) by apply Hs. rewrite decide_False by done.
  rewrite (strnlen_user_spec _ _ _ _ Hs), Z.min_l by lia. rewrite decide_False by lia. cbv zeta.
  set (n := Z.of_nat (length x) + 1) in *. runs_step.
  eapply runs_mono; [apply copy_string_loop_spec; [done|lia..]|].
  intros s1 ok (-> & Hw1 & Hb1 & Hk1). replace (p - n + n) with p in Hk1 by lia.
  eapply runs_mono; [apply IH; [done|done|lia|lia]|].
  intros s2 p' (-> & Hw2 & Hb2 & Hk2). rewrite args_size_app, args_size_one. fold n.
  split_and!; [lia|done| |].
  - rewrite args_bytes_app. apply bytes_at_app. split; [by replace (p - (args_size l + n)) with (p - n - args_size l) by lia|].
    change (args_bytes [x]) with ((x ++ [NUL]) ++ []). rewrite app_nil_r, <- (ubytes_string _ _ _ Hs).
    fold n. match goal with |- bytes_at _ ?a _ => replace a with (p - n) by (unfold args_size; lia) end.
    eapply bytes_at_keeps; [exact Hk2|exact Hb1|]. by right.
  - eapply keeps_trans; (eapply keeps_weaken; [eassumption|lia|lia]).
Qed.

(** Strings that are too long in total. *)
Lemma copy_strings_loop_E2BIG am sm argv l : ∀ p s,
  args_wf s → uargv am sm argv l → 0 ≤ p → p < args_size l → p ≤ MAX_ARG_PAGES * PAGE_SIZE →
  runs (copy_strings_loop am sm argv (length l) p) s (λ _ p', p' = u32 (- E2BIG)).
Proof.
  induction l as [|x l IH] using rev_ind; intros p s Hw Ha Hp0 Hsz Hp; [unfold args_size in Hsz; cbn in Hsz; lia|].
  apply uargv_snoc in Ha as (Ha & str & Hg & Hs). rewrite args_size_app, args_size_one in Hsz.
  rewrite length_app, Nat.add_1_r. cbn [copy_strings_loop]. rewrite Hg. cbn [default].
  assert (str ≠ 0) by apply Hs. rewrite decide_False by done.
  rewrite (strnlen_user_spec _ _ _ _ Hs) by lia. cbv zeta.
  destruct (decide _) as [Hbig|Hok].
  - rewrite decide_True by lia. by runs_auto.
  - rewrite Z.min_l in * by lia. set (n := Z.of_nat (length x) + 1) in *. runs_step.
    eapply runs_mono; [apply copy_string_loop_spec; [done|lia..]|].
    intros s1 ok (-> & Hw1 & _). apply IH; [done|done|lia..].
Qed.

(** [km] and [um] are the memories of the kernel and of the process. *)
Lemma copy_strings_spec km um argv l p k s :
  let am := if decide (k = 0) then um else km in
  let sm := if decide (k = 2) then km else um in
  args_wf s → uargv am sm argv l → args_size l ≤ p → p ≤ MAX_ARG_PAGES * PAGE_SIZE →
  runs (copy_strings km um (Z.of_nat (length l)) argv p k) s (λ s' p', p' = p - args_size l ∧ args_wf s' ∧
    bytes_at (apages s') p' (args_bytes l) ∧ keeps p' p (apages s) (apages s')).
Proof.
  intros am sm Hw Ha Hsz Hp. unfold copy_strings.
  assert (s32 p = p) as ->.
  { unfold s32. assert (0 ≤ args_size l) by (unfold args_size; lia). unfold MAX_ARG_PAGES, PAGE_SIZE in *.
    rewrite Z.mod_small; lia. }
  destruct (decide (p <= 0)) as [H0|H0].
  - assert (args_size l = 0 ∧ p = 0) as [E ->] by (unfold args_size in *; lia). runs_auto.
    assert (args_bytes l = []) as -> by (apply nil_length_inv; unfold args_size in E; lia).
    split_and!; [lia|done| |by intros a b]. intros i b Hi. by rewrite lookup_nil in Hi.
  - rewrite Nat2Z.id. by apply copy_strings_loop_spec.
Qed.

(** * The strings of execve *)

Lemma args_size_pos l : 0 ≤ args_size l.
Proof. unfold args_size. lia. Qed.

(** No page is allocated before the first call. *)
Definition fresh_args (free : nat) : astate := AState ∅ free.

Lemma fresh_args_wf free : MAX_ARG_PAGES ≤ Z.of_nat free → args_wf (fresh_args free).
Proof. intros H. split; cbn; [done|]. rewrite map_size_empty. lia. Qed.

(** The arguments, the environment and the file name one after the other. *)
Lemma exec_copy_strings_spec km um file args envs fnp argv envp free :
  MAX_ARG_PAGES ≤ Z.of_nat free →
  uargv km km fnp [file] → uargv um um argv args → uargv um um envp envs →
  let n := args_size (args ++ envs ++ [file]) in
  n ≤ bprm_p0 →
  runs (exec_copy_strings km um fnp (Z.of_nat (length args)) argv (Z.of_nat (length envs)) envp)
    (fresh_args free) (λ s r, r = (bprm_p0 - n, bprm_p0 - args_size [file]) ∧ args_wf s ∧
      bytes_at (apages s) (bprm_p0 - n) (args_bytes (args ++ envs ++ [file]))).
Proof.
  intros Hf Hfile Ha He n Hn. unfold exec_copy_strings. unfold n in *. clear n. rewrite !args_size_app in *.
  pose proof (args_size_pos args). pose proof (args_size_pos envs). pose proof (args_size_pos [file]).
  assert (bprm_p0 ≤ MAX_ARG_PAGES * PAGE_SIZE) by (unfold bprm_p0; lia).
  runs_step. eapply runs_mono; [apply (copy_strings_spec km um fnp [file]); [by apply fresh_args_wf|done|lia|lia]|].
  intros s1 ? (-> & Hw1 & Hb1 & _). runs_step.
  eapply runs_mono; [apply (copy_strings_spec km um envp envs); [done|done|lia|lia]|].
  intros s2 ? (-> & Hw2 & Hb2 & Hk2). runs_step.
  eapply runs_mono; [apply (copy_strings_spec km um argv args); [done|done|lia|lia]|].
  intros s3 ? (-> & Hw3 & Hb3 & Hk3). runs_auto. split_and!; [f_equal; lia|done|].
  rewrite !args_bytes_app. apply bytes_at_app. split.
  - replace (bprm_p0 - _) with (bprm_p0 - args_size [file] - args_size envs - args_size args) by lia. exact Hb3.
  - replace (_ + Z.of_nat (length (args_bytes args))) with (bprm_p0 - args_size [file] - args_size envs)
      by (unfold args_size; lia).
    apply bytes_at_app. split; [eapply bytes_at_keeps; [exact Hk3|exact Hb2|right; lia]|].
    replace (_ + Z.of_nat (length (args_bytes envs))) with (bprm_p0 - args_size [file]) by (unfold args_size; lia).
    eapply bytes_at_keeps; [exact Hk3| |right; lia]. eapply bytes_at_keeps; [exact Hk2|exact Hb1|right; lia].
Qed.

(** Where file name and environment fill the pages to the last byte the arguments are not
    copied, and the result is not an error: the test at the start of [copy_strings]
    takes the 0 that is left for a failed call. *)
Theorem exec_args_lost km um file envs fnp argc argv envp free :
  MAX_ARG_PAGES ≤ Z.of_nat free →
  uargv km km fnp [file] → uargv um um envp envs →
  args_size (envs ++ [file]) = bprm_p0 →
  runs (exec_copy_strings km um fnp argc argv (Z.of_nat (length envs)) envp)
    (fresh_args free) (λ s r, r.1 = 0 ∧ 0 ≤ s32 r.1 ∧ bytes_at (apages s) 0 (args_bytes (envs ++ [file]))).
Proof.
  intros Hf Hfile He Hn. unfold exec_copy_strings. rewrite args_size_app in Hn.
  pose proof (args_size_pos envs). pose proof (args_size_pos [file]).
  assert (bprm_p0 ≤ MAX_ARG_PAGES * PAGE_SIZE) by (unfold bprm_p0; lia).
  runs_step. eapply runs_mono; [apply (copy_strings_spec km um fnp [file]); [by apply fresh_args_wf|done|lia|lia]|].
  intros s1 ? (-> & Hw1 & Hb1 & _). runs_step.
  eapply runs_mono; [apply (copy_strings_spec km um envp envs); [done|done|lia|lia]|].
  intros s2 ? (-> & Hw2 & Hb2 & Hk2). replace (bprm_p0 - args_size [file] - args_size envs) with 0 in * by lia.
  runs_auto. split_and!; [done|done|]. rewrite args_bytes_app. apply bytes_at_app. split; [done|].
  replace (0 + Z.of_nat (length (args_bytes envs))) with (bprm_p0 - args_size [file]) by (unfold args_size in *; lia).
  eapply bytes_at_keeps; [exact Hk2|exact Hb1|right; lia].
Qed.

(** * [remove_arg_zero] *)

Lemma page_read_spec s i off b :
  args_wf s → 0 ≤ off < PAGE_SIZE → amem (apages s) (PAGE_SIZE * i + off) = Some b → page_read i off s = Ok s b.
Proof.
  intros Hw Ho Hb. unfold amem in Hb. destruct (div_mod_page (PAGE_SIZE * i + off) i off Ho eq_refl) as [E1 E2].
  rewrite E1, E2 in Hb. unfold page_read. destruct (apages s !! i) as [pg|]; [|done]. cbn in Hb.
  unfold buf_get. rewrite decide_True by lia. by rewrite Hb.
Qed.

Lemma remove_arg_loop_spec s x : ∀ fuel i off p,
  args_wf s → NUL ∉ x → 0 ≤ off < PAGE_SIZE → p = PAGE_SIZE * i + off →
  bytes_at (apages s) p (x ++ [NUL]) → (length x < fuel)%nat →
  remove_arg_loop fuel i off p s = Ok s (p + Z.of_nat (length x) + 1).
Proof.
  induction x as [|c x IH]; intros [|fuel] i off p Hw Hn Ho Hp Hb Hf; cbn [length] in Hf; try lia.
  - cbn [remove_arg_loop]. rewrite (bind_Ok _ _ s s NUL); [rewrite decide_True by done; unfold mret, M_ret; f_equal; cbn [length]; lia|].
    apply page_read_spec; [done..|]. rewrite <- Hp. specialize (Hb 0%nat NUL eq_refl). by rewrite Z.add_0_r in Hb.
  - apply not_elem_of_cons in Hn as [Hc Hn]. cbn [remove_arg_loop]. rewrite (bind_Ok _ _ s s c).
    2: { apply page_read_spec; [done..|]. rewrite <- Hp. specialize (Hb 0%nat c eq_refl). by rewrite Z.add_0_r in Hb. }
    rewrite decide_False by congruence.
    assert (bytes_at (apages s) (p + 1) (x ++ [NUL])) as Hb'.
    { intros k b Hk. rewrite <- (Hb (S k) b) by done. f_equal. lia. }
    assert (p + 1 + Z.of_nat (length x) + 1 = p + Z.of_nat (length (c :: x)) + 1) as <- by (cbn [length]; lia).
    destruct (decide (off + 1 = PAGE_SIZE)) as [E|E].
    + assert ((p + 1) / PAGE_SIZE = i + 1) as Ei by (apply (div_mod_page (p + 1) (i + 1) 0); unfold PAGE_SIZE in *; lia).
      rewrite Ei. rewrite decide_True.
      * apply IH; [done..|unfold PAGE_SIZE; lia|lia|done|lia].
      * assert (∃ b, (x ++ [NUL]) !! 0%nat = Some b) as [b Hb0] by (destruct x; by eexists).
        specialize (Hb' _ _ Hb0). rewrite Z.add_0_r in Hb'. unfold amem in Hb'. rewrite Ei in Hb'.
        destruct (apages s !! (i + 1)) as [pg|] eqn:Epg; [|done]. by apply (args_page _ Hw _ _ Epg).
    + apply IH; [done..|lia|lia|done|lia].
Qed.

(** The first of the strings goes, and the pointer is at the next one. *)
Lemma remove_arg_zero_spec s x l p argc :
  args_wf s → NUL ∉ x → 0 ≤ p → bytes_at (apages s) p (args_bytes (x :: l)) →
  Z.of_nat (length x) < MAX_ARG_PAGES * PAGE_SIZE → argc ≠ 0 →
  remove_arg_zero p argc s = Ok s (p + args_size [x], argc - 1) ∧
  bytes_at (apages s) (p + args_size [x]) (args_bytes l).
Proof.
  intros Hw Hn Hp Hb Hx Hc. change (args_bytes (x :: l)) with ((x ++ [NUL]) ++ args_bytes l) in Hb.
  apply bytes_at_app in Hb as [Hb1 Hb2]. rewrite args_size_one. split.
  - unfold remove_arg_zero. rewrite decide_False by done.
    rewrite (bind_Ok _ _ s s (p + Z.of_nat (length x) + 1)); [unfold mret, M_ret; by rewrite Z.add_assoc|].
    apply remove_arg_loop_spec; [done|done|apply Z.mod_pos_bound; unfold PAGE_SIZE; lia
      |apply Z.div_mod; unfold PAGE_SIZE; lia|done|lia].
  - rewrite length_app in Hb2. cbn in Hb2. replace (p + (_ + 1)) with (p + Z.of_nat (length x + 1)) by lia. exact Hb2.
Qed.

(** * The new stack *)

Definition stack_base : Z := STACK_TOP - MAX_ARG_PAGES * PAGE_SIZE.

(** A byte of the new program. *)
Definition pmem (m : new_mm) (a : Z) : option byte :=
  mapped m !! (a - a `mod` PAGE_SIZE) ≫= λ b, b !! Z.to_nat (a `mod` PAGE_SIZE).

Lemma put_pages_lookup n : ∀ i base pages m j,
  0 ≤ j < Z.of_nat n → (∀ a, base ≤ a → mapped m !! a = None) →
  mapped (put_pages n i base pages m) !! (base + PAGE_SIZE * j) = pages !! (i + j).
Proof.
  induction n as [|n IH]; intros i base pages m j Hj Hm; [lia|]. cbn [put_pages].
  set (m1 := match pages !! i with Some _ => _ | None => _ end).
  assert (∀ a, base < a → mapped m1 !! a = None) as Hm1.
  { intros a Ha. unfold m1. destruct (pages !! i); [|apply Hm; lia]. cbn. rewrite lookup_insert_ne by lia. apply Hm. lia. }
  destruct (decide (j = 0)) as [->|Hj0].
  - rewrite Z.mul_0_r, !Z.add_0_r.
    assert (∀ n i' base' m', base < base' → mapped (put_pages n i' base' pages m') !! base = mapped m' !! base) as Hk.
    { clear. induction n as [|n IH]; intros i' base' m' Hb; [done|]. cbn [put_pages]. rewrite IH by (unfold PAGE_SIZE; lia).
      destruct (pages !! i'); [|done]. cbn. by rewrite lookup_insert_ne by lia. }
    rewrite Hk by (unfold PAGE_SIZE; lia). unfold m1. destruct (pages !! i); [cbn; by rewrite lookup_insert_eq|apply Hm; lia].
  - replace (base + PAGE_SIZE * j) with (base + PAGE_SIZE + PAGE_SIZE * (j - 1)) by lia. rewrite IH; [f_equal; lia|lia|].
    intros a Ha. apply Hm1. unfold PAGE_SIZE in *. lia.
Qed.

Lemma setup_arg_pages_mem ok pages b m a c :
  mapped m = ∅ → 0 ≤ a < MAX_ARG_PAGES * PAGE_SIZE →
  amem pages a = Some c → pmem (setup_arg_pages ok pages b m).2 (a + stack_base) = Some c.
Proof.
  intros Hm Ha Hc. unfold amem in Hc. set (i := a / PAGE_SIZE) in *. set (off := a `mod` PAGE_SIZE) in *.
  assert (a = PAGE_SIZE * i + off) as E by (apply Z.div_mod; unfold PAGE_SIZE; lia).
  assert (0 ≤ off < PAGE_SIZE) as Hoff by (apply Z.mod_pos_bound; unfold PAGE_SIZE; lia).
  unfold pmem. assert ((a + stack_base) `mod` PAGE_SIZE = off) as ->.
  { unfold stack_base, off, MAX_ARG_PAGES, STACK_TOP, PAGE_SIZE.
    replace (a + (0xC0000000 - 32 * 4096)) with (a + (786432 - 32) * 4096) by lia. apply Z.mod_add. lia. }
  replace (a + stack_base - off) with (stack_base + PAGE_SIZE * i) by lia.
  unfold setup_arg_pages. cbn [snd]. fold stack_base. rewrite put_pages_lookup; [exact Hc| |].
  - unfold MAX_ARG_PAGES, PAGE_SIZE in *. lia.
  - intros x _. destruct ok; cbn; rewrite Hm; done.
Qed.

(** A string at an address of the new program. *)
Definition pstring (m : new_mm) (a : Z) (s : cstr) : Prop :=
  (NUL ∉ s) ∧ (∀ k b, (s ++ [NUL]) !! k = Some b → pmem m (a + Z.of_nat k) = Some b).

Lemma args_bytes_nth l i s :
  l !! i = Some s → args_bytes l = args_bytes (take i l) ++ (s ++ [NUL]) ++ args_bytes (drop (S i) l).
Proof. intros Hi. rewrite <- (take_drop_middle l i s Hi) at 1. by rewrite args_bytes_app. Qed.

Lemma setup_arg_pages_strings ok pages b m l i x :
  mapped m = ∅ → 0 ≤ bp b → bp b + args_size l ≤ MAX_ARG_PAGES * PAGE_SIZE → NUL ∉ x →
  bytes_at pages (bp b) (args_bytes l) → l !! i = Some x →
  pstring (setup_arg_pages ok pages b m).2 (bp (setup_arg_pages ok pages b m).1 + args_size (take i l)) x.
Proof.
  intros Hm Hp Hsz Hn Hb Hi. split; [done|]. intros k c Hk. pose proof (args_bytes_nth _ _ _ Hi) as Eb.
  rewrite Eb in Hb. apply bytes_at_app in Hb as [_ [Hb _]%bytes_at_app]. specialize (Hb _ _ Hk).
  assert (length (args_bytes l) = length (args_bytes (take i l)) + length (x ++ [NUL]) + length (args_bytes (drop (S i) l)))%nat
    as Elen by (rewrite Eb, !length_app; lia).
  apply lookup_lt_Some in Hk. cbn [setup_arg_pages fst bp]. fold stack_base.
  replace (bp b + stack_base + _ + _) with (bp b + Z.of_nat (length (args_bytes (take i l))) + Z.of_nat k + stack_base)
    by (unfold args_size; lia).
  unfold args_size in Hsz. apply setup_arg_pages_mem; [done|lia|done].
Qed.

Lemma put_pages_areas n : ∀ i base pages m, mmap_areas (put_pages n i base pages m) = mmap_areas m.
Proof.
  induction n as [|n IH]; intros i base pages m; [done|]. cbn [put_pages]. rewrite IH. by destruct (pages !! i).
Qed.

Lemma setup_arg_pages_area pages b m :
  0 ≤ bp b < MAX_ARG_PAGES * PAGE_SIZE →
  let t := setup_arg_pages true pages b m in
  ∃ area, area ∈ mmap_areas t.2 ∧ vm_start area ≤ bp t.1 < vm_end area ∧ vm_end area = STACK_TOP.
Proof.
  intros Hp t. unfold t, setup_arg_pages. cbn [fst snd bp]. fold stack_base. rewrite put_pages_areas.
  set (p := bp b + stack_base). exists (VmArea (p - p `mod` PAGE_SIZE) STACK_TOP).
  pose proof (Z.mod_pos_bound p PAGE_SIZE ltac:(unfold PAGE_SIZE; lia)).
  split_and!; [by left|cbn; lia| |done]. cbn. unfold p, stack_base. lia.
Qed.

(** C32: The strings of a call of execve reach the new program: when the arguments, the
    environment and the file name fit into the argument pages, [copy_strings] and
    [setup_arg_pages] put them on the new stack one after the other, the arguments
    first, from [bprm->p] on; the file name is at [bprm->exec], and the area of the
    stack covers them. *)
Theorem exec_args_reach_program km um file args envs fnp argv envp free m :
  MAX_ARG_PAGES ≤ Z.of_nat free → mapped m = ∅ →
  uargv km km fnp [file] → uargv um um argv args → uargv um um envp envs →
  let l := args ++ envs ++ [file] in
  args_size l ≤ bprm_p0 → (∀ s, s ∈ l → NUL ∉ s) →
  runs (exec_copy_strings km um fnp (Z.of_nat (length args)) argv (Z.of_nat (length envs)) envp)
    (fresh_args free) (λ s r,
      let t := setup_arg_pages true (apages s) (BinPtrs r.1 0 r.2) m in
      (∀ i x, l !! i = Some x → pstring t.2 (bp t.1 + args_size (take i l)) x) ∧
      bexec t.1 = bp t.1 + args_size (args ++ envs) ∧
      (∃ area, area ∈ mmap_areas t.2 ∧ vm_start area ≤ bp t.1 < vm_end area ∧ vm_end area = STACK_TOP)).
Proof.
  intros Hf Hm Hfile Ha He l Hn Hnul.
  eapply runs_mono; [by apply (exec_copy_strings_spec km um file args envs)|].
  intros s r (-> & Hw & Hb) t. fold l in Hb, t. cbn [fst snd] in t.
  assert (args_size l = args_size (args ++ envs) + args_size [file]) as El
    by (unfold l; by rewrite app_assoc, args_size_app).
  pose proof (args_size_pos (args ++ envs)). pose proof (args_size_one file).
  split_and!.
  - intros i x Hi. apply setup_arg_pages_strings; cbn [bp]; [done|lia|unfold bprm_p0; lia| |done|done].
    apply Hnul. by eapply list_elem_of_lookup_2.
  - cbn. lia.
  - apply setup_arg_pages_area. cbn [bp]. unfold bprm_p0 in *. lia.
Qed.

(** * [count] *)

Lemma count_loop_spec um sm argv max l : ∀ l0 fuel,
  uargv um sm argv (l0 ++ l) → get_user um (argv + 4 * Z.of_nat (length (l0 ++ l))) = Some 0 →
  Z.of_nat (length l0) ≤ max → max + 2 - Z.of_nat (length l0) ≤ Z.of_nat fuel →
  count_loop fuel um (argv + 4 * Z.of_nat (length l0)) (Z.of_nat (length l0)) max =
    Some (if decide (Z.of_nat (length (l0 ++ l)) ≤ max) then Z.of_nat (length (l0 ++ l)) else - E2BIG).
Proof.
  induction l as [|x l IH]; intros l0 [|fuel] Ha Hend Hmax Hf; try lia; cbn [count_loop].
  - rewrite app_nil_r in *. rewrite Hend. by rewrite !decide_True by lia.
  - destruct (Ha (length l0) x) as (p & Hp & Hnz & _); [by apply list_lookup_middle|]. rewrite Hp.
    rewrite decide_False by done. rewrite length_app in *. cbn [length] in *. case_decide as Hbig.
    + by rewrite decide_False by lia.
    + replace (argv + 4 * Z.of_nat (length l0) + 4) with (argv + 4 * Z.of_nat (length (l0 ++ [x])))
        by (rewrite length_app; cbn; lia).
      replace (Z.of_nat (length l0) + 1) with (Z.of_nat (length (l0 ++ [x]))) by (rewrite length_app; cbn; lia).
      assert (l0 ++ x :: l = (l0 ++ [x]) ++ l) as E by (by rewrite <- app_assoc).
      rewrite E in Ha. rewrite IH; [by rewrite <- E, length_app|done| | |]; rewrite ?length_app; cbn; try lia.
      rewrite <- Hend. do 2 f_equal. lia.
Qed.

(** The number of the strings, or an error when there are more than [max]. *)
Lemma count_spec um sm argv max l :
  argv ≠ 0 → uargv um sm argv l → get_user um (argv + 4 * Z.of_nat (length l)) = Some 0 → 0 ≤ max →
  count um argv max = Some (if decide (Z.of_nat (length l) ≤ max) then Z.of_nat (length l) else - E2BIG).
Proof.
  intros Hn Ha He Hm. unfold count. rewrite decide_False by done.
  pose proof (count_loop_spec um sm argv max l [] (Z.to_nat max + 2) Ha He) as H. cbn [length app] in H.
  rewrite Z.add_0_r in H. apply H; lia.
Qed.
