(* ===== verification/ExecBinfmt.v ===== *)
(** The binary formats (src/src/dkmke/exec.c): the list of [register_binfmt] and
    [unregister_binfmt], and [search_binary_handler], which tries its elements.

    A format is an element of a linked list; its handlers are given by a function, since
    they are not in the source.  A handler runs in the whole state and may change it. *)

From Stdlib Require Import ZArith Lia Strings.Byte.
From stdpp Require Import base list gmap strings.
From S2P Require Import Prelude.
From S2P Require Import Cbuf.

#[local] Open Scope Z_scope.

(** * The state *)

(** [load_binary] and [load_shlib] name a handler, or are [NULL]. *)
Record linux_binfmt : Type := Binfmt {
  fnext : option positive; load_binary : option Z; load_shlib : option Z
}.

(** [formats], the elements, [bprm->dentry] (whether it is not [NULL]), [bprm->buf],
    [current->did_exec], the dentries that have been released ([dput]), and the modules
    that have been asked for. *)
Record bstate : Type := BState {
  formats : option positive;
  fmts : gmap positive linux_binfmt;
  bdentry : bool;
  bbuf : buf;
  did_exec : Z;
  dputs : nat;
  modules : list buf
}.

Definition with_fmts (f : option positive) (m : gmap positive linux_binfmt) (s : bstate) : bstate :=
  BState f m (bdentry s) (bbuf s) (did_exec s) (dputs s) (modules s).
Definition set_fnext (n : option positive) (f : linux_binfmt) : linux_binfmt :=
  Binfmt n (load_binary f) (load_shlib f).

Definition EINVAL : Z := 22.
Definition EBUSY : Z := 16.
Definition ENOEXEC : Z := 8.

Definition fderef (l : positive) : M bstate linux_binfmt := λ s,
  match fmts s !! l with Some f => Ok s f | None => Stop BadPtr end.

(** [struct linux_binfmt **tmp]: the variable [formats] or the field of an element. *)
Inductive fmt_ptr : Type := Formats | FNext (l : positive).

Definition fmt_load (p : fmt_ptr) : M bstate (option positive) :=
  match p with Formats => gets formats | FNext l => f ← fderef l; mret (fnext f) end.
Definition fmt_store (p : fmt_ptr) (o : option positive) : M bstate unit :=
  match p with
  | Formats => modify (λ s, with_fmts o (fmts s) s)
  | FNext l => f ← fderef l; modify (λ s, with_fmts (formats s) (<[l := set_fnext o f]> (fmts s)) s)
  end.

(** * The list of formats *)

(** Whether [fmt] is in the list behind [tmp]. *)
Fixpoint register_loop (fuel : nat) (fmt : positive) (tmp : fmt_ptr) : M bstate bool :=
  match fuel with
  | O => stop OutOfFuel
  | S fuel =>
    o ← fmt_load tmp;
    match o with
    | None => mret false
    | Some l => if decide (fmt = l) then mret true else register_loop fuel fmt (FNext l)
    end
  end.

Definition fmt_fuel : M bstate nat := gets (λ s, S (size (fmts s))).

Definition register_binfmt (fmt : option positive) : M bstate Z :=
  match fmt with
  | None => mret (- EINVAL)
  | Some l =>
    f ← fderef l;
    match fnext f with
    | Some _ => mret (- EBUSY)
    | None =>
      n ← fmt_fuel;
      found ← register_loop n l Formats;
      if found : bool then mret (- EBUSY)
      else
        head ← gets formats;
        _ ← fmt_store (FNext l) head;
        _ ← fmt_store Formats (Some l);
        mret 0
    end
  end.

Fixpoint unregister_loop (fuel : nat) (fmt : option positive) (tmp : fmt_ptr) : M bstate Z :=
  match fuel with
  | O => stop OutOfFuel
  | S fuel =>
    o ← fmt_load tmp;
    match o with
    | None => mret (- EINVAL)
    | Some l =>
      if decide (fmt = Some l) then
        f ← fderef l;
        _ ← fmt_store tmp (fnext f);
        mret 0
      else unregister_loop fuel fmt (FNext l)
    end
  end.

Definition unregister_binfmt (fmt : option positive) : M bstate Z :=
  n ← fmt_fuel; unregister_loop n fmt Formats.

(** * The search for a handler *)

Section handlers.
(** What the handler with a name does; what loading a module does; whether the kernel is
    configured to load modules ([CONFIG_KMOD]). *)
Context (run_binary : Z → M bstate Z) (request_module : buf → M bstate unit) (kmod : bool).

(** How the loop over the formats ends: [return], or with [break] or after the last
    format. *)
Inductive loop_end : Type := Returns (v : Z) | Breaks (v : Z).

Definition dput_bprm (s : bstate) : bstate :=
  BState (formats s) (fmts s) false (bbuf s) (did_exec s) (if bdentry s then S (dputs s) else dputs s) (modules s).

Definition with_did_exec (d : Z) (s : bstate) : bstate :=
  BState (formats s) (fmts s) (bdentry s) (bbuf s) d (dputs s) (modules s).

Fixpoint try_formats (fuel : nat) (fmt : option positive) (retval : Z) : M bstate loop_end :=
  match fuel with
  | O => stop OutOfFuel
  | S fuel =>
    match fmt with
    | None => mret (Breaks retval)
    | Some l =>
      f ← fderef l;
      match load_binary f with
      | None => try_formats fuel (fnext f) retval
      | Some fn =>
        retval ← run_binary fn;
        if decide (retval >= 0) then
          _ ← modify dput_bprm;
          _ ← modify (with_did_exec 1);
          mret (Returns retval)
        else if decide (retval ≠ - ENOEXEC) then mret (Breaks retval)
        else
          d ← gets bdentry;
          if d : bool then
            f ← fderef l;
            try_formats fuel (fnext f) retval
          else mret (Returns retval)
      end
    end
  end.

(** [printable(c)], for the [char] [c] *)
Definition printable (b : byte) : bool :=
  let c := schar b in bool_decide (c = 9 ∨ c = 10 ∨ (0x20 ≤ c ∧ c ≤ 0x7e)).

(** [sprintf(modname, "binfmt-%04x", _)] of the third and fourth byte. *)
Definition hex_digit (z : Z) : byte := byte_of (if decide (z < 10) then 48 + z else 87 + z).
Definition modname (b : buf) : M bstate buf :=
  v ← access (buf_get16 b 2);
  mret (lit "binfmt-"%string ++ [hex_digit (v / 4096); hex_digit (v / 256 `mod` 16); hex_digit (v / 16 `mod` 16); hex_digit (v `mod` 16)]).

Definition all_printable (b : buf) : M bstate bool :=
  l ← access (buf_read b 0 4); mret (forallb printable l).

Fixpoint search_loop (tries : nat) (fuel : nat) (retval : Z) : M bstate Z :=
  match tries with
  | O => mret retval
  | S tries =>
    head ← gets formats;
    r ← try_formats fuel head retval;
    match r with
    | Returns v => mret v
    | Breaks v =>
      if decide (v ≠ - ENOEXEC) then mret v
      else if kmod then
        b ← gets bbuf;
        p ← all_printable b;
        if p : bool then mret v
        else
          name ← modname b;
          _ ← request_module name;
          search_loop tries fuel v
      else search_loop tries fuel v
    end
  end.

(** [fuel] bounds the length of the list. *)
Definition search_binary_handler (fuel : nat) : M bstate Z := search_loop 2 fuel 0.

(** * [sys_uselib]

    The loop over the formats for a shared library that has been opened; [run_shlib] is
    a handler with the descriptor. *)
Fixpoint uselib_loop (run_shlib : Z → M bstate Z) (fuel : nat) (fmt : option positive) (retval : Z) : M bstate Z :=
  match fuel with
  | O => stop OutOfFuel
  | S fuel =>
    match fmt with
    | None => mret retval
    | Some l =>
      f ← fderef l;
      match load_shlib f with
      | None => uselib_loop run_shlib fuel (fnext f) retval
      | Some fn =>
        retval ← run_shlib fn;
        if decide (retval ≠ - ENOEXEC) then mret retval
        else f ← fderef l; uselib_loop run_shlib fuel (fnext f) retval
      end
    end
  end.

(** [fd] is what [sys_open] returned, [readable] whether the file can be read. *)
Definition sys_uselib (run_shlib : Z → M bstate Z) (fuel : nat) (fd : Z) (readable : bool) : M bstate Z :=
  if decide (fd < 0) then mret fd
  else if readable then head ← gets formats; uselib_loop run_shlib fuel head (- ENOEXEC)
  else mret (- ENOEXEC).
End handlers.
