(* ===== verification/ExecBinfmtProps.v ===== *)
(** The binary formats of exec.c: the linked list refines a list of formats; a file is
    loaded by the first format that recognises it. *)

From Stdlib Require Import ZArith Lia Strings.Byte.
From stdpp Require Import base list gmap strings.
From S2P Require Import Prelude.
From S2P Require Import Cbuf.
From S2P Require Import ExecBinfmt.

#[local] Open Scope Z_scope.

(** * The list of formats *)

Fixpoint fchain (m : gmap positive linux_binfmt) (o : option positive) (ls : list positive) : Prop :=
  match ls with
  | [] => o = None
  | l :: ls => o = Some l ∧ ∃ f, m !! l = Some f ∧ fchain m (fnext f) ls
  end.

Definition fmt_list (s : bstate) (ls : list positive) : Prop :=
  fchain (fmts s) (formats s) ls ∧ NoDup ls.

Lemma fchain_mem m o ls l : fchain m o ls → l ∈ ls → is_Some (m !! l).
Proof.
  revert o. induction ls as [|x ls IH]; intros o; [by intros _ ?%elem_of_nil|].
  intros (_ & f & Hf & Hc) [->|Hl]%elem_of_cons; [by rewrite Hf|by eapply IH].
Qed.

Lemma fchain_insert m o ls l f : l ∉ ls → fchain m o ls → fchain (<[l := f]> m) o ls.
Proof.
  revert o. induction ls as [|x ls IH]; intros o Hn; [done|]. apply not_elem_of_cons in Hn as [Hx Hn].
  intros (-> & g & Hg & Hc). split; [done|]. exists g. split; [by rewrite lookup_insert_ne|by apply IH].
Qed.

Lemma fchain_head m o ls : fchain m o ls → o = head ls.
Proof. destruct ls; [done|]. by intros [-> _]. Qed.

Lemma fmt_list_fuel s ls : fmt_list s ls → (length ls < S (size (fmts s)))%nat.
Proof.
  intros [Hc Hn]. enough (length ls ≤ size (fmts s))%nat by lia.
  apply nodup_size; [done|]. intros l Hl. by eapply fchain_mem.
Qed.

Lemma fmt_load_next s l f : fmts s !! l = Some f → fmt_load (FNext l) s = Ok s (fnext f).
Proof. intros Hf. unfold fmt_load, fderef, mbind, M_bind. by rewrite Hf. Qed.

Lemma register_loop_spec s fmt ls : ∀ fuel o tmp,
  fmt_load tmp s = Ok s o → fchain (fmts s) o ls → (length ls < fuel)%nat →
  register_loop fuel fmt tmp s = Ok s (bool_decide (fmt ∈ ls)).
Proof.
  induction ls as [|l ls IH]; intros [|fuel] o tmp Ht Hc Hf; cbn [length] in Hf; try lia; cbn [register_loop];
    rewrite (bind_Ok _ _ s s o Ht).
  - cbn in Hc. subst o. by rewrite bool_decide_false by (apply not_elem_of_nil).
  - destruct Hc as (-> & f & Hl & Hc). destruct (decide (fmt = l)) as [->|Hne].
    + by rewrite bool_decide_true by (by left).
    + rewrite (IH fuel _ _ (fmt_load_next _ _ _ Hl) Hc) by lia. f_equal. apply bool_decide_ext. set_solver.
Qed.

(** The state with the element in front. *)
Definition fmt_push (l : positive) (f : linux_binfmt) (s : bstate) : bstate :=
  with_fmts (Some l) (<[l := set_fnext (formats s) f]> (fmts s)) s.

Lemma register_binfmt_spec s ls l f :
  fmt_list s ls → fmts s !! l = Some f →
  register_binfmt (Some l) s =
    if decide (fnext f ≠ None ∨ l ∈ ls) then Ok s (- EBUSY) else Ok (fmt_push l f s) 0.
Proof.
  intros Hl Hf. unfold register_binfmt. rewrite (bind_Ok _ _ s s f) by (unfold fderef; by rewrite Hf).
  destruct (fnext f) as [n|] eqn:En; [by rewrite decide_True by (by left)|].
  rewrite (bind_Ok _ _ s s (S (size (fmts s)))) by done.
  rewrite (bind_Ok _ _ s s (bool_decide (l ∈ ls))).
  2: { eapply register_loop_spec; [done|apply Hl|by apply fmt_list_fuel]. }
  case_bool_decide as Hin; [by rewrite decide_True by (by right)|].
  rewrite decide_False by naive_solver. rewrite (bind_Ok _ _ s s (formats s)) by done.
  rewrite (bind_Ok _ _ s (with_fmts (formats s) (<[l := set_fnext (formats s) f]> (fmts s)) s) ()); [done|].
  unfold fmt_store. by rewrite (bind_Ok _ _ s s f) by (unfold fderef; by rewrite Hf).
Qed.

Lemma fmt_push_list s ls l f : fmt_list s ls → l ∉ ls → fmt_list (fmt_push l f s) (l :: ls).
Proof.
  intros [Hc Hn] Hl. split; [|by apply NoDup_cons]. split; [done|].
  eexists. split; [apply lookup_insert_eq|]. by apply fchain_insert.
Qed.

(** ** The removal *)

(** The store through [tmp]. *)
Definition fmt_stored (tmp : fmt_ptr) (o : option positive) (s : bstate) : bstate :=
  match tmp with
  | Formats => with_fmts o (fmts s) s
  | FNext l => with_fmts (formats s) (alter (set_fnext o) l (fmts s)) s
  end.

Lemma fmt_store_spec s tmp o o' : fmt_load tmp s = Ok s o' → fmt_store tmp o s = Ok (fmt_stored tmp o s) ().
Proof.
  destruct tmp as [|l]; [done|]. unfold fmt_load, fmt_store.
  destruct (fmts s !! l) as [f|] eqn:E; [|by unfold mbind, M_bind, fderef; rewrite E]. intros _.
  rewrite (bind_Ok _ _ s s f) by (unfold fderef; by rewrite E). unfold modify. by rewrite (insert_alter_eq _ _ _ (set_fnext o) E).
Qed.

Lemma fchain_at m o a l b f : fchain m o (a ++ l :: b) → m !! l = Some f → fnext f = head b ∧ fchain m (fnext f) b.
Proof.
  revert o. induction a as [|x a IH]; intros o; cbn [app fchain].
  - intros (_ & f' & Hf' & Hc) Hf. simplify_eq. split; [by eapply fchain_head|done].
  - intros (_ & g & _ & Hc) Hf. by eapply IH.
Qed.

(** The pointer behind [tmp] and the elements [a]. *)
Definition tmp_after (a : list positive) (tmp : fmt_ptr) : fmt_ptr :=
  match last a with Some x => FNext x | None => tmp end.

Lemma unregister_loop_found s l b f a : ∀ fuel tmp o,
  fmts s !! l = Some f → fmt_load tmp s = Ok s o → fchain (fmts s) o (a ++ l :: b) → NoDup (a ++ l :: b) →
  (length (a ++ l :: b) < fuel)%nat →
  unregister_loop fuel (Some l) tmp s = Ok (fmt_stored (tmp_after a tmp) (head b) s) 0.
Proof.
  induction a as [|x a IH]; intros [|fuel] tmp o Hl Ht Hc Hnd Hf; cbn [app length] in Hf; try lia;
    cbn [unregister_loop]; rewrite (bind_Ok _ _ s s o Ht).
  - destruct (fchain_at _ _ [] _ _ _ Hc Hl) as [En _]. destruct Hc as [-> _]. rewrite decide_True by done.
    rewrite (bind_Ok _ _ s s f) by (unfold fderef; by rewrite Hl). rewrite En.
    by rewrite (bind_Ok _ _ s _ () (fmt_store_spec _ _ _ _ Ht)).
  - destruct Hc as (-> & g & Hx & Hc). apply NoDup_cons in Hnd as [Hxn Hnd].
    rewrite decide_False by (intros [= ->]; apply Hxn, elem_of_app; right; by left).
    rewrite (IH fuel _ _ Hl (fmt_load_next _ _ _ Hx) Hc Hnd) by lia.
    unfold tmp_after. rewrite last_cons. by destruct (last a).
Qed.

Lemma unregister_loop_missing s fmt ls : ∀ fuel tmp o,
  fmt_load tmp s = Ok s o → fchain (fmts s) o ls → (∀ l, fmt = Some l → l ∉ ls) → (length ls < fuel)%nat →
  unregister_loop fuel fmt tmp s = Ok s (- EINVAL).
Proof.
  induction ls as [|l ls IH]; intros [|fuel] tmp o Ht Hc Hn Hf; cbn [length] in Hf; try lia;
    cbn [unregister_loop]; rewrite (bind_Ok _ _ s s o Ht).
  - cbn in Hc. by subst o.
  - destruct Hc as (-> & g & Hl & Hc). rewrite decide_False by (intros ->; eapply Hn; [done|by left]).
    eapply IH; [by apply fmt_load_next|done| |lia]. intros x -> Hx. by eapply Hn; [done|right].
Qed.

Lemma fchain_removed m o a l b :
  fchain m o (a ++ l :: b) → NoDup (a ++ l :: b) → a ≠ [] →
  ∀ x, last a = Some x → fchain (alter (set_fnext (head b)) x m) o (a ++ b).
Proof.
  revert o. induction a as [|y a IH]; intros o; [done|]. cbn [app].
  intros (-> & g & Hy & Hc) [Hyn Hnd]%NoDup_cons _ x Hx. rewrite last_cons in Hx. split; [done|].
  destruct a as [|z a].
  - cbn in Hx. injection Hx as ->. exists (set_fnext (head b) g). split; [by rewrite lookup_alter_eq, Hy|]. cbn.
    destruct Hc as (_ & f & Hl & Hc). rewrite <- (insert_alter_eq _ _ _ (set_fnext (head b)) Hy).
    apply fchain_insert; [set_solver|]. by rewrite <- (fchain_head _ _ _ Hc).
  - destruct (last (z :: a)) as [w|] eqn:Ew; [|by apply last_None in Ew]. injection Hx as ->.
    exists g. split; [|by eapply IH]. rewrite lookup_alter_ne; [done|]. intros ->.
    apply Hyn. apply last_Some in Ew as [a' ->]. set_solver.
Qed.

Lemma fmt_stored_list s a l b :
  fmt_list s (a ++ l :: b) → fmt_list (fmt_stored (tmp_after a Formats) (head b) s) (a ++ b).
Proof.
  intros [Hc Hnd]. split; [|rewrite <- Permutation_middle in Hnd; by apply NoDup_cons in Hnd as [_ Hnd]].
  destruct (last a) as [x|] eqn:Ex.
  - unfold tmp_after. rewrite Ex. apply (fchain_removed _ _ _ l); [done..|by intros ->|done].
  - apply last_None in Ex as ->. destruct Hc as (_ & f & _ & Hc). cbn.
    by rewrite <- (fchain_head _ _ _ Hc).
Qed.

(** The list of formats is a list: [register_binfmt] puts a format in front, unless it
    is in the list or has a successor, and [unregister_binfmt] takes it out of the list,
    wherever it is; both fail without a change otherwise. *)
Theorem binfmt_list_refines s ls l f :
  fmt_list s ls → fmts s !! l = Some f →
  runs (register_binfmt (Some l)) s (λ s' r,
    if decide (fnext f ≠ None ∨ l ∈ ls) then r = - EBUSY ∧ s' = s else r = 0 ∧ fmt_list s' (l :: ls)) ∧
  runs (unregister_binfmt (Some l)) s (λ s' r,
    if decide (l ∈ ls) then r = 0 ∧ fmt_list s' (list_difference ls [l]) ∧
      (∃ f', fmts s' !! l = Some f' ∧ fnext f' = fnext f)
    else r = - EINVAL ∧ s' = s).
Proof.
  intros Hl Hf. split.
  - unfold runs. rewrite (register_binfmt_spec _ _ _ _ Hl Hf). case_decide as Hd; [done|].
    split; [done|]. apply fmt_push_list; [done|naive_solver].
  - unfold unregister_binfmt, runs. rewrite (bind_Ok _ _ s s (S (size (fmts s)))) by done.
    pose proof (fmt_list_fuel _ _ Hl) as Hfuel. destruct Hl as [Hc Hnd]. case_decide as Hin.
    + destruct (list_elem_of_split _ _ Hin) as (a & b & ->).
      rewrite (unregister_loop_found s l b f a _ Formats (formats s) Hf eq_refl Hc Hnd Hfuel). split; [done|].
      pose proof Hnd as (Ha & Hab & Hb)%NoDup_app. split.
      * replace (list_difference (a ++ l :: b) [l]) with (a ++ b); [by apply (fmt_stored_list _ _ l)|].
        symmetry. apply list_difference_middle; [set_solver|by apply NoDup_cons in Hb as [? _]].
      * unfold fmt_stored, tmp_after. destruct (last a) as [x|] eqn:Ex; [|by exists f].
        exists f. split; [|done]. cbn. rewrite lookup_alter_ne; [done|]. intros ->.
        apply last_Some in Ex as [a' ->]. apply (Hab l); [set_solver|by left].
    + by rewrite (unregister_loop_missing s (Some l) ls _ Formats (formats s) eq_refl Hc ltac:(by intros ? [= ->]) Hfuel).
Qed.

(** A format that was not the last of the list keeps its successor when it is removed, so
    that it cannot be registered again. *)
Theorem binfmt_reregister s a l n b f :
  fmt_list s (a ++ l :: n :: b) → fmts s !! l = Some f →
  runs (unregister_binfmt (Some l)) s (λ s' r, r = 0 ∧ register_binfmt (Some l) s' = Ok s' (- EBUSY)).
Proof.
  intros Hl Hf. destruct (fchain_at _ _ _ _ _ _ (proj1 Hl) Hf) as [En _]. cbn in En.
  destruct (binfmt_list_refines s _ l f Hl Hf) as [_ Hu]. eapply runs_mono; [exact Hu|].
  intros s' r. cbn beta. rewrite decide_True by set_solver. intros (-> & Hl' & f' & Hf' & Ef). split; [done|].
  rewrite (register_binfmt_spec _ _ _ _ Hl' Hf'). rewrite decide_True; [done|]. left. congruence.
Qed.

(** * The search *)

Section search.
Context (run_binary : Z → M bstate Z) (request_module : buf → M bstate unit) (kmod : bool).

(** The handlers of the formats, in the order of the list. *)
Definition handlers (s : bstate) (ls : list positive) : list Z :=
  omap (λ l, fmts s !! l ≫= load_binary) ls.

(** A handler that does not recognise the file leaves everything as it was. *)
Definition rejects (s : bstate) (fn : Z) : Prop := run_binary fn s = Ok s (- ENOEXEC).

Lemma try_formats_reject s ls : ∀ fuel o retval,
  fchain (fmts s) o ls → (length ls < fuel)%nat → bdentry s = true →
  (∀ fn, fn ∈ handlers s ls → rejects s fn) →
  try_formats run_binary fuel o retval s =
    Ok s (Breaks (match handlers s ls with [] => retval | _ => - ENOEXEC end)).
Proof.
  induction ls as [|l ls IH]; intros [|fuel] o retval Hc Hf Hd Hr; cbn [length] in Hf; try lia; cbn [try_formats].
  - cbn in Hc. by subst o.
  - destruct Hc as (-> & f & Hl & Hc). rewrite (bind_Ok _ _ s s f) by (unfold fderef; by rewrite Hl).
    revert Hr. unfold handlers. cbn [omap list_omap]. rewrite Hl. cbn [mbind option_bind].
    destruct (load_binary f) as [fn|].
    + intros Hr. rewrite (bind_Ok _ _ s s (- ENOEXEC)) by (apply Hr; by left).
      rewrite decide_False by (unfold ENOEXEC; lia). rewrite decide_False by (intros H; by apply H).
      rewrite (bind_Ok _ _ s s true) by (unfold gets; by rewrite Hd).
      rewrite (bind_Ok _ _ s s f) by (unfold fderef; by rewrite Hl).
      rewrite (IH fuel _ _ Hc) by (try done; try lia; intros fn' Hfn'; apply Hr; by right).
      unfold handlers. by destruct (omap _ ls).
    + intros Hr. by rewrite (IH fuel _ _ Hc) by (done || lia).
Qed.

(** The result of the handler that recognises the file. *)
Definition accepted (r : outcome bstate Z) : outcome bstate loop_end :=
  match r with
  | Ok s v => if decide (v >= 0) then Ok (with_did_exec 1 (dput_bprm s)) (Returns v) else Ok s (Breaks v)
  | Stop f => Stop f
  end.

Lemma try_formats_accept s fn ls : ∀ fuel o retval a b,
  fchain (fmts s) o ls → (length ls < fuel)%nat → bdentry s = true →
  handlers s ls = a ++ fn :: b → (∀ fn', fn' ∈ a → rejects s fn') →
  (∀ s' v, run_binary fn s = Ok s' v → v ≠ - ENOEXEC) →
  try_formats run_binary fuel o retval s = accepted (run_binary fn s).
Proof.
  induction ls as [|l ls IH]; intros [|fuel] o retval a b Hc Hf Hd Eh Hr Hv; cbn [length] in Hf; try lia; cbn [try_formats].
  - by destruct a.
  - destruct Hc as (-> & f & Hl & Hc). rewrite (bind_Ok _ _ s s f) by (unfold fderef; by rewrite Hl).
    revert Eh. unfold handlers. cbn [omap list_omap]. rewrite Hl. cbn [mbind option_bind].
    destruct (load_binary f) as [fn'|]; [|intros Eh; by eapply IH; eauto; lia].
    destruct a as [|x a]; intros [= -> Eh].
    + unfold accepted. destruct (run_binary fn s) as [s' v|] eqn:E; [|by rewrite (bind_Stop _ _ s f0)].
      rewrite (bind_Ok _ _ s s' v) by done. destruct (decide (v >= 0)); [done|].
      by rewrite decide_True by (by eapply Hv).
    + rewrite (bind_Ok _ _ s s (- ENOEXEC)) by (apply Hr; by left).
      rewrite decide_False by (unfold ENOEXEC; lia). rewrite decide_False by (intros H; by apply H).
      rewrite (bind_Ok _ _ s s true) by (unfold gets; by rewrite Hd).
      rewrite (bind_Ok _ _ s s f) by (unfold fderef; by rewrite Hl).
      eapply IH; eauto; [lia|]. intros fn'' H. apply Hr. by right.
Qed.

(** A file is loaded by the first format of the list whose handler does not answer
    that it does not know the file, and by no other: its result is the result of
    [search_binary_handler], with the dentry released and [did_exec] set on success. *)
Theorem search_first_handler s ls fn a b fuel :
  fmt_list s ls → (length ls < fuel)%nat → bdentry s = true →
  handlers s ls = a ++ fn :: b → (∀ fn', fn' ∈ a → rejects s fn') →
  (∀ s' v, run_binary fn s = Ok s' v → v ≠ - ENOEXEC) →
  search_binary_handler run_binary request_module kmod fuel s =
    match run_binary fn s with
    | Ok s' v => Ok (if decide (v >= 0) then with_did_exec 1 (dput_bprm s') else s') v
    | Stop f => Stop f
    end.
Proof.
  intros [Hc _] Hf Hd Eh Hr Hv. unfold search_binary_handler. cbn [search_loop].
  rewrite (bind_Ok _ _ s s (formats s)) by done.
  pose proof (try_formats_accept s fn ls fuel _ 0 a b Hc Hf Hd Eh Hr Hv) as Ht. unfold accepted in Ht.
  destruct (run_binary fn s) as [s' v|f] eqn:E; [|by rewrite (bind_Stop _ _ s f)].
  destruct (decide (v >= 0)).
  - by rewrite (bind_Ok _ _ s _ _ Ht).
  - rewrite (bind_Ok _ _ s _ _ Ht). by rewrite decide_True by (by eapply Hv).
Qed.

(** A file that no handler knows: with modules, and when one of its first four bytes is
    not printable, the module of its magic number is loaded and the new list tried. *)
Theorem search_after_module s ls fuel s1 p name :
  fmt_list s ls → (length ls < fuel)%nat → bdentry s = true → kmod = true →
  handlers s ls ≠ [] → (∀ fn, fn ∈ handlers s ls → rejects s fn) →
  all_printable (bbuf s) s = Ok s p → modname (bbuf s) s = Ok s name → request_module name s = Ok s1 () →
  search_binary_handler run_binary request_module kmod fuel s =
    if p then Ok s (- ENOEXEC) else search_loop run_binary request_module kmod 1 fuel (- ENOEXEC) s1.
Proof.
  intros [Hc _] Hf Hd -> Hn Hr Hp Hm Hq. unfold search_binary_handler. cbn [search_loop].
  rewrite (bind_Ok _ _ s s (formats s)) by done.
  pose proof (try_formats_reject s ls fuel _ 0 Hc Hf Hd Hr) as Ht. destruct (handlers s ls); [done|].
  rewrite (bind_Ok _ _ s _ _ Ht). rewrite decide_False by (intros H; by apply H).
  rewrite (bind_Ok _ _ s s (bbuf s)) by done. rewrite (bind_Ok _ _ s s p Hp). destruct p; [done|].
  rewrite (bind_Ok _ _ s s name Hm). by rewrite (bind_Ok _ _ s s1 () Hq).
Qed.

(** Without a format that loads programs the search succeeds and has loaded nothing. *)
Theorem search_no_format s ls fuel :
  fmt_list s ls → (length ls < fuel)%nat → bdentry s = true → handlers s ls = [] →
  search_binary_handler run_binary request_module kmod fuel s = Ok s 0.
Proof.
  intros [Hc _] Hf Hd Hn. unfold search_binary_handler. cbn [search_loop].
  rewrite (bind_Ok _ _ s s (formats s)) by done.
  pose proof (try_formats_reject s ls fuel _ 0 Hc Hf Hd) as Ht. rewrite Hn in Ht.
  by rewrite (bind_Ok _ _ s _ _ (Ht ltac:(by intros fn ?%elem_of_nil))).
Qed.
End search.
