(* ===== verification/ExecFile.v ===== *)
(** Three functions of src/src/dkmke/exec.c around the binary formats: [binfmt_setup] (lines
    55-87), [open_dentry] (121-161) and [read_exec] (339-378).

    What they call in the rest of the kernel is a parameter, with a law for what it
    promises: the formats register themselves, descriptors and file structures are taken
    and given back, the functions of a file system keep the limit of the address space. *)

From Stdlib Require Import ZArith Lia.
From stdpp Require Import base list gmap.
From S2P Require Import Prelude.
From S2P Require Import ExecBinfmt.
From S2P Require Import ExecBinfmtProps.

#[local] Open Scope Z_scope.

(** * [binfmt_setup] *)

Inductive builtin : Set := Misc | Elf | Elf32 | Aout | Aout32 | Java | Em86 | Script.

Section setup.
(** The options CONFIG_BINFMT_*, and the functions [init_*_binfmt]. *)
Context (config : builtin → bool) (init_binfmt : builtin → M bstate unit).

Definition binfmt_setup : M bstate unit :=
  _ ← when (config Misc) (init_binfmt Misc);
  _ ← when (config Elf) (init_binfmt Elf);
  _ ← when (config Elf32) (init_binfmt Elf32);
  _ ← when (config Aout) (init_binfmt Aout);
  _ ← when (config Aout32) (init_binfmt Aout32);
  _ ← when (config Java) (init_binfmt Java);
  _ ← when (config Em86) (init_binfmt Em86);
  init_binfmt Script.

(** Each function registers the format of its kind. *)
Context (fmt_of : builtin → positive).
Context (Hinit : ∀ b, init_binfmt b = (_ ← register_binfmt (Some (fmt_of b)); mret ())) (Hinj : Inj (=) (=) fmt_of).

(** The state after the formats [bs] have registered, the last one first. *)
Definition set_up (bs : list builtin) (s : bstate) : Prop :=
  fmt_list s (fmt_of <$> bs) ∧ ∀ b, b ∉ bs → ∃ f, fmts s !! fmt_of b = Some f ∧ fnext f = None.

Lemma init_binfmt_runs b bs s : set_up bs s → b ∉ bs → runs (init_binfmt b) s (λ s' _, set_up (b :: bs) s').
Proof.
  intros [Hl Hf] Hb. destruct (Hf b Hb) as (f & Hfb & Hn).
  assert (fmt_of b ∉ fmt_of <$> bs) as Hnin by (intros (b' & E & Hb')%list_elem_of_fmap; apply Hb; by rewrite (inj fmt_of _ _ E)).
  rewrite Hinit. apply runs_bind. unfold runs at 1. rewrite (register_binfmt_spec _ _ _ _ Hl Hfb).
  rewrite decide_False by (rewrite Hn; naive_solver). apply runs_ret. split; [by apply fmt_push_list|].
  intros b' [Hne Hb']%not_elem_of_cons. destruct (Hf b' Hb') as (f' & Hf' & Hn'). exists f'. split; [|done].
  cbn. rewrite lookup_insert_ne; [done|]. intros E. by apply Hne, (inj fmt_of).
Qed.

Lemma when_init_runs b bs s :
  set_up bs s → b ∉ bs → runs (when (config b) (init_binfmt b)) s (λ s' _, set_up (if config b then b :: bs else bs) s').
Proof. intros Hs Hb. destruct (config b); [by apply init_binfmt_runs|]. by apply runs_ret. Qed.

(** The formats that are configured are registered, and a script is tried first, then the
    others in the reverse order of the function. *)
Theorem binfmt_setup_order s :
  set_up [] s →
  runs binfmt_setup s (λ s' _, fmt_list s' (fmt_of <$> Script :: filter (λ b, config b = true) [Em86; Java; Aout32; Aout; Elf32; Elf; Misc])).
Proof.
  intros Hs. unfold binfmt_setup.
  do 7 (apply runs_bind; eapply runs_mono;
    [eapply when_init_runs; [eassumption|repeat case_match; set_solver]|clear Hs; intros ? [] Hs; cbv beta]).
  eapply runs_mono; [eapply init_binfmt_runs; [eassumption|repeat case_match; set_solver]|].
  cbv beta. intros sf _ [Hl _].
  match goal with |- fmt_list _ ?x => match type of Hl with fmt_list _ ?y => assert (x = y) as ->; [|done] end end.
  rewrite !filter_cons, filter_nil. repeat case_match; done.
Qed.
End setup.

(** * [open_dentry] *)

Definition ENFILE : Z := 23.
Definition EIO : Z := 5.
Definition O_ACCMODE : Z := 3.

Record file : Type := File { f_flags : Z; f_mode : Z; f_dentry : positive; f_pos : Z; f_reada : Z }.

(** The descriptors that are taken, the file structures, the files of the descriptors, and
    the counts of the dentries. *)
Record ostate : Type := OState {
  fds_taken : gset Z; filps : gmap positive file; fd_file : gmap Z positive; d_count : gmap positive Z
}.

Definition with_filps (m : gmap positive file) (s : ostate) : ostate := OState (fds_taken s) m (fd_file s) (d_count s).

Section open.
(** Functions of fs/open.c, fs/file_table.c and linux/file.h. *)
Context (get_unused_fd : M ostate Z) (put_unused_fd : Z → M ostate unit).
Context (get_empty_filp : M ostate (option positive)) (put_filp : positive → M ostate unit).
Context (fd_install : Z → positive → M ostate unit) (dget : positive → M ostate unit).
(** [inode->i_op->default_file_ops], if both are there, and its function [open]. *)
Context (default_file_ops : option (option (positive → M ostate Z))).

Definition open_dentry (dentry : positive) (mode : Z) : M ostate Z :=
  match default_file_ops with
  | None => mret (- EINVAL)
  | Some f_op_open =>
    fd ← get_unused_fd;
    if 0 <=? fd then
      o ← get_empty_filp;
      match o with
      | None => _ ← put_unused_fd fd; mret (- ENFILE)
      | Some f =>
        _ ← modify (λ s, with_filps (<[f := File mode (Z.land (s32 (mode + 1)) O_ACCMODE) dentry 0 0]> (filps s)) s);
        error ← match f_op_open with Some op => op f | None => mret 0 end;
        if error =? 0 then
          _ ← fd_install fd f;
          _ ← dget dentry;
          mret fd
        else
          _ ← put_filp f;
          _ ← put_unused_fd fd;
          mret (if 0 <? error then - EIO else error)
      end
    else mret fd
  end.

(** What the parameters promise. *)
Context (Hget_fd : ∀ s, runs get_unused_fd s (λ s' r,
  if 0 <=? r then (r ∉ fds_taken s) ∧ s' = OState ({[r]} ∪ fds_taken s) (filps s) (fd_file s) (d_count s) else s' = s)).
Context (Hput_fd : ∀ fd s, runs (put_unused_fd fd) s (λ s' _, s' = OState (fds_taken s ∖ {[fd]}) (filps s) (fd_file s) (d_count s))).
Context (Hget_filp : ∀ s, runs get_empty_filp s (λ s' o,
  match o with Some f => filps s !! f = None ∧ ∃ x, s' = with_filps (<[f := x]> (filps s)) s | None => s' = s end)).
Context (Hput_filp : ∀ f s, runs (put_filp f) s (λ s' _, s' = with_filps (delete f (filps s)) s)).
Context (Hinstall : ∀ fd f s, runs (fd_install fd f) s (λ s' _,
  s' = OState (fds_taken s) (filps s) (<[fd := f]> (fd_file s)) (d_count s))).
Context (Hdget : ∀ d s, runs (dget d) s (λ s' _,
  s' = OState (fds_taken s) (filps s) (fd_file s) (<[d := default 0 (d_count s !! d) + 1]> (d_count s)))).
(** The function of the file system may change its file. *)
Context (Hopen : ∀ op f s, default_file_ops = Some (Some op) → is_Some (filps s !! f) →
  runs (op f) s (λ s' _, ∃ x, s' = with_filps (<[f := x]> (filps s)) s)).

Lemma open_runs f_op_open f s :
  default_file_ops = Some f_op_open → is_Some (filps s !! f) →
  runs (match f_op_open with Some op => op f | None => mret 0 end) s (λ s' e,
    (∃ x, s' = with_filps (<[f := x]> (filps s)) s) ∧ (f_op_open = None → e = 0 ∧ s' = s)).
Proof.
  intros Hops Hf. destruct f_op_open as [op|].
  - eapply runs_mono; [by apply Hopen|]. cbv beta. intros s' e Hs. by split.
  - apply runs_ret. split; [|done]. destruct Hf as [x Hx]. exists x. rewrite insert_id by done. by destruct s.
Qed.

(** A failing call gives back all that it has taken, and its result is negative; otherwise
    the descriptor is new, and it has a new file, which refers to the dentry. *)
Theorem open_dentry_balanced dentry mode s :
  runs (open_dentry dentry mode) s (λ s' r,
    if 0 <=? r then
      (r ∉ fds_taken s) ∧ ∃ f x, filps s !! f = None ∧
        s' = OState ({[r]} ∪ fds_taken s) (<[f := x]> (filps s)) (<[r := f]> (fd_file s))
               (<[dentry := default 0 (d_count s !! dentry) + 1]> (d_count s))
    else s' = s).
Proof.
  pose proof open_runs as Hor. unfold open_dentry. destruct default_file_ops as [f_op_open|] eqn:Hops; [|by apply runs_ret].
  apply runs_bind. eapply runs_mono; [apply Hget_fd|]. cbv beta. intros s1 fd.
  destruct (Z.leb_spec 0 fd) as [Hfd|Hfd]; cycle 1.
  { intros ->. apply runs_ret. by rewrite (proj2 (Z.leb_gt 0 fd)). }
  intros [Hnew ->]. apply runs_bind. eapply runs_mono; [apply Hget_filp|]. cbv beta. intros s2 [f|]; cycle 1.
  { intros ->. apply runs_bind. eapply runs_mono; [apply Hput_fd|]. cbv beta. intros s3 _ ->. apply runs_ret.
    destruct s as [a b c d]. cbn in *. by rewrite difference_union_distr_l_L, difference_diag_L, union_empty_l_L, difference_disjoint_L by set_solver. }
  intros [Hfree [x ->]]. apply runs_bind, runs_modify. cbn in Hfree |- *. apply runs_bind.
  eapply runs_mono; [apply (Hor f_op_open f); [done|cbn; rewrite lookup_insert_eq; eauto]|].
  cbv beta. intros s3 e [[y ->] _]. cbn. rewrite !insert_insert_eq. destruct (Z.eqb_spec e 0) as [->|He].
  - apply runs_bind. eapply runs_mono; [apply Hinstall|]. cbv beta. intros s4 _ ->. apply runs_bind.
    eapply runs_mono; [apply Hdget|]. cbv beta. intros s5 _ ->. apply runs_ret. cbn.
    rewrite (proj2 (Z.leb_le 0 fd)) by done. split; [done|]. eauto.
  - apply runs_bind. eapply runs_mono; [apply Hput_filp|]. cbv beta. intros s4 _ ->. apply runs_bind.
    eapply runs_mono; [apply Hput_fd|]. cbv beta. intros s5 _ ->. apply runs_ret. cbn.
    rewrite delete_insert_id by done. destruct s as [a b c d]. cbn in *.
    rewrite difference_union_distr_l_L, difference_diag_L, union_empty_l_L, difference_disjoint_L by set_solver.
    destruct (Z.ltb_spec 0 e); [done|]. by rewrite (proj2 (Z.leb_gt 0 e)) by lia.
Qed.
End open.

(** * [read_exec] *)

Definition KERNEL_DS : Z := 0xffffffff.

(** [limit] is the limit of the address space of the process ([get_fs], [set_fs]),
    [opened] the private files that have been opened and not released. *)
Record rstate : Type := RState { limit : Z; opened : Z }.

Definition with_limit (l : Z) (s : rstate) : rstate := RState l (opened s).

(** The functions of a file: [read] takes the address and the count, at the position given
    by the last argument. *)
Record file_operations : Type := FileOps {
  f_read : option (Z → Z → Z → M rstate Z);
  f_llseek : option (Z → M rstate Z);
  f_release : option (M rstate unit)
}.

Section read_exec.
(** [init_private_file] returns an error or gives the functions of the file;
    [verify_area(VERIFY_WRITE, addr, count)]. *)
Context (has_default_ops : bool) (init_private_file : M rstate (Z * file_operations)).
Context (verify_area : Z → Z → M rstate Z).

(** The position at which a file is read that has no [llseek] is [offset]; with [llseek] it
    is where that function has put it. *)
Definition read_at (ops : file_operations) (addr count pos : Z) (to_kmem : bool) : M rstate Z :=
  match f_read ops with
  | None => stop NullDeref
  | Some read =>
    if to_kmem then
      old_fs ← gets limit;
      _ ← modify (with_limit KERNEL_DS);
      result ← read addr count pos;
      _ ← modify (with_limit old_fs);
      mret result
    else
      result ← verify_area addr count;
      if decide (result ≠ 0) then mret result else read addr count pos
  end.

(** Up to the label close_readexec. *)
Definition read_opened (ops : file_operations) (offset addr count : Z) (to_kmem : bool) : M rstate Z :=
  match f_read ops with
  | None => mret (- ENOEXEC)
  | Some _ =>
    match f_llseek ops with
    | Some llseek =>
      p ← llseek offset;
      if decide (p ≠ offset) then mret (- ENOEXEC) else read_at ops addr count offset to_kmem
    | None => read_at ops addr count offset to_kmem
    end
  end.

Definition read_exec (offset addr count : Z) (to_kmem : bool) : M rstate Z :=
  if negb has_default_ops then mret (- ENOEXEC)
  else
    o ← init_private_file;
    if decide (o.1 ≠ 0) then mret (- ENOEXEC)
    else
      result ← read_opened o.2 offset addr count to_kmem;
      _ ← match f_release o.2 with Some release => release | None => mret () end;
      mret result.

(** What the parameters promise: opening counts the file, if it is to be released, and
    releasing takes it off; the others leave the limit as it is, whatever it is. *)
Definition leaves {A} (m : M rstate A) : Prop := ∀ s, runs m s (λ s' _, s' = s).
Definition keeps_limit (ops : file_operations) : Prop :=
  (∀ read a n p, f_read ops = Some read → leaves (read a n p)) ∧
  (∀ llseek o, f_llseek ops = Some llseek → leaves (llseek o)) ∧
  (∀ release, f_release ops = Some release → ∀ s, runs release s (λ s' _, s' = RState (limit s) (opened s - 1))).
Context (Hinit : ∀ s, runs init_private_file s (λ s' o,
  if decide (o.1 ≠ 0) then s' = s
  else s' = RState (limit s) (opened s + match f_release o.2 with Some _ => 1 | None => 0 end) ∧ keeps_limit o.2)).
Context (Hverify : ∀ a n, leaves (verify_area a n)).

Lemma read_at_leaves ops addr count pos to_kmem :
  keeps_limit ops → is_Some (f_read ops) → leaves (read_at ops addr count pos to_kmem).
Proof.
  intros (Hread & _ & _) [read Hr] s. unfold read_at. rewrite Hr. destruct to_kmem.
  - apply runs_bind, runs_gets, runs_bind, runs_modify, runs_bind. eapply runs_mono; [by apply Hread|].
    cbv beta. intros s' r ->. apply runs_bind, runs_modify, runs_ret. by destruct s.
  - apply runs_bind. eapply runs_mono; [apply Hverify|]. cbv beta. intros s' r ->.
    case_decide; [by apply runs_ret|by apply Hread].
Qed.

Lemma read_opened_leaves ops offset addr count to_kmem :
  keeps_limit ops → leaves (read_opened ops offset addr count to_kmem).
Proof.
  intros Hk s. unfold read_opened. destruct (f_read ops) as [read|] eqn:Hr; [|by apply runs_ret].
  assert (leaves (read_at ops addr count offset to_kmem)) as Hat by (apply read_at_leaves; [done|by rewrite Hr]).
  destruct (f_llseek ops) as [llseek|] eqn:Hl; [|apply Hat].
  apply runs_bind. eapply runs_mono; [by apply Hk|]. cbv beta. intros s' p ->.
  case_decide; [by apply runs_ret|apply Hat].
Qed.

(** On every path the limit of the address space is what it was, and a file that has been
    opened has been released. *)
Theorem read_exec_restores offset addr count to_kmem : leaves (read_exec offset addr count to_kmem).
Proof.
  intros s. unfold read_exec. destruct has_default_ops; [|by apply runs_ret]. cbn [negb].
  apply runs_bind. eapply runs_mono; [apply Hinit|]. cbv beta. intros s1 [r ops]. cbn [fst snd].
  case_decide; [intros ->; by apply runs_ret|]. intros [-> Hk].
  apply runs_bind. eapply runs_mono; [by apply read_opened_leaves|]. cbv beta. intros s2 v ->.
  apply runs_bind. destruct (f_release ops) as [release|] eqn:Hr.
  - eapply runs_mono; [by apply Hk|]. cbv beta. intros s3 _ ->. apply runs_ret. destruct s. cbn. f_equal. lia.
  - apply runs_ret, runs_ret. destruct s. cbn. f_equal. lia.
Qed.
End read_exec.

(** * Functions that keep the laws *)

(** One descriptor; an [open] that fails with [error]. *)
Definition one_fd : M ostate Z := λ s,
  if decide (3 ∈ fds_taken s) then Ok s (-24)
  else Ok (OState ({[3]} ∪ fds_taken s) (filps s) (fd_file s) (d_count s)) 3.
Definition give_fd (fd : Z) : M ostate unit :=
  modify (λ s, OState (fds_taken s ∖ {[fd]}) (filps s) (fd_file s) (d_count s)).
Definition new_filp : M ostate (option positive) := λ s,
  let f := fresh (dom (filps s)) in Ok (with_filps (<[f := File 0 0 1 0 0]> (filps s)) s) (Some f).
Definition give_filp (f : positive) : M ostate unit := modify (λ s, with_filps (delete f (filps s)) s).
Definition install_fd (fd : Z) (f : positive) : M ostate unit :=
  modify (λ s, OState (fds_taken s) (filps s) (<[fd := f]> (fd_file s)) (d_count s)).
Definition get_dentry (d : positive) : M ostate unit :=
  modify (λ s, OState (fds_taken s) (filps s) (fd_file s) (<[d := default 0 (d_count s !! d) + 1]> (d_count s))).
Definition failing_open (error : Z) (f : positive) : M ostate Z := mret error.

(** With any result of [open]: for a positive one nothing is kept, and the result is [-EIO]. *)
Lemma open_dentry_example error mode s :
  runs (open_dentry one_fd give_fd new_filp give_filp install_fd get_dentry (Some (Some (failing_open error))) 1 mode) s
    (λ s' r, if 0 <=? r then (r ∉ fds_taken s) ∧ ∃ f x, filps s !! f = None ∧
        s' = OState ({[r]} ∪ fds_taken s) (<[f := x]> (filps s)) (<[r := f]> (fd_file s))
               (<[1%positive := default 0 (d_count s !! 1%positive) + 1]> (d_count s))
      else s' = s).
Proof.
  apply open_dentry_balanced; try done.
  - intros s0. unfold runs, one_fd. by case_decide.
  - intros s0. unfold runs, new_filp. split; [|eauto]. apply not_elem_of_dom, is_fresh.
  - intros op f s0 [= <-] [x Hx]. apply runs_ret. exists x. rewrite insert_id by done. by destruct s0.
Qed.

Example open_dentry_eio :
  open_dentry one_fd give_fd new_filp give_filp install_fd get_dentry (Some (Some (failing_open 7))) 1 0 (OState ∅ ∅ ∅ ∅) =
  Ok (OState ∅ ∅ ∅ ∅) (- EIO).
Proof. vm_compute. reflexivity. Qed.
