(* ===== verification/ExecCreds.v ===== *)
(** The rights of a new program (src/src/dkmke/exec.c): [prepare_binprm] checks the file
    and determines the ids and capabilities it gives, [compute_creds] gives them to the
    task.

    Capability sets are 32-bit masks.  What the rest of the kernel answers is an
    argument: [permission], [read_exec] (the result and the bytes), and whether
    [SECURE_NOROOT] is set.  [in_group_p] and [capable] (kernel/sys.c, linux/sched.h)
    are modelled as they are documented. *)

From Stdlib Require Import ZArith Lia Strings.Byte.
From stdpp Require Import base list gmap strings.
From S2P Require Import Prelude.
From S2P Require Import Cbuf.

#[local] Open Scope Z_scope.

(** * Data *)

(** The inode; [i_noexec] and [i_nosuid] are the flags of its mount. *)
Record inode : Type := Inode {
  i_mode : Z; i_uid : Z; i_gid : Z; i_noexec : bool; i_nosuid : bool; i_has_sb : bool; i_writecount : Z
}.

(** The task: [tracer] is [Some c] when it is traced by a task with effective
    capabilities [c]; the counts are those of [fs], [sig] and [files]. *)
Record cred : Type := Cred {
  c_pid : Z;
  uid : Z; euid : Z; suid : Z; fsuid : Z;
  gid : Z; egid : Z; sgid : Z; fsgid : Z; groups : list Z;
  cap_inheritable : Z; cap_permitted : Z; cap_effective : Z;
  tracer : option Z; fs_count : Z; sig_count : Z; files_count : Z;
  dumpable : Z
}.

Record bcred : Type := BCred {
  e_uid : Z; e_gid : Z; b_inheritable : Z; b_permitted : Z; b_effective : Z; b_buf : buf
}.

(** linux/stat.h, asm/errno.h, linux/capability.h *)
Definition S_IFMT : Z := 0xF000.
Definition S_IFREG : Z := 0x8000.
Definition S_ISUID : Z := 0x800.
Definition S_ISGID : Z := 0x400.
Definition S_IXGRP : Z := 0x8.
Definition EPERM : Z := 1.
Definition EACCES : Z := 13.
Definition ETXTBSY : Z := 26.
Definition CAP_SETUID : Z := 7.
Definition CAP_SETPCAP : Z := 8.
Definition CAP_SYS_PTRACE : Z := 19.

Definition cap_set_full : Z := Z.ones 32.
Definition cap_raised (c cap : Z) : bool := Z.testbit c cap.
Definition cap_combine (a b : Z) : Z := Z.lor a b.
Definition cap_intersect (a b : Z) : Z := Z.land a b.
Definition cap_issubset (a set : Z) : bool := Z.land a (Z.lnot set) =? 0.

Definition capable (c : cred) (cap : Z) : bool := cap_raised (cap_effective c) cap.
Definition in_group_p (c : cred) (g : Z) : bool := bool_decide (g = fsgid c ∨ g ∈ groups c).

(** * [prepare_binprm] *)

Definition must_not_trace_exec (c : cred) : bool :=
  match tracer c with Some t => negb (cap_raised t CAP_SYS_PTRACE) | None => false end.

(** The result and what is left in [bprm]. *)
Definition prepare_binprm (noroot : bool) (c : cred) (ino : inode) (permission : Z) (read_exec : Z * buf)
    (b : bcred) : Z * bcred :=
  let mode := i_mode ino in
  if decide (Z.land mode S_IFMT ≠ S_IFREG) then (- EACCES, b)
  else if decide (Z.land mode 0x49 = 0) then (- EACCES, b)
  else if i_noexec ino then (- EACCES, b)
  else if negb (i_has_sb ino) then (- EACCES, b)
  else if decide (permission ≠ 0) then (permission, b)
  else if decide (i_writecount ino > 0) then (- ETXTBSY, b)
  else
    let setuid := bool_decide (Z.land mode S_ISUID ≠ 0) in
    let e_uid := if setuid then i_uid ino else euid c in
    let id_change := setuid && bool_decide (e_uid ≠ euid c) in
    let setgid := bool_decide (Z.land mode (Z.lor S_ISGID S_IXGRP) = Z.lor S_ISGID S_IXGRP) in
    let e_gid := if setgid then i_gid ino else egid c in
    let id_change := id_change || (setgid && negb (in_group_p c e_gid)) in
    let inh := if negb noroot && bool_decide (e_uid = 0 ∨ uid c = 0) then cap_set_full else 0 in
    let eff := if negb noroot && bool_decide (e_uid = 0) then cap_set_full else 0 in
    let b' := BCred e_uid e_gid inh 0 eff (b_buf b) in
    let working := cap_combine 0 (cap_intersect inh (cap_inheritable c)) in
    let raised := negb (cap_issubset working (cap_permitted c)) in
    let restricted := i_nosuid ino || must_not_trace_exec c || bool_decide (fs_count c > 1) ||
                      bool_decide (sig_count c > 1) || bool_decide (files_count c > 1) in
    if (id_change || raised) && restricted && id_change && negb (capable c CAP_SETUID) then (- EPERM, b')
    else if (id_change || raised) && restricted && raised && negb (capable c CAP_SETPCAP) then (- EPERM, b')
    else (read_exec.1, BCred e_uid e_gid inh 0 eff (read_exec.2 ++ replicate (128 - length read_exec.2) NUL)).

(** * [compute_creds] *)

Definition compute_creds (b : bcred) (c : cred) : cred :=
  let new_permitted := Z.lor (b_permitted b) (Z.land (b_inheritable b) (cap_inheritable c)) in
  let c := if decide (c_pid c ≠ 1) then
             Cred (c_pid c) (uid c) (euid c) (suid c) (fsuid c) (gid c) (egid c) (sgid c) (fsgid c) (groups c)
               (cap_inheritable c) new_permitted (Z.land new_permitted (b_effective b))
               (tracer c) (fs_count c) (sig_count c) (files_count c) (dumpable c)
           else c in
  let c := Cred (c_pid c) (uid c) (e_uid b) (e_uid b) (e_uid b) (gid c) (e_gid b) (e_gid b) (e_gid b) (groups c)
             (cap_inheritable c) (cap_permitted c) (cap_effective c)
             (tracer c) (fs_count c) (sig_count c) (files_count c) (dumpable c) in
  if decide (euid c ≠ uid c ∨ egid c ≠ gid c ∨ cap_issubset new_permitted (cap_permitted c) = false) then
    Cred (c_pid c) (uid c) (euid c) (suid c) (fsuid c) (gid c) (egid c) (sgid c) (fsgid c) (groups c)
      (cap_inheritable c) (cap_permitted c) (cap_effective c)
      (tracer c) (fs_count c) (sig_count c) (files_count c) 0
  else c.

(** * Properties *)

Lemma cap_issubset_refl a : cap_issubset a a = true.
Proof. unfold cap_issubset. apply Z.eqb_eq. apply Z.land_lnot_diag. Qed.

Lemma cap_issubset_spec a s : cap_issubset a s = true ↔ ∀ n, 0 ≤ n → Z.testbit a n = true → Z.testbit s n = true.
Proof.
  unfold cap_issubset. rewrite Z.eqb_eq. split.
  - intros H n Hn Ha. assert (Z.testbit (Z.land a (Z.lnot s)) n = false) as Hb by (rewrite H; apply Z.bits_0).
    rewrite Z.land_spec, Ha, Z.lnot_spec in Hb by lia. by destruct (Z.testbit s n).
  - intros H. apply Z.bits_inj'. intros n Hn. rewrite Z.bits_0, Z.land_spec, Z.lnot_spec by lia.
    destruct (Z.testbit a n) eqn:E; [|done]. by rewrite (H n Hn E).
Qed.

Lemma cap_issubset_land a m s : cap_issubset a s = true → cap_issubset (Z.land a m) s = true.
Proof.
  rewrite !cap_issubset_spec. intros H n Hn. rewrite Z.land_spec. intros [? _]%andb_true_iff. by apply H.
Qed.

(** Where no id may change and no capability be gained: a nosuid mount, a tracer that may
    not trace everything, and shared files, signal actions or working directory. *)
Definition restricted (c : cred) (ino : inode) : bool :=
  i_nosuid ino || must_not_trace_exec c || bool_decide (fs_count c > 1) ||
  bool_decide (sig_count c > 1) || bool_decide (files_count c > 1).

(** What a [prepare_binprm] that does not fail leaves in [bprm]. *)
Record prepared (noroot : bool) (c : cred) (ino : inode) (b : bcred) : Prop := {
  pr_uid : e_uid b = if bool_decide (Z.land (i_mode ino) S_ISUID ≠ 0) then i_uid ino else euid c;
  pr_gid : e_gid b = if bool_decide (Z.land (i_mode ino) (Z.lor S_ISGID S_IXGRP) = Z.lor S_ISGID S_IXGRP)
                     then i_gid ino else egid c;
  pr_inh : b_inheritable b = if negb noroot && bool_decide (e_uid b = 0 ∨ uid c = 0) then cap_set_full else 0;
  pr_eff : b_effective b = if negb noroot && bool_decide (e_uid b = 0) then cap_set_full else 0;
  pr_perm : b_permitted b = 0;
  pr_ids : restricted c ino = true → capable c CAP_SETUID = false →
    e_uid b = euid c ∧ (e_gid b = egid c ∨ in_group_p c (e_gid b) = true);
  pr_caps : restricted c ino = true → capable c CAP_SETPCAP = false →
    cap_issubset (Z.land (b_inheritable b) (cap_inheritable c)) (cap_permitted c) = true
}.

Lemma prepare_binprm_ok noroot c ino perm rd b r b' :
  prepare_binprm noroot c ino perm rd b = (r, b') → 0 ≤ r → perm ≤ 0 → prepared noroot c ino b'.
Proof.
  intros Hp Hr Hperm. unfold prepare_binprm, EACCES, ETXTBSY, EPERM in Hp.
  repeat (case_decide; [injection Hp as <- <-; lia|]).
  destruct (i_noexec ino); [injection Hp as <- <-; lia|].
  destruct (i_has_sb ino); [|injection Hp as <- <-; lia]. cbn [negb] in Hp.
  repeat (case_decide; [injection Hp as <- <-; lia|]). fold (restricted c ino) in Hp.
  set (setuid := bool_decide (Z.land _ S_ISUID ≠ 0)) in *. set (setgid := bool_decide (_ = Z.lor S_ISGID S_IXGRP)) in *.
  cbv zeta in Hp. set (u := if setuid then _ else _) in *. set (g := if setgid then _ else _) in *.
  destruct (((_ || _) && _ && _) && negb (capable c CAP_SETUID)) eqn:E1 in Hp; [injection Hp as <- <-; lia|].
  destruct (((_ || _) && _ && _) && negb (capable c CAP_SETPCAP)) eqn:E2 in Hp; [injection Hp as <- <-; lia|].
  injection Hp as <- <-. split; cbn [e_uid e_gid b_inheritable b_permitted b_effective]; try done; intros Hres Hsu; rewrite Hres, Hsu in *.
  - destruct (setuid && bool_decide (u ≠ euid c) || setgid && negb (in_group_p c g)) eqn:Eid; [done|].
    apply orb_false_iff in Eid as [Eu Eg]. split.
    + unfold u in *. destruct setuid; [|done]. cbn in Eu. by apply bool_decide_eq_false, dec_stable in Eu.
    + unfold g in *. destruct setgid; [|by left]. right. cbn in Eg. by apply negb_false_iff in Eg.
  - rewrite Z.lor_0_l in E2. unfold cap_intersect in E2. destruct (cap_issubset _ _); [done|].
    cbn in E2. by rewrite orb_true_r in E2.
Qed.

(** The fields of a task that [compute_creds] sets. *)
Lemma compute_creds_ids b c :
  let c' := compute_creds b c in
  euid c' = e_uid b ∧ suid c' = e_uid b ∧ fsuid c' = e_uid b ∧ egid c' = e_gid b ∧ sgid c' = e_gid b ∧
  fsgid c' = e_gid b ∧ uid c' = uid c ∧ gid c' = gid c ∧ cap_inheritable c' = cap_inheritable c.
Proof. cbn. unfold compute_creds. by destruct (decide (c_pid c ≠ 1)); case_decide. Qed.

Lemma compute_creds_caps b c :
  c_pid c ≠ 1 →
  cap_permitted (compute_creds b c) = Z.lor (b_permitted b) (Z.land (b_inheritable b) (cap_inheritable c)) ∧
  cap_effective (compute_creds b c) = Z.land (cap_permitted (compute_creds b c)) (b_effective b).
Proof. intros Hp. unfold compute_creds. destruct (decide (c_pid c ≠ 1)); [|done]. cbv zeta. by case_decide. Qed.

(** C33: the rights that an accepted file gives.  The new effective, saved and file system
    ids are the owner and the group of the file where its set-uid and set-gid bits say so,
    and otherwise the old effective ones.  A task that runs a file of a nosuid mount, that is traced by a
    task without CAP_SYS_PTRACE, or that shares its files, signal actions or directory
    with others, keeps its effective uid and gets no group that is not one of its own,
    unless it has CAP_SETUID, and gets no permitted capability that it did not have, unless
    it has CAP_SETPCAP.  The new effective capabilities are among the new permitted ones,
    but they need not be among the old effective ones.  A task whose tracer has CAP_SYS_PTRACE is not restricted,
    and gets the rights of a set-uid file. *)
Theorem exec_gain_checked noroot c ino perm rd b r b' :
  c_pid c ≠ 1 → prepare_binprm noroot c ino perm rd b = (r, b') → 0 ≤ r → perm ≤ 0 →
  let c' := compute_creds b' c in
  euid c' = (if bool_decide (Z.land (i_mode ino) S_ISUID ≠ 0) then i_uid ino else euid c) ∧
  egid c' = (if bool_decide (Z.land (i_mode ino) (Z.lor S_ISGID S_IXGRP) = Z.lor S_ISGID S_IXGRP)
             then i_gid ino else egid c) ∧
  suid c' = euid c' ∧ fsuid c' = euid c' ∧ sgid c' = egid c' ∧ fsgid c' = egid c' ∧
  uid c' = uid c ∧ gid c' = gid c ∧
  (restricted c ino = true → capable c CAP_SETUID = false →
     euid c' = euid c ∧ (egid c' = egid c ∨ in_group_p c (egid c') = true)) ∧
  (restricted c ino = true → capable c CAP_SETPCAP = false →
     cap_issubset (cap_permitted c') (cap_permitted c) = true) ∧
  cap_issubset (cap_effective c') (cap_permitted c') = true.
Proof.
  intros Hpid Hp Hr Hperm c'. pose proof (prepare_binprm_ok _ _ _ _ _ _ _ _ Hp Hr Hperm) as Hb.
  destruct (compute_creds_ids b' c) as (H1 & H2 & H3 & H4 & H5 & H6 & H7 & H8 & _).
  destruct (compute_creds_caps b' c Hpid) as [Ep Ee].
  fold c' in H1, H2, H3, H4, H5, H6, H7, H8, Ep, Ee. rewrite H2, H3, H5, H6, Ee. rewrite H1, H4.
  split_and!; try done; try apply Hb.
  - intros Hres Hsp. rewrite Ep, (pr_perm _ _ _ _ Hb), Z.lor_0_l. by apply (pr_caps _ _ _ _ Hb).
  - apply cap_issubset_land, cap_issubset_refl.
Qed.

(** A file that nothing but its rights speaks against is accepted for a task that is not
    restricted, whatever its set-uid and set-gid bits are. *)
Lemma exec_unrestricted_accepted noroot c ino rd b :
  Z.land (i_mode ino) S_IFMT = S_IFREG → Z.land (i_mode ino) 0x49 ≠ 0 → i_noexec ino = false →
  i_has_sb ino = true → i_writecount ino ≤ 0 → restricted c ino = false →
  (prepare_binprm noroot c ino 0 rd b).1 = rd.1.
Proof.
  intros Hreg Hx Hn Hsb Hw Hres. unfold prepare_binprm.
  rewrite decide_False by (intros H; by apply H). rewrite decide_False by done. rewrite Hn, Hsb. cbn [negb].
  rewrite decide_False by (intros H; by apply H). rewrite decide_False by lia.
  fold (restricted c ino). rewrite Hres. by rewrite !andb_false_r.
Qed.

(** The capabilities after an execve, for tasks other than init: with the root user in
    force, a program that runs as root (by its user or by set-uid) has its inheritable
    capabilities permitted and effective; one that is run by a real user root has them
    permitted only; any other has none. *)
Theorem exec_capabilities c ino perm rd b r b' :
  c_pid c ≠ 1 → prepare_binprm false c ino perm rd b = (r, b') → 0 ≤ r → perm ≤ 0 →
  0 ≤ cap_inheritable c < 2 ^ 32 →
  let c' := compute_creds b' c in
  cap_inheritable c' = cap_inheritable c ∧
  cap_permitted c' = (if decide (euid c' = 0 ∨ uid c = 0) then cap_inheritable c else 0) ∧
  cap_effective c' = (if decide (euid c' = 0) then cap_inheritable c else 0).
Proof.
  intros Hpid Hp Hr Hperm Hc c'. pose proof (prepare_binprm_ok _ _ _ _ _ _ _ _ Hp Hr Hperm) as Hb.
  destruct (compute_creds_ids b' c) as (Eu & _ & _ & _ & _ & _ & _ & _ & Ei).
  destruct (compute_creds_caps b' c Hpid) as [Ep Ee]. fold c' in Eu, Ei, Ep, Ee.
  split; [done|]. rewrite Ee, Ep, Eu, (pr_inh _ _ _ _ Hb), (pr_eff _ _ _ _ Hb), (pr_perm _ _ _ _ Hb), Z.lor_0_l.
  cbn [negb andb]. assert (Z.land cap_set_full (cap_inheritable c) = cap_inheritable c) as Hfull.
  { rewrite Z.land_comm. unfold cap_set_full. rewrite Z.land_ones by lia. by rewrite Z.mod_small. }
  repeat case_bool_decide; repeat case_decide; try (exfalso; tauto); cbv iota;
    rewrite ?Z.land_0_l, ?Hfull, ?Z.land_0_r; try done.
  by rewrite Z.land_comm.
Qed.

(** Whether the program can leave a core dump depends on the ids alone: the new permitted
    set is compared with itself, since the task has it already.  Only for init, whose sets
    stay, the comparison is one with the old set. *)
Theorem compute_creds_dumpable b c :
  c_pid c ≠ 1 →
  dumpable (compute_creds b c) = if decide (e_uid b ≠ uid c ∨ e_gid b ≠ gid c) then 0 else dumpable c.
Proof.
  intros Hp. unfold compute_creds. destruct (decide (c_pid c ≠ 1)); [|done].
  cbn [euid uid egid gid cap_permitted dumpable c_pid suid fsuid sgid fsgid groups cap_inheritable cap_effective
       tracer fs_count sig_count files_count]. rewrite cap_issubset_refl.
  repeat case_decide; cbn [dumpable]; naive_solver.
Qed.
