(* ===== verification/TaskRes.v ===== *)
(** What tasks share (src/src/dkmke/fork.c and exec.c): address spaces, signal tables,
    file system contexts, tables of open files, and their reference counts.

    [tres] is the state; [newp] is the task that [do_fork] builds, which is not in
    the list of the tasks yet.  [rinv] says that every count is the number of the
    references; [own] holds the references that [newp] has been counted for. *)

From Stdlib Require Import ZArith Lia.
From stdpp Require Import base list gmap fin_maps.
From S2P Require Import Prelude.

#[local] Open Scope Z_scope.

(** * Data *)

(** A [struct vm_area_struct]; [vm_id] is its identity in the share list of its file. *)
Record vma : Type := Vma { vm_id : positive; vm_flags : Z; vm_file : option positive }.

(** [mmap_sem] is held ([MUTEX_LOCKED]) until the new memory is set up. *)
Record mm_struct : Type := Mm {
  mm_count : Z; mm_pgd : option positive; mm_mmap : list vma; map_count : Z; mm_locked : bool
}.

Record signal_struct : Type := Sig { sig_count : Z; action : list Z }.

(** [root] and [pwd] are dentries. *)
Record fs_struct : Type := Fs { fs_count : Z; umask : Z; fs_root : positive; fs_pwd : positive }.

(** The descriptor sets are arrays of 32-bit words; [fd] has [max_fds] entries. *)
Record files_struct : Type := Files {
  fl_count : Z; next_fd : Z; max_fds : Z; max_fdset : Z;
  close_on_exec : list Z; open_fds : list Z; fd : list (option positive)
}.

(** A [struct file]; [i_writecount] is that of its inode. *)
Record file : Type := File { f_count : Z; i_writecount : Z }.

Record rtask : Type := RTask {
  t_files : option positive; t_fs : option positive; t_sig : option positive; t_mm : option positive
}.

(** [share] is the list of the areas that map a file, [mem] how many allocations will
    succeed. *)
Record tres : Type := TRes {
  mms : gmap positive mm_struct;
  pgds : gmap positive unit;
  sigs : gmap positive signal_struct;
  fss : gmap positive fs_struct;
  filess : gmap positive files_struct;
  dentries : gmap positive Z;
  files : gmap positive file;
  share : gmap positive (list positive);
  rfresh : positive;
  mem : nat;
  rtasks : gmap Z rtask;
  newp : rtask
}.

Definition with_mms x s := TRes x (pgds s) (sigs s) (fss s) (filess s) (dentries s) (files s) (share s) (rfresh s) (mem s) (rtasks s) (newp s).
Definition with_pgds x s := TRes (mms s) x (sigs s) (fss s) (filess s) (dentries s) (files s) (share s) (rfresh s) (mem s) (rtasks s) (newp s).
Definition with_sigs x s := TRes (mms s) (pgds s) x (fss s) (filess s) (dentries s) (files s) (share s) (rfresh s) (mem s) (rtasks s) (newp s).
Definition with_fss x s := TRes (mms s) (pgds s) (sigs s) x (filess s) (dentries s) (files s) (share s) (rfresh s) (mem s) (rtasks s) (newp s).
Definition with_filess x s := TRes (mms s) (pgds s) (sigs s) (fss s) x (dentries s) (files s) (share s) (rfresh s) (mem s) (rtasks s) (newp s).
Definition with_dentries x s := TRes (mms s) (pgds s) (sigs s) (fss s) (filess s) x (files s) (share s) (rfresh s) (mem s) (rtasks s) (newp s).
Definition with_files x s := TRes (mms s) (pgds s) (sigs s) (fss s) (filess s) (dentries s) x (share s) (rfresh s) (mem s) (rtasks s) (newp s).
Definition with_share x s := TRes (mms s) (pgds s) (sigs s) (fss s) (filess s) (dentries s) (files s) x (rfresh s) (mem s) (rtasks s) (newp s).
Definition with_mem x s := TRes (mms s) (pgds s) (sigs s) (fss s) (filess s) (dentries s) (files s) (share s) (rfresh s) x (rtasks s) (newp s).
Definition with_fresh x s := TRes (mms s) (pgds s) (sigs s) (fss s) (filess s) (dentries s) (files s) (share s) x (mem s) (rtasks s) (newp s).
Definition with_rtasks x s := TRes (mms s) (pgds s) (sigs s) (fss s) (filess s) (dentries s) (files s) (share s) (rfresh s) (mem s) x (newp s).
Definition with_newp x s := TRes (mms s) (pgds s) (sigs s) (fss s) (filess s) (dentries s) (files s) (share s) (rfresh s) (mem s) (rtasks s) x.

Definition set_files (o : option positive) (t : rtask) : rtask := RTask o (t_fs t) (t_sig t) (t_mm t).
Definition set_fs (o : option positive) (t : rtask) : rtask := RTask (t_files t) o (t_sig t) (t_mm t).
Definition set_sig (o : option positive) (t : rtask) : rtask := RTask (t_files t) (t_fs t) o (t_mm t).
Definition set_mm (o : option positive) (t : rtask) : rtask := RTask (t_files t) (t_fs t) (t_sig t) o.

Definition EAGAIN : Z := 11.
Definition ENOMEM : Z := 12.
Definition CLONE_VM : Z := 0x100.
Definition CLONE_FS : Z := 0x200.
Definition CLONE_FILES : Z := 0x400.
Definition CLONE_SIGHAND : Z := 0x800.

(** [flags & bit] *)
Definition has (flags bit : Z) : bool := negb (Z.land flags bit =? 0).

(** * Memory *)

(** An element of a heap, behind a pointer that may be [NULL]. *)
Definition at_ptr {A} (h : tres → gmap positive A) (o : option positive) : M tres A := λ s,
  match o with
  | None => Stop NullDeref
  | Some l => match h s !! l with Some x => Ok s x | None => Stop BadPtr end
  end.

Definition store_mm (l : positive) (m : mm_struct) : M tres unit := modify (λ s, with_mms (<[l := m]> (mms s)) s).
Definition store_sig (l : positive) (x : signal_struct) : M tres unit := modify (λ s, with_sigs (<[l := x]> (sigs s)) s).
Definition store_fs (l : positive) (x : fs_struct) : M tres unit := modify (λ s, with_fss (<[l := x]> (fss s)) s).
Definition store_files (l : positive) (x : files_struct) : M tres unit := modify (λ s, with_filess (<[l := x]> (filess s)) s).

(** [kmalloc], [kmem_cache_alloc]: a new location, or [NULL]. *)
Definition kalloc : M tres (option positive) := λ s,
  match mem s with
  | O => Ok s None
  | S n => Ok (with_fresh (Pos.succ (rfresh s)) (with_mem n s)) (Some (rfresh s))
  end.

Definition current_task (cur : Z) : M tres rtask := λ s,
  match rtasks s !! cur with Some t => Ok s t | None => Stop BadPtr end.
Definition set_current (cur : Z) (g : rtask → rtask) : M tres unit :=
  t ← current_task cur; modify (λ s, with_rtasks (<[cur := g t]> (rtasks s)) s).
Definition set_newp (g : rtask → rtask) : M tres unit := modify (λ s, with_newp (g (newp s)) s).

(** [dget] *)
Definition dget (d : positive) : M tres positive :=
  c ← at_ptr dentries (Some d); _ ← modify (λ s, with_dentries (<[d := c + 1]> (dentries s)) s); mret d.

(** [file->f_count++], and [i_writecount--] for a mapping that denies writes. *)
Definition get_file (f : positive) (w : Z) : M tres unit :=
  x ← at_ptr files (Some f);
  modify (λ s, with_files (<[f := File (f_count x + 1) (i_writecount x - w)]> (files s)) s).

(** * Sums over maps *)

Definition msum {K A} `{Countable K} (g : A → Z) (m : gmap K A) : Z :=
  map_fold (λ _ x acc, g x + acc) 0 m.

Section msum.
Context {K A : Type} `{Countable K}.
Implicit Types m : gmap K A.

Lemma msum_empty (g : A → Z) : msum g (∅ : gmap K A) = 0.
Proof. apply map_fold_empty. Qed.

Lemma msum_new g m i x : m !! i = None → msum g (<[i := x]> m) = g x + msum g m.
Proof. intros Hi. unfold msum. rewrite map_fold_insert_L; [done|intros; lia|done]. Qed.

Lemma msum_lookup g m i x : m !! i = Some x → msum g m = g x + msum g (delete i m).
Proof.
  intros Hi. rewrite <- (insert_delete_id m i x Hi) at 1. apply msum_new. apply lookup_delete_eq.
Qed.

Lemma msum_insert g m i x y : m !! i = Some x → msum g (<[i := y]> m) = msum g m - g x + g y.
Proof.
  intros Hi. rewrite (msum_lookup g m i x Hi), <- (insert_delete_eq m i y).
  rewrite msum_new by apply lookup_delete_eq. lia.
Qed.

Lemma msum_delete g m i x : m !! i = Some x → msum g (delete i m) = msum g m - g x.
Proof. intros Hi. rewrite (msum_lookup g m i x Hi). lia. Qed.

Lemma msum_singleton g i x : msum g ({[i := x]} : gmap K A) = g x.
Proof. rewrite <- insert_empty, msum_new, msum_empty by done. lia. Qed.

Lemma msum_nonneg g m : (∀ x, 0 ≤ g x) → 0 ≤ msum g m.
Proof.
  intros Hg. induction m as [|i x m Hi IH] using map_ind; [by rewrite msum_empty|].
  rewrite msum_new by done. specialize (Hg x). lia.
Qed.

Lemma msum_ge g m i x : (∀ x, 0 ≤ g x) → m !! i = Some x → g x ≤ msum g m.
Proof. intros Hg Hi. rewrite (msum_lookup g m i x Hi). pose proof (msum_nonneg g (delete i m) Hg). lia. Qed.
End msum.

(** * References *)

Definition pt (o : option positive) (l : positive) : Z := if decide (o = Some l) then 1 else 0.

(** The tasks that point to [l] with a field, and the new task if it is counted. *)
Definition refs (field : rtask → option positive) (own : rtask) (s : tres) (l : positive) : Z :=
  msum (λ t, pt (field t) l) (rtasks s) + pt (field own) l.

Fixpoint occ (f : positive) (l : list (option positive)) : Z :=
  match l with [] => 0 | o :: l => pt o f + occ f l end.

Definition VM_LOCKED : Z := 0x2000.
Definition VM_DENYWRITE : Z := 0x800.

Definition deny (v : vma) : Z := if has (vm_flags v) VM_DENYWRITE then 1 else 0.

(** The entries of open files and the mappings that refer to the file [f]; those that deny
    writes; the contexts that refer to the dentry [d]. *)
Definition mm_files (m : mm_struct) : list (option positive) := vm_file <$> mm_mmap m.
Definition mm_denies (f : positive) (m : mm_struct) : Z :=
  foldr (λ v n, pt (vm_file v) f * deny v + n) 0 (mm_mmap m).
Definition file_refs (s : tres) (f : positive) : Z :=
  msum (λ x, occ f (fd x)) (filess s) + msum (λ m, occ f (mm_files m)) (mms s).
Definition deny_refs (s : tres) (f : positive) : Z := msum (mm_denies f) (mms s).
Definition dentry_refs (s : tres) (d : positive) : Z :=
  msum (λ x, pt (Some (fs_root x)) d + pt (Some (fs_pwd x)) d) (fss s).

(** The references that other parts of the kernel hold. *)
Record ext : Type := Ext { x_file : positive → Z; x_write : positive → Z; x_dentry : positive → Z }.

(** * The invariant *)
Record rinv (e : ext) (own : rtask) (s : tres) : Prop := {
  r_sig l : default 0 (sig_count <$> sigs s !! l) = refs t_sig own s l;
  r_fs l : default 0 (fs_count <$> fss s !! l) = refs t_fs own s l;
  r_files l : default 0 (fl_count <$> filess s !! l) = refs t_files own s l;
  r_mm l : default 0 (mm_count <$> mms s !! l) = refs t_mm own s l;
  r_file f : default 0 (f_count <$> files s !! f) = x_file e f + file_refs s f;
  r_write f x : files s !! f = Some x → i_writecount x = x_write e f - deny_refs s f;
  r_dentry d : default 0 (dentries s !! d) = x_dentry e d + dentry_refs s d;
  r_ext l : 0 ≤ x_file e l ∧ 0 ≤ x_dentry e l;
  r_pgd l m g : mms s !! l = Some m → mm_pgd m = Some g → is_Some (pgds s !! g);
  r_pgd_uniq l1 l2 m1 m2 g : mms s !! l1 = Some m1 → mms s !! l2 = Some m2 →
    mm_pgd m1 = Some g → mm_pgd m2 = Some g → l1 = l2;
  r_fresh l : is_Some (mms s !! l) ∨ is_Some (sigs s !! l) ∨ is_Some (fss s !! l) ∨ is_Some (filess s !! l) →
    (l < rfresh s)%positive
}.

Lemma pt_range o l : 0 ≤ pt o l ≤ 1.
Proof. unfold pt. case_decide; lia. Qed.

Lemma occ_nonneg f l : 0 ≤ occ f l.
Proof. induction l as [|o l IH]; cbn; [lia|]. pose proof (pt_range o f). lia. Qed.

Lemma occ_app f l1 l2 : occ f (l1 ++ l2) = occ f l1 + occ f l2.
Proof. induction l1 as [|o l1 IH]; cbn; [lia|]. rewrite IH. lia. Qed.

Lemma refs_nonneg field own s l : 0 ≤ refs field own s l.
Proof.
  unfold refs. pose proof (pt_range (field own) l).
  pose proof (msum_nonneg (λ t, pt (field t) l) (rtasks s) (λ t, proj1 (pt_range (field t) l))). lia.
Qed.

Lemma refs_task field own s l p t :
  rtasks s !! p = Some t → field t = Some l → 0 < refs field own s l.
Proof.
  intros Hp Hf. unfold refs. pose proof (pt_range (field own) l).
  pose proof (msum_ge (λ t, pt (field t) l) (rtasks s) p t (λ t, proj1 (pt_range (field t) l)) Hp) as H1.
  cbn in H1. unfold pt at 1 in H1. rewrite Hf, decide_True in H1 by done. lia.
Qed.

(** A pointer of a task points to something. *)
Lemma default_pos {A} (g : A → Z) (o : option A) : 0 < default 0 (g <$> o) → is_Some o.
Proof. destruct o; [by eexists|]. cbn. lia. Qed.

Lemma file_refs_nonneg s f : 0 ≤ file_refs s f.
Proof.
  unfold file_refs.
  pose proof (msum_nonneg (λ x, occ f (fd x)) (filess s) (λ x, occ_nonneg f (fd x))).
  pose proof (msum_nonneg (λ m, occ f (mm_files m)) (mms s) (λ m, occ_nonneg f (mm_files m))). lia.
Qed.

Lemma dentry_refs_nonneg s d : 0 ≤ dentry_refs s d.
Proof. apply msum_nonneg. intros x. pose proof (pt_range (Some (fs_root x)) d). pose proof (pt_range (Some (fs_pwd x)) d). lia. Qed.

Lemma pt_some l l' : pt (Some l) l' = if decide (l' = l) then 1 else 0.
Proof. unfold pt. repeat case_decide; simplify_eq; done. Qed.

Lemma pt_none l : pt None l = 0.
Proof. done. Qed.

(** Locations that are not used yet. *)
Lemma fresh_none e own s : rinv e own s →
  mms s !! rfresh s = None ∧ sigs s !! rfresh s = None ∧ fss s !! rfresh s = None ∧ filess s !! rfresh s = None.
Proof.
  intros Hi. pose proof (r_fresh _ _ _ Hi (rfresh s)) as Hf.
  repeat split; apply eq_None_not_Some; intros H;
    enough (rfresh s < rfresh s)%positive by lia; apply Hf; tauto.
Qed.

(** * How the invariant changes *)

Lemma default_insert {A} (g : A → Z) (m : gmap positive A) l x l' :
  default 0 (g <$> <[l := x]> m !! l') = if decide (l' = l) then g x else default 0 (g <$> m !! l').
Proof. case_decide; [subst; by rewrite lookup_insert_eq|by rewrite lookup_insert_ne]. Qed.

(** Allocations. *)
Lemma rinv_alloc e own s n : rinv e own s → rinv e own (with_fresh (Pos.succ (rfresh s)) (with_mem n s)).
Proof.
  intros []. split; try done. cbn. intros l Hl. specialize (r_fresh0 l Hl). lia.
Qed.

Lemma kalloc_none_spec e own s (Q : tres → option positive → Prop) :
  rinv e own s → (mem s = 0%nat → Q s None) →
  (∀ s', s' = with_fresh (Pos.succ (rfresh s)) (with_mem (pred (mem s)) s) → rinv e own s' →
     mms s' !! rfresh s = None → sigs s' !! rfresh s = None → fss s' !! rfresh s = None → filess s' !! rfresh s = None →
     Q s' (Some (rfresh s))) →
  runs kalloc s Q.
Proof.
  intros Hi Hn Hs. unfold kalloc, runs. destruct (mem s) as [|n] eqn:E; [by apply Hn|].
  destruct (fresh_none _ _ _ Hi) as (H1 & H2 & H3 & H4). apply Hs; [done|by apply rinv_alloc|done..].
Qed.

Lemma kalloc_spec e own s (Q : tres → option positive → Prop) :
  rinv e own s → Q s None →
  (∀ s', s' = with_fresh (Pos.succ (rfresh s)) (with_mem (pred (mem s)) s) → rinv e own s' →
     mms s' !! rfresh s = None → sigs s' !! rfresh s = None → fss s' !! rfresh s = None → filess s' !! rfresh s = None →
     Q s' (Some (rfresh s))) →
  runs kalloc s Q.
Proof. intros Hi Hn. by apply kalloc_none_spec. Qed.

(** The task that is built has fields that nobody counts. *)
Lemma rinv_newp e own s t : rinv e own s → rinv e own (with_newp t s).
Proof. intros []. by split. Qed.

Definition same_but_sig (o o' : rtask) : Prop := t_files o' = t_files o ∧ t_fs o' = t_fs o ∧ t_mm o' = t_mm o.
Definition same_but_fs (o o' : rtask) : Prop := t_files o' = t_files o ∧ t_sig o' = t_sig o ∧ t_mm o' = t_mm o.
Definition same_but_files (o o' : rtask) : Prop := t_fs o' = t_fs o ∧ t_sig o' = t_sig o ∧ t_mm o' = t_mm o.
Definition same_but_mm (o o' : rtask) : Prop := t_files o' = t_files o ∧ t_fs o' = t_fs o ∧ t_sig o' = t_sig o.

(** The references of the tasks and of the new task. *)
Lemma refs_change field own own' s s' l :
  rtasks s' = rtasks s → refs field own' s' l = refs field own s l + pt (field own') l - pt (field own) l.
Proof. intros E. unfold refs. rewrite E. lia. Qed.

Lemma refs_same field own own' s s' l :
  rtasks s' = rtasks s → field own' = field own → refs field own' s' l = refs field own s l.
Proof. intros E1 E2. unfold refs. by rewrite E1, E2. Qed.

Lemma rinv_sigs e own own' s m :
  rinv e own s → same_but_sig own own' →
  (∀ l, default 0 (sig_count <$> m !! l) = default 0 (sig_count <$> sigs s !! l) + pt (t_sig own') l - pt (t_sig own) l) →
  (∀ l, is_Some (m !! l) → (l < rfresh s)%positive) →
  rinv e own' (with_sigs m s).
Proof.
  intros [] (E1 & E2 & E3) Hm Hf. split; try done; cbn.
  - intros l. rewrite Hm, r_sig0. by rewrite (refs_change t_sig own own' s).
  - intros l. by rewrite (refs_same t_fs own own' s).
  - intros l. by rewrite (refs_same t_files own own' s).
  - intros l. by rewrite (refs_same t_mm own own' s).
  - naive_solver.
Qed.

Lemma rinv_fss e own own' s m d :
  rinv e own s → same_but_fs own own' →
  (∀ l, default 0 (fs_count <$> m !! l) = default 0 (fs_count <$> fss s !! l) + pt (t_fs own') l - pt (t_fs own) l) →
  (∀ l, is_Some (m !! l) → (l < rfresh s)%positive) →
  (∀ x, default 0 (d !! x) = default 0 (dentries s !! x) +
        msum (λ y, pt (Some (fs_root y)) x + pt (Some (fs_pwd y)) x) m - dentry_refs s x) →
  rinv e own' (with_fss m (with_dentries d s)).
Proof.
  intros [] (E1 & E2 & E3) Hm Hf Hd. split; try done; cbn.
  - intros l. by rewrite (refs_same t_sig own own' s).
  - intros l. rewrite Hm, r_fs0. by rewrite (refs_change t_fs own own' s).
  - intros l. by rewrite (refs_same t_files own own' s).
  - intros l. by rewrite (refs_same t_mm own own' s).
  - intros x. rewrite Hd, r_dentry0. unfold dentry_refs. cbn. lia.
  - naive_solver.
Qed.

Lemma rinv_filess e own own' s m f :
  rinv e own s → same_but_files own own' →
  (∀ l, default 0 (fl_count <$> m !! l) = default 0 (fl_count <$> filess s !! l) + pt (t_files own') l - pt (t_files own) l) →
  (∀ l, is_Some (m !! l) → (l < rfresh s)%positive) →
  (∀ x, default 0 (f_count <$> f !! x) = default 0 (f_count <$> files s !! x) +
        msum (λ y, occ x (fd y)) m - msum (λ y, occ x (fd y)) (filess s)) →
  (∀ x y, f !! x = Some y → ∃ y', files s !! x = Some y' ∧ i_writecount y' = i_writecount y) →
  rinv e own' (with_filess m (with_files f s)).
Proof.
  intros [] (E1 & E2 & E3) Hm Hf Hc Hw. split; try done; cbn.
  - intros l. by rewrite (refs_same t_sig own own' s).
  - intros l. by rewrite (refs_same t_fs own own' s).
  - intros l. rewrite Hm, r_files0. by rewrite (refs_change t_files own own' s).
  - intros l. by rewrite (refs_same t_mm own own' s).
  - intros x. rewrite Hc, r_file0. unfold file_refs. cbn. lia.
  - intros x y Hy. destruct (Hw _ _ Hy) as (y' & Hy' & <-). by apply r_write0.
  - naive_solver.
Qed.

(** A task and the reference [own] exchange what they point to. *)
Lemma refs_swap field own own' s cur t t' l :
  rtasks s !! cur = Some t → pt (field t') l + pt (field own') l = pt (field t) l + pt (field own) l →
  refs field own' (with_rtasks (<[cur := t']> (rtasks s)) s) l = refs field own s l.
Proof. intros Hc E. unfold refs. cbn. rewrite (msum_insert _ _ cur t) by done. lia. Qed.

Lemma rinv_swap e own own' s cur t t' :
  rinv e own s → rtasks s !! cur = Some t →
  (∀ l, pt (t_sig t') l + pt (t_sig own') l = pt (t_sig t) l + pt (t_sig own) l) →
  (∀ l, pt (t_fs t') l + pt (t_fs own') l = pt (t_fs t) l + pt (t_fs own) l) →
  (∀ l, pt (t_files t') l + pt (t_files own') l = pt (t_files t) l + pt (t_files own) l) →
  (∀ l, pt (t_mm t') l + pt (t_mm own') l = pt (t_mm t) l + pt (t_mm own) l) →
  rinv e own' (with_rtasks (<[cur := t']> (rtasks s)) s).
Proof.
  intros Hi Hc H1 H2 H3 H4. split; try apply Hi; intros l.
  - rewrite (refs_swap t_sig own own' s cur t) by done. apply Hi.
  - rewrite (refs_swap t_fs own own' s cur t) by done. apply Hi.
  - rewrite (refs_swap t_files own own' s cur t) by done. apply Hi.
  - rewrite (refs_swap t_mm own own' s cur t) by done. apply Hi.
Qed.
