(* ===== verification/ForkCopy.v ===== *)
(** [copy_fs], [copy_sighand] and [copy_files] of src/src/dkmke/fork.c, and
    [make_private_signals], [release_old_signals] and [flush_old_files] of exec.c: what a
    new task shares with its parent or gets a copy of.

    [expand_fdset] and [expand_fd_array] (fs/file.c), which make the tables larger, and
    [sys_close] are parameters. *)

From Stdlib Require Import ZArith Lia.
From stdpp Require Import base list gmap fin_maps.
From S2P Require Import Prelude.
From S2P Require Import TaskRes.

#[local] Open Scope Z_scope.

(** * The file system context *)

Definition copy_fs (clone_flags cur : Z) : M tres Z :=
  t ← current_task cur;
  if has clone_flags CLONE_FS then
    x ← at_ptr fss (t_fs t);
    match t_fs t with
    | Some l => _ ← store_fs l (Fs (fs_count x + 1) (umask x) (fs_root x) (fs_pwd x)); mret 0
    | None => stop NullDeref
    end
  else
    o ← kalloc;
    _ ← set_newp (set_fs o);
    match o with
    | None => mret (-1)
    | Some l =>
      x ← at_ptr fss (t_fs t);
      root ← dget (fs_root x);
      pwd ← dget (fs_pwd x);
      _ ← store_fs l (Fs 1 (umask x) root pwd);
      mret 0
    end.

(** * The signal table *)

Definition copy_sighand (clone_flags cur : Z) : M tres Z :=
  t ← current_task cur;
  if has clone_flags CLONE_SIGHAND then
    x ← at_ptr sigs (t_sig t);
    match t_sig t with
    | Some l => _ ← store_sig l (Sig (sig_count x + 1) (action x)); mret 0
    | None => stop NullDeref
    end
  else
    o ← kalloc;
    _ ← set_newp (set_sig o);
    match o with
    | None => mret (-1)
    | Some l =>
      x ← at_ptr sigs (t_sig t);
      _ ← store_sig l (Sig 1 (action x));
      mret 0
    end.

Definition make_private_signals (cur : Z) : M tres Z :=
  t ← current_task cur;
  x ← at_ptr sigs (t_sig t);
  if decide (sig_count x <= 1) then mret 0
  else
    o ← kalloc;
    match o with
    | None => mret (- ENOMEM)
    | Some l =>
      _ ← store_sig l (Sig 1 (action x));
      _ ← set_current cur (set_sig (Some l));
      mret 0
    end.

(** [kfree] of the table when the last reference goes. *)
Definition release_old_signals (cur : Z) (oldsig : positive) : M tres unit :=
  t ← current_task cur;
  if decide (t_sig t = Some oldsig) then mret ()
  else
    x ← at_ptr sigs (Some oldsig);
    if decide (sig_count x - 1 = 0) then modify (λ s, with_sigs (delete oldsig (sigs s)) s)
    else store_sig oldsig (Sig (sig_count x - 1) (action x)).

(** * The open files *)

Definition NR_OPEN_DEFAULT : Z := 32.
Definition FD_SETSIZE : Z := 1024.
(** Bits of an unsigned long. *)
Definition LONG_BITS : Z := 32.

(** The loop for the last word with an open descriptor, from the word [i] down; the
    result is the [i] at its end. *)
Fixpoint last_open (i : nat) (bits : list Z) : option nat :=
  match i with
  | O => Some O
  | S i =>
    w ← bits !! i;
    if decide (w ≠ 0) then Some i else last_open i bits
  end.

(** [memcpy] of [n] words into an array, and [memset] of the words from there on: [left]
    words are cleared. *)
Definition copy_words (dst src : list Z) (n left : Z) : option (list Z) :=
  if decide (0 ≤ n ∧ n ≤ Z.of_nat (length src) ∧ 0 ≤ left ∧ n + left ≤ Z.of_nat (length dst)) then
    Some (take (Z.to_nat n) src ++ replicate (Z.to_nat left) 0 ++ drop (Z.to_nat (n + left)) dst)
  else None.

(** [f->f_count++] for every entry that is copied. *)
Fixpoint get_files (l : list (option positive)) : M tres unit :=
  match l with
  | [] => mret ()
  | None :: l => get_files l
  | Some f :: l => _ ← get_file f 0; get_files l
  end.

Definition or_oob {A} (o : option A) : M tres A :=
  match o with Some a => mret a | None => stop OutOfBounds end.

Section expand.
(** The new table, or an error; nothing else changes. *)
Context (expand_fdset expand_fd_array : files_struct → Z → Z * files_struct).

(** The steps from the copy of the sets on; [newf] is the new table. *)
Definition copy_table (oldf newf : files_struct) (size : Z) : M tres (Z * files_struct) :=
  let n := size / LONG_BITS in
  let left := if decide (max_fdset newf > size) then (max_fdset newf - size) / LONG_BITS else 0 in
  open ← or_oob (copy_words (open_fds newf) (open_fds oldf) n left);
  coe ← or_oob (copy_words (close_on_exec newf) (close_on_exec oldf) n left);
  i ← or_oob (last_open (Z.to_nat n) open);
  let i := (Z.of_nat i + 1) * LONG_BITS in
  let newf := Files (fl_count newf) (next_fd newf) (max_fds newf) (max_fdset newf) coe open (fd newf) in
  let '(error, newf) :=
    if decide (i > NR_OPEN_DEFAULT)
    then expand_fd_array (Files (fl_count newf) (next_fd newf) 0 (max_fdset newf) coe open (fd newf)) i
    else (0, newf) in
  if decide (error ≠ 0) then mret (error, newf)
  else
    let nfds := if decide (i > NR_OPEN_DEFAULT) then max_fds newf else NR_OPEN_DEFAULT in
    if decide (i ≤ Z.of_nat (length (fd oldf)) ∧ i ≤ nfds ≤ Z.of_nat (length (fd newf))) then
      let l := take (Z.to_nat i) (fd oldf) in
      _ ← get_files l;
      mret (0, Files (fl_count newf) (next_fd newf) (max_fds newf) (max_fdset newf) (close_on_exec newf) (open_fds newf)
                 (l ++ replicate (Z.to_nat (nfds - i)) None ++ drop (Z.to_nat nfds) (fd newf)))
    else stop OutOfBounds.

(** A table as it is allocated: the sets and the array inside the structure, whose
    contents are arbitrary ([junk]). *)
Definition new_table (junk_open junk_coe : list Z) (junk_fd : list (option positive)) : files_struct :=
  Files 1 0 NR_OPEN_DEFAULT FD_SETSIZE junk_coe junk_open junk_fd.

Definition copy_files (junk_open junk_coe : list Z) (junk_fd : list (option positive)) (clone_flags cur : Z) : M tres Z :=
  t ← current_task cur;
  match t_files t with
  | None => mret 0
  | Some old =>
    oldf ← at_ptr filess (t_files t);
    if has clone_flags CLONE_FILES then
      _ ← store_files old (Files (fl_count oldf + 1) (next_fd oldf) (max_fds oldf) (max_fdset oldf)
                             (close_on_exec oldf) (open_fds oldf) (fd oldf));
      mret 0
    else
      _ ← set_newp (set_files None);
      o ← kalloc;
      match o with
      | None => mret (- ENOMEM)
      | Some l =>
        let size := max_fdset oldf in
        let newf := new_table junk_open junk_coe junk_fd in
        let '(error, newf) :=
          if decide (size > FD_SETSIZE)
          then expand_fdset (Files 1 0 NR_OPEN_DEFAULT 0 junk_coe junk_open junk_fd) size
          else (0, newf) in
        if decide (error ≠ 0) then mret error
        else
          r ← copy_table oldf newf size;
          if decide (r.1 ≠ 0) then mret r.1
          else
            _ ← store_files l r.2;
            _ ← set_newp (set_files (Some l));
            mret 0
      end
  end.
End expand.

(** * Closing on exec *)

Section close.
Context (sys_close : Z → M tres Z).

(** [for( ; set ; i++, set >>= 1) if(set & 1) sys_close(i)] *)
Fixpoint close_word (n : nat) (set i : Z) : M tres unit :=
  match n with
  | O => stop OutOfFuel
  | S n =>
    if decide (set = 0) then mret ()
    else
      _ ← (if Z.odd set then _ ← sys_close i; mret () else mret ());
      close_word n (Z.shiftr set 1) (i + 1)
  end.

(** The table is read again in every round. *)
Fixpoint flush_loop (fuel : nat) (l : positive) (j : Z) : M tres unit :=
  match fuel with
  | O => stop OutOfFuel
  | S fuel =>
    x ← at_ptr filess (Some l);
    let i := j * LONG_BITS in
    if decide (i >= max_fds x ∨ i >= max_fdset x) then mret ()
    else
      set ← or_oob (close_on_exec x !! Z.to_nat j);
      _ ← store_files l (Files (fl_count x) (next_fd x) (max_fds x) (max_fdset x)
                           (<[Z.to_nat j := 0]> (close_on_exec x)) (open_fds x) (fd x));
      _ ← close_word 33 set i;
      flush_loop fuel l (j + 1)
  end.

Definition flush_old_files (l : positive) : M tres unit :=
  x ← at_ptr filess (Some l);
  flush_loop (S (Z.to_nat (max_fds x))) l 0.
End close.
