(* ===== verification/ForkCopyProps.v ===== *)
(** What a new task shares with its parent: the functions of ForkCopy keep the reference
    counts on every path, and change nothing but the object that the new task shares or
    gets as a copy ([added]). *)

From Stdlib Require Import ZArith Lia.
From stdpp Require Import base list gmap fin_maps.
From S2P Require Import Prelude.
From S2P Require Import TaskRes.
From S2P Require Import ForkCopy.

#[local] Open Scope Z_scope.

Lemma at_ptr_eq {A} (h : tres → gmap positive A) s l x : h s !! l = Some x → at_ptr h (Some l) s = Ok s x.
Proof. intros Hl. unfold at_ptr. by rewrite Hl. Qed.

Lemma current_eq cur s t : rtasks s !! cur = Some t → current_task cur s = Ok s t.
Proof. intros Hc. unfold current_task. by rewrite Hc. Qed.

Lemma newp_eta t : t = RTask (t_files t) (t_fs t) (t_sig t) (t_mm t).
Proof. by destruct t. Qed.

(** * [copy_fs] *)

Lemma dget_spec s d : is_Some (dentries s !! d) →
  dget d s = Ok (with_dentries (<[d := default 0 (dentries s !! d) + 1]> (dentries s)) s) d.
Proof.
  intros [c Hc]. unfold dget. rewrite (bind_Ok _ _ s s c) by (by apply (at_ptr_eq dentries)).
  by rewrite Hc.
Qed.

Lemma dentry_alive e own s l x : rinv e own s → fss s !! l = Some x →
  is_Some (dentries s !! fs_root x) ∧ is_Some (dentries s !! fs_pwd x).
Proof.
  intros Hi Hl.
  assert (∀ d, d = fs_root x ∨ d = fs_pwd x → is_Some (dentries s !! d)) as Hd; [|split; apply Hd; auto].
  intros d Hd. pose proof (r_dentry _ _ _ Hi d) as E. pose proof (r_ext _ _ _ Hi d) as [_ He].
  enough (0 < dentry_refs s d) by (destruct (dentries s !! d); [by eexists|cbn in E; lia]).
  unfold dentry_refs. set (g := λ y, pt (Some (fs_root y)) d + pt (Some (fs_pwd y)) d).
  assert (∀ y, 0 ≤ g y) as Hg.
  { intros y. unfold g. pose proof (pt_range (Some (fs_root y)) d). pose proof (pt_range (Some (fs_pwd y)) d). lia. }
  pose proof (msum_ge g (fss s) l x Hg Hl) as Hge. enough (0 < g x) by lia. unfold g.
  pose proof (pt_range (Some (fs_root x)) d). pose proof (pt_range (Some (fs_pwd x)) d).
  assert (∀ y, pt (Some y) y = 1) as Hy by (intros y; by rewrite pt_some, decide_True).
  destruct Hd as [-> | ->]; rewrite Hy; lia.
Qed.

(** The result of a copy function for one field of the new task. *)
Record copied (e : ext) (field : rtask → option positive) (put : option positive → rtask → rtask)
    (own : rtask) (s s' : tres) : Prop := {
  cp_tasks : rtasks s' = rtasks s;
  cp_newp : newp s' = put (field (newp s')) (newp s);
  cp_inv : rinv e (put (field (newp s')) own) s'
}.

(** ** What a copy function adds to the objects of one kind

    [m] has the objects [m0] and one reference more, [o], that of the new task: [shared], the
    object of the parent is counted once more ([up]) and otherwise as it was; or there is
    a new object, a [copy] of that of the parent.  All other objects are those of [m0]. *)
Definition added {A} (cnt : A → Z) (up : A → A) (copy : A → A → Prop) (shared : bool)
    (parent : option positive) (m0 : gmap positive A) (o : option positive) (m : gmap positive A) : Prop :=
  match o with
  | None => m = m0
  | Some l => ∃ lp x, parent = Some lp ∧ m0 !! lp = Some x ∧
      if shared then l = lp ∧ 0 < cnt x ∧ m = <[lp := up x]> m0
      else m0 !! l = None ∧ ∃ y, copy x y ∧ cnt y = 1 ∧ m = <[l := y]> m0
  end.

(** When the reference is dropped, the objects are again [m0]. *)
Lemma added_drop {A} (cnt : A → Z) up down (copy : A → A → Prop) shared parent m0 l m z :
  (∀ x, cnt (up x) = cnt x + 1) → (∀ x, down (up x) = x) →
  added cnt up copy shared parent m0 (Some l) m → m !! l = Some z →
  (if decide (cnt z = 1) then delete l m else <[l := down z]> m) = m0.
Proof.
  intros Hc Hd (lp & x & _ & Hx & H) Hz. destruct shared.
  - destruct H as (-> & Hpos & ->). rewrite lookup_insert_eq in Hz. injection Hz as <-.
    rewrite decide_False by (rewrite Hc; lia). rewrite Hd, insert_insert_eq. by apply insert_id.
  - destruct H as (Hl & y & _ & Hy & ->). rewrite lookup_insert_eq in Hz. injection Hz as <-.
    rewrite decide_True by done. by apply delete_insert_id.
Qed.

Definition up_sig (x : signal_struct) : signal_struct := Sig (sig_count x + 1) (action x).
Definition up_fs (x : fs_struct) : fs_struct := Fs (fs_count x + 1) (umask x) (fs_root x) (fs_pwd x).
Definition up_files (x : files_struct) : files_struct :=
  Files (fl_count x + 1) (next_fd x) (max_fds x) (max_fdset x) (close_on_exec x) (open_fds x) (fd x).

Definition sig_copy (x y : signal_struct) : Prop := action y = action x.
Definition fs_copy (x y : fs_struct) : Prop := umask y = umask x ∧ fs_root y = fs_root x ∧ fs_pwd y = fs_pwd x.

Definition sig_added (fl : Z) : option positive → gmap positive signal_struct → option positive → gmap positive signal_struct → Prop :=
  added sig_count up_sig sig_copy (has fl CLONE_SIGHAND).
Definition fs_added (fl : Z) : option positive → gmap positive fs_struct → option positive → gmap positive fs_struct → Prop :=
  added fs_count up_fs fs_copy (has fl CLONE_FS).

Lemma default_lookup {A} (g : A → Z) (m : gmap positive A) l x : m !! l = Some x → default 0 (g <$> m !! l) = g x.
Proof. by intros ->. Qed.

Lemma default_none {A} (g : A → Z) (m : gmap positive A) l : m !! l = None → default 0 (g <$> m !! l) = 0.
Proof. by intros ->. Qed.

Lemma copy_fs_spec e own s cur fl t l x :
  rinv e own s → t_fs own = None → rtasks s !! cur = Some t → t_fs t = Some l → fss s !! l = Some x →
  t_fs (newp s) = t_fs t →
  runs (copy_fs fl cur) s (λ s' r,
    (filess s' = filess s ∧ sigs s' = sigs s ∧ mms s' = mms s) ∧
    ((r = 0 ∧ is_Some (t_fs (newp s')) ∧ copied e t_fs set_fs own s s' ∧
        fs_added fl (t_fs t) (fss s) (t_fs (newp s')) (fss s')) ∨
     (r = -1 ∧ newp s' = set_fs None (newp s) ∧ rtasks s' = rtasks s ∧ rinv e own s' ∧ fss s' = fss s))).
Proof.
  intros Hi Ho Hc Hl Hx Hn. unfold fs_added, added. rewrite Hl.
  assert (0 < fs_count x) as Hpos.
  { pose proof (refs_task t_fs own s l cur t Hc Hl) as Hr. rewrite <- (r_fs _ _ _ Hi l), Hx in Hr. exact Hr. }
  unfold copy_fs. runs_step. eapply runs_eq; [by apply current_eq|].
  destruct (has fl CLONE_FS).
  - runs_step. rewrite Hl. eapply runs_eq; [by apply (at_ptr_eq fss)|]. runs_auto. split; [done|]. left. split; [done|].
    set (s1 := with_fss _ s). change (newp s1) with (newp s). rewrite Hl in Hn. split; [by rewrite Hn|].
    split; [|rewrite Hn; by exists l, x].
    split; change (newp s1) with (newp s); rewrite ?Hn; [done|by rewrite <- Hn; destruct (newp s)|].
    assert (s1 = with_fss (fss s1) (with_dentries (dentries s) s)) as -> by (by destruct s).
    apply (rinv_fss e own); [done|done|..]; cbn [fss s1 with_fss t_fs set_fs].
    + intros l'. rewrite default_insert, Ho, pt_some, pt_none. case_decide; [subst|lia].
      rewrite (default_lookup _ _ _ _ Hx). cbn. lia.
    + intros l' [<-|[_ H]]%lookup_insert_is_Some; apply (r_fresh _ _ _ Hi); eauto.
    + intros d. rewrite (msum_insert _ _ l x) by done. unfold dentry_refs. cbn. lia.
  - runs_step. eapply kalloc_spec; [done|..].
    + runs_step. eapply runs_eq; [reflexivity|]. runs_auto. split; [done|]. right. split_and!; [done..|by apply rinv_newp|done].
    + intros s1 Es1 Hi1 _ _ Hfree _. runs_step. eapply runs_eq; [reflexivity|]. runs_step. rewrite Hl.
      assert (fss s1 = fss s) as Efss by (by rewrite Es1). assert (rtasks s1 = rtasks s) as Ert by (by rewrite Es1).
      eapply runs_eq; [apply (at_ptr_eq fss); cbn; by rewrite Efss|]. cbn [fs_root fs_pwd].
      set (s2 := with_newp _ s1). assert (rinv e own s2) as Hi2 by (by apply rinv_newp).
      assert (fss s2 !! l = Some x) as Hx2 by (cbn; by rewrite Efss).
      destruct (dentry_alive _ _ _ _ _ Hi2 Hx2) as [Hr Hp].
      runs_step. eapply runs_eq; [by apply dget_spec|]. runs_step. eapply runs_eq.
      { apply dget_spec. cbn. apply lookup_insert_is_Some. destruct (decide (fs_root x = fs_pwd x)); [by left|by right]. }
      runs_auto. cbn. split; [by rewrite Es1|]. left. split; [done|]. split; [done|].
      split; [|exists l, x; split_and!; [done|done| |by exists (Fs 1 (umask x) (fs_root x) (fs_pwd x)); rewrite Efss]; by rewrite <- Efss].
      split; cbn.
      * by rewrite Ert.
      * by rewrite Es1.
      * eapply (rinv_fss e own (set_fs (Some (rfresh s)) own) s2 _ _) in Hi2; [exact Hi2|done|..].
        -- intros l'. rewrite default_insert, Ho. cbn [t_fs set_fs]. rewrite pt_some, pt_none.
           case_decide; [subst l'|cbn; lia]. rewrite (default_none _ _ _ Hfree). cbn. lia.
        -- intros l' [<-|[_ H]]%lookup_insert_is_Some; [cbn; by rewrite Es1; cbn; lia|].
           apply (r_fresh _ _ _ Hi2). eauto.
        -- intros d. rewrite (msum_new _ _ (rfresh s)) by done. cbn [fs_root fs_pwd]. rewrite !pt_some.
           unfold dentry_refs. cbn [dentries fss with_dentries]. rewrite !lookup_insert.
           repeat case_decide; subst; rewrite ?lookup_insert_eq; cbn; try lia; try congruence.
           match goal with H : fs_root x = fs_pwd x |- _ => rewrite H end. lia.
Qed.

(** * The signal table *)

Lemma sig_alive e own s l : rinv e own s → 0 < refs t_sig own s l → ∃ x, sigs s !! l = Some x ∧ 0 < sig_count x.
Proof.
  intros Hi Hr. rewrite <- (r_sig _ _ _ Hi l) in Hr. destruct (sigs s !! l) as [x|]; [by exists x|cbn in Hr; lia].
Qed.

Lemma copy_sighand_spec e own s cur fl t l x :
  rinv e own s → t_sig own = None → rtasks s !! cur = Some t → t_sig t = Some l → sigs s !! l = Some x →
  t_sig (newp s) = t_sig t →
  runs (copy_sighand fl cur) s (λ s' r,
    (filess s' = filess s ∧ fss s' = fss s ∧ mms s' = mms s) ∧
    ((r = 0 ∧ is_Some (t_sig (newp s')) ∧ copied e t_sig set_sig own s s' ∧
        sig_added fl (t_sig t) (sigs s) (t_sig (newp s')) (sigs s')) ∨
     (r = -1 ∧ newp s' = set_sig None (newp s) ∧ rtasks s' = rtasks s ∧ rinv e own s' ∧ sigs s' = sigs s))).
Proof.
  intros Hi Ho Hc Hl Hx Hn. unfold sig_added, added. rewrite Hl.
  assert (0 < sig_count x) as Hpos.
  { pose proof (refs_task t_sig own s l cur t Hc Hl) as Hr. rewrite <- (r_sig _ _ _ Hi l), Hx in Hr. exact Hr. }
  unfold copy_sighand. runs_step. eapply runs_eq; [by apply current_eq|].
  destruct (has fl CLONE_SIGHAND).
  - runs_step. rewrite Hl. eapply runs_eq; [by apply (at_ptr_eq sigs)|]. runs_auto. split; [done|]. left. split; [done|].
    set (s1 := with_sigs _ s). change (newp s1) with (newp s). rewrite Hl in Hn. split; [by rewrite Hn|].
    split; [|rewrite Hn; by exists l, x].
    split; change (newp s1) with (newp s); rewrite ?Hn; [done|by rewrite <- Hn; destruct (newp s)|].
    apply (rinv_sigs e own); [done|done|..].
    + intros l'. cbn [t_sig set_sig]. rewrite default_insert, Ho, pt_some, pt_none. case_decide; [subst|lia].
      rewrite (default_lookup _ _ _ _ Hx). cbn. lia.
    + intros l' [<-|[_ H]]%lookup_insert_is_Some; apply (r_fresh _ _ _ Hi); eauto.
  - runs_step. eapply kalloc_spec; [done|..].
    + runs_step. eapply runs_eq; [reflexivity|]. runs_auto. split; [done|]. right. split_and!; [done..|by apply rinv_newp|done].
    + intros s1 Es1 Hi1 _ Hfree _ _. runs_step. eapply runs_eq; [reflexivity|]. runs_step. rewrite Hl.
      set (s2 := with_newp _ s1). assert (rinv e own s2) as Hi2 by (by apply rinv_newp).
      eapply runs_eq; [apply (at_ptr_eq sigs); cbn; by rewrite Es1|]. runs_auto. cbn. assert (sigs s1 = sigs s) as Esig by (by rewrite Es1).
      split; [by rewrite Es1|]. left. split; [done|]. split; [done|].
      split; [|exists l, x; split_and!; [done|done| |by exists (Sig 1 (action x)); rewrite Esig]; by rewrite <- Esig].
      split; cbn; [by rewrite Es1|by rewrite Es1|]. apply (rinv_sigs e own (set_sig (Some (rfresh s)) own) s2); [done|done|..].
      * intros l'. change (sigs s2) with (sigs s1). cbn [t_sig set_sig]. rewrite default_insert, Ho, pt_some, pt_none.
        case_decide; [subst l'|lia]. rewrite (default_none _ _ _ Hfree). cbn. lia.
      * intros l' [<-|[_ H]]%lookup_insert_is_Some; [cbn; by rewrite Es1; cbn; lia|].
        apply (r_fresh _ _ _ Hi2). eauto.
Qed.
