(* ===== verification/ForkFilesProps.v ===== *)
(** The table of open files of a new task: [copy_files] gives it every descriptor of its
    parent, counts the files once more, and closes what [exec] closes by bits. *)

From Stdlib Require Import ZArith Lia.
From stdpp Require Import base list gmap fin_maps.
From S2P Require Import Prelude.
From S2P Require Import TaskRes.
From S2P Require Import ForkCopy.
From S2P Require Import ForkCopyProps.

#[local] Open Scope Z_scope.

(** * Tables *)

(** A descriptor: [None] is closed. *)
Definition fd_entry (x : files_struct) (i : nat) : option positive := default None (fd x !! i).

(** The sizes fit, and a descriptor in use has its bit in a word of the set. *)
Record table_wf (x : files_struct) : Prop := {
  tw_fds : max_fds x = Z.of_nat (length (fd x));
  tw_open : max_fdset x = LONG_BITS * Z.of_nat (length (open_fds x));
  tw_coe : max_fdset x = LONG_BITS * Z.of_nat (length (close_on_exec x));
  tw_min : NR_OPEN_DEFAULT ≤ max_fds x;
  tw_word i w : open_fds x !! i = Some w → w ≠ 0 → (Z.of_nat i + 1) * LONG_BITS ≤ max_fds x;
  tw_used i f : fd_entry x i = Some f →
    ∃ w, open_fds x !! Z.to_nat (Z.of_nat i / LONG_BITS) = Some w ∧ w ≠ 0
}.

(** [y] has the descriptors of [x], and no more. *)
Record table_copy (x y : files_struct) : Prop := {
  tc_fd i : fd_entry y i = fd_entry x i;
  tc_open i : default 0 (open_fds y !! i) = default 0 (open_fds x !! i);
  tc_coe i : default 0 (close_on_exec y !! i) = default 0 (close_on_exec x !! i);
  tc_count : fl_count y = 1;
  tc_next : next_fd y = 0
}.

(** * The pieces *)

Lemma last_open_spec bits n :
  (n ≤ length bits)%nat →
  ∃ i, last_open n bits = Some i ∧ (n = 0%nat → i = 0%nat) ∧ (0 < n → i < n)%nat ∧
    (∀ j, (i < j < n)%nat → bits !! j = Some 0) ∧
    (i = 0%nat ∨ ∃ w, bits !! i = Some w ∧ w ≠ 0).
Proof.
  induction n as [|n IH]; intros Hn.
  { exists 0%nat. split_and!; [done|done|lia|lia|by left]. }
  cbn [last_open]. destruct (lookup_lt_is_Some_2 bits n ltac:(lia)) as [w Hw]. rewrite Hw. cbn.
  case_decide as Hz.
  - exists n. split_and!; [done|lia|lia|lia|]. right. by exists w.
  - destruct (IH ltac:(lia)) as (i & Hi & H0 & Hlt & Hj & Hc). exists i. split_and!; [done|done| | |done].
    + intros _. destruct n; [rewrite H0 by done; lia|]. specialize (Hlt ltac:(lia)). lia.
    + intros j Hjn. destruct (decide (j = n)) as [->|]; [|apply Hj; lia]. rewrite Hw. f_equal. lia.
Qed.

Lemma copy_words_spec dst src n :
  n = Z.of_nat (length src) → n ≤ Z.of_nat (length dst) →
  ∃ l, copy_words dst src n (Z.of_nat (length dst) - n) = Some l ∧ length l = length dst ∧
    (∀ i, default 0 (l !! i) = default 0 (src !! i)) ∧ take (length src) l = src.
Proof.
  intros -> Hd. unfold copy_words. rewrite decide_True by lia. eexists. split; [done|].
  rewrite Nat2Z.id, firstn_all, drop_ge, app_nil_r by lia. split_and!.
  - rewrite length_app, length_replicate. lia.
  - intros i. destruct (decide (i < length src)%nat).
    + by rewrite lookup_app_l.
    + rewrite lookup_app_r by lia. rewrite (lookup_ge_None_2 src) by lia.
      destruct (replicate _ 0 !! _) as [z|] eqn:E; [|done]. by apply lookup_replicate in E as [-> _].
  - by rewrite take_app_length.
Qed.

Lemma get_files_spec l : ∀ s,
  (∀ f, Some f ∈ l → is_Some (files s !! f)) →
  runs (get_files l) s (λ s' _, s' = with_files (files s') s ∧
    ∀ f, files s' !! f = (λ x, File (f_count x + occ f l) (i_writecount x)) <$> files s !! f).
Proof.
  induction l as [|o l IH]; intros s Hl; cbn [get_files].
  { runs_auto. split; [by destruct s|]. intros f. destruct (files s !! f) as [[]|]; [|done]. cbn. by rewrite Z.add_0_r. }
  destruct o as [g|].
  2: { eapply runs_mono; [apply IH; intros f Hf; apply Hl; by right|]. intros s' _ [E H]. split; [done|].
       intros f. by rewrite H. }
  destruct (Hl g) as [x Hx]; [by left|]. runs_step. unfold get_file. runs_step.
  eapply runs_eq; [by apply (at_ptr_eq files)|]. runs_auto.
  eapply runs_mono; [apply IH|].
  - intros f Hf. cbn. apply lookup_insert_is_Some. destruct (decide (g = f)); [by left|right].
    split; [done|]. apply Hl. by right.
  - intros s' _ [E H]. cbn in E, H. split; [rewrite E; by destruct s|]. intros f. rewrite H. cbn [occ].
    rewrite pt_some. destruct (decide (f = g)) as [->|Hne].
    + rewrite lookup_insert_eq, Hx. cbn. do 2 f_equal; lia.
    + rewrite lookup_insert_ne by done. done.
Qed.

Lemma occ_take f l n : (∀ i, (n ≤ i)%nat → default None (l !! i) = None) → occ f (take n l) = occ f l.
Proof.
  revert n. induction l as [|o l IH]; intros n Hn; [by destruct n|]. destruct n as [|n]; cbn.
  - specialize (Hn 0%nat ltac:(lia)) as H0. cbn in H0. subst o. cbn. rewrite <- (IH 0%nat); [done|].
    intros i _. apply (Hn (S i)). lia.
  - rewrite IH; [done|]. intros i Hi. apply (Hn (S i)). lia.
Qed.

Lemma occ_replicate f n : occ f (replicate n None) = 0.
Proof. induction n; [done|]. cbn. by rewrite IHn. Qed.

(** The descriptors above the last word in use are closed. *)
Lemma above_closed x i j :
  table_wf x → (∀ k, (i < k < length (open_fds x))%nat → open_fds x !! k = Some 0) →
  (Z.of_nat i + 1) * LONG_BITS ≤ Z.of_nat j → fd_entry x j = None.
Proof.
  intros Hw Hz Hj. destruct (fd_entry x j) as [f|] eqn:E; [|done]. exfalso.
  destruct (tw_used _ Hw _ _ E) as (w & Hw' & Hne). set (k := Z.to_nat (Z.of_nat j / LONG_BITS)) in *.
  assert (Z.of_nat i + 1 ≤ Z.of_nat j / LONG_BITS) by (apply Z.div_le_lower_bound; unfold LONG_BITS in *; lia).
  assert (0 ≤ Z.of_nat j / LONG_BITS) by lia.
  pose proof (lookup_lt_Some _ _ _ Hw'). assert (open_fds x !! k = Some 0) by (apply Hz; lia). congruence.
Qed.

(** * [copy_files] *)

(** What fs/file.c promises: a larger set, or a larger array, and the rest of the table as
    it was. *)
Definition expand_fdset_law (expand_fdset : files_struct → Z → Z * files_struct) : Prop :=
  ∀ x n y, expand_fdset x n = (0, y) →
    n ≤ max_fdset y ∧ max_fdset y = LONG_BITS * Z.of_nat (length (open_fds y)) ∧
    length (close_on_exec y) = length (open_fds y) ∧
    fd y = fd x ∧ max_fds y = max_fds x ∧ fl_count y = fl_count x ∧ next_fd y = next_fd x.
Definition expand_fd_array_law (expand_fd_array : files_struct → Z → Z * files_struct) : Prop :=
  ∀ x n y, expand_fd_array x n = (0, y) →
    n ≤ max_fds y ∧ max_fds y = Z.of_nat (length (fd y)) ∧ open_fds y = open_fds x ∧
    close_on_exec y = close_on_exec x ∧ max_fdset y = max_fdset x ∧
    fl_count y = fl_count x ∧ next_fd y = next_fd x.

Section copy.
Context (expand_fdset expand_fd_array : files_struct → Z → Z * files_struct).
Context (Hfdset : expand_fdset_law expand_fdset) (Hfdarray : expand_fd_array_law expand_fd_array).

(** A table with room for the sets of [x]. *)
Record table_new (x y : files_struct) : Prop := {
  tn_set : max_fdset x ≤ max_fdset y;
  tn_open : max_fdset y = LONG_BITS * Z.of_nat (length (open_fds y));
  tn_coe : length (close_on_exec y) = length (open_fds y);
  tn_fd : Z.of_nat (length (fd y)) = NR_OPEN_DEFAULT ∧ max_fds y = NR_OPEN_DEFAULT;
  tn_count : fl_count y = 1 ∧ next_fd y = 0
}.

(** The files of [x] counted once more. *)
Definition files_counted (x : files_struct) (s s' : tres) : Prop :=
  s' = with_files (files s') s ∧
  ∀ f, files s' !! f = (λ y, File (f_count y + occ f (fd x)) (i_writecount y)) <$> files s !! f.

Lemma words_div n : LONG_BITS * n / LONG_BITS = n.
Proof. rewrite Z.mul_comm. apply Z.div_mul. unfold LONG_BITS. lia. Qed.

(** The copy of the entries up to [n], above which [x] has none. *)
Lemma fill_table_spec x y n nfds s :
  0 ≤ n → n ≤ Z.of_nat (length (fd x)) → n ≤ nfds → nfds = Z.of_nat (length (fd y)) →
  (∀ j, n ≤ Z.of_nat j → fd_entry x j = None) → (∀ i f, fd_entry x i = Some f → is_Some (files s !! f)) →
  (∀ i, default 0 (open_fds y !! i) = default 0 (open_fds x !! i)) →
  (∀ i, default 0 (close_on_exec y !! i) = default 0 (close_on_exec x !! i)) →
  fl_count y = 1 → next_fd y = 0 →
  let l := take (Z.to_nat n) (fd x) in
  runs (_ ← get_files l;
        mret (0, Files (fl_count y) (next_fd y) (max_fds y) (max_fdset y) (close_on_exec y) (open_fds y)
                   (l ++ replicate (Z.to_nat (nfds - n)) None ++ drop (Z.to_nat nfds) (fd y)))) s
    (λ s' r, (r.1 ≠ 0 ∧ s' = s) ∨ (r.1 = 0 ∧ table_copy x r.2 ∧ files_counted x s s' ∧ ∀ f, occ f (fd r.2) = occ f (fd x))).
Proof.
  intros H0 Hn Hnf -> Habove Hal Ho Hc Hcnt Hnext l.
  assert (∀ f, occ f l = occ f (fd x)) as Hocc by (intros f; apply occ_take; intros j Hj; apply Habove; lia).
  runs_step. eapply runs_mono; [apply get_files_spec|].
  { intros f [j Hj]%list_elem_of_lookup. apply lookup_take_Some in Hj as [Hj _]. apply (Hal j).
    unfold fd_entry. by rewrite Hj. }
  intros s' _ [Es Hs]. runs_auto. right. split; [done|]. rewrite drop_ge, app_nil_r by lia. split_and!.
  - split; cbn; [|done..]. intros j. unfold fd_entry. cbn [fd].
    destruct (decide (Z.of_nat j < n)) as [Hj|Hj].
    + rewrite lookup_app_l by (unfold l; rewrite length_take; lia). unfold l. by rewrite lookup_take_lt by lia.
    + rewrite lookup_app_r by (unfold l; rewrite length_take; lia). symmetry.
      pose proof (Habove j ltac:(lia)) as E0. unfold fd_entry in E0. rewrite E0.
      destruct (replicate _ None !! _) as [o|] eqn:E; [|done]. by apply lookup_replicate in E as [-> _].
  - split; [done|]. intros f. by rewrite Hs, Hocc.
  - intros f. by rewrite occ_app, occ_replicate, Hocc, Z.add_0_r.
Qed.

Lemma copy_table_spec x newf s :
  table_wf x → table_new x newf → (∀ i f, fd_entry x i = Some f → is_Some (files s !! f)) →
  runs (copy_table expand_fd_array x newf (max_fdset x)) s (λ s' r,
    (r.1 ≠ 0 ∧ s' = s) ∨ (r.1 = 0 ∧ table_copy x r.2 ∧ files_counted x s s' ∧ ∀ f, occ f (fd r.2) = occ f (fd x))).
Proof.
  intros Hw [Hset Hopen Hcoe [Hfd Hmax] [Hcnt Hnext]] Hal. unfold copy_table.
  assert (max_fdset x / LONG_BITS = Z.of_nat (length (open_fds x))) as En by (rewrite (tw_open _ Hw); apply words_div).
  assert (length (close_on_exec x) = length (open_fds x)) as Elen.
  { pose proof (tw_open _ Hw) as E1. rewrite (tw_coe _ Hw) in E1. unfold LONG_BITS in E1. lia. }
  assert ((if decide (max_fdset newf > max_fdset x) then (max_fdset newf - max_fdset x) / LONG_BITS else 0) =
    Z.of_nat (length (open_fds newf)) - Z.of_nat (length (open_fds x))) as Eleft.
  { rewrite Hopen, (tw_open _ Hw) in *. case_decide; [|unfold LONG_BITS in *; lia].
    rewrite <- Z.mul_sub_distr_l. apply words_div. }
  rewrite En, Eleft. rewrite Hopen, (tw_open _ Hw) in Hset.
  destruct (copy_words_spec (open_fds newf) (open_fds x) _ eq_refl) as (open & Eo & Hlo & Ho & Hto); [unfold LONG_BITS in *; lia|].
  destruct (copy_words_spec (close_on_exec newf) (close_on_exec x) _ eq_refl) as (coe & Ec & Hlc & Hco & _); [unfold LONG_BITS in *; lia|].
  rewrite Elen in Ec. rewrite Hcoe in Ec. rewrite Eo, Ec. rewrite Nat2Z.id. cbn [or_oob].
  destruct (last_open_spec open (length (open_fds x)) ltac:(unfold LONG_BITS in *; lia)) as (i & Ei & Hi0 & Hlt & Hj & Hc).
  do 4 runs_step. rewrite Ei. cbn [or_oob]. do 2 runs_step.
  assert (∀ k w, open_fds x !! k = Some w → open !! k = Some w) as Hopen_eq.
  { intros k w Hk. rewrite <- Hto in Hk. apply lookup_take_Some in Hk. tauto. }
  set (n := (Z.of_nat i + 1) * LONG_BITS).
  assert (n ≤ Z.of_nat (length (fd x))) as Hn.
  { rewrite <- (tw_fds _ Hw). destruct Hc as [-> | (w & Hiw & Hne)]; [apply (tw_min _ Hw)|].
    destruct (decide (i < length (open_fds x))%nat) as [Hlt'|Hge].
    - destruct (lookup_lt_is_Some_2 _ _ Hlt') as [w' Hw']. pose proof (Hopen_eq _ _ Hw').
      eapply (tw_word _ Hw i w'); [done|congruence].
    - destruct (decide (length (open_fds x) = 0%nat)) as [E0|]; [|specialize (Hlt ltac:(lia)); lia].
      unfold n. rewrite (Hi0 E0). apply (tw_min _ Hw). }
  assert (∀ j, n ≤ Z.of_nat j → fd_entry x j = None) as Habove.
  { intros j Hjn. apply (above_closed x i j Hw); [|done]. intros k Hk.
    destruct (lookup_lt_is_Some_2 (open_fds x) k ltac:(lia)) as [w Hkw].
    pose proof (Hopen_eq _ _ Hkw). rewrite (Hj k) in * by lia. congruence. }
  cbv zeta. destruct (decide (n > NR_OPEN_DEFAULT)) as [Hbig|Hbig].
  - destruct (expand_fd_array _ n) as [err y] eqn:Ey. destruct (decide (err ≠ 0)) as [Herr|Herr]; [by runs_auto; left|].
    assert (err = 0) as -> by lia. apply Hfdarray in Ey as (Y1 & Y2 & Y3 & Y4 & Y5 & Y6 & Y7).
    cbn in Y3, Y4, Y6, Y7. rewrite !decide_True by lia. apply fill_table_spec; try done; try lia.
    + intros j. by rewrite Y3.
    + intros j. by rewrite Y4.
  - rewrite (decide_False (P := 0 ≠ 0)) by lia. cbn [max_fds fd fl_count next_fd max_fdset close_on_exec open_fds].
    rewrite decide_True by (unfold n, LONG_BITS, NR_OPEN_DEFAULT in *; lia).
    apply (fill_table_spec x (Files (fl_count newf) (next_fd newf) (max_fds newf) (max_fdset newf) coe open (fd newf)));
      try done; unfold n, LONG_BITS, NR_OPEN_DEFAULT in *; lia.
Qed.

(** A file that a table refers to is there. *)
Lemma file_alive e own s l x i f :
  rinv e own s → filess s !! l = Some x → fd_entry x i = Some f → is_Some (files s !! f).
Proof.
  intros Hi Hl Hf. pose proof (r_file _ _ _ Hi f) as E. pose proof (r_ext _ _ _ Hi f) as [He _].
  enough (0 < file_refs s f) by (destruct (files s !! f); [by eexists|cbn in E; lia]).
  unfold file_refs.
  pose proof (msum_nonneg (λ m, occ f (mm_files m)) (mms s) (λ m, occ_nonneg f (mm_files m))).
  pose proof (msum_ge (λ y, occ f (fd y)) (filess s) l x (λ y, occ_nonneg f (fd y)) Hl) as Hge. cbn beta in Hge.
  enough (0 < occ f (fd x)) by lia. unfold fd_entry in Hf. clear -Hf. revert i Hf.
  induction (fd x) as [|o fs IH]; intros [|i]; cbn; try done.
  - intros ->. rewrite pt_some, decide_True by done. pose proof (occ_nonneg f fs). lia.
  - intros Hf%IH. pose proof (pt_range o f). lia.
Qed.

(** What the new task has for the table of its parent: the same table, or a copy. *)
Definition files_added (fl : Z) : option positive → gmap positive files_struct → option positive → gmap positive files_struct → Prop :=
  added fl_count up_files table_copy (has fl CLONE_FILES).

(** The initial sets and array of a table. *)
Definition junk_ok (jo jc : list Z) (jf : list (option positive)) : Prop :=
  Z.of_nat (length jo) * LONG_BITS = FD_SETSIZE ∧ length jc = length jo ∧ Z.of_nat (length jf) = NR_OPEN_DEFAULT.

Lemma new_table_room x jo jc jf (P : Z * files_struct → Prop) :
  junk_ok jo jc jf → table_wf x →
  (∀ error y, error ≠ 0 → P (error, y)) → (∀ y, table_new x y → P (0, y)) →
  P (if decide (max_fdset x > FD_SETSIZE)
     then expand_fdset (Files 1 0 NR_OPEN_DEFAULT 0 jc jo jf) (max_fdset x)
     else (0, new_table jo jc jf)).
Proof.
  intros (Hjo & Hjc & Hjf) Hw Herr Hok. case_decide as Hbig.
  - destruct (expand_fdset _ _) as [error y] eqn:Ey. destruct (decide (error = 0)) as [->|]; [|by apply Herr].
    apply Hfdset in Ey as (Y1 & Y2 & Y3 & Y4 & Y5 & Y6 & Y7). apply Hok. split; [lia|done|done| |done].
    rewrite Y4, Y5. cbn. lia.
  - apply Hok. split; cbn; [lia|lia|done|done|done].
Qed.

(** A copy of the table [x] is a new reference to each of its files. *)
Lemma rinv_table_copy e own s s' l' x y :
  rinv e own s → t_files own = None → filess s !! l' = None → (l' < rfresh s)%positive →
  files_counted x s s' → fl_count y = 1 → (∀ f, occ f (fd y) = occ f (fd x)) →
  (∀ i f, fd_entry x i = Some f → is_Some (files s !! f)) →
  rinv e (set_files (Some l') own) (with_filess (<[l' := y]> (filess s')) s').
Proof.
  intros Hi Ho Hl Hf [Es Hc] Hy Hocc Hal.
  assert (filess s' = filess s) as Efl by (by rewrite Es).
  assert (with_filess (<[l' := y]> (filess s')) s' = with_filess (<[l' := y]> (filess s)) (with_files (files s') s)) as ->
    by (rewrite Efl; by rewrite Es at 1).
  apply (rinv_filess e own); [done|done|..]; cbn [t_files set_files].
  - intros k. rewrite default_insert, Ho, pt_some, pt_none. case_decide; [subst k|lia].
    rewrite (default_none _ _ _ Hl). lia.
  - intros k [<-|[_ H]]%lookup_insert_is_Some; [done|]. apply (r_fresh _ _ _ Hi). eauto 6.
  - intros f. rewrite msum_new by done. rewrite Hc, Hocc. destruct (files s !! f) as [z|] eqn:E; cbn; [lia|].
    enough (occ f (fd x) = 0) by lia. pose proof (occ_nonneg f (fd x)).
    destruct (decide (occ f (fd x) = 0)) as [|Hne]; [done|]. exfalso.
    assert (∃ i, fd_entry x i = Some f) as [i Hif]; [|destruct (Hal _ _ Hif); congruence].
    unfold fd_entry. clear -Hne. induction (fd x) as [|o fs IH]; [done|]. cbn in Hne.
    unfold pt in Hne. case_decide; [by exists 0%nat|]. destruct IH as [i Hi]; [lia|]. by exists (S i).
  - intros f z. rewrite Hc. destruct (files s !! f) as [w|]; [|done]. intros [= <-]. by exists w.
Qed.

(** [copy_files] gives the new task the table of its parent, or one with the same open
    descriptors and close-on-exec bits, and counts the files; when memory is short or a
    table cannot be made larger it fails and leaves the new task without one.  The
    reference counts are right on every path. *)
Lemma copy_files_spec jo jc jf e own s cur fl t l x :
  rinv e own s → t_files own = None → rtasks s !! cur = Some t → t_files t = Some l → filess s !! l = Some x →
  table_wf x → t_files (newp s) = t_files t → junk_ok jo jc jf →
  runs (copy_files expand_fdset expand_fd_array jo jc jf fl cur) s (λ s' r,
    (fss s' = fss s ∧ sigs s' = sigs s ∧ mms s' = mms s) ∧
    ((r = 0 ∧ is_Some (t_files (newp s')) ∧ copied e t_files set_files own s s' ∧
        files_added fl (t_files t) (filess s) (t_files (newp s')) (filess s')) ∨
     (r ≠ 0 ∧ newp s' = set_files None (newp s) ∧ rtasks s' = rtasks s ∧ rinv e own s' ∧ filess s' = filess s))).
Proof.
  intros Hi Ho Hc Hl Hx Hw Hn Hj. unfold copy_files. runs_step. eapply runs_eq; [by apply current_eq|].
  rewrite Hl. runs_step. eapply runs_eq; [by apply (at_ptr_eq filess)|].
  unfold files_added, added.
  assert (0 < fl_count x) as Hpos.
  { pose proof (refs_task t_files own s l cur t Hc Hl) as Hr. rewrite <- (r_files _ _ _ Hi l), Hx in Hr. exact Hr. }
  destruct (has fl CLONE_FILES).
  - runs_auto. split; [done|]. left. split; [done|]. set (s1 := with_filess _ s). change (newp s1) with (newp s). rewrite Hl in Hn.
    rewrite Hn. split; [by eexists|]. split; [|by exists l, x].
    split; change (newp s1) with (newp s); rewrite ?Hn; [done|by rewrite <- Hn; destruct (newp s)|].
    assert (s1 = with_filess (filess s1) (with_files (files s) s)) as -> by (by destruct s).
    apply (rinv_filess e own); [done|done|..]; cbn [filess s1 with_filess t_files set_files].
    + intros l'. rewrite default_insert, Ho, pt_some, pt_none. case_decide; [subst|lia].
      rewrite (default_lookup _ _ _ _ Hx). cbn. lia.
    + intros l' [<-|[_ H]]%lookup_insert_is_Some; apply (r_fresh _ _ _ Hi); eauto 6.
    + intros f. rewrite (msum_insert _ _ l x) by done. cbn. lia.
    + intros f y Hy. by exists y.
  - runs_step. eapply runs_eq; [reflexivity|]. set (s0 := with_newp _ s).
    assert (rinv e own s0) as Hi0 by (by apply rinv_newp). runs_step. eapply kalloc_spec; [done|..].
    + runs_auto. split; [done|]. right. split_and!; [by unfold ENOMEM|done..].
    + intros s1 Es1 Hi1 _ _ _ Hfree.
      pattern (if decide (max_fdset x > FD_SETSIZE) then expand_fdset (Files 1 0 NR_OPEN_DEFAULT 0 jc jo jf) (max_fdset x)
               else (0, new_table jo jc jf)).
      apply new_table_room; [done|done|..].
      * intros error y Herr. cbv beta iota. rewrite decide_True by done. runs_auto.
        split; [by rewrite Es1|]. right. split_and!; [done|by rewrite Es1|by rewrite Es1|done|by rewrite Es1].
      * intros newf Hnew. cbv beta iota. rewrite decide_False by (intros H; by apply H).
        assert (filess s1 = filess s) as Efl by (by rewrite Es1).
        runs_step. eapply runs_mono; [apply (copy_table_spec x newf); [done|done|]|].
        { intros i f Hf. eapply (file_alive e own s1 l x); [done|by rewrite Efl|done]. }
        intros s2 r [[Hr ->]|(Hr & Hcopy & [Es2 Hcnt] & Hocc)].
        { rewrite decide_True by done. runs_auto.
          split; [by rewrite Es1|]. right. split_and!; [done|by rewrite Es1|by rewrite Es1|done|by rewrite Es1]. }
        rewrite decide_False by lia. runs_auto. split; [cbn; by rewrite Es2, Es1|]. left. split; [done|].
        assert (filess s2 = filess s1) as Efl2 by (by rewrite Es2). split; [by eexists|].
        split.
        -- split; cbn; [by rewrite Es2, Es1|by rewrite Es2, Es1|].
           apply (rinv_newp e _ (with_filess (<[rfresh s := r.2]> (filess s2)) s2)).
           apply (rinv_table_copy e own s1 s2 _ x); try done; [rewrite Es1; cbn; lia|by apply (tc_count _ _ Hcopy)|].
           intros i f Hf. eapply (file_alive e own s1 l x); [done|by rewrite Efl|done].
        -- exists l, x. change (rfresh s0) with (rfresh s) in Hfree. rewrite <- Efl. split_and!; [done|by rewrite Efl|done|].
           exists r.2. split_and!; [done|by apply (tc_count _ _ Hcopy)|]. cbn. by rewrite Efl2.
Qed.
End copy.
