(* ===== verification/ForkMm.v ===== *)
(** The memory of a task: [mm_alloc], [mmput], [dup_mmap] and [copy_mm] of
    src/src/dkmke/fork.c and [exec_mmap] of exec.c.

    Page tables are the set [pgds]; what is in them is not modelled, nor are the AVL tree
    of the areas, the caches of the processor and the semaphore of the memory.  What mm/memory.c and mm/mmap.c do is a parameter: [new_page_tables]
    gives a memory its own page table, [copy_page_range] copies the pages of an area,
    [vm_open] tells the one who made an area that it was copied (nothing, without such an
    operation), [exit_mmap] removes all areas, [free_page_tables] gives the table back. *)

From Stdlib Require Import ZArith Lia.
From stdpp Require Import base list gmap fin_maps.
From S2P Require Import Prelude.
From S2P Require Import TaskRes.

#[local] Open Scope Z_scope.

Definition set_pgd (g : option positive) (m : mm_struct) : mm_struct :=
  Mm (mm_count m) g (mm_mmap m) (map_count m) (mm_locked m).
Definition set_mm_count (c : Z) (m : mm_struct) : mm_struct :=
  Mm c (mm_pgd m) (mm_mmap m) (map_count m) (mm_locked m).
Definition set_mmap (l : list vma) (c : Z) (m : mm_struct) : mm_struct :=
  Mm (mm_count m) (mm_pgd m) l c (mm_locked m).
Definition set_locked (b : bool) (m : mm_struct) : mm_struct :=
  Mm (mm_count m) (mm_pgd m) (mm_mmap m) (map_count m) b.

(** [mm->f = _] *)
Definition update_mm (l : positive) (g : mm_struct → mm_struct) : M tres unit :=
  m ← at_ptr mms (Some l); store_mm l (g m).

(** The page table of the current task stays in the new memory. *)
Definition mm_alloc (cur : Z) : M tres (option positive) :=
  o ← kalloc;
  match o with
  | None => mret None
  | Some l =>
    t ← current_task cur;
    m ← at_ptr mms (t_mm t);
    _ ← store_mm l (Mm 1 (mm_pgd m) [] 0 true);
    mret (Some l)
  end.

(** The area [tmp] in the share list of its file, behind [id]. *)
Fixpoint insert_after (id tmp : positive) (l : list positive) : list positive :=
  match l with
  | [] => []
  | x :: l => if decide (x = id) then x :: tmp :: l else x :: insert_after id tmp l
  end.

Definition share_after (f id tmp : positive) : M tres unit :=
  modify (λ s, with_share (alter (insert_after id tmp) f (share s)) s).

Section mm.
Context (new_page_tables : positive → M tres Z).
Context (copy_page_range : positive → vma → Z).
Context (vm_open : vma → M tres unit).
Context (exit_mmap free_page_tables : positive → M tres unit).

Definition mmput (l : positive) : M tres unit :=
  m ← at_ptr mms (Some l);
  _ ← store_mm l (set_mm_count (mm_count m - 1) m);
  if decide (mm_count m - 1 = 0) then
    _ ← exit_mmap l;
    _ ← free_page_tables l;
    modify (λ s, with_mms (delete l (mms s)) s)
  else mret ().

(** The copy of an area: the file is counted, and the area linked, also when the copy of
    its pages fails. *)
Definition dup_area (mm : positive) (mpnt : vma) (id : positive) : M tres Z :=
  let tmp := Vma id (Z.land (vm_flags mpnt) (Z.lnot VM_LOCKED)) (vm_file mpnt) in
  _ ← update_mm mm (λ m, set_mmap (mm_mmap m) (map_count m + 1) m);
  _ ← match vm_file tmp with
      | Some f => _ ← get_file f (deny tmp); share_after f (vm_id mpnt) id
      | None => mret ()
      end;
  let retval := copy_page_range mm tmp in
  _ ← (if decide (retval = 0) then vm_open tmp else mret ());
  _ ← update_mm mm (λ m, set_mmap (mm_mmap m ++ [tmp]) (map_count m) m);
  mret retval.

Fixpoint dup_loop (mpnts : list vma) (mm : positive) : M tres Z :=
  match mpnts with
  | [] => mret 0
  | mpnt :: rest =>
    o ← kalloc;
    match o with
    | None => mret (- ENOMEM)
    | Some id =>
      retval ← dup_area mm mpnt id;
      if decide (retval ≠ 0) then mret retval else dup_loop rest mm
    end
  end.

Definition dup_mmap (cur : Z) (mm : positive) : M tres Z :=
  t ← current_task cur;
  m ← at_ptr mms (t_mm t);
  dup_loop (mm_mmap m) mm.

Definition copy_mm (clone_flags cur : Z) : M tres Z :=
  t ← current_task cur;
  if has clone_flags CLONE_VM then
    m ← at_ptr mms (t_mm t);
    match t_mm t with
    | Some l => _ ← store_mm l (set_mm_count (mm_count m + 1) m); mret 0
    | None => stop NullDeref
    end
  else
    o ← mm_alloc cur;
    match o with
    | None => mret (- ENOMEM)
    | Some mm =>
      _ ← set_newp (set_mm (Some mm));
      retval ← new_page_tables mm;
      if decide (retval ≠ 0) then
        _ ← update_mm mm (set_pgd None);
        _ ← set_newp (set_mm None);
        _ ← mmput mm;
        mret retval
      else
        retval ← dup_mmap cur mm;
        if decide (retval ≠ 0) then
          _ ← set_newp (set_mm None);
          _ ← mmput mm;
          mret retval
        else
          _ ← update_mm mm (set_locked false);
          mret 0
    end.

Definition exec_mmap (cur : Z) : M tres Z :=
  t ← current_task cur;
  match t_mm t with
  | None => stop NullDeref
  | Some old_mm =>
    m ← at_ptr mms (Some old_mm);
    if decide (mm_count m = 1) then
      _ ← exit_mmap old_mm;
      mret 0
    else
      o ← mm_alloc cur;
      match o with
      | None => mret (- ENOMEM)
      | Some mm =>
        _ ← set_current cur (set_mm (Some mm));
        retval ← new_page_tables mm;
        if decide (retval ≠ 0) then
          _ ← update_mm mm (set_pgd None);
          _ ← set_current cur (set_mm (Some old_mm));
          _ ← mmput mm;
          mret retval
        else
          _ ← update_mm mm (set_locked false);
          _ ← mmput old_mm;
          mret 0
      end
  end.
End mm.
