(* ===== verification/ForkMmProps.v ===== *)
(** The memory of a task: on every path of [copy_mm] and [exec_mmap] the reference counts
    stay right, a page table belongs to one memory, and is not given back while it does;
    a copy has the areas of the original.  The second part says what the whole functions
    do; what mm/memory.c and mm/mmap.c promise is in the laws of its section. *)

From Stdlib Require Import ZArith Lia.
From stdpp Require Import base list gmap fin_maps.
From S2P Require Import Prelude.
From S2P Require Import TaskRes.
From S2P Require Import ForkCopyProps.
From S2P Require Import ForkMm.
#[local] Open Scope Z_scope.

(** * The invariant when a memory changes *)

Lemma rinv_mms e own own' s s' :
  rinv e own s → same_but_mm own own' →
  sigs s' = sigs s → fss s' = fss s → filess s' = filess s → dentries s' = dentries s → rfresh s' = rfresh s →
  rtasks s' = rtasks s →
  (∀ l, default 0 (mm_count <$> mms s' !! l) =
        default 0 (mm_count <$> mms s !! l) + pt (t_mm own') l - pt (t_mm own) l) →
  (∀ f, default 0 (f_count <$> files s' !! f) = default 0 (f_count <$> files s !! f)
     + msum (λ m, occ f (mm_files m)) (mms s') - msum (λ m, occ f (mm_files m)) (mms s)) →
  (∀ f x, files s' !! f = Some x → ∃ y, files s !! f = Some y ∧
     i_writecount x = i_writecount y + deny_refs s f - deny_refs s' f) →
  (∀ l m g, mms s' !! l = Some m → mm_pgd m = Some g → is_Some (pgds s' !! g)) →
  (∀ l1 l2 m1 m2 g, mms s' !! l1 = Some m1 → mms s' !! l2 = Some m2 →
     mm_pgd m1 = Some g → mm_pgd m2 = Some g → l1 = l2) →
  (∀ l, is_Some (mms s' !! l) → (l < rfresh s)%positive) →
  rinv e own' s'.
Proof.
  intros Hi (E1 & E2 & E3) Es Ef Efl Ed Er Et Hc Hfc Hw Hp Hu Hfr. split; try done; [..|apply Hi|].
  - intros l. rewrite Es, (r_sig _ _ _ Hi). by rewrite (refs_same t_sig own own' s).
  - intros l. rewrite Ef, (r_fs _ _ _ Hi). by rewrite (refs_same t_fs own own' s).
  - intros l. rewrite Efl, (r_files _ _ _ Hi). by rewrite (refs_same t_files own own' s).
  - intros l. rewrite Hc, (r_mm _ _ _ Hi). by rewrite (refs_change t_mm own own' s).
  - intros f. rewrite Hfc, (r_file _ _ _ Hi). unfold file_refs. rewrite Efl. lia.
  - intros f x Hx. destruct (Hw _ _ Hx) as (y & Hy & ->). rewrite (r_write _ _ _ Hi _ _ Hy). lia.
  - intros d. rewrite Ed. unfold dentry_refs. rewrite Ef. apply (r_dentry _ _ _ Hi).
  - rewrite Es, Ef, Efl, Er. pose proof (r_fresh _ _ _ Hi). naive_solver.
Qed.

(** A new memory without areas, with a page table of its own or none. *)
Definition add_pgd (o : option positive) (m : gmap positive unit) : gmap positive unit :=
  match o with Some g => <[g := ()]> m | None => m end.

Lemma rinv_new_mm e own s l o b :
  rinv e own s → t_mm own = None → mms s !! l = None → (l < rfresh s)%positive →
  (∀ g, o = Some g → pgds s !! g = None) →
  rinv e (set_mm (Some l) own)
    (with_mms (<[l := Mm 1 o [] 0 b]> (mms s)) (with_pgds (add_pgd o (pgds s)) s)).
Proof.
  intros Hi Ho Hl Hf Hg.
  assert (∀ g, is_Some (pgds s !! g) → is_Some (add_pgd o (pgds s) !! g)) as Hsub.
  { intros g Hs. unfold add_pgd. destruct o; [|done]. apply lookup_insert_is_Some. destruct (decide (p = g)); eauto. }
  assert (∀ k m g, mms s !! k = Some m → mm_pgd m = Some g → o ≠ Some g) as Hne.
  { intros k m g Hk Hm ->. destruct (r_pgd _ _ _ Hi k m g Hk Hm) as [? E]. by rewrite Hg in E. }
  eapply rinv_mms; try done; cbn [mms pgds files with_mms with_pgds t_mm set_mm].
  - intros k. rewrite default_insert, Ho, pt_some, pt_none. case_decide; [subst k|lia].
    rewrite (default_none _ _ _ Hl). done.
  - intros f. rewrite msum_new by done. cbn. lia.
  - intros f x Hx. exists x. split; [done|]. unfold deny_refs. cbn. rewrite msum_new by done. cbn. lia.
  - intros k m g [[<- <-]|[_ Hk]]%lookup_insert_Some; cbn.
    + intros ->. cbn. rewrite lookup_insert_eq. by eexists.
    + intros Hm. apply Hsub. by eapply (r_pgd _ _ _ Hi).
  - intros l1 l2 m1 m2 g [[<- <-]|[_ H1]]%lookup_insert_Some [[<- <-]|[_ H2]]%lookup_insert_Some E1 E2; [done|..].
    + by destruct (Hne _ _ _ H2 E2).
    + by destruct (Hne _ _ _ H1 E1).
    + by eapply (r_pgd_uniq _ _ _ Hi).
  - intros k [<-|[_ H]]%lookup_insert_is_Some; [done|]. apply (r_fresh _ _ _ Hi). eauto.
Qed.

(** The current task and the reference [own] change places. *)
Lemma rinv_swap_mm e own s cur t o :
  rinv e own s → rtasks s !! cur = Some t → t_mm own = o →
  rinv e (set_mm (t_mm t) own) (with_rtasks (<[cur := set_mm o t]> (rtasks s)) s).
Proof. intros Hi Hc Ho. apply (rinv_swap e own _ s cur t); [done..|]. intros l. cbn. rewrite Ho. lia. Qed.

(** A memory whose page table and count stay: what its areas refer to changes. *)
Lemma mm_denies_app f l1 l2 :
  foldr (λ v n, pt (vm_file v) f * deny v + n) 0 (l1 ++ l2) =
  foldr (λ v n, pt (vm_file v) f * deny v + n) 0 l1 + foldr (λ v n, pt (vm_file v) f * deny v + n) 0 l2.
Proof. induction l1 as [|v l1 IH]; cbn; [lia|]. rewrite IH. lia. Qed.

Definition same_mm (m m' : mm_struct) : Prop := mm_count m' = mm_count m ∧ mm_pgd m' = mm_pgd m.

Lemma rinv_areas e own s s' l m m' :
  rinv e own s → mms s !! l = Some m → same_mm m m' → mms s' = <[l := m']> (mms s) →
  pgds s' = pgds s → sigs s' = sigs s → fss s' = fss s → filess s' = filess s → dentries s' = dentries s →
  rfresh s' = rfresh s → rtasks s' = rtasks s →
  (∀ f, default 0 (f_count <$> files s' !! f) =
        default 0 (f_count <$> files s !! f) + occ f (mm_files m') - occ f (mm_files m)) →
  (∀ f x, files s' !! f = Some x → ∃ y, files s !! f = Some y ∧
     i_writecount x = i_writecount y + mm_denies f m - mm_denies f m') →
  rinv e own s'.
Proof.
  intros Hi Hl [Ec Eg] Em Ep Es Ef Efl Ed Er Et Hf Hw. eapply rinv_mms; try done; rewrite ?Em, ?Ep.
  - intros k. rewrite default_insert. case_decide; [subst k|lia]. rewrite (default_lookup _ _ _ _ Hl), Ec. lia.
  - intros f. rewrite Hf, (msum_insert _ _ l m) by done. lia.
  - intros f x Hx. destruct (Hw _ _ Hx) as (y & Hy & E). exists y. split; [done|]. unfold deny_refs.
    rewrite Em, (msum_insert _ _ l m) by done. lia.
  - intros k mk g [[<- <-]|[_ Hk]]%lookup_insert_Some; rewrite ?Eg; by eapply (r_pgd _ _ _ Hi).
  - intros l1 l2 m1 m2 g [[<- <-]|[_ H1]]%lookup_insert_Some [[<- <-]|[_ H2]]%lookup_insert_Some;
      rewrite ?Eg; by eapply (r_pgd_uniq _ _ _ Hi).
  - intros k [<-|[_ H]]%lookup_insert_is_Some; apply (r_fresh _ _ _ Hi); eauto.
Qed.

(** Nothing but the share lists and the number of free pages changes. *)
Lemma rinv_with_share e own s sh : rinv e own s → rinv e own (with_share sh s).
Proof. intros Hi. split; apply Hi. Qed.

Lemma rinv_with_mem e own s n : rinv e own s → rinv e own (with_mem n s).
Proof. intros Hi. split; apply Hi. Qed.

(** A file that an area maps exists. *)
Lemma area_file_alive e own s l m v f : rinv e own s → mms s !! l = Some m → v ∈ mm_mmap m → vm_file v = Some f →
  ∃ x, files s !! f = Some x.
Proof.
  intros Hi Hl Hv Hf. pose proof (r_file _ _ _ Hi f) as E. pose proof (r_ext _ _ _ Hi f) as [He _].
  enough (0 < file_refs s f) by (destruct (files s !! f) as [x|]; [by exists x|cbn in E; lia]).
  unfold file_refs.
  pose proof (msum_nonneg (λ x, occ f (fd x)) (filess s) (λ x, occ_nonneg f (fd x))).
  pose proof (msum_ge (λ m, occ f (mm_files m)) (mms s) l m (λ m, occ_nonneg f (mm_files m)) Hl) as Hge.
  enough (0 < occ f (mm_files m)) by (cbn in Hge; lia). unfold mm_files. clear -Hv Hf.
  induction (mm_mmap m) as [|w ws IH]; [by apply not_elem_of_nil in Hv|]. cbn.
  pose proof (occ_nonneg f (vm_file <$> ws)). pose proof (pt_range (vm_file w) f).
  apply elem_of_cons in Hv as [->|Hv]; [rewrite Hf, pt_some, decide_True by done; lia|].
  specialize (IH Hv). lia.
Qed.

(** The count of a memory follows the reference that [own] holds. *)
Lemma rinv_mm_count e own own' s l m d :
  rinv e own s → same_but_mm own own' → mms s !! l = Some m →
  (∀ k, pt (t_mm own') k - pt (t_mm own) k = if decide (k = l) then d else 0) →
  rinv e own' (with_mms (<[l := set_mm_count (mm_count m + d) m]> (mms s)) s).
Proof.
  intros Hi Hs Hl Hd. set (m1 := set_mm_count _ m). assert (mm_pgd m1 = mm_pgd m) as Eg by done.
  eapply (rinv_mms e own _ s); try done; cbn [mms files pgds with_mms].
  - intros k. specialize (Hd k). rewrite default_insert. case_decide; [subst k; rewrite Hl; cbn; lia|lia].
  - intros f. rewrite (msum_insert _ _ l m) by done. change (mm_files m1) with (mm_files m). lia.
  - intros f x Hx. exists x. split; [done|]. unfold deny_refs. cbn. rewrite (msum_insert _ _ l m) by done.
    change (mm_denies f m1) with (mm_denies f m). lia.
  - intros k mk g [[<- <-]|[_ Hk]]%lookup_insert_Some; rewrite ?Eg; by eapply (r_pgd _ _ _ Hi).
  - intros l1 l2 x1 x2 g [[<- <-]|[_ Ha]]%lookup_insert_Some [[<- <-]|[_ Hb]]%lookup_insert_Some;
      rewrite ?Eg; by eapply (r_pgd_uniq _ _ _ Hi).
  - intros k [<-|[_ H]]%lookup_insert_is_Some; apply (r_fresh _ _ _ Hi); eauto.
Qed.

(** * What the memory manager promises *)

(** A new page table for [l], or an error. *)
Definition new_page_tables_law (new_page_tables : positive → M tres Z) : Prop :=
  ∀ l s m, mms s !! l = Some m → ∃ s' r n, new_page_tables l s = Ok s' r ∧
    ((r ≠ 0 ∧ s' = with_mem n s) ∨
     (r = 0 ∧ ∃ g, pgds s !! g = None ∧
        s' = with_mem n (with_mms (<[l := set_pgd (Some g) m]> (mms s)) (with_pgds (<[g := ()]> (pgds s)) s)))).

(** The areas of [l] are gone, and with them their references to files, which exist. *)
Definition exit_mmap_law (exit_mmap : positive → M tres unit) : Prop :=
  ∀ l s m, mms s !! l = Some m → (∀ v f, v ∈ mm_mmap m → vm_file v = Some f → is_Some (files s !! f)) → ∃ fs sh n,
    exit_mmap l s = Ok (with_mem n (with_share sh (with_files fs (with_mms (<[l := set_mmap [] 0 m]> (mms s)) s)))) () ∧
    (∀ f, default 0 (f_count <$> fs !! f) = default 0 (f_count <$> files s !! f) - occ f (mm_files m)) ∧
    (∀ f x, fs !! f = Some x → ∃ y, files s !! f = Some y ∧ i_writecount x = i_writecount y + mm_denies f m).

(** The page table of [l] is given back. *)
Definition free_page_tables_law (free_page_tables : positive → M tres unit) : Prop :=
  ∀ l s m, mms s !! l = Some m → ∃ n,
    free_page_tables l s = Ok (with_mem n (with_pgds (match mm_pgd m with Some g => delete g (pgds s) | None => pgds s end) s)) ().

(** The one who made an area counts its copies, and nothing of this state. *)
Definition vm_open_law (vm_open : vma → M tres unit) : Prop :=
  ∀ v s, ∃ n, vm_open v s = Ok (with_mem n s) ().

(** * The copy of the areas *)

Definition area_copy (v v' : vma) : Prop :=
  vm_flags v' = Z.land (vm_flags v) (Z.lnot VM_LOCKED) ∧ vm_file v' = vm_file v.

Lemma update_mm_eq l g s m : mms s !! l = Some m → update_mm l g s = Ok (with_mms (<[l := g m]> (mms s)) s) ().
Proof. intros Hl. unfold update_mm. by rewrite (bind_Ok _ _ s s m) by (by apply (at_ptr_eq mms)). Qed.

(** Nothing that tasks share but memories has changed. *)
Definition same_rest (s s' : tres) : Prop :=
  sigs s' = sigs s ∧ fss s' = fss s ∧ filess s' = filess s ∧ dentries s' = dentries s.

Lemma same_rest_trans s1 s2 s3 : same_rest s1 s2 → same_rest s2 s3 → same_rest s1 s3.
Proof. unfold same_rest. naive_solver congruence. Qed.

(** The state after an area has been added to a memory. *)
Record dupped (e : ext) (own : rtask) (l : positive) (m : mm_struct) (new : list vma) (s s' : tres) : Prop := {
  du_inv : rinv e own s';
  du_tasks : rtasks s' = rtasks s;
  du_newp : newp s' = newp s;
  du_pgds : pgds s' = pgds s;
  du_mm : mms s' !! l = Some (Mm (mm_count m) (mm_pgd m) (mm_mmap m ++ new) (map_count m + Z.of_nat (length new)) (mm_locked m));
  du_others k : k ≠ l → mms s' !! k = mms s !! k;
  du_rest : same_rest s s'
}.

(** The state after a file has been counted for an area. *)
Lemma area_file_eq o w id tmp s :
  (∀ f, o = Some f → is_Some (files s !! f)) →
  ∃ fs sh,
    (match o with Some f => _ ← get_file f w; share_after f id tmp | None => mret () end) s =
      Ok (with_share sh (with_files fs s)) () ∧
    (∀ f, default 0 (f_count <$> fs !! f) = default 0 (f_count <$> files s !! f) + pt o f) ∧
    (∀ f x, fs !! f = Some x → ∃ y, files s !! f = Some y ∧ i_writecount x = i_writecount y - pt o f * w).
Proof.
  intros Ho. destruct o as [f|].
  - destruct (Ho f eq_refl) as [x Hx].
    exists (<[f := File (f_count x + 1) (i_writecount x - w)]> (files s)), (alter (insert_after id tmp) f (share s)).
    split; [|split].
    + assert (get_file f w s = Ok (with_files (<[f := File (f_count x + 1) (i_writecount x - w)]> (files s)) s) ()) as E.
      { unfold get_file. by rewrite (bind_Ok _ _ s s x) by (by apply (at_ptr_eq files)). }
      by rewrite (bind_Ok _ _ _ _ _ E).
    + intros k. rewrite default_insert, pt_some. case_decide; [subst k|lia]. rewrite Hx. done.
    + intros k y. rewrite pt_some. intros [[<- <-]|[Hne Hy]]%lookup_insert_Some.
      * exists x. rewrite decide_True by done. cbn. split; [done|lia].
      * exists y. rewrite decide_False by done. split; [done|lia].
  - exists (files s), (share s). split; [by destruct s|]. split; [intros f; rewrite pt_none; lia|].
    intros f x Hx. exists x. rewrite pt_none. split; [done|lia].
Qed.

Section mm.
Context (new_page_tables : positive → M tres Z) (Hnew : new_page_tables_law new_page_tables).
Context (copy_page_range : positive → vma → Z).
Context (vm_open : vma → M tres unit) (Hopen : vm_open_law vm_open).
Context (exit_mmap : positive → M tres unit) (Hexit : exit_mmap_law exit_mmap).
Context (free_page_tables : positive → M tres unit) (Hfree : free_page_tables_law free_page_tables).

Lemma dupped_trans e own l m new1 new2 s1 s2 s3 m2 :
  dupped e own l m new1 s1 s2 → mms s2 !! l = Some m2 → dupped e own l m2 new2 s2 s3 →
  dupped e own l m (new1 ++ new2) s1 s3.
Proof.
  intros [] Hm2 []. rewrite du_mm0 in Hm2. simplify_eq. split; [done|congruence..| | |].
  - rewrite du_mm1. cbn. rewrite <- app_assoc, length_app. do 2 f_equal. lia.
  - intros k Hk. by rewrite du_others1, du_others0.
  - by eapply same_rest_trans.
Qed.

Lemma dup_area_spec e own s l m v id :
  rinv e own s → mms s !! l = Some m → (∀ f, vm_file v = Some f → is_Some (files s !! f)) →
  runs (dup_area copy_page_range vm_open l v id) s (λ s' _, ∃ v', area_copy v v' ∧ vm_id v' = id ∧ dupped e own l m [v'] s s').
Proof.
  intros Hi Hl Hv. unfold dup_area. set (tmp := Vma id _ _).
  runs_step. eapply runs_eq; [by apply update_mm_eq|]. runs_step.
  destruct (area_file_eq (vm_file v) (deny tmp) (vm_id v) id (with_mms (<[l := set_mmap (mm_mmap m) (map_count m + 1) m]> (mms s)) s))
    as (fs & sh & E & Hc & Hw); [done|].
  eapply runs_eq; [exact E|]. cbv zeta. runs_step. cbn [files with_mms] in Hc, Hw.
  set (s1 := with_share _ _). assert (mms s1 = <[l := set_mmap (mm_mmap m) (map_count m + 1) m]> (mms s)) as Em by done.
  assert (∃ n, (if decide (copy_page_range l tmp = 0) then vm_open tmp else mret ()) s1 = Ok (with_mem n s1) ()) as [n En].
  { case_decide; [apply Hopen|exists (mem s1); by destruct s1]. }
  eapply runs_eq; [exact En|]. runs_step. eapply runs_eq; [apply update_mm_eq; cbn; apply lookup_insert_eq|].
  runs_auto. exists tmp. split; [done|]. split; [done|].
  split; cbn; try done.
  - apply (rinv_areas e own s _ l m (Mm (mm_count m) (mm_pgd m) (mm_mmap m ++ [tmp]) (map_count m + 1) (mm_locked m)));
      try done; cbn [mms files with_mms with_mem].
    + cbn. by rewrite insert_insert_eq.
    + intros f. rewrite Hc. unfold mm_files. cbn. rewrite fmap_app, occ_app. cbn. lia.
    + intros f x Hx. destruct (Hw f x Hx) as (y & Hy & Ey). exists y. split; [done|]. rewrite Ey.
      unfold mm_denies. cbn. rewrite mm_denies_app. cbn. lia.
  - rewrite lookup_insert_eq. done.
  - intros k Hk. by rewrite !lookup_insert_ne.
Qed.

Lemma dup_loop_spec e own l mpnts : ∀ s m cm lc, rinv e own s → mms s !! l = Some m →
  lc ≠ l → mms s !! lc = Some cm → (∀ v, v ∈ mpnts → v ∈ mm_mmap cm) →
  runs (dup_loop copy_page_range vm_open mpnts l) s (λ s' r, ∃ new, dupped e own l m new s s' ∧
    (r = 0 → Forall2 area_copy mpnts new)).
Proof.
  induction mpnts as [|v mpnts IH]; intros s m cm lc Hi Hl Hne Hlc Hsub; cbn [dup_loop].
  - runs_auto. exists []. split; [|done]. split; try done. rewrite app_nil_r, Hl. destruct m. cbn. do 2 f_equal. lia.
  - assert (dupped e own l m [] s s) as H0.
    { split; try done. rewrite app_nil_r, Hl. destruct m. cbn. do 2 f_equal. lia. }
    runs_step. eapply kalloc_spec; [done|runs_auto; by exists []|].
    intros s1 Es1 Hi1 _ _ _ _.
    assert (dupped e own l m [] s s1) as H1.
    { subst s1. destruct H0. split; try done. }
    runs_step. eapply runs_mono.
    { apply (dup_area_spec e own s1 l m v (rfresh s) Hi1); [by rewrite Es1|].
      intros f Hf. destruct (area_file_alive _ _ _ lc cm v f Hi Hlc) as [x Hx]; [apply Hsub; left|done|].
      rewrite Es1. by exists x. }
    intros s2 r (v' & Hvv & _ & Hd). cbn beta.
    assert (dupped e own l m [v'] s s2) as Hd2.
    { eapply (dupped_trans _ _ _ _ [] [v']); [exact H1| |exact Hd]. by rewrite Es1. }
    case_decide as Hr; [runs_auto; exists [v']; by split|].
    destruct Hd2 as [Hi2 ? ? ? Hm2 Ho2 ?] eqn:Ed. clear Ed.
    eapply runs_mono; [eapply (IH s2 _ cm lc Hi2 Hm2 Hne)|].
    + by rewrite Ho2.
    + intros w Hw. apply Hsub. by right.
    + intros s3 r3 (new & Hd3 & Hf). exists ([v'] ++ new). split.
      * eapply dupped_trans; [|exact Hm2|exact Hd3]. by split.
      * intros E. constructor; [done|]. by apply Hf.
Qed.

(** * [mmput] *)

Lemma mm_alive e own s l : rinv e own s → 0 < refs t_mm own s l → ∃ m, mms s !! l = Some m ∧ mm_count m = refs t_mm own s l.
Proof.
  intros Hi Hr. rewrite <- (r_mm _ _ _ Hi l) in *. destruct (mms s !! l) as [m|]; [by exists m|cbn in Hr; lia].
Qed.

Lemma refs_own field own s l : field own = Some l → 0 < refs field own s l.
Proof.
  intros E. unfold refs. rewrite E, pt_some, decide_True by done.
  pose proof (msum_nonneg (λ t, pt (field t) l) (rtasks s) (λ t, proj1 (pt_range (field t) l))). lia.
Qed.

(** The page tables that stay when the one of [l] is given back. *)
Lemma pgds_kept e own s l m k mk g : rinv e own s → mms s !! l = Some m → k ≠ l → mms s !! k = Some mk →
  mm_pgd mk = Some g →
  is_Some (match mm_pgd m with Some g => delete g (pgds s) | None => pgds s end !! g).
Proof.
  intros Hi Hl Hne Hk Hg. pose proof (r_pgd _ _ _ Hi k mk g Hk Hg) as H. destruct (mm_pgd m) as [g'|] eqn:E; [|done].
  rewrite lookup_delete_ne; [done|]. intros ->. apply Hne. by eapply (r_pgd_uniq _ _ _ Hi k l).
Qed.

Record put_done (e : ext) (own : rtask) (l : positive) (s s' : tres) : Prop := {
  pd_inv : rinv e (set_mm None own) s';
  pd_tasks : rtasks s' = rtasks s;
  pd_newp : newp s' = newp s;
  pd_rest : same_rest s s';
  pd_others k : k ≠ l → mms s' !! k = mms s !! k;
  pd_kept m : mms s !! l = Some m → mm_count m ≠ 1 → mms s' !! l = Some (set_mm_count (mm_count m - 1) m);
  pd_map m : mms s !! l = Some m → mms s' =
    if decide (mm_count m = 1) then delete l (mms s) else <[l := set_mm_count (mm_count m - 1) m]> (mms s)
}.

Lemma mmput_spec e own s l : rinv e own s → t_mm own = Some l →
  runs (mmput exit_mmap free_page_tables l) s (λ s' _, put_done e own l s s').
Proof.
  intros Hi Ho. destruct (mm_alive e own s l Hi (refs_own _ _ _ _ Ho)) as (m & Hl & _).
  unfold mmput. runs_step. eapply runs_eq; [by apply (at_ptr_eq mms)|]. runs_step. eapply runs_eq; [reflexivity|].
  set (m1 := set_mm_count (mm_count m - 1) m). case_decide as Hc.
  - set (s1 := with_mms _ s). assert (mms s1 !! l = Some m1) as H1 by (by apply lookup_insert_eq).
    destruct (Hexit l s1 m1 H1) as (fs & sh & n & E & Hcnt & Hw); [intros v f; by apply (area_file_alive e own s l m)|]. runs_step. eapply runs_eq; [exact E|]. clear E.
    set (s2 := with_mem n _). assert (mms s2 !! l = Some (set_mmap [] 0 m1)) as H2 by (by apply lookup_insert_eq).
    destruct (Hfree l s2 _ H2) as [n2 E]. runs_step. eapply runs_eq; [exact E|]. clear E. runs_auto.
    assert (∀ x y, delete l (<[l := x]> (<[l := y]> (mms s))) = delete l (mms s)) as Ed.
    { intros x y. apply map_eq. intros k. destruct (decide (k = l)) as [->|Hk]; [by rewrite !lookup_delete_eq|].
      by rewrite !lookup_delete_ne, !lookup_insert_ne. }
    split; cbn; rewrite ?Ed; [|done..|intros k Hk; by rewrite lookup_delete_ne|intros m' ? ?; simplify_eq; lia|
      intros m' ?; simplify_eq; by rewrite decide_True by lia].
    eapply (rinv_mms e own _ s); try done; cbn [mms files pgds with_mms with_mem with_pgds s2 s1 with_files with_share t_mm set_mm]; rewrite ?Ed.
    + intros k. rewrite Ho, pt_some, pt_none. case_decide; [subst k|by rewrite lookup_delete_ne; [lia|]].
      rewrite lookup_delete_eq, Hl. cbn. lia.
    + intros f. rewrite Hcnt, (msum_delete _ _ l m) by done. cbn [files s1 with_mms]. change (mm_files m1) with (mm_files m). lia.
    + intros f x Hx. destruct (Hw f x Hx) as (y & Hy & Ey). exists y. split; [done|]. rewrite Ey. unfold deny_refs. cbn. rewrite ?Ed.
      rewrite (msum_delete _ _ l m) by done. unfold mm_denies. lia.
    + intros k mk g [Hne Hk]%lookup_delete_Some Hg. by eapply (pgds_kept e own s l m k mk).
    + intros l1 l2 x1 x2 g [_ Ha]%lookup_delete_Some [_ Hb]%lookup_delete_Some. by eapply (r_pgd_uniq _ _ _ Hi).
    + intros k [x [_ Hx]%lookup_delete_Some]. apply (r_fresh _ _ _ Hi). eauto.
  - runs_auto. split; cbn; [|done..|intros k Hk; by rewrite lookup_insert_ne|intros m' ? _; simplify_eq; by rewrite lookup_insert_eq|
      intros m' ?; simplify_eq; by rewrite decide_False by lia].
    apply (rinv_mm_count e own _ s l m (-1)); try done.
    intros k. rewrite Ho, pt_some. cbn. rewrite pt_none. case_decide; lia.
Qed.

(** * A new memory *)

(** [l], just allocated by [mm_alloc]: its page table is still that of the current task. *)
Definition with_new_mm (l : positive) (o : option positive) (s : tres) : tres :=
  with_mms (<[l := Mm 1 o [] 0 true]> (mms s)) s.

Lemma mm_alloc_spec e own s cur t lc cm :
  rinv e own s → rtasks s !! cur = Some t → t_mm t = Some lc → mms s !! lc = Some cm →
  runs (mm_alloc cur) s (λ s' r, (r = None ∧ s' = s) ∨
    ∃ s1, r = Some (rfresh s) ∧ s' = with_new_mm (rfresh s) (mm_pgd cm) s1 ∧ rinv e own s1 ∧
      s1 = with_fresh (Pos.succ (rfresh s)) (with_mem (pred (mem s)) s) ∧ mms s !! rfresh s = None).
Proof.
  intros Hi Hc Ht Hl. unfold mm_alloc. runs_step. eapply kalloc_spec; [done|by runs_auto; left|].
  intros s1 E1 Hi1 Hn _ _ _. assert (mms s1 = mms s ∧ rtasks s1 = rtasks s) as [Em Et] by (by rewrite E1).
  runs_step. eapply runs_eq; [apply current_eq; by rewrite Et|]. runs_step. rewrite Ht.
  eapply runs_eq; [apply (at_ptr_eq mms); by rewrite Em|]. runs_auto. right. exists s1. rewrite <- Em. by split_and!.
Qed.

(** Its page table, in a state [s2] that differs from [s1] in the tasks only. *)
Lemma new_pages_spec e own s1 s2 l o :
  rinv e own s1 → mms s1 !! l = None → (l < rfresh s1)%positive → t_mm own = None →
  mms s2 = mms s1 → pgds s2 = pgds s1 →
  runs (new_page_tables l) (with_new_mm l o s2) (λ s' r, ∃ n,
    (r ≠ 0 ∧ s' = with_mem n (with_new_mm l o s2) ∧ rinv e (set_mm (Some l) own) (with_new_mm l None s1)) ∨
    (r = 0 ∧ ∃ g, pgds s1 !! g = None ∧
       s' = with_mem n (with_new_mm l (Some g) (with_pgds (<[g := ()]> (pgds s2)) s2)) ∧
       rinv e (set_mm (Some l) own) (with_new_mm l (Some g) (with_pgds (<[g := ()]> (pgds s1)) s1)))).
Proof.
  intros Hi Hl Hf Ho Em Ep.
  assert (mms (with_new_mm l o s2) !! l = Some (Mm 1 o [] 0 true)) as H1 by (by apply lookup_insert_eq).
  destruct (Hnew l _ _ H1) as (s' & r & n & E & H). eapply runs_eq; [exact E|]. exists n.
  destruct H as [[Hr ->]|(-> & g & Hg & ->)].
  - left. split; [done|]. split; [done|]. by apply (rinv_new_mm e own s1 l None true).
  - right. split; [done|]. exists g. cbn in Hg. rewrite Ep in Hg. split; [done|]. split.
    + unfold with_new_mm. cbn. by rewrite insert_insert_eq.
    + apply (rinv_new_mm e own s1 l (Some g) true); try done. by intros ? [= ->].
Qed.

Lemma rinv_unlock e own s l m b : rinv e own s → mms s !! l = Some m → rinv e own (with_mms (<[l := set_locked b m]> (mms s)) s).
Proof.
  intros Hi Hl. apply (rinv_areas e own s _ l m (set_locked b m)); try done.
  - intros f. change (mm_files (set_locked b m)) with (mm_files m). cbn. lia.
  - intros f x Hx. exists x. split; [done|]. change (mm_denies f (set_locked b m)) with (mm_denies f m). lia.
Qed.

(** * [copy_mm] *)

(** The memory of the child, if it has one of its own: the areas of the parent, unlocked. *)
Definition mm_copied (x y : mm_struct) : Prop :=
  Forall2 area_copy (mm_mmap x) (mm_mmap y) ∧ map_count y = Z.of_nat (length (mm_mmap y)) ∧
  mm_locked y = false ∧ is_Some (mm_pgd y).
Definition up_mm (x : mm_struct) : mm_struct := set_mm_count (mm_count x + 1) x.
Definition mm_added (fl : Z) : option positive → gmap positive mm_struct → option positive → gmap positive mm_struct → Prop :=
  added mm_count up_mm mm_copied (has fl CLONE_VM).

Definition copy_mm_post (e : ext) (own : rtask) (fl : Z) (s : tres) (o : option positive) (s' : tres) (r : Z) : Prop :=
  same_rest s s' ∧
  ((r = 0 ∧ is_Some (t_mm (newp s')) ∧ copied e t_mm set_mm own s s' ∧ mm_added fl o (mms s) (t_mm (newp s')) (mms s')) ∨
   (r ≠ 0 ∧ rtasks s' = rtasks s ∧ rinv e own s' ∧ mms s' = mms s ∧ ∃ o, newp s' = set_mm o (newp s))).

Lemma set_newp_own own l : t_mm own = None → set_mm None (set_mm (Some l) own) = own.
Proof. destruct own. cbn. by intros ->. Qed.

Lemma copy_mm_abort e own s s2 fl p l r o m :
  rinv e (set_mm (Some l) own) s2 → t_mm own = None → r ≠ 0 → mms s !! l = None → mm_count m = 1 →
  mms s2 = <[l := m]> (mms s) → same_rest s s2 → rtasks s2 = rtasks s → newp s2 = set_mm o (newp s) →
  runs (_ ← set_newp (set_mm None); _ ← mmput exit_mmap free_page_tables l; mret r) s2 (copy_mm_post e own fl s p).
Proof.
  intros Hi Ho Hr Hl Hc Hm Hs Ht Hn. runs_step. eapply runs_eq; [reflexivity|]. runs_step.
  eapply runs_mono; [apply (mmput_spec e (set_mm (Some l) own)); [by apply rinv_newp|done]|].
  intros s3 [] []. rewrite set_newp_own in pd_inv0 by done. runs_auto. split; [by eapply same_rest_trans|]. right.
  rewrite pd_tasks0, pd_newp0, (pd_map0 m) by (cbn; rewrite Hm; apply lookup_insert_eq). cbn.
  rewrite decide_True, Hm, delete_insert_id by done. split_and!; [done..|]. exists None. by rewrite Hn.
Qed.

Lemma dupped_map e own l m new s s' : dupped e own l m new s s' →
  mms s' = <[l := Mm (mm_count m) (mm_pgd m) (mm_mmap m ++ new) (map_count m + Z.of_nat (length new)) (mm_locked m)]> (mms s).
Proof.
  intros []. apply map_eq. intros k. destruct (decide (k = l)) as [->|Hk]; [by rewrite lookup_insert_eq|].
  by rewrite lookup_insert_ne, du_others0.
Qed.

Lemma copy_mm_spec e own s cur fl t lc cm :
  rinv e own s → t_mm own = None → rtasks s !! cur = Some t → t_mm t = Some lc → mms s !! lc = Some cm →
  t_mm (newp s) = t_mm t →
  runs (copy_mm new_page_tables copy_page_range vm_open exit_mmap free_page_tables fl cur) s
    (copy_mm_post e own fl s (t_mm t)).
Proof.
  intros Hi Ho Hc Hl Hx Hn.
  assert (0 < mm_count cm) as Hpos.
  { pose proof (refs_task t_mm own s lc cur t Hc Hl) as Hr. rewrite <- (r_mm _ _ _ Hi lc), Hx in Hr. exact Hr. }
  unfold copy_mm. runs_step. eapply runs_eq; [by apply current_eq|].
  destruct (has fl CLONE_VM) eqn:Efl.
  - runs_step. rewrite Hl. eapply runs_eq; [by apply (at_ptr_eq mms)|]. runs_auto. split; [done|]. left.
    split; [done|]. unfold mm_added, added. rewrite Efl. cbn. rewrite Hn, Hl. split; [by eexists|].
    split; [|by exists lc, cm]. split; cbn; rewrite ?Hn, ?Hl; [done|by rewrite <- Hl, <- Hn; destruct (newp s)|].
    apply (rinv_mm_count e own); try done. intros k. cbn. rewrite Ho, pt_some, pt_none. case_decide; lia.
  - runs_step. eapply runs_mono; [by eapply mm_alloc_spec|]. cbn beta. intros s0 o0 [[-> ->]|(s1 & -> & -> & Hi1 & Es1 & Hfresh)].
    { runs_auto. split; [done|]. right. split_and!; [done..|]. exists (t_mm (newp s)). by destruct (newp s). }
    assert (mms s1 = mms s ∧ pgds s1 = pgds s ∧ rtasks s1 = rtasks s ∧ newp s1 = newp s ∧ rfresh s1 = Pos.succ (rfresh s)) as (Em & Eg & Et & En & Ef)
      by (by rewrite Es1).
    assert (same_rest s s1) as Hrest by (by rewrite Es1).
    remember (rfresh s) as l eqn:El. assert (l ≠ lc) as Hne by (intros ->; congruence).
    runs_step. eapply runs_eq; [reflexivity|]. runs_step. rewrite <- Em in Hfresh.
    eapply runs_mono; [apply (new_pages_spec e own s1 (with_newp (set_mm (Some l) (newp s1)) s1) l (mm_pgd cm)); try done; lia|].
    clear Es1 El. cbn beta.
    intros s0 r (n & [(Hr & -> & Hi2)|(-> & g & Hg & -> & Hi2)]).
    + rewrite decide_True by done. runs_step. eapply runs_eq; [apply update_mm_eq; apply lookup_insert_eq|].
      apply (copy_mm_abort e own s _ fl _ l r (Some l) (Mm 1 None [] 0 true)); try done; cbn; [|by rewrite <- Em|..].
      * apply (rinv_with_mem _ _ _ n), (rinv_newp _ _ _ (set_mm (Some l) (newp s1))) in Hi2. revert Hi2.
        unfold with_new_mm. cbn. unfold with_mms, with_mem, with_newp. cbn. by rewrite insert_insert_eq.
      * by rewrite insert_insert_eq, Em.
      * by rewrite En.
    + rewrite decide_False by auto. unfold dup_mmap.
      apply (rinv_newp _ _ _ (set_mm (Some l) (newp s1))), (rinv_with_mem _ _ _ n) in Hi2. set (s2 := with_mem n _).
      change (rinv e (set_mm (Some l) own) s2) in Hi2.
      assert (mms s2 !! l = Some (Mm 1 (Some g) [] 0 true)) as H2 by (by apply lookup_insert_eq).
      assert (mms s2 !! lc = Some cm) as Hx2 by (cbn; by rewrite lookup_insert_ne, Em).
      runs_step. runs_step. eapply runs_eq; [apply current_eq; cbn; by rewrite Et|]. runs_step. rewrite Hl.
      eapply runs_eq; [by apply (at_ptr_eq mms)|]. eapply runs_mono; [by eapply (dup_loop_spec _ _ l _ s2 _ cm lc)|].
      intros s3 r (new & Hd & Hf). destruct (decide (r ≠ 0)) as [Hr|Hr].
      * pose proof (dupped_map _ _ _ _ _ _ _ Hd) as Hmap. destruct Hd.
        apply (copy_mm_abort e own s _ fl _ l r (Some l) (Mm 1 (Some g) new (0 + Z.of_nat (length new)) true)); try done; [by rewrite <- Em|..].
        -- rewrite Hmap. cbn. by rewrite insert_insert_eq, Em.
        -- by eapply same_rest_trans.
        -- by rewrite du_tasks0.
        -- rewrite du_newp0. cbn. by rewrite En.
      * pose proof (dupped_map _ _ _ _ _ _ _ Hd) as Hmap. destruct Hd.
        runs_step. eapply runs_eq; [by apply update_mm_eq|]. runs_auto. split; [by eapply same_rest_trans|]. left. split; [lia|].
        unfold mm_added, added. rewrite Efl. cbn. rewrite du_newp0. cbn. split; [by eexists|]. split.
        -- split; cbn; rewrite ?du_newp0; cbn; [by rewrite du_tasks0|by rewrite En|]. by eapply rinv_unlock in du_inv0.
        -- exists lc, cm. split_and!; [done|done|by rewrite <- Em|]. eexists. split; [|split; [|rewrite Hmap; cbn; by rewrite !insert_insert_eq, Em]].
           ++ split_and!; [apply Hf; lia|done|done|by exists g].
           ++ done.
Qed.

(** * [exec_mmap] *)

(** A memory without areas for the current task; the tasks that shared the old one keep it.
    On an error nothing has changed. *)
Definition exec_mmap_post (e : ext) (own : rtask) (s : tres) (cur : Z) (t : rtask) (lc : positive) (cm : mm_struct)
    (s' : tres) (r : Z) : Prop :=
  rinv e own s' ∧ newp s' = newp s ∧ same_rest s s' ∧
  ((r = 0 ∧ ∃ l m, rtasks s' = <[cur := set_mm (Some l) t]> (rtasks s) ∧ mms s' !! l = Some m ∧
     mm_count m = 1 ∧ mm_mmap m = [] ∧ map_count m = 0 ∧ mm_locked m = (if decide (mm_count cm = 1) then mm_locked cm else false) ∧
     (mm_count cm ≠ 1 → l ≠ lc ∧ mms s' !! lc = Some (set_mm_count (mm_count cm - 1) cm))) ∨
   (r ≠ 0 ∧ mm_count cm ≠ 1 ∧ rtasks s' = rtasks s ∧ mms s' !! lc = Some cm)).

Lemma set_mm_same t : set_mm (t_mm t) t = t.
Proof. by destruct t. Qed.

Lemma exec_mmap_spec e own s cur t lc cm :
  rinv e own s → t_mm own = None → rtasks s !! cur = Some t → t_mm t = Some lc → mms s !! lc = Some cm →
  runs (exec_mmap new_page_tables exit_mmap free_page_tables cur) s (exec_mmap_post e own s cur t lc cm).
Proof.
  intros Hi Ho Hc Hl Hx. unfold exec_mmap, exec_mmap_post. runs_step. eapply runs_eq; [by apply current_eq|]. rewrite Hl.
  runs_step. eapply runs_eq; [by apply (at_ptr_eq mms)|]. case_decide as H1.
  - destruct (Hexit lc s cm Hx) as (fs & sh & n & E & Hf & Hw); [intros v f; by apply (area_file_alive e own s lc cm)|]. runs_step. eapply runs_eq; [exact E|]. runs_auto.
    split; [|split; [done|split; [done|]]].
    + apply (rinv_areas e own s _ lc cm (set_mmap [] 0 cm)); try done.
      * intros f. cbn. rewrite Hf. lia.
      * intros f x Hfx. destruct (Hw f x Hfx) as (y & Hy & Ey). exists y. split; [done|]. rewrite Ey. unfold mm_denies at 3. cbn. lia.
    + left. split; [done|]. eexists lc, _. rewrite lookup_insert_eq, <- Hl, set_mm_same, insert_id by done. by split_and!.
  - runs_step. eapply runs_mono; [by eapply mm_alloc_spec|]. cbn beta. intros s0 o0 [[-> ->]|(s1 & -> & -> & Hi1 & Es1 & Hfresh)].
    { runs_auto. split; [done|]. split; [done|]. split; [done|]. by right. }
    assert (mms s1 = mms s ∧ pgds s1 = pgds s ∧ rtasks s1 = rtasks s ∧ newp s1 = newp s ∧ rfresh s1 = Pos.succ (rfresh s)) as (Em & Eg & Et & En & Ef)
      by (by rewrite Es1).
    assert (same_rest s s1) as Erest by (by rewrite Es1).
    remember (rfresh s) as l eqn:El. assert (l ≠ lc) as Hne by (intros ->; congruence).
    runs_step. unfold set_current. runs_step. eapply runs_eq; [apply current_eq; cbn; by rewrite Et|]. runs_step.
    runs_step. rewrite <- Em in Hfresh.
    set (s2 := with_rtasks (<[cur := set_mm (Some l) t]> (rtasks s1)) s1).
    eapply runs_mono; [apply (new_pages_spec e own s1 s2 l (mm_pgd cm)); try done; lia|].
    clear Es1 El. cbn beta. intros s0 r (n & [(Hr & -> & Hi2)|(-> & g & Hg & -> & Hi2)]).
    + rewrite decide_True by done. runs_step. eapply runs_eq; [apply update_mm_eq; apply lookup_insert_eq|].
      runs_step. runs_step. eapply runs_eq; [apply current_eq; apply lookup_insert_eq|]. runs_step. runs_step.
      set (s3 := with_rtasks _ _). assert (s3 = with_mem n (with_new_mm l None s1)) as E3.
      { subst s3 s2. unfold with_new_mm, with_rtasks, with_mms, with_mem. cbn. rewrite !insert_insert_eq.
        f_equal. rewrite Et. apply insert_id. rewrite Hc. f_equal. destruct t. cbn in *. by rewrite Hl. }
      apply (rinv_with_mem _ _ _ n) in Hi2. rewrite E3. clear E3. clearbody s2. clear s2 s3.
      eapply runs_mono; [by eapply (mmput_spec e (set_mm (Some l) own))|]. intros s4 [] [].
      rewrite set_newp_own in pd_inv0 by done. runs_auto. split; [done|]. split; [by rewrite pd_newp0|].
      split; [by eapply same_rest_trans; [exact Erest|]|]. right.
      rewrite pd_tasks0, pd_others0 by done. cbn. rewrite lookup_insert_ne, Em by done. by split_and!.
    + rewrite decide_False by auto. runs_step. eapply runs_eq; [apply update_mm_eq; apply lookup_insert_eq|].
      apply (rinv_with_mem _ _ _ n) in Hi2.
      eapply (rinv_unlock _ _ _ l _ false) in Hi2; [|apply lookup_insert_eq].
      eapply (rinv_swap_mm _ _ _ cur t (Some l)) in Hi2; [|cbn; by rewrite Et|done].
      runs_step. eapply runs_mono.
      { apply (mmput_spec e (set_mm (Some lc) own)); [|done]. rewrite <- Hl. exact Hi2. }
      intros s4 [] []. rewrite set_newp_own in pd_inv0 by done. runs_auto. split; [done|]. split; [by rewrite pd_newp0|].
      split; [by eapply same_rest_trans; [exact Erest|]|]. left.
      split; [done|]. eexists l, _. rewrite pd_tasks0, pd_others0 by done. cbn [rtasks mms with_mms with_rtasks with_mem].
      split; [cbn; by rewrite Et|]. split; [apply lookup_insert_eq|]. split_and!; try done. intros _. split; [done|].
      apply pd_kept0; [|done]. cbn. by rewrite !lookup_insert_ne, Em.
Qed.
End mm.
