(* ===== verification/ForkExit.v ===== *)
(** What [exit_files], [exit_fs], [exit_sighand] (kernel/exit.c) and the task table
    (linux/sched.h) promise to [do_fork], and that the invariant of the shared resources
    survives them. *)

From Stdlib Require Import ZArith Lia.
From stdpp Require Import base list gmap fin_maps.
From S2P Require Import Prelude.
From S2P Require Import TaskRes.
From S2P Require Import ForkCopyProps.
From S2P Require Import ForkFilesProps.
From S2P Require Import ForkMmProps.

#[local] Open Scope Z_scope.

(** * The promises *)

(** Free slots are given out and taken back; with none left there is an error. *)
Record slots_law (get : list Z → option (Z * list Z)) (add : Z → list Z → list Z) : Prop := {
  slot_get l n l' : get l = Some (n, l') → l ≡ₚ n :: l';
  slot_add n l : add n l ≡ₚ n :: l
}.

(** A reference is dropped; the last one frees the object and what it refers to. *)
Definition exit_sighand_law (exit_sighand : M tres unit) : Prop :=
  ∀ s l x, t_sig (newp s) = Some l → sigs s !! l = Some x → ∃ n,
    exit_sighand s = Ok (with_mem n (with_newp (set_sig None (newp s)) (with_sigs
      (if decide (sig_count x = 1) then delete l (sigs s) else <[l := Sig (sig_count x - 1) (action x)]> (sigs s)) s))) ().

Definition exit_fs_law (exit_fs : M tres unit) : Prop :=
  ∀ s l x, t_fs (newp s) = Some l → fss s !! l = Some x → ∃ n ds,
    exit_fs s = Ok (with_mem n (with_newp (set_fs None (newp s)) (with_fss
      (if decide (fs_count x = 1) then delete l (fss s)
       else <[l := Fs (fs_count x - 1) (umask x) (fs_root x) (fs_pwd x)]> (fss s)) (with_dentries ds s)))) () ∧
    (∀ d, default 0 (ds !! d) = default 0 (dentries s !! d) -
       if decide (fs_count x = 1) then pt (Some (fs_root x)) d + pt (Some (fs_pwd x)) d else 0).

Definition exit_files_law (exit_files : M tres unit) : Prop :=
  ∀ s l x, t_files (newp s) = Some l → filess s !! l = Some x →
    (∀ i f, fd_entry x i = Some f → is_Some (files s !! f)) → ∃ n fs,
    exit_files s = Ok (with_mem n (with_newp (set_files None (newp s)) (with_filess
      (if decide (fl_count x = 1) then delete l (filess s)
       else <[l := Files (fl_count x - 1) (next_fd x) (max_fds x) (max_fdset x) (close_on_exec x) (open_fds x) (fd x)]> (filess s))
      (with_files fs s)))) () ∧
    (∀ f, default 0 (f_count <$> fs !! f) = default 0 (f_count <$> files s !! f) -
       if decide (fl_count x = 1) then occ f (fd x) else 0) ∧
    (∀ f z, fs !! f = Some z → ∃ z', files s !! f = Some z' ∧ i_writecount z' = i_writecount z).

(** * The invariant *)

(** The reference to [l] that [own] holds goes. *)
Lemma count_drop {A} (g : A → Z) (m : gmap positive A) (x x' : A) (l : positive) (o : option positive) k :
  m !! l = Some x → o = Some l → g x' = g x - 1 →
  default 0 (g <$> (if decide (g x = 1) then delete l m else <[l := x']> m) !! k) =
  default 0 (g <$> m !! k) + pt None k - pt o k.
Proof.
  intros Hl -> Hx. rewrite pt_none, pt_some. destruct (decide (g x = 1)) as [H1|H1].
  - case_decide as Hk; [subst k; rewrite lookup_delete_eq, Hl; cbn; lia|rewrite lookup_delete_ne by done; lia].
  - rewrite default_insert. case_decide as Hk; [subst k; rewrite Hl; cbn; lia|lia].
Qed.

Lemma drop_is_Some {A} (m : gmap positive A) (x' : A) (l k : positive) (P : Prop) `{Decision P} :
  is_Some (m !! l) → is_Some ((if decide P then delete l m else <[l := x']> m) !! k) → is_Some (m !! k).
Proof.
  intros Hl. destruct (decide P); [intros [y [_ Hy]%lookup_delete_Some]; by exists y|].
  by intros [<-|[_ Hk]]%lookup_insert_is_Some.
Qed.

(** What a function that drops a reference of the new task leaves. *)
Record dropped (e : ext) (own own' : rtask) (put : rtask → rtask) (s s' : tres) : Prop := {
  dr_inv : rinv e own' s';
  dr_tasks : rtasks s' = rtasks s;
  dr_newp : newp s' = put (newp s)
}.

Lemma exit_sighand_spec exit_sighand e own s l :
  exit_sighand_law exit_sighand → rinv e own s → t_sig own = Some l → t_sig (newp s) = Some l →
  runs exit_sighand s (λ s' _, dropped e own (set_sig None own) (set_sig None) s s' ∧
    (filess s' = filess s ∧ fss s' = fss s ∧ mms s' = mms s) ∧
    ∃ x, sigs s !! l = Some x ∧
      sigs s' = if decide (sig_count x = 1) then delete l (sigs s) else <[l := Sig (sig_count x - 1) (action x)]> (sigs s)).
Proof.
  intros Hlaw Hi Ho Hn. destruct (sig_alive e own s l Hi (refs_own _ _ _ _ Ho)) as (x & Hx & _).
  destruct (Hlaw s l x Hn Hx) as [n E]. eapply runs_eq; [exact E|]. split; [|split; [done|by exists x]]. split; [|done..].
  apply rinv_with_mem, (rinv_newp _ _ _ (set_sig None (newp s))). apply (rinv_sigs e own); [done|done|..].
  - intros k. by apply (count_drop sig_count).
  - intros k Hk%drop_is_Some; [|by eexists]. apply (r_fresh _ _ _ Hi). eauto.
Qed.

Lemma msum_drop {A} (g : A → Z) (c : A → Z) (m : gmap positive A) (x x' : A) (l : positive) :
  m !! l = Some x → g x' = g x →
  msum g (if decide (c x = 1) then delete l m else <[l := x']> m) = msum g m - if decide (c x = 1) then g x else 0.
Proof.
  intros Hl Hg. destruct (decide (c x = 1)).
  - by rewrite (msum_delete _ _ l x) by done.
  - rewrite (msum_insert _ _ l x) by done. lia.
Qed.

Lemma exit_fs_spec exit_fs e own s l :
  exit_fs_law exit_fs → rinv e own s → t_fs own = Some l → t_fs (newp s) = Some l →
  runs exit_fs s (λ s' _, dropped e own (set_fs None own) (set_fs None) s s' ∧
    (filess s' = filess s ∧ sigs s' = sigs s ∧ mms s' = mms s) ∧
    ∃ x, fss s !! l = Some x ∧
      fss s' = if decide (fs_count x = 1) then delete l (fss s)
               else <[l := Fs (fs_count x - 1) (umask x) (fs_root x) (fs_pwd x)]> (fss s)).
Proof.
  intros Hlaw Hi Ho Hn.
  assert (∃ x, fss s !! l = Some x) as [x Hx].
  { pose proof (refs_own t_fs own s l Ho) as Hr. rewrite <- (r_fs _ _ _ Hi l) in Hr. apply default_pos in Hr as [x Hx]. by exists x. }
  destruct (Hlaw s l x Hn Hx) as (n & ds & E & Hd). eapply runs_eq; [exact E|].
  split; [|split; [done|by exists x]]. split; [|done..].
  apply rinv_with_mem, (rinv_newp _ _ _ (set_fs None (newp s))). apply (rinv_fss e own); [done|done|..].
  - intros k. by apply (count_drop fs_count).
  - intros k Hk%drop_is_Some; [|by eexists]. apply (r_fresh _ _ _ Hi). eauto.
  - intros d. rewrite Hd. unfold dentry_refs.
    rewrite (msum_drop (λ y, pt (Some (fs_root y)) d + pt (Some (fs_pwd y)) d) fs_count (fss s) x) by done. lia.
Qed.

Lemma exit_files_spec exit_files e own s l :
  exit_files_law exit_files → rinv e own s → t_files own = Some l → t_files (newp s) = Some l →
  runs exit_files s (λ s' _, dropped e own (set_files None own) (set_files None) s s' ∧
    (fss s' = fss s ∧ sigs s' = sigs s ∧ mms s' = mms s) ∧
    ∃ x, filess s !! l = Some x ∧
      filess s' = if decide (fl_count x = 1) then delete l (filess s)
        else <[l := Files (fl_count x - 1) (next_fd x) (max_fds x) (max_fdset x) (close_on_exec x) (open_fds x) (fd x)]> (filess s)).
Proof.
  intros Hlaw Hi Ho Hn.
  assert (∃ x, filess s !! l = Some x) as [x Hx].
  { pose proof (refs_own t_files own s l Ho) as Hr. rewrite <- (r_files _ _ _ Hi l) in Hr. apply default_pos in Hr as [x Hx]. by exists x. }
  destruct (Hlaw s l x Hn Hx) as (n & fs & E & Hf & Hw); [intros i f; by apply (file_alive e own s l x)|]. eapply runs_eq; [exact E|].
  split; [|split; [done|by exists x]]. split; [|done..].
  apply rinv_with_mem, (rinv_newp _ _ _ (set_files None (newp s))). apply (rinv_filess e own); [done|done|..].
  - intros k. by apply (count_drop fl_count).
  - intros k Hk%drop_is_Some; [|by eexists]. apply (r_fresh _ _ _ Hi). eauto 6.
  - intros f. rewrite Hf. rewrite (msum_drop (λ y, occ f (fd y)) fl_count (filess s) x) by done. lia.
  - done.
Qed.
