(* ===== verification/Fork.v ===== *)
(** [do_fork] of src/src/dkmke/fork.c, lines 573-774: the new task, with the pieces that
    ForkUid, ForkPid, ForkCopy, ForkMm and Dkmctl model, and its clean-up.

    A task is identified by the address of its [task_struct].  Parameters: the free slots
    of the task table (linux/sched.h), [exit_files], [exit_fs] and [exit_sighand] of
    kernel/exit.c, the result of [copy_thread], the memory manager (see ForkMm), the
    allocation of larger descriptor tables (see ForkCopy).  Registers, timers, statistics
    and the run queue are not modelled. *)

From Stdlib Require Import ZArith Lia.
From stdpp Require Import base list gmap.
From S2P Require Import Prelude.
From S2P Require Import Dkmctl.
From S2P Require Import ForkPid.
From S2P Require Import ForkUid.
From S2P Require Import TaskRes.
From S2P Require Import ForkCopy.
From S2P Require Import ForkMm.

#[local] Open Scope Z_scope.

(** * The state *)

(** The other fields of a task; [fp_domain] and [fp_binfmt] are the modules of its
    execution domain and of its binary format. *)
Record fproc : Type := FProc {
  fp_ids : ptask; fp_flags : Z; fp_rlim : Z;
  fp_domain : option positive; fp_binfmt : option positive;
  fp_slot : option Z; fp_parent : Z; fp_exit_signal : Z; fp_counter : Z
}.

Definition set_ids (i : ptask) (t : fproc) : fproc :=
  FProc i (fp_flags t) (fp_rlim t) (fp_domain t) (fp_binfmt t) (fp_slot t) (fp_parent t) (fp_exit_signal t) (fp_counter t).
Definition set_flags (f : Z) (t : fproc) : fproc :=
  FProc (fp_ids t) f (fp_rlim t) (fp_domain t) (fp_binfmt t) (fp_slot t) (fp_parent t) (fp_exit_signal t) (fp_counter t).
Definition set_slot (n : Z) (t : fproc) : fproc :=
  FProc (fp_ids t) (fp_flags t) (fp_rlim t) (fp_domain t) (fp_binfmt t) (Some n) (fp_parent t) (fp_exit_signal t) (fp_counter t).
Definition set_parent (p : Z) (t : fproc) : fproc :=
  FProc (fp_ids t) (fp_flags t) (fp_rlim t) (fp_domain t) (fp_binfmt t) (fp_slot t) p (fp_exit_signal t) (fp_counter t).
Definition set_exit_signal (g : Z) (t : fproc) : fproc :=
  FProc (fp_ids t) (fp_flags t) (fp_rlim t) (fp_domain t) (fp_binfmt t) (fp_slot t) (fp_parent t) g (fp_counter t).
Definition set_counter (c : Z) (t : fproc) : fproc :=
  FProc (fp_ids t) (fp_flags t) (fp_rlim t) (fp_domain t) (fp_binfmt t) (fp_slot t) (fp_parent t) (fp_exit_signal t) c.

(** [f_slots] are the free slots, [f_mods] the use counts of modules. *)
Record fsys : Type := FSys {
  f_res : tres; f_users : usys; f_pids : pids; f_kern : kernel;
  f_procs : gmap Z fproc; f_slots : list Z; nr_tasks : Z; f_mods : gmap positive Z; total_forks : Z
}.

Definition with_res x s := FSys x (f_users s) (f_pids s) (f_kern s) (f_procs s) (f_slots s) (nr_tasks s) (f_mods s) (total_forks s).
Definition with_usys x s := FSys (f_res s) x (f_pids s) (f_kern s) (f_procs s) (f_slots s) (nr_tasks s) (f_mods s) (total_forks s).
Definition with_pids x s := FSys (f_res s) (f_users s) x (f_kern s) (f_procs s) (f_slots s) (nr_tasks s) (f_mods s) (total_forks s).
Definition with_kern x s := FSys (f_res s) (f_users s) (f_pids s) x (f_procs s) (f_slots s) (nr_tasks s) (f_mods s) (total_forks s).
Definition with_procs x s := FSys (f_res s) (f_users s) (f_pids s) (f_kern s) x (f_slots s) (nr_tasks s) (f_mods s) (total_forks s).
Definition with_slots x s := FSys (f_res s) (f_users s) (f_pids s) (f_kern s) (f_procs s) x (nr_tasks s) (f_mods s) (total_forks s).
Definition with_nr x s := FSys (f_res s) (f_users s) (f_pids s) (f_kern s) (f_procs s) (f_slots s) x (f_mods s) (total_forks s).
Definition with_mods x s := FSys (f_res s) (f_users s) (f_pids s) (f_kern s) (f_procs s) (f_slots s) (nr_tasks s) x (total_forks s).
Definition with_forks x s := FSys (f_res s) (f_users s) (f_pids s) (f_kern s) (f_procs s) (f_slots s) (nr_tasks s) (f_mods s) x.

(** A step of one part of the state. *)
Definition lift {S A} (get : fsys → S) (put : S → fsys → fsys) (m : M S A) : M fsys A := λ s,
  match m (get s) with Ok x a => Ok (put x s) a | Stop e => Stop e end.
Definition in_res {A} : M tres A → M fsys A := lift f_res with_res.
Definition in_users {A} : M usys A → M fsys A := lift f_users with_usys.
Definition in_pids {A} : M pids A → M fsys A := lift f_pids with_pids.
Definition in_kern {A} : M kernel A → M fsys A := lift f_kern with_kern.

Definition proc_of (p : Z) : M fsys fproc := λ s,
  match f_procs s !! p with Some t => Ok s t | None => Stop BadPtr end.
Definition store_proc (p : Z) (t : fproc) : M fsys unit := modify (λ s, with_procs (<[p := t]> (f_procs s)) s).
Definition update_proc (p : Z) (g : fproc → fproc) : M fsys unit := t ← proc_of p; store_proc p (g t).

(** * Constants of linux/sched.h and linux/tasks.h *)
Definition NR_TASKS : Z := 512.
Definition MIN_TASKS_LEFT_FOR_ROOT : Z := 4.
Definition CSIGNAL : Z := 0xff.
Definition CLONE_PTRACE : Z := 0x2000.
Definition CLONE_VFORK : Z := 0x4000.
Definition PF_PTRACED : Z := 0x10.
Definition PF_TRACESYS : Z := 0x20.
Definition PF_FORKNOEXEC : Z := 0x40.
Definition PF_SUPERPRIV : Z := 0x100.
Definition PF_VFORK : Z := 0x1000.
Definition PF_USEDFPU : Z := 0x100000.
Definition EPERM : Z := 1.

Definition copy_flags (clone_flags : Z) (t : fproc) : fproc :=
  let new_flags := Z.land (fp_flags t) (Z.lnot (Z.lor PF_SUPERPRIV (Z.lor PF_USEDFPU PF_VFORK))) in
  let new_flags := Z.lor new_flags PF_FORKNOEXEC in
  let new_flags :=
    if has clone_flags CLONE_PTRACE then new_flags
    else Z.land new_flags (Z.lnot (Z.lor PF_PTRACED PF_TRACESYS)) in
  let new_flags := if has clone_flags CLONE_VFORK then Z.lor new_flags PF_VFORK else new_flags in
  set_flags new_flags t.

(** [__MOD_INC_USE_COUNT] and [__MOD_DEC_USE_COUNT]. *)
Definition mod_add (o : option positive) (d : Z) : M fsys unit :=
  match o with
  | None => mret ()
  | Some m => modify (λ s, with_mods (<[m := default 0 (f_mods s !! m) + d]> (f_mods s)) s)
  end.
Definition use_modules (p d : Z) : M fsys unit :=
  t ← proc_of p; _ ← mod_add (fp_domain t) d; mod_add (fp_binfmt t) d.

(** What a call returns: [waits] when the parent then sleeps until the child has released
    its memory; or the kernel panics. *)
Inductive fork_result : Type := Forked (retval : Z) (waits : bool) | Panic.

Section fork.
Context (get_free_taskslot : list Z → option (Z * list Z)) (add_free_taskslot : Z → list Z → list Z).
Context (exit_files exit_fs exit_sighand : M tres unit).
Context (copy_thread : Z).
Context (new_page_tables : positive → M tres Z) (copy_page_range : positive → vma → Z) (vm_open : vma → M tres unit).
Context (exit_mmap free_page_tables : positive → M tres unit).
Context (expand_fdset expand_fd_array : files_struct → Z → Z * files_struct).
(** Uninitialised memory: a new table of files, the field [r_pid] of a new [dkm_struct]. *)
Context (junk_open junk_coe : list Z) (junk_fd : list (option positive)) (junk_r_pid : Z).

(** [uid] is that of the current task. *)
Definition find_empty_process (uid : Z) : M fsys (option Z) := λ s,
  if decide (nr_tasks s < NR_TASKS - MIN_TASKS_LEFT_FOR_ROOT ∨ uid = 0) then
    match get_free_taskslot (f_slots s) with
    | Some (slot, l) => Ok (with_slots l s) (Some slot)
    | None => Ok s None
    end
  else Ok s None.

(** ** The clean-up: a label falls through to the next. *)

Definition free_task_struct (p : Z) : M fsys unit :=
  _ ← modify (λ s, with_procs (delete p (f_procs s)) s);
  in_users (modify (λ s, with_utasks (delete p (utasks s)) s)).

Definition bad_fork_cleanup_count (p : Z) : M fsys unit :=
  _ ← in_users (free_uid p); free_task_struct p.

Definition bad_fork_cleanup (p : Z) : M fsys unit :=
  _ ← use_modules p (-1);
  t ← proc_of p;
  _ ← match fp_slot t with
      | Some n => modify (λ s, with_slots (add_free_taskslot n (f_slots s)) s)
      | None => stop NullDeref
      end;
  bad_fork_cleanup_count p.

Definition bad_fork_cleanup_files (p : Z) : M fsys unit := _ ← in_res exit_files; bad_fork_cleanup p.
Definition bad_fork_cleanup_fs (p : Z) : M fsys unit := _ ← in_res exit_fs; bad_fork_cleanup_files p.
Definition bad_fork_cleanup_sighand (p : Z) : M fsys unit := _ ← in_res exit_sighand; bad_fork_cleanup_fs p.
Definition bad_fork_cleanup_mm (p : Z) : M fsys unit :=
  o ← gets (λ s, t_mm (newp (f_res s)));
  _ ← match o with
      | Some l => in_res (mmput exit_mmap free_page_tables l)
      | None => stop NullDeref
      end;
  _ ← in_res (set_newp (set_mm None));
  bad_fork_cleanup_sighand p.

(** ** The copies; the result is 0, or the task is cleaned up. *)

Definition copy_from_sighand (clone_flags cur p : Z) : M fsys Z :=
  r ← in_res (copy_sighand clone_flags cur);
  if decide (r ≠ 0) then _ ← bad_fork_cleanup_fs p; mret (- ENOMEM)
  else
    r ← in_res (copy_mm new_page_tables copy_page_range vm_open exit_mmap free_page_tables clone_flags cur);
    if decide (r ≠ 0) then _ ← bad_fork_cleanup_sighand p; mret (- ENOMEM)
    else if decide (copy_thread ≠ 0) then _ ← bad_fork_cleanup_mm p; mret copy_thread
    else mret 0.

Definition copy_from_fs (clone_flags cur p : Z) : M fsys Z :=
  r ← in_res (copy_fs clone_flags cur);
  if decide (r ≠ 0) then _ ← bad_fork_cleanup_files p; mret (- ENOMEM)
  else copy_from_sighand clone_flags cur p.

Definition copy_parts (clone_flags cur p : Z) : M fsys Z :=
  r ← in_res (copy_files expand_fdset expand_fd_array junk_open junk_coe junk_fd clone_flags cur);
  if decide (r ≠ 0) then _ ← bad_fork_cleanup p; mret (- ENOMEM)
  else copy_from_fs clone_flags cur p.

(** The task becomes visible; [SET_LINKS] and [hash_pid] when it has an id. *)
Definition link_child (p : Z) (ids : ptask) : M fsys unit :=
  n ← gets (λ s, newp (f_res s));
  _ ← in_res (modify (λ s, with_rtasks (<[p := n]> (rtasks s)) s));
  _ ← (if decide (p_pid ids ≠ 0) then
         _ ← in_pids (modify (link_task ids));
         modify (λ s, with_nr (nr_tasks s + 1) s)
       else mret ());
  modify (λ s, with_forks (total_forks s + 1) s).

(** The [dkm_struct], and the rest; the dkm part also enters the child in the list of
    tasks of the state of Dkmctl. *)
Definition finish_fork (clone_flags cur p : Z) (curids : ptask) : M fsys fork_result :=
  o ← in_res kalloc;
  match o with
  | None => mret Panic
  | Some _ =>
    t ← proc_of p;
    let ids := fp_ids t in
    _ ← in_kern (Dkmctl.do_fork (p_pid curids) (p_pid ids) junk_r_pid);
    c ← proc_of cur;
    let counter := Z.shiftr (fp_counter c) 1 in
    _ ← update_proc cur (set_counter counter);
    _ ← update_proc p (λ t, set_counter counter (set_exit_signal (Z.land clone_flags CSIGNAL) t));
    _ ← link_child p ids;
    mret (Forked (p_pid ids) (has clone_flags CLONE_VFORK && bool_decide (p_pid ids > 0)))
  end.

(** From the slot [n] on; [c] is the task of the parent. *)
Definition fork_in_slot (clone_flags cur p : Z) (c : fproc) (n : Z) : M fsys fork_result :=
  _ ← update_proc p (set_slot n);
  _ ← use_modules p 1;
  _ ← update_proc p (copy_flags clone_flags);
  i ← in_pids (get_pid (p_pid (fp_ids c)) clone_flags);
  _ ← update_proc p (λ t, set_parent cur (set_ids (child_of (fp_ids c) i) t));
  r ← copy_parts clone_flags cur p;
  if decide (r ≠ 0) then mret (Forked r false)
  else finish_fork clone_flags cur p (fp_ids c).

(** [alloc] is the result of [alloc_task_struct]. *)
Definition do_fork (clone_flags cur : Z) (alloc : option Z) : M fsys fork_result :=
  c ← proc_of cur;
  if decide (has clone_flags CLONE_PID = true ∧ p_pid (fp_ids c) ≠ 0) then mret (Forked (- EPERM) false)
  else
    match alloc with
    | None => mret (Forked (- ENOMEM) false)
    | Some p =>
      _ ← store_proc p c;
      _ ← in_res (t ← current_task cur; set_newp (λ _, t));
      r ← in_users (fork_user cur p (fp_rlim c));
      if decide (r ≠ 0) then _ ← free_task_struct p; mret (Forked r false)
      else
        u ← in_users (utask_of cur);
        slot ← find_empty_process (tuid u);
        match slot with
        | None => _ ← bad_fork_cleanup_count p; mret (Forked (- ForkUid.EAGAIN) false)
        | Some n => fork_in_slot clone_flags cur p c n
        end
    end.
End fork.
