(* ===== verification/ForkParts.v ===== *)
(** The copies that [do_fork] makes and the clean-up after one that fails: on every path what
    tasks share, with its contents, the count of the user, the slot and the modules are
    again what they were; when the copies succeed, [held] says what the child has. *)

From Stdlib Require Import ZArith Lia.
From stdpp Require Import base list gmap fin_maps.
From S2P Require Import Prelude.
From S2P Require Import ForkUid.
From S2P Require Import ForkUidRep.
From S2P Require Import ForkUidProps.
From S2P Require Import TaskRes.
From S2P Require Import ForkCopy.
From S2P Require Import ForkCopyProps.
From S2P Require Import ForkFilesProps.
From S2P Require Import ForkMm.
From S2P Require Import ForkMmProps.
From S2P Require Import ForkExit.
From S2P Require Import Fork.

#[local] Open Scope Z_scope.

Lemma runs_lift {S A} (get : fsys → S) (put : S → fsys → fsys) (m : M S A) s (Q : fsys → A → Prop) :
  runs m (get s) (λ x a, Q (put x s) a) → runs (lift get put m) s Q.
Proof. unfold runs, lift. by destruct (m (get s)). Qed.

Lemma proc_of_eq p s t : f_procs s !! p = Some t → proc_of p s = Ok s t.
Proof. intros Hp. unfold proc_of. by rewrite Hp. Qed.

Lemma update_proc_eq p g s t : f_procs s !! p = Some t →
  update_proc p g s = Ok (with_procs (<[p := g t]> (f_procs s)) s) ().
Proof. intros Hp. unfold update_proc. by rewrite (bind_Ok _ _ s s t) by (by apply proc_of_eq). Qed.

(** No reference is held for the task that is built. *)
Definition no_refs : rtask := RTask None None None None.

(** How often a task uses the module [m]. *)
Definition uses (t : fproc) (m : positive) : Z := pt (fp_domain t) m + pt (fp_binfmt t) m.

Lemma mod_add_spec o d s : runs (mod_add o d) s (λ s' _, ∃ ms, s' = with_mods ms s ∧
  ∀ m, default 0 (ms !! m) = default 0 (f_mods s !! m) + d * pt o m).
Proof.
  unfold mod_add. destruct o as [k|]; runs_auto.
  - eexists. split; [done|]. intros m. rewrite pt_some, lookup_insert. case_decide; subst; [rewrite decide_True by done; cbn; lia|].
    rewrite decide_False by done. lia.
  - exists (f_mods s). split; [by destruct s|]. intros m. rewrite pt_none. lia.
Qed.

Lemma use_modules_spec p d s t : f_procs s !! p = Some t →
  runs (use_modules p d) s (λ s' _, ∃ ms, s' = with_mods ms s ∧
    ∀ m, default 0 (ms !! m) = default 0 (f_mods s !! m) + d * uses t m).
Proof.
  intros Hp. unfold use_modules. runs_step. eapply runs_eq; [by apply proc_of_eq|].
  runs_step. eapply runs_mono; [apply mod_add_spec|]. intros s1 _ (m1 & -> & H1).
  eapply runs_mono; [apply mod_add_spec|]. intros s2 _ (m2 & -> & H2). exists m2. split; [done|].
  intros m. rewrite H2. cbn. rewrite H1. unfold uses. lia.
Qed.

(** [s] has the shared objects of [s0], and the references [own] of the child of [ct]: what
    is shared is counted once more, what is not is copied, and all else is as it was. *)
Record held (fl : Z) (ct : rtask) (s0 : tres) (own : rtask) (s : tres) : Prop := {
  hd_files : files_added fl (t_files ct) (filess s0) (t_files own) (filess s);
  hd_fs : fs_added fl (t_fs ct) (fss s0) (t_fs own) (fss s);
  hd_sig : sig_added fl (t_sig ct) (sigs s0) (t_sig own) (sigs s);
  hd_mm : mm_added fl (t_mm ct) (mms s0) (t_mm own) (mms s)
}.

Definition same_shared (s s' : tres) : Prop :=
  filess s' = filess s ∧ fss s' = fss s ∧ sigs s' = sigs s ∧ mms s' = mms s.

(** A reference that is dropped leaves nothing. *)
Lemma held_drop_files fl ct s0 l o2 o3 o4 s s' x :
  held fl ct s0 (RTask (Some l) o2 o3 o4) s → fss s' = fss s ∧ sigs s' = sigs s ∧ mms s' = mms s → filess s !! l = Some x →
  filess s' = (if decide (fl_count x = 1) then delete l (filess s)
    else <[l := Files (fl_count x - 1) (next_fd x) (max_fds x) (max_fdset x) (close_on_exec x) (open_fds x) (fd x)]> (filess s)) →
  held fl ct s0 (RTask None o2 o3 o4) s'.
Proof.
  intros [Ha ? ? ?] (E1 & E2 & E3) Hx E. split; cbn in *; rewrite ?E1, ?E2, ?E3; try done. rewrite E.
  apply (added_drop fl_count up_files (λ y, Files (fl_count y - 1) (next_fd y) (max_fds y) (max_fdset y) (close_on_exec y) (open_fds y) (fd y))
    _ _ _ _ _ _ _ (λ _, eq_refl) (λ y, ltac:(destruct y; cbn; f_equal; lia)) Ha Hx).
Qed.

Lemma held_drop_fs fl ct s0 o1 l o3 o4 s s' x :
  held fl ct s0 (RTask o1 (Some l) o3 o4) s → filess s' = filess s ∧ sigs s' = sigs s ∧ mms s' = mms s → fss s !! l = Some x →
  fss s' = (if decide (fs_count x = 1) then delete l (fss s)
    else <[l := Fs (fs_count x - 1) (umask x) (fs_root x) (fs_pwd x)]> (fss s)) →
  held fl ct s0 (RTask o1 None o3 o4) s'.
Proof.
  intros [? Ha ? ?] (E1 & E2 & E3) Hx E. split; cbn in *; rewrite ?E1, ?E2, ?E3; try done. rewrite E.
  apply (added_drop fs_count up_fs (λ y, Fs (fs_count y - 1) (umask y) (fs_root y) (fs_pwd y))
    _ _ _ _ _ _ _ (λ _, eq_refl) (λ y, ltac:(destruct y; cbn; f_equal; lia)) Ha Hx).
Qed.

Lemma held_drop_sig fl ct s0 o1 o2 l o4 s s' x :
  held fl ct s0 (RTask o1 o2 (Some l) o4) s → filess s' = filess s ∧ fss s' = fss s ∧ mms s' = mms s → sigs s !! l = Some x →
  sigs s' = (if decide (sig_count x = 1) then delete l (sigs s) else <[l := Sig (sig_count x - 1) (action x)]> (sigs s)) →
  held fl ct s0 (RTask o1 o2 None o4) s'.
Proof.
  intros [? ? Ha ?] (E1 & E2 & E3) Hx E. split; cbn in *; rewrite ?E1, ?E2, ?E3; try done. rewrite E.
  apply (added_drop sig_count up_sig (λ y, Sig (sig_count y - 1) (action y))
    _ _ _ _ _ _ _ (λ _, eq_refl) (λ y, ltac:(destruct y; cbn; f_equal; lia)) Ha Hx).
Qed.

Lemma held_drop_mm fl ct s0 o1 o2 o3 l s s' x :
  held fl ct s0 (RTask o1 o2 o3 (Some l)) s → same_rest s s' → mms s !! l = Some x →
  mms s' = (if decide (mm_count x = 1) then delete l (mms s) else <[l := set_mm_count (mm_count x - 1) x]> (mms s)) →
  held fl ct s0 (RTask o1 o2 o3 None) s'.
Proof.
  intros [? ? ? Ha] (E1 & E2 & E3 & _) Hx E. split; cbn in *; rewrite ?E1, ?E2, ?E3; try done. rewrite E.
  apply (added_drop mm_count up_mm (λ y, set_mm_count (mm_count y - 1) y)
    _ _ _ _ _ _ _ (λ _, eq_refl) (λ y, ltac:(destruct y; unfold up_mm, set_mm_count; cbn; f_equal; lia)) Ha Hx).
Qed.

(** The state [s'] after the task [p] that was built in [q] is gone. *)
Record undone (e : ext) (q : fsys) (p : Z) (t : fproc) (s' : fsys) : Prop := {
  un_res : rinv e no_refs (f_res s');
  un_rtasks : rtasks (f_res s') = rtasks (f_res q);
  un_shared : same_shared (f_res q) (f_res s');
  un_uinv : uinv (f_users s');
  un_utasks : utasks (f_users s') = delete p (utasks (f_users q));
  un_pids : f_pids s' = f_pids q;
  un_kern : f_kern s' = f_kern q;
  un_procs : f_procs s' = delete p (f_procs q);
  un_slots : ∃ n, fp_slot t = Some n ∧ f_slots s' ≡ₚ n :: f_slots q;
  un_nr : nr_tasks s' = nr_tasks q;
  un_mods m : default 0 (f_mods s' !! m) = default 0 (f_mods q !! m) - uses t m;
  un_forks : total_forks s' = total_forks q
}.

(** The task [p] of the state [q], with all that is not shared. *)
Record built (q : fsys) (p : Z) (t : fproc) (u : utask) : Prop := {
  bt_uinv : uinv (f_users q);
  bt_user : utasks (f_users q) !! p = Some u;
  bt_proc : f_procs q !! p = Some t;
  bt_slot : is_Some (fp_slot t)
}.

Lemma uinv_delete s p t : uinv s → utasks s !! p = Some t → tuser t = None → uinv (with_utasks (delete p (utasks s)) s).
Proof.
  intros Hi Hp Ht. destruct Hi as [H1 H2 H3 H4 H5]. split; cbn; try done.
  - intros l u Hl. destruct (H3 l u Hl) as [E ?]. split; [|done]. rewrite E.
    rewrite <- (insert_delete_id (utasks s) p t Hp) at 1. rewrite nrefs_insert, delete_delete_eq, Ht. rewrite decide_False by done. lia.
  - intros p' t' l [_ Hp']%lookup_delete_Some. eauto.
  - intros p' t' [_ Hp']%lookup_delete_Some. eauto.
Qed.

Section parts.
Context (add_free_taskslot : Z → list Z → list Z).
Context (get_free_taskslot : list Z → option (Z * list Z)) (Hslots : slots_law get_free_taskslot add_free_taskslot).

Lemma cleanup_count_spec e q p u r :
  uinv (f_users q) → utasks (f_users q) !! p = Some u → rinv e no_refs r →
  runs (bad_fork_cleanup_count p) (with_res r q) (λ s' _,
    ∃ us, s' = with_procs (delete p (f_procs q)) (with_usys us (with_res r q)) ∧ uinv us ∧
      utasks us = delete p (utasks (f_users q))).
Proof.
  intros Hu Hp Hi. unfold bad_fork_cleanup_count, free_task_struct. runs_step. apply runs_lift.
  eapply runs_mono; [by apply (free_uid_spec _ _ u)|]. intros us _ (Hus & Et). cbn.
  runs_step. runs_step. apply runs_lift. runs_auto.
  eexists. split; [reflexivity|]. split; [|cbn; by rewrite Et, delete_insert_eq].
  eapply uinv_delete; [done|by rewrite Et, lookup_insert_eq|done].
Qed.

Lemma cleanup_spec e q p t u r :
  built q p t u → rinv e no_refs r → same_shared (f_res q) r → rtasks r = rtasks (f_res q) →
  runs (bad_fork_cleanup add_free_taskslot p) (with_res r q) (λ s' _, undone e q p t s').
Proof.
  intros [Hu Hp Ht [n Hn]] Hi Hsh Er. unfold bad_fork_cleanup. runs_step.
  eapply runs_mono; [by apply (use_modules_spec p (-1) _ t)|]. intros s1 _ (ms & -> & Hms).
  runs_step. eapply runs_eq; [by apply proc_of_eq|]. rewrite Hn. runs_step. runs_step.
  set (q1 := with_slots (add_free_taskslot n (f_slots q)) (with_mods ms q)).
  eapply runs_mono; [by apply (cleanup_count_spec e q1 p u r)|]. intros s' _ (us & -> & Hus & Eus).
  split; cbn; try done.
  exists n. split; [done|]. apply (slot_add _ _ Hslots).
Qed.

Context (exit_files exit_fs exit_sighand : M tres unit).
Context (Hfiles : exit_files_law exit_files) (Hfs : exit_fs_law exit_fs) (Hsig : exit_sighand_law exit_sighand).
Context (new_page_tables : positive → M tres Z) (Hnew : new_page_tables_law new_page_tables).
Context (copy_page_range : positive → vma → Z).
Context (vm_open : vma → M tres unit) (Hopen : vm_open_law vm_open).
Context (exit_mmap : positive → M tres unit) (Hexit : exit_mmap_law exit_mmap).
Context (free_page_tables : positive → M tres unit) (Hfree : free_page_tables_law free_page_tables).

(** The labels, from the last to the first; [own] are the references that the task has. *)
Lemma cleanup_files_spec e q p t u fl ct r l :
  built q p t u → rinv e (RTask (Some l) None None None) r → held fl ct (f_res q) (RTask (Some l) None None None) r →
  t_files (newp r) = Some l → rtasks r = rtasks (f_res q) →
  runs (bad_fork_cleanup_files add_free_taskslot exit_files p) (with_res r q) (λ s' _, undone e q p t s').
Proof.
  intros Hb Hi Hh Hn Er. unfold bad_fork_cleanup_files. runs_step. apply runs_lift.
  eapply runs_mono; [by eapply exit_files_spec|]. intros r' _ ([Hi' Et' En'] & Hs & x & Hx & E).
  eapply held_drop_files in E; [|done..]. destruct E as [E1 E2 E3 E4].
  apply (cleanup_spec e q p t u r'); [done|done|done|by rewrite Et'].
Qed.

Lemma cleanup_fs_spec e q p t u fl ct r l1 l2 :
  built q p t u → rinv e (RTask (Some l1) (Some l2) None None) r → held fl ct (f_res q) (RTask (Some l1) (Some l2) None None) r →
  t_files (newp r) = Some l1 → t_fs (newp r) = Some l2 → rtasks r = rtasks (f_res q) →
  runs (bad_fork_cleanup_fs add_free_taskslot exit_files exit_fs p) (with_res r q) (λ s' _, undone e q p t s').
Proof.
  intros Hb Hi Hh Hn1 Hn2 Er. unfold bad_fork_cleanup_fs. runs_step. apply runs_lift.
  eapply runs_mono; [by eapply exit_fs_spec|]. intros r' _ ([Hi' Et' En'] & Hs & x & Hx & E).
  eapply held_drop_fs in E; [|done..].
  apply (cleanup_files_spec e q p t u fl ct r' l1); [done|done|done|by rewrite En'|by rewrite Et'].
Qed.

Lemma cleanup_sighand_spec e q p t u fl ct r l1 l2 l3 :
  built q p t u → rinv e (RTask (Some l1) (Some l2) (Some l3) None) r →
  held fl ct (f_res q) (RTask (Some l1) (Some l2) (Some l3) None) r →
  t_files (newp r) = Some l1 → t_fs (newp r) = Some l2 → t_sig (newp r) = Some l3 → rtasks r = rtasks (f_res q) →
  runs (bad_fork_cleanup_sighand add_free_taskslot exit_files exit_fs exit_sighand p) (with_res r q)
    (λ s' _, undone e q p t s').
Proof.
  intros Hb Hi Hh Hn1 Hn2 Hn3 Er. unfold bad_fork_cleanup_sighand. runs_step. apply runs_lift.
  eapply runs_mono; [by eapply exit_sighand_spec|]. intros r' _ ([Hi' Et' En'] & Hs & x & Hx & E).
  eapply held_drop_sig in E; [|done..].
  apply (cleanup_fs_spec e q p t u fl ct r' l1 l2); [done|done|done|by rewrite En'..|by rewrite Et'].
Qed.

Lemma cleanup_mm_spec e q p t u fl ct r l1 l2 l3 l4 :
  built q p t u → rinv e (RTask (Some l1) (Some l2) (Some l3) (Some l4)) r →
  held fl ct (f_res q) (RTask (Some l1) (Some l2) (Some l3) (Some l4)) r →
  newp r = RTask (Some l1) (Some l2) (Some l3) (Some l4) → rtasks r = rtasks (f_res q) →
  runs (bad_fork_cleanup_mm add_free_taskslot exit_files exit_fs exit_sighand exit_mmap free_page_tables p) (with_res r q)
    (λ s' _, undone e q p t s').
Proof.
  intros Hb Hi Hh Hn Er. unfold bad_fork_cleanup_mm. runs_step. runs_step. cbn [f_res with_res]. rewrite Hn. cbn [t_mm].
  destruct (mm_alive e _ r l4 Hi (refs_own _ _ _ _ eq_refl)) as (x & Hx & _).
  runs_step. apply runs_lift. cbn [f_res with_res]. eapply runs_mono; [by eapply mmput_spec|].
  intros r' _ [Hi' Et' En' Hs _ _ E]. specialize (E x Hx). eapply held_drop_mm in E; [|done..].
  runs_step. apply runs_lift. unfold set_newp. runs_step. cbn [f_res with_res].
  apply (cleanup_sighand_spec e q p t u fl ct (with_newp (set_mm None (newp r')) r') l1 l2 l3); try done; cbn;
    [| |by rewrite En'; cbn; rewrite Hn..|by rewrite Et'].
  - by apply rinv_newp.
  - by destruct E.
Qed.

(** ** All copies *)

Context (expand_fdset expand_fd_array : files_struct → Z → Z * files_struct).
Context (Hfdset : expand_fdset_law expand_fdset) (Hfdarray : expand_fd_array_law expand_fd_array).
Context (junk_open junk_coe : list Z) (junk_fd : list (option positive)) (Hjunk : junk_ok junk_open junk_coe junk_fd).
Context (copy_thread : Z).

Definition full_task (t : rtask) : Prop :=
  is_Some (t_files t) ∧ is_Some (t_fs t) ∧ is_Some (t_sig t) ∧ is_Some (t_mm t).

Lemma pointed_alive {A} (h : tres → gmap positive A) (g : A → Z) field e own s cur t l :
  (∀ k, default 0 (g <$> h s !! k) = refs field own s k) →
  rinv e own s → rtasks s !! cur = Some t → field t = Some l → ∃ x, h s !! l = Some x.
Proof.
  intros Hg Hi Hc Hl. pose proof (refs_task field own s l cur t Hc Hl) as Hr. rewrite <- Hg in Hr.
  apply default_pos in Hr as [x Hx]. by exists x.
Qed.

(** From the copy of the signal table on. *)
Definition copied_all (e : ext) (q : fsys) (p : Z) (t : fproc) (fl : Z) (ct : rtask) (s' : fsys) (r : Z) : Prop :=
  (r = 0 ∧ ∃ r', s' = with_res r' q ∧ rtasks r' = rtasks (f_res q) ∧ rinv e (newp r') r' ∧ full_task (newp r') ∧
     held fl ct (f_res q) (newp r') r') ∨
  (r ≠ 0 ∧ (r = - ENOMEM ∨ r = copy_thread) ∧ undone e q p t s').

Lemma failed_spec e q p t fl ct (m : M fsys unit) s z :
  z = - ENOMEM ∨ z = copy_thread → z ≠ 0 → runs m s (λ s' _, undone e q p t s') →
  runs (_ ← m; mret z) s (copied_all e q p t fl ct).
Proof.
  intros Hz Hz0 Hm. runs_step. eapply runs_mono; [exact Hm|]. intros s' ? Hun. runs_auto. right. by split_and!.
Qed.

Lemma copy_last_spec e q p t u clone_flags cur ct k1 k2 r :
  built q p t u → rinv e (RTask (Some k1) (Some k2) None None) r → rtasks r = rtasks (f_res q) →
  held clone_flags ct (f_res q) (RTask (Some k1) (Some k2) None None) r →
  rtasks r !! cur = Some ct → newp r = set_fs (Some k2) (set_files (Some k1) ct) → is_Some (t_sig ct) → is_Some (t_mm ct) →
  runs (copy_from_sighand add_free_taskslot exit_files exit_fs exit_sighand copy_thread new_page_tables copy_page_range
          vm_open exit_mmap free_page_tables clone_flags cur p) (with_res r q) (copied_all e q p t clone_flags ct).
Proof.
  intros Hb Hi Et [Ha1 Ha2 Ha3 Ha4] Hc Hn [l3 H3] [l4 H4]. unfold copy_from_sighand. cbn in Ha3, Ha4.
  destruct (pointed_alive sigs sig_count t_sig e _ r cur ct l3 (r_sig _ _ _ Hi) Hi Hc H3) as [x3 Hx3].
  runs_step. apply runs_lift. eapply runs_mono.
  { apply (copy_sighand_spec e _ r cur clone_flags ct l3 x3 Hi); try done. by rewrite Hn. }
  intros r1 z1 [(M1 & M2 & M4) [(-> & [k3 Hk3] & [Et1 En1 Hi1] & M3)|(-> & En1 & Et1 & Hi1 & M3)]]; cycle 1.
  { rewrite decide_True by done. apply failed_spec; [by left|done|].
    apply (cleanup_fs_spec e q p t u clone_flags ct r1 k1 k2); try done; rewrite ?En1, ?Hn, ?Et1; try done.
    split; cbn; rewrite ?M1, ?M2, ?M3, ?M4; done. }
  rewrite decide_False by auto. rewrite Hk3 in *. rewrite Hn in En1. rewrite <- Et1 in Hc.
  destruct (pointed_alive mms mm_count t_mm e _ r1 cur ct l4 (r_mm _ _ _ Hi1) Hi1 Hc H4) as [x4 Hx4].
  assert (held clone_flags ct (f_res q) (RTask (Some k1) (Some k2) (Some k3) None) r1) as [B1 B2 B3 B4].
  { split; cbn; rewrite ?M1, ?M2, ?M4; try done. by rewrite <- Ha3. }
  runs_step. apply runs_lift. eapply runs_mono.
  { apply (copy_mm_spec _ Hnew copy_page_range _ Hopen _ Hexit _ Hfree e _ r1 cur clone_flags ct l4 x4 Hi1); try done.
    by rewrite En1. }
  intros r2 z2 [(N3 & N2 & N1 & _) [(-> & [k4 Hk4] & [Et2 En2 Hi2] & N4)|(Hz & Et2 & Hi2 & N4 & o & En2)]]; cycle 1.
  { rewrite decide_True by done. apply failed_spec; [by left|done|].
    apply (cleanup_sighand_spec e q p t u clone_flags ct r2 k1 k2 k3); try done; try by rewrite ?En2, ?En1, ?Et2, ?Et1.
    split; cbn; rewrite ?N1, ?N2, ?N3, ?N4; done. }
  rewrite decide_False by auto. rewrite Hk4 in *. rewrite En1 in En2.
  assert (held clone_flags ct (f_res q) (RTask (Some k1) (Some k2) (Some k3) (Some k4)) r2) as Hh2.
  { split; cbn; rewrite ?N1, ?N2, ?N3; try done. cbn in B4. by rewrite <- B4. }
  case_decide as Hz.
  - apply failed_spec; [by right|done|]. apply (cleanup_mm_spec e q p t u clone_flags ct r2 k1 k2 k3 k4); try done. by rewrite Et2, Et1.
  - runs_auto. left. split; [done|]. exists r2. split; [done|]. split; [by rewrite Et2, Et1|]. rewrite En2.
    split; [done|]. split; [repeat split; by eexists|done].
Qed.

Lemma copy_rest_spec e q p t u clone_flags cur ct k1 r :
  built q p t u → rinv e (RTask (Some k1) None None None) r → rtasks r = rtasks (f_res q) →
  held clone_flags ct (f_res q) (RTask (Some k1) None None None) r →
  rtasks r !! cur = Some ct → newp r = set_files (Some k1) ct → full_task ct →
  runs (copy_from_fs add_free_taskslot exit_files exit_fs exit_sighand copy_thread new_page_tables copy_page_range
          vm_open exit_mmap free_page_tables clone_flags cur p) (with_res r q) (copied_all e q p t clone_flags ct).
Proof.
  intros Hb Hi Et [Ha1 Ha2 Ha3 Ha4] Hc Hn (_ & [l2 H2] & H3 & H4). unfold copy_from_fs. cbn in Ha2, Ha3, Ha4.
  destruct (pointed_alive fss fs_count t_fs e _ r cur ct l2 (r_fs _ _ _ Hi) Hi Hc H2) as [x2 Hx2].
  runs_step. apply runs_lift. eapply runs_mono.
  { apply (copy_fs_spec e _ r cur clone_flags ct l2 x2 Hi); try done. by rewrite Hn. }
  intros r1 z1 [(M1 & M3 & M4) [(-> & [k2 Hk2] & [Et1 En1 Hi1] & M2)|(-> & En1 & Et1 & Hi1 & M2)]]; cycle 1.
  { rewrite decide_True by done. apply failed_spec; [by left|done|].
    apply (cleanup_files_spec e q p t u clone_flags ct r1 k1); try done; rewrite ?En1, ?Hn, ?Et1; try done.
    split; cbn; rewrite ?M1, ?M2, ?M3, ?M4; done. }
  rewrite decide_False by auto. rewrite Hk2 in *. rewrite Hn in En1.
  apply (copy_last_spec e q p t u clone_flags cur ct k1 k2 r1); rewrite ?Et1; try done.
  split; cbn; rewrite ?M1, ?M3, ?M4; try done. by rewrite <- Ha2.
Qed.

(** The copies succeed, or all is undone. *)
Lemma copy_parts_spec e q p t u clone_flags cur ct fx :
  built q p t u → rinv e no_refs (f_res q) → rtasks (f_res q) !! cur = Some ct → newp (f_res q) = ct → full_task ct →
  (∀ l, t_files ct = Some l → filess (f_res q) !! l = Some fx) → table_wf fx →
  runs (copy_parts add_free_taskslot exit_files exit_fs exit_sighand copy_thread new_page_tables copy_page_range vm_open
          exit_mmap free_page_tables expand_fdset expand_fd_array junk_open junk_coe junk_fd clone_flags cur p) q
    (copied_all e q p t clone_flags ct).
Proof.
  intros Hb Hi Hc Hn ([l1 H1] & [l2 H2] & [l3 H3] & [l4 H4]) Hfx Hwf. specialize (Hfx l1 H1). unfold copy_parts.
  runs_step. apply runs_lift. eapply runs_mono.
  { apply (copy_files_spec _ _ Hfdset Hfdarray junk_open junk_coe junk_fd e no_refs (f_res q) cur clone_flags ct l1 fx); try done.
    by rewrite Hn. }
  intros r1 z1 [(M2 & M3 & M4) [(-> & [k1 Hk1] & [Et1 En1 Hi1] & M1)|(Hz1 & _ & Et1 & Hi1 & M1)]]; cycle 1.
  { rewrite decide_True by done. apply failed_spec; [by left|done|]. by apply (cleanup_spec e q p t u). }
  rewrite decide_False by auto. rewrite Hn in En1. rewrite <- Et1 in Hc. rewrite Hk1 in *.
  eapply (copy_rest_spec e q p t u clone_flags cur ct k1 r1); try done; repeat (by eexists || split).
Qed.
End parts.
