(* ===== verification/ForkProps.v ===== *)
(** [do_fork] is all or nothing: it makes a task that is counted everywhere, with an id
    and a slot of its own, or it fails and nothing is left of it. *)

From Stdlib Require Import ZArith Lia.
From stdpp Require Import base list gmap fin_maps.
From S2P Require Import Prelude.
From S2P Require Import Dkmctl.
From S2P Require Import ForkPid.
From S2P Require Import ForkUid.
From S2P Require Import ForkUidRep.
From S2P Require Import ForkUidProps.
From S2P Require Import TaskRes.
From S2P Require Import ForkCopy.
From S2P Require Import ForkFilesProps.
From S2P Require Import ForkCopyProps.
From S2P Require Import ForkMm.
From S2P Require Import ForkMmProps.
From S2P Require Import ForkExit.
From S2P Require Import Fork.
From S2P Require Import ForkParts.

#[local] Open Scope Z_scope.

(** * The results *)

(** Open files, what denies writes to them, and dentries are counted as they were. *)
Definition same_counts (s s' : tres) : Prop :=
  (∀ f, default 0 (f_count <$> files s' !! f) = default 0 (f_count <$> files s !! f)) ∧
  (∀ f x y, files s !! f = Some x → files s' !! f = Some y → y = x) ∧
  (∀ d, default 0 (dentries s' !! d) = default 0 (dentries s !! d)).

(** Nothing is left of a task that could not be made: the tasks are what they were, and so
    is every object that tasks share, its contents and its count; only the search for ids
    has advanced. *)
Record unchanged (e : ext) (s s' : fsys) : Prop := {
  uc_res : rinv e no_refs (f_res s');
  uc_rtasks : rtasks (f_res s') = rtasks (f_res s);
  uc_shared : same_shared (f_res s) (f_res s');
  uc_counts : same_counts (f_res s) (f_res s');
  uc_uinv : uinv (f_users s');
  uc_utasks : utasks (f_users s') = utasks (f_users s);
  uc_ptasks : ptasks (f_pids s') = ptasks (f_pids s);
  uc_pids : pid_inv (f_pids s');
  uc_kern : f_kern s' = f_kern s;
  uc_procs : f_procs s' = f_procs s;
  uc_slots : f_slots s' ≡ₚ f_slots s;
  uc_nr : nr_tasks s' = nr_tasks s;
  uc_mods m : default 0 (f_mods s' !! m) = default 0 (f_mods s !! m);
  uc_forks : total_forks s' = total_forks s
}.

(** The child [p] of [cur] with the id [i]: what the flags make it share with its parent is
    counted once more, the rest is copied, and no object changes else. *)
Record forked (e : ext) (s s' : fsys) (cur p : Z) (c : fproc) (u : utask) (ct : rtask) (junk fl i : Z) : Prop := {
  fk_res : rinv e no_refs (f_res s');
  fk_rtasks : ∃ n, full_task n ∧ rtasks (f_res s') = <[p := n]> (rtasks (f_res s)) ∧ held fl ct (f_res s) n (f_res s');
  fk_uinv : uinv (f_users s');
  fk_utasks : utasks (f_users s') = <[p := u]> (utasks (f_users s));
  fk_id : ¬ used (ptasks (f_pids s)) i ∧ 0 < i < PID_MAX;
  fk_ptasks : ptasks (f_pids s') = ptasks (f_pids s) ++ [child_of (fp_ids c) i];
  fk_kern : Dkmctl.do_fork (p_pid (fp_ids c)) i junk (f_kern s) = Ok (f_kern s') i;
  fk_procs : ∃ n t, f_slots s ≡ₚ n :: f_slots s' ∧
    f_procs s' = <[p := t]> (<[cur := set_counter (Z.shiftr (fp_counter c) 1) c]> (f_procs s)) ∧
    fp_slot t = Some n ∧ fp_ids t = child_of (fp_ids c) i ∧ fp_parent t = cur ∧
    fp_exit_signal t = Z.land fl CSIGNAL ∧ fp_counter t = Z.shiftr (fp_counter c) 1 ∧
    fp_flags t = fp_flags (copy_flags fl c) ∧ fp_domain t = fp_domain c ∧ fp_binfmt t = fp_binfmt c;
  fk_nr : nr_tasks s' = nr_tasks s + 1;
  fk_mods m : default 0 (f_mods s' !! m) = default 0 (f_mods s !! m) + uses c m;
  fk_forks : total_forks s' = total_forks s + 1
}.

Lemma with_res_id s : with_res (f_res s) s = s.
Proof. by destruct s. Qed.

Lemma same_counts_of e s s' :
  rinv e no_refs s → rinv e no_refs s' → same_shared s s' → same_counts s s'.
Proof.
  intros Hi Hi' (E1 & E2 & _ & E4).
  assert (∀ f, default 0 (f_count <$> files s' !! f) = default 0 (f_count <$> files s !! f)) as Hf.
  { intros f. rewrite (r_file _ _ _ Hi), (r_file _ _ _ Hi'). unfold file_refs. by rewrite E1, E4. }
  split; [done|]. split.
  - intros f x y Hx Hy. specialize (Hf f). rewrite Hx, Hy in Hf. cbn in Hf.
    pose proof (r_write _ _ _ Hi _ _ Hx) as Wx. pose proof (r_write _ _ _ Hi' _ _ Hy) as Wy.
    unfold deny_refs in *. rewrite E4 in Wy. destruct x, y. cbn in *. f_equal; congruence.
  - intros d. rewrite (r_dentry _ _ _ Hi), (r_dentry _ _ _ Hi'). unfold dentry_refs. by rewrite E2.
Qed.

(** The references that were held for the new task are those of a task now. *)
Lemma rinv_link e own s p : rinv e own s → rtasks s !! p = None →
  rinv e no_refs (with_rtasks (<[p := own]> (rtasks s)) s).
Proof.
  intros Hi Hp.
  assert (∀ field l, field no_refs = None → refs field no_refs (with_rtasks (<[p := own]> (rtasks s)) s) l = refs field own s l) as Hr.
  { intros field l E. unfold refs. cbn. rewrite (msum_new _ _ p) by done. rewrite E, pt_none. lia. }
  split; try apply Hi; intros l; rewrite Hr by done; apply Hi.
Qed.

(** ** The prepared task *)

(** [q]: the copy [t] of the task [c] with an id, a slot, its user and modules counted. *)
Record prepared (s q : fsys) (cur p : Z) (c t : fproc) (u : utask) (ct : rtask) (fl i : Z) : Prop := {
  pp_res : f_res q = with_newp ct (f_res s);
  pp_uinv : uinv (f_users q);
  pp_utasks : utasks (f_users q) = <[p := u]> (utasks (f_users s));
  pp_id : ¬ used (ptasks (f_pids s)) i ∧ 0 < i < PID_MAX;
  pp_pids : pid_inv (f_pids q) ∧ ptasks (f_pids q) = ptasks (f_pids s);
  pp_kern : f_kern q = f_kern s;
  pp_procs : f_procs q = <[p := t]> (f_procs s);
  pp_t : fp_ids t = child_of (fp_ids c) i ∧ fp_parent t = cur ∧ fp_flags t = fp_flags (copy_flags fl c) ∧
    fp_domain t = fp_domain c ∧ fp_binfmt t = fp_binfmt c;
  pp_slots : ∃ n, fp_slot t = Some n ∧ f_slots s ≡ₚ n :: f_slots q;
  pp_nr : nr_tasks q = nr_tasks s;
  pp_mods m : default 0 (f_mods q !! m) = default 0 (f_mods s !! m) + uses c m;
  pp_forks : total_forks q = total_forks s
}.

Lemma undone_unchanged e s q s' cur p c t u ct fl i :
  rinv e no_refs (f_res s) → prepared s q cur p c t u ct fl i → undone e q p t s' → f_procs s !! p = None → utasks (f_users s) !! p = None →
  unchanged e s s'.
Proof.
  intros Hi Hpp Hun Hp Hu.
  assert (same_shared (f_res s) (f_res s')) as Hsh by (pose proof (un_shared _ _ _ _ _ Hun) as H; by rewrite (pp_res _ _ _ _ _ _ _ _ _ _ Hpp) in H).
  destruct (pp_slots _ _ _ _ _ _ _ _ _ _ Hpp) as (n & En & Hs).
  destruct (un_slots _ _ _ _ _ Hun) as (n' & En' & Hs'). destruct (pp_pids _ _ _ _ _ _ _ _ _ _ Hpp) as [Hpi Ept].
  destruct (pp_t _ _ _ _ _ _ _ _ _ _ Hpp) as (_ & _ & _ & Ed & Eb). destruct Hun, Hpp. split; try done; try congruence.
  - by rewrite un_rtasks, pp_res0.
  - by eapply same_counts_of.
  - by rewrite un_utasks, pp_utasks0, delete_insert_id.
  - by rewrite un_procs, pp_procs0, delete_insert_id.
  - rewrite Hs', Hs. by simplify_eq.
  - intros m. rewrite un_mods, pp_mods0. unfold uses. rewrite Ed, Eb. lia.
Qed.

Section fork.
Context (get_free_taskslot : list Z → option (Z * list Z)) (add_free_taskslot : Z → list Z → list Z).
Context (Hslots : slots_law get_free_taskslot add_free_taskslot).
Context (exit_files exit_fs exit_sighand : M tres unit).
Context (Hfiles : exit_files_law exit_files) (Hfs : exit_fs_law exit_fs) (Hsig : exit_sighand_law exit_sighand).
Context (copy_thread : Z) (Hthread : copy_thread ≤ 0).
Context (new_page_tables : positive → M tres Z) (Hnew : new_page_tables_law new_page_tables).
Context (copy_page_range : positive → vma → Z).
Context (vm_open : vma → M tres unit) (Hopen : vm_open_law vm_open).
Context (exit_mmap : positive → M tres unit) (Hexit : exit_mmap_law exit_mmap).
Context (free_page_tables : positive → M tres unit) (Hfree : free_page_tables_law free_page_tables).
Context (expand_fdset expand_fd_array : files_struct → Z → Z * files_struct).
Context (Hfdset : expand_fdset_law expand_fdset) (Hfdarray : expand_fd_array_law expand_fd_array).
Context (junk_open junk_coe : list Z) (junk_fd : list (option positive)) (Hjunk : junk_ok junk_open junk_coe junk_fd).
Context (junk_r_pid : Z).

(** The last part: the state is that of [q] with other shared resources. *)
Lemma finish_fork_spec e s q r cur p c t u ct fl i kt :
  prepared s q cur p c t u ct fl i → p ≠ cur → f_procs s !! cur = Some c → rtasks (f_res s) !! p = None →
  find_task_by_pid (p_pid (fp_ids c)) (f_kern s) = Some kt →
  rtasks r = rtasks (f_res q) → rinv e (newp r) r → full_task (newp r) →
  held fl ct (f_res q) (newp r) r → pid_inv (link_task (child_of (fp_ids c) i) (f_pids q)) →
  runs (finish_fork junk_r_pid fl cur p (fp_ids c)) (with_res r q) (λ s' v,
    (v = Panic ∧ mem (f_res s') = 0%nat) ∨ (∃ w, v = Forked i w ∧ w = has fl CLONE_VFORK) ∧ forked e s s' cur p c u ct junk_r_pid fl i ∧
      pid_inv (f_pids s')).
Proof.
  intros Hpp Hne Hc Hr Hk Et Hi Hfull Hh Hpid. pose proof (pp_t _ _ _ _ _ _ _ _ _ _ Hpp) as (Ei & Ep & Ef & Ed & Eb).
  pose proof (pp_id _ _ _ _ _ _ _ _ _ _ Hpp) as [_ Hrange]. unfold finish_fork. runs_step. apply runs_lift. eapply kalloc_none_spec; [done|intros H0; runs_auto; by left|].
  intros r' Er' Hi' _ _ _ _. cbn [f_res with_res].
  assert (f_procs q !! p = Some t) as Hpt by (rewrite (pp_procs _ _ _ _ _ _ _ _ _ _ Hpp); by rewrite lookup_insert_eq).
  assert (f_procs q !! cur = Some c) as Hpc by (rewrite (pp_procs _ _ _ _ _ _ _ _ _ _ Hpp); by rewrite lookup_insert_ne).
  runs_step. eapply runs_eq; [by apply proc_of_eq|]. rewrite Ei. cbn [p_pid child_of].
  runs_step. apply runs_lift. cbn [f_kern with_res]. rewrite (pp_kern _ _ _ _ _ _ _ _ _ _ Hpp).
  destruct (Dkmctl.do_fork (p_pid (fp_ids c)) i junk_r_pid (f_kern s)) as [k' v|] eqn:Ek; cycle 1.
  { unfold Dkmctl.do_fork, current_dkm, mbind, M_bind in Ek. by rewrite Hk in Ek. }
  assert (v = i) as ->.
  { unfold Dkmctl.do_fork, current_dkm, mbind, M_bind in Ek. rewrite Hk in Ek. cbn in Ek. by inversion Ek. }
  eapply runs_eq; [exact Ek|]. runs_step. eapply runs_eq; [by apply proc_of_eq|].
  runs_step. eapply runs_eq; [by apply update_proc_eq|]. runs_step. eapply runs_eq; [apply update_proc_eq; cbn; by rewrite lookup_insert_ne|].
  runs_step. unfold link_child. runs_step. runs_step. runs_step. apply runs_lift. runs_step. cbn [p_pid child_of].
  rewrite decide_True by lia. runs_step. runs_step. apply runs_lift. runs_step. runs_auto.
  assert (newp r' = newp r ∧ rtasks r' = rtasks (f_res s)) as [En Ert].
  { rewrite Er'. cbn. by rewrite Et, (pp_res _ _ _ _ _ _ _ _ _ _ Hpp). }
  right. split; [|split; [|done]].
  { exists (has fl CLONE_VFORK). rewrite bool_decide_true by lia. by rewrite andb_true_r. }
  destruct (pp_slots _ _ _ _ _ _ _ _ _ _ Hpp) as (n & Esl & Hsl), (pp_pids _ _ _ _ _ _ _ _ _ _ Hpp) as [_ Ept].
  destruct Hpp. split; cbn; try done.
  - rewrite En. apply rinv_link; [done|by rewrite Ert].
  - exists (newp r). rewrite Ert, En. split; [done|]. split; [done|]. rewrite pp_res0 in Hh. rewrite Er'. by destruct Hh.
  - by rewrite Ept.
  - exists n, (set_counter (Z.shiftr (fp_counter c) 1) (set_exit_signal (Z.land fl CSIGNAL) t)).
    rewrite pp_procs0. split_and!; try done. cbn. rewrite (insert_insert_ne _ cur p), insert_insert_eq by done. done.
  - by rewrite pp_nr0.
  - by rewrite pp_forks0.
Qed.

(** ** The preparation *)

Lemma update_twice s p t g : f_procs s !! p = Some t →
  runs (update_proc p g) s (λ s' _, s' = with_procs (<[p := g t]> (f_procs s)) s).
Proof. intros Hp. eapply runs_eq; [by apply update_proc_eq|done]. Qed.

(** From the slot on: the state has the copy of the task, and its user is counted. *)
Lemma prepare_spec e s us cur p c u ct fl n sl (Q : fsys → fork_result → Prop) :
  rinv e no_refs (f_res s) → f_procs s !! p = None → uinv us → utasks us = <[p := u]> (utasks (f_users s)) →
  pid_inv (f_pids s) → fp_ids c ∈ ptasks (f_pids s) → Z.of_nat (length (ptasks (f_pids s))) ≤ MAX_TASKS →
  Z.land fl CLONE_PID = 0 → f_slots s ≡ₚ n :: sl →
  (∀ q t i, prepared s q cur p c t u ct fl i → pid_inv (link_task (child_of (fp_ids c) i) (f_pids q)) →
     runs (r ← copy_parts add_free_taskslot exit_files exit_fs exit_sighand copy_thread new_page_tables copy_page_range vm_open
             exit_mmap free_page_tables expand_fdset expand_fd_array junk_open junk_coe junk_fd fl cur p;
           if decide (r ≠ 0) then mret (Forked r false) else finish_fork junk_r_pid fl cur p (fp_ids c)) q Q) →
  runs (fork_in_slot add_free_taskslot exit_files exit_fs exit_sighand copy_thread new_page_tables copy_page_range vm_open
          exit_mmap free_page_tables expand_fdset expand_fd_array junk_open junk_coe junk_fd junk_r_pid fl cur p c n)
    (with_slots sl (with_usys us (with_procs (<[p := c]> (f_procs s)) (with_res (with_newp ct (f_res s)) s)))) Q.
Proof.
  intros Hi Hp Hus Eus Hpid Hc Hlen Hfl Hsl HQ. unfold fork_in_slot.
  runs_step. eapply runs_eq; [apply update_proc_eq, lookup_insert_eq|].
  runs_step. eapply runs_mono; [apply use_modules_spec, lookup_insert_eq|]. intros s2 _ (ms & -> & Hms).
  runs_step. eapply runs_eq; [apply update_proc_eq, lookup_insert_eq|].
  runs_step. apply runs_lift. eapply runs_mono; [by apply get_pid_unused|]. intros ps i (Hu & Hr & Hl & Ept & Hps).
  cbn [f_pids with_procs with_mods with_slots with_usys with_res] in Ept, Hu.
  runs_step. eapply runs_eq; [apply update_proc_eq, lookup_insert_eq|].
  eapply (HQ _ _ i).
  - split; cbn; try done.
    + by rewrite !insert_insert_eq.
    + split; [done|]. split; [done|]. split; [|done]. unfold copy_flags. by destruct (has fl CLONE_PTRACE), (has fl CLONE_VFORK).
    + by exists n.
    + intros m. rewrite Hms. cbn. unfold uses. cbn. lia.
  - cbn. rewrite Hl. apply pid_inv_link; [done|by rewrite Ept].
Qed.

(** ** [do_fork] *)

(** What holds of the parent and of the memory for the new task. *)
Record can_fork (e : ext) (s : fsys) (cur p : Z) (c : fproc) (u : utask) (ct : rtask) (fx : files_struct) (kt : task_struct) : Prop := {
  cf_res : rinv e no_refs (f_res s);
  cf_uinv : uinv (f_users s);
  cf_pids : pid_inv (f_pids s) ∧ fp_ids c ∈ ptasks (f_pids s) ∧ Z.of_nat (length (ptasks (f_pids s))) ≤ MAX_TASKS;
  cf_proc : f_procs s !! cur = Some c;
  cf_user : utasks (f_users s) !! cur = Some u;
  cf_task : rtasks (f_res s) !! cur = Some ct ∧ full_task ct;
  cf_table : (∀ l, t_files ct = Some l → filess (f_res s) !! l = Some fx) ∧ table_wf fx;
  cf_kern : find_task_by_pid (p_pid (fp_ids c)) (f_kern s) = Some kt;
  cf_new : f_procs s !! p = None ∧ utasks (f_users s) !! p = None ∧ rtasks (f_res s) !! p = None
}.

Definition fork_post (e : ext) (s : fsys) (cur p : Z) (c : fproc) (u : utask) (ct : rtask) (fl : Z) (s' : fsys) (v : fork_result) : Prop :=
  match v with
  | Panic => mem (f_res s') = 0%nat
  | Forked r w =>
    (r < 0 ∧ w = false ∧ unchanged e s s') ∨
    (0 < r ∧ w = has fl CLONE_VFORK ∧ forked e s s' cur p c u ct junk_r_pid fl r ∧ pid_inv (f_pids s'))
  end.

Lemma unchanged_refl e s : rinv e no_refs (f_res s) → uinv (f_users s) → pid_inv (f_pids s) → unchanged e s s.
Proof. intros. split; try done. by eapply same_counts_of. Qed.

(** The user has too many tasks. *)
Lemma over_limit e s cur p c u ct fl :
  rinv e no_refs (f_res s) → uinv (f_users s) → pid_inv (f_pids s) → f_procs s !! p = None → utasks (f_users s) !! p = None →
  runs (_ ← free_task_struct p; mret (Forked (- ForkUid.EAGAIN) false))
    (with_usys (f_users s) (with_res (with_newp ct (f_res s)) (with_procs (<[p := c]> (f_procs s)) s))) (fork_post e s cur p c u ct fl).
Proof.
  intros Hi Hui Hpi Hp1 Hp2. runs_step. unfold free_task_struct. runs_step. runs_step.
  apply runs_lift. runs_auto. left. split; [done|]. split; [done|].
  assert (with_utasks (delete p (utasks (f_users s))) (f_users s) = f_users s) as E.
  { unfold with_utasks. rewrite delete_id by done. by destruct (f_users s). }
  split; cbn; rewrite ?E; try done; [by apply rinv_newp| |by apply delete_id|by apply delete_insert_id].
  apply (same_counts_of e); [done|by apply rinv_newp|done].
Qed.

(** There is no slot: the user is counted back. *)
Lemma no_slot e s us cur p c u ct fl z :
  rinv e no_refs (f_res s) → uinv us → pid_inv (f_pids s) → f_procs s !! p = None → utasks (f_users s) !! p = None →
  utasks us = <[p := u]> (utasks (f_users s)) → z < 0 →
  runs (_ ← bad_fork_cleanup_count p; mret (Forked z false))
    (with_usys us (with_procs (<[p := c]> (f_procs s)) (with_res (with_newp ct (f_res s)) s))) (fork_post e s cur p c u ct fl).
Proof.
  intros Hi Hus Hpi Hp1 Hp2 Eus Hz. set (s1 := with_usys _ _). runs_step. rewrite <- (with_res_id s1). eapply runs_mono.
  { apply (cleanup_count_spec e s1 p u (f_res s1)); [done|cbn; by rewrite Eus, lookup_insert_eq|by apply rinv_newp]. }
  intros s' ? (us' & -> & Hus' & Eus'). runs_auto. left. split; [done|]. split; [done|]. cbn in Eus'. split; cbn; try done.
  - by apply rinv_newp.
  - apply (same_counts_of e); [done|by apply rinv_newp|done].
  - by rewrite Eus', Eus, delete_insert_id.
  - by rewrite delete_insert_id.
Qed.

(** The copies and the end, in a prepared state. *)
Lemma copies_done e s q cur p c t u ct fl i fx kt :
  can_fork e s cur p c u ct fx kt → p ≠ cur → prepared s q cur p c t u ct fl i →
  pid_inv (link_task (child_of (fp_ids c) i) (f_pids q)) →
  runs (r ← copy_parts add_free_taskslot exit_files exit_fs exit_sighand copy_thread new_page_tables copy_page_range vm_open
          exit_mmap free_page_tables expand_fdset expand_fd_array junk_open junk_coe junk_fd fl cur p;
        if decide (r ≠ 0) then mret (Forked r false) else finish_fork junk_r_pid fl cur p (fp_ids c)) q
    (fork_post e s cur p c u ct fl).
Proof.
  intros [Hi Hui (Hpi & Hin & Hlen) Hc Hu [Ht Hfull] [Hfx Hwf] Hk (Hp1 & Hp2 & Hp3)] Hne Hpp Hlink.
  assert (f_res q = with_newp ct (f_res s)) as Eres by (by destruct Hpp).
  assert (built q p t u) as Hb.
  { destruct Hpp. split; [done|by rewrite pp_utasks0, lookup_insert_eq|by rewrite pp_procs0, lookup_insert_eq|].
    destruct pp_slots0 as (n' & -> & _). by eexists. }
  runs_step. eapply runs_mono.
  { apply (copy_parts_spec _ _ Hslots _ _ _ Hfiles Hfs Hsig _ Hnew copy_page_range _ Hopen _ Hexit _ Hfree _ _ Hfdset Hfdarray
      junk_open junk_coe junk_fd Hjunk copy_thread e q p t u fl cur ct fx); rewrite ?Eres; try done. by apply rinv_newp. }
  intros s' r [(-> & r' & -> & Et & Hi' & Hfull' & Hh)|(Hr0 & Hr & Hun)].
  - rewrite decide_False by auto. eapply runs_mono; [by eapply (finish_fork_spec e s q r' cur p c t u ct fl i kt)|].
    intros s' v [[-> H0]|((w & -> & ->) & Hf & Hp')]; [done|]. right. split; [|done].
    pose proof (fk_id _ _ _ _ _ _ _ _ _ _ _ Hf). lia.
  - rewrite decide_True by done. runs_auto. left. split; [|split; [done|by eapply undone_unchanged]].
    destruct Hr as [-> | ->]; [done|lia].
Qed.

(** C26: [do_fork] (without [CLONE_PID]) has one of three results.  It fails with a negative
    error, and then the tasks, the signal tables, file system contexts, tables of open
    files and memories with all that is in them, the counts of files and dentries, the
    slots and the modules are what they were.  Or it returns the id of a new task, that no
    task used; the task has a slot of its own and is counted for its user and its modules;
    each of the four objects is, by the flags, that of the parent, which only gets one
    reference more, or a new one with the contents of the parent's, and no other object
    changes.  Or all memory is used when the [dkm_struct] is allocated after the copies, and
    the kernel panics (fork.c, line 697), of which nothing more is said. *)
Theorem do_fork_spec e s cur p c u ct fx kt fl :
  can_fork e s cur p c u ct fx kt → has fl CLONE_PID = false →
  runs (do_fork get_free_taskslot add_free_taskslot exit_files exit_fs exit_sighand copy_thread new_page_tables copy_page_range
          vm_open exit_mmap free_page_tables expand_fdset expand_fd_array junk_open junk_coe junk_fd junk_r_pid fl cur (Some p)) s
    (fork_post e s cur p c u ct fl).
Proof.
  intros Hcan Hfl. destruct Hcan as [Hi Hui (Hpi & Hin & Hlen) Hc Hu [Ht Hfull] [Hfx Hwf] Hk (Hp1 & Hp2 & Hp3)] eqn:Ecan.
  clear Ecan.
  assert (p ≠ cur) as Hne by (intros ->; congruence).
  assert (Z.land fl CLONE_PID = 0) as Hfl0.
  { unfold has in Hfl. apply negb_false_iff, Z.eqb_eq in Hfl. done. }
  unfold do_fork. runs_step. eapply runs_eq; [by apply proc_of_eq|]. rewrite decide_False by (rewrite Hfl; naive_solver).
  runs_step. eapply runs_eq; [reflexivity|]. runs_step. apply runs_lift. runs_step. eapply runs_eq; [by apply current_eq|].
  unfold set_newp. runs_step. runs_step. apply runs_lift. eapply runs_mono; [by apply (fork_user_spec _ cur p _ u)|].
  intros us r [Hus Hr]. cbn [f_res f_users with_res with_procs] in *.
  destruct (decide (tuser u ≠ None ∧ fp_rlim c ≤ nproc (utasks (f_users s)) (tuid u))) as [Hlim|Hlim].
  { destruct Hr as [-> ->]. rewrite decide_True by done. by apply over_limit. }
  destruct Hr as [-> Eus]. rewrite decide_False by auto. runs_step. apply runs_lift. cbn [f_users with_usys].
  eapply runs_eq; [unfold utask_of; by rewrite Eus, lookup_insert_ne, Hu|].
  set (s1 := with_usys us (with_procs (<[p := c]> (f_procs s)) (with_res (with_newp ct (f_res s)) s))).
  change (with_usys us (with_usys us (with_res (with_newp ct (f_res s)) (with_procs (<[p := c]> (f_procs s)) s)))) with s1.
  assert (∀ z, z < 0 → runs (_ ← bad_fork_cleanup_count p; mret (Forked z false)) s1 (fork_post e s cur p c u ct fl)) as Hfail
    by (intros z Hz; by apply no_slot).
  runs_step. unfold find_empty_process, runs. destruct (decide _); [|by apply Hfail].
  destruct (get_free_taskslot (f_slots s1)) as [[n sl]|] eqn:Esl; [|by apply Hfail].
  apply (slot_get _ _ Hslots) in Esl.
  eapply (prepare_spec e s us cur p c u ct fl n sl); try done. intros q t i Hpp Hlink.
  by eapply copies_done.
Qed.
End fork.
