(* ===== verification/ForkVfork.v ===== *)
(** vfork in src/src/dkmke/fork.c: a parent that asks for it ([CLONE_VFORK]) sleeps on a
    semaphore of its stack at the end of [do_fork], until the child releases the memory
    that it borrows, in [mm_release] (lines 336-345).

    A call of [do_fork] has a beginning, which makes the semaphore, and an end, with a child
    or without one; in between it can sleep, and other tasks run.  What [do_fork] does
    beside that is in Fork.  The semaphore is gone when the call returns, but the field
    [vfork_sem] of the parent keeps pointing to it. *)

From Stdlib Require Import ZArith Lia.
From stdpp Require Import base list gmap.
From S2P Require Import Prelude.
From S2P Require Import ForkPid.
From S2P Require Import TaskRes.
From S2P Require Import Fork.

#[local] Open Scope Z_scope.

(** Where a task is: not in [do_fork], in it with its flags and its semaphore, or in the
    [down] at its end. *)
Inductive vpc : Type := VUser | VFork (clone_flags : Z) (sem : positive) | VDown (sem : positive).

(** [fp_parent] is [p_opptr]. *)
Record vtask : Type := VTask { vproc : fproc; vfork_sem : option positive; vat : vpc }.

(** [sems]: the counts of the semaphores on the stacks; a count that would be negative is a
    [down] that waits. *)
Record vkernel : Type := VKernel { vtasks : gmap Z vtask; sems : gmap positive Z; vfresh : positive }.

Definition vderef (p : Z) : M vkernel vtask := λ s,
  match vtasks s !! p with Some t => Ok s t | None => Stop BadPtr end.
Definition vstore (p : Z) (t : vtask) : M vkernel unit :=
  modify (λ s, VKernel (<[p := t]> (vtasks s)) (sems s) (vfresh s)).

Definition up (sem : option positive) : M vkernel unit :=
  match sem with
  | None => stop NullDeref
  | Some l => λ s,
    match sems s !! l with
    | Some n => Ok (VKernel (vtasks s) (<[l := n + 1]> (sems s)) (vfresh s)) ()
    | None => Stop BadPtr
    end
  end.

Definition waits (t : vtask) : bool := has (fp_flags (vproc t)) PF_VFORK.
Definition clear_vfork (t : vtask) : vtask :=
  VTask (set_flags (Z.land (fp_flags (vproc t)) (Z.lnot PF_VFORK)) (vproc t)) (vfork_sem t) (vat t).

(** [current] is [tsk]. *)
Definition mm_release (tsk : Z) : M vkernel unit :=
  t ← vderef tsk;
  if waits t then
    _ ← vstore tsk (clear_vfork t);
    p ← vderef (fp_parent (vproc t));
    up (vfork_sem p)
  else mret ().

(** ** [do_fork] *)

Definition at_pc (pc : vpc) (t : vtask) : vtask := VTask (vproc t) (vfork_sem t) pc.
Definition put_task (p : Z) (t : vtask) (s : vkernel) : vkernel :=
  VKernel (<[p := t]> (vtasks s)) (sems s) (vfresh s).

(** [struct semaphore sem = MUTEX_LOCKED; current->vfork_sem = &sem;] *)
Definition fork_begins (cur : Z) (t : vtask) (clone_flags : Z) (s : vkernel) : vkernel :=
  let l := vfresh s in
  VKernel (<[cur := VTask (vproc t) (Some l) (VFork clone_flags l)]> (vtasks s)) (<[l := 0]> (sems s)) (Pos.succ l).

(** The call returns, and its stack frame is gone. *)
Definition fork_returns (cur : Z) (t : vtask) (l : positive) (s : vkernel) : vkernel :=
  VKernel (<[cur := at_pc VUser t]> (vtasks s)) (delete l (sems s)) (vfresh s).

(** The child of line 643. *)
Definition vfork_child (cur : Z) (t : vtask) (clone_flags : Z) : vtask :=
  VTask (set_parent cur (copy_flags clone_flags (vproc t))) None VUser.

(** The child is woken up, and the parent waits or returns (lines 748-750). *)
Definition fork_ends (cur : Z) (t : vtask) (clone_flags : Z) (l : positive) (p : Z) (s : vkernel) : vkernel :=
  let s := put_task p (vfork_child cur t clone_flags) s in
  if has clone_flags CLONE_VFORK then put_task cur (at_pc (VDown l) t) s else fork_returns cur t l s.

(** What the exit of [cur] (kernel/exit.c) may do to another task: give it a new parent if
    [cur] was its parent. *)
Definition keeps (cur : Z) (u v : vtask) : Prop :=
  vat v = vat u ∧ vfork_sem v = vfork_sem u ∧ fp_flags (vproc v) = fp_flags (vproc u) ∧
  (fp_parent (vproc u) ≠ cur → vproc v = vproc u).

(** A task calls [mm_release] when it executes another file and when it exits; it exits
    after that. *)
Inductive vstep : vkernel → vkernel → Prop :=
  | v_begin s cur t fl :
      vtasks s !! cur = Some t → vat t = VUser → vstep s (fork_begins cur t fl s)
  | v_fails s cur t fl l :
      vtasks s !! cur = Some t → vat t = VFork fl l → vstep s (fork_returns cur t l s)
  | v_ends s cur t fl l p :
      vtasks s !! cur = Some t → vat t = VFork fl l → vtasks s !! p = None → vstep s (fork_ends cur t fl l p s)
  | v_down s cur t l n :
      vtasks s !! cur = Some t → vat t = VDown l → sems s !! l = Some n → 0 < n → vstep s (fork_returns cur t l s)
  | v_release s cur t s' :
      vtasks s !! cur = Some t → vat t = VUser → mm_release cur s = Ok s' () → vstep s s'
  | v_exit s cur t others :
      vtasks s !! cur = Some t → vat t = VUser → waits t = false → (∀ u, keeps cur u (others u)) →
      vstep s (VKernel (others <$> delete cur (vtasks s)) (sems s) (vfresh s)).

Inductive vreach (s0 : vkernel) : vkernel → Prop :=
  | vr_start : vreach s0 s0
  | vr_step s s' : vreach s0 s → vstep s s' → vreach s0 s'.

(** No task is in [do_fork] or has the flag. *)
Definition vfork_start (s : vkernel) : Prop :=
  (∀ c t, vtasks s !! c = Some t → vat t = VUser ∧ waits t = false) ∧ ∀ l, is_Some (sems s !! l) → (l < vfresh s)%positive.

(** * The invariant *)

Definition sem_of (pc : vpc) : option positive :=
  match pc with VUser => None | VFork _ l | VDown l => Some l end.

(** The parent of a task with the flag waits in [down], on a semaphore with the count 0; it
    is the only such child; and who waits has such a child or a count to go on with. *)
Record vinv (s : vkernel) : Prop := VInv {
  vi_sem : ∀ c t l, vtasks s !! c = Some t → sem_of (vat t) = Some l → vfork_sem t = Some l ∧ is_Some (sems s !! l);
  vi_inj : ∀ c c' t t' l, vtasks s !! c = Some t → vtasks s !! c' = Some t' →
    sem_of (vat t) = Some l → sem_of (vat t') = Some l → c = c';
  vi_fresh : ∀ l, is_Some (sems s !! l) → (l < vfresh s)%positive;
  vi_zero : ∀ c t fl l, vtasks s !! c = Some t → vat t = VFork fl l → sems s !! l = Some 0;
  vi_flag : ∀ p u, vtasks s !! p = Some u → waits u = true →
    ∃ t l, vtasks s !! fp_parent (vproc u) = Some t ∧ vat t = VDown l ∧ sems s !! l = Some 0;
  vi_one : ∀ p q u v, vtasks s !! p = Some u → vtasks s !! q = Some v → waits u = true → waits v = true →
    fp_parent (vproc u) = fp_parent (vproc v) → p = q;
  vi_wait : ∀ c t l, vtasks s !! c = Some t → vat t = VDown l →
    sems s !! l = Some 1 ∨ sems s !! l = Some 0 ∧ ∃ p u, vtasks s !! p = Some u ∧ waits u = true ∧ fp_parent (vproc u) = c
}.

Lemma vfork_start_inv s : vfork_start s → vinv s.
Proof.
  intros [Ht Hs]. constructor; [| |done| | | |].
  - intros c t l Hc E. destruct (Ht c t Hc) as [Hu _]. by rewrite Hu in E.
  - intros c c' t t' l Hc _ E. destruct (Ht c t Hc) as [Hu _]. by rewrite Hu in E.
  - intros c t fl l Hc E. destruct (Ht c t Hc) as [Hu _]. by rewrite Hu in E.
  - intros p u Hp E. destruct (Ht p u Hp) as [_ Hu]. congruence.
  - intros p q u v Hp _ E. destruct (Ht p u Hp) as [_ Hu]. congruence.
  - intros c t l Hc E. destruct (Ht c t Hc) as [Hu _]. by rewrite Hu in E.
Qed.

(** ** The flag *)

Lemma has_bit f k : 0 <= k → has f (2 ^ k) = Z.testbit f k.
Proof.
  intros Hk. unfold has. destruct (Z.eqb_spec (Z.land f (2 ^ k)) 0) as [E|E]; cbn.
  - apply (f_equal (λ z, Z.testbit z k)) in E. rewrite Z.land_spec, Z.pow2_bits_true, Z.bits_0 in E by done.
    by rewrite andb_true_r in E.
  - symmetry. apply not_false_iff_true. intros Hf. apply E. apply Z.bits_inj'. intros n Hn.
    rewrite Z.land_spec, Z.bits_0. destruct (decide (n = k)) as [->|]; [by rewrite Hf|].
    by rewrite Z.pow2_bits_false, andb_false_r by done.
Qed.

Lemma waits_clear t : waits (clear_vfork t) = false.
Proof.
  unfold waits, clear_vfork, PF_VFORK. cbn. change 4096 with (2 ^ 12). rewrite has_bit by done.
  rewrite Z.land_spec, Z.lnot_spec by done. by rewrite (Z.pow2_bits_true 12), andb_false_r by done.
Qed.

(** [copy_flags] gives the flag to the child of a vfork, and to no other. *)
Lemma waits_child cur t fl : waits (vfork_child cur t fl) = has fl CLONE_VFORK.
Proof.
  unfold waits, vfork_child, copy_flags. cbn. change PF_VFORK with (2 ^ 12). rewrite has_bit by done.
  set (f := fp_flags (vproc t)). clearbody f.
  destruct (has fl CLONE_VFORK), (has fl CLONE_PTRACE);
    rewrite ?Z.lor_spec, ?Z.land_spec, ?Z.lnot_spec by done; repeat rewrite ?Z.lor_spec, ?Z.land_spec;
    cbn; rewrite ?andb_false_r, ?orb_false_r, ?orb_true_r; done.
Qed.

(** ** The steps keep it *)

Lemma vinv_fresh s : vinv s → sems s !! vfresh s = None.
Proof. intros Hi. apply eq_None_not_Some. intros H%(vi_fresh _ Hi). lia. Qed.

Lemma fork_begins_inv s cur t fl :
  vinv s → vtasks s !! cur = Some t → vat t = VUser → vinv (fork_begins cur t fl s).
Proof.
  intros Hi Ht Hu. pose proof (vinv_fresh s Hi) as Hf.
  assert (∀ l, is_Some (sems s !! l) → l ≠ vfresh s) as Hne by (intros l Hl ->; rewrite Hf in Hl; by destruct Hl).
  constructor; cbn [fork_begins vtasks sems vfresh].
  - intros c u l [[<- <-]|[Hc Hcu]]%lookup_insert_Some.
    + intros [= <-]. split; [done|]. rewrite lookup_insert_eq. eauto.
    + intros El. destruct (vi_sem _ Hi _ _ _ Hcu El) as [? Hs]. split; [done|].
      rewrite lookup_insert_ne by (symmetry; by apply Hne). done.
  - intros c c' u u' l [[<- <-]|[Hc Hcu]]%lookup_insert_Some [[<- <-]|[Hc' Hcu']]%lookup_insert_Some; [done| | |].
    + intros [= <-] El. exfalso. by apply (Hne (vfresh s)); [apply (vi_sem _ Hi _ _ _ Hcu' El)|].
    + intros El [= <-]. exfalso. by apply (Hne (vfresh s)); [apply (vi_sem _ Hi _ _ _ Hcu El)|].
    + by eapply (vi_inj _ Hi).
  - intros l [n [[<- _]|[_ Hl]]%lookup_insert_Some]; [lia|]. pose proof (vi_fresh _ Hi l ltac:(eauto)). lia.
  - intros c u fl' l [[<- <-]|[Hc Hcu]]%lookup_insert_Some.
    + intros [= _ <-]. apply lookup_insert_eq.
    + intros El. pose proof (vi_zero _ Hi _ _ _ _ Hcu El) as Hz. rewrite lookup_insert_ne; [done|].
      symmetry. apply Hne. eauto.
  - intros p u Hp Hw. assert (∃ u0, vtasks s !! p = Some u0 ∧ vproc u0 = vproc u) as (u0 & Hp0 & E).
    { apply lookup_insert_Some in Hp as [[<- <-]|[_ Hp]]; eauto. }
    destruct (vi_flag _ Hi p u0 Hp0) as (c & l & Hc & Hv & Hl); [unfold waits in *; by rewrite E|].
    rewrite <- E. exists c, l. rewrite !lookup_insert_ne; [done| |congruence]. symmetry. apply Hne. eauto.
  - intros p q u v Hp Hq Hwu Hwv.
    assert (∀ p u, <[cur:=VTask (vproc t) (Some (vfresh s)) (VFork fl (vfresh s))]> (vtasks s) !! p = Some u →
      ∃ u0, vtasks s !! p = Some u0 ∧ vproc u0 = vproc u) as Hold.
    { intros p' u' [[<- <-]|[_ Hp']]%lookup_insert_Some; eauto. }
    destruct (Hold _ _ Hp) as (u0 & Hp0 & E), (Hold _ _ Hq) as (v0 & Hq0 & E'). unfold waits in *.
    rewrite <- E, <- E' in *. by eapply (vi_one _ Hi).
  - intros c u l [[<- <-]|[Hc Hcu]]%lookup_insert_Some; [done|]. intros El.
    rewrite lookup_insert_ne by (symmetry; apply Hne, (vi_sem _ Hi c u l Hcu); by rewrite El).
    destruct (vi_wait _ Hi c u l Hcu El) as [?|(? & p & v & Hp & Hw & Epar)]; [by left|right; split; [done|]].
    destruct (decide (p = cur)) as [->|].
    + exists cur. eexists. rewrite lookup_insert_eq. simplify_eq. done.
    + exists p, v. by rewrite lookup_insert_ne.
Qed.

(** A task that has no child with the flag leaves [do_fork]. *)
Lemma fork_returns_inv s cur t l :
  vinv s → vtasks s !! cur = Some t → sem_of (vat t) = Some l →
  (∀ p u, vtasks s !! p = Some u → waits u = true → fp_parent (vproc u) ≠ cur) → vinv (fork_returns cur t l s).
Proof.
  intros Hi Ht El Hno.
  assert (∀ c u l', c ≠ cur → vtasks s !! c = Some u → sem_of (vat u) = Some l' → l' ≠ l) as Hne.
  { intros c u l' Hc Hu E ->. apply Hc. by eapply (vi_inj _ Hi). }
  assert (∀ p u, <[cur:=at_pc VUser t]> (vtasks s) !! p = Some u → ∃ u0, vtasks s !! p = Some u0 ∧ vproc u0 = vproc u) as Hold.
  { intros p' u' [[<- <-]|[_ Hp']]%lookup_insert_Some; eauto. }
  constructor; cbn [fork_returns vtasks sems vfresh].
  - intros c u l' [[<- <-]|[Hc Hcu]]%lookup_insert_Some; [done|]. intros E.
    destruct (vi_sem _ Hi _ _ _ Hcu E). split; [done|]. rewrite lookup_delete_ne; [done|].
    symmetry. by eapply (Hne c).
  - intros c c' u u' l' [[<- <-]|[Hc Hcu]]%lookup_insert_Some [[<- <-]|[Hc' Hcu']]%lookup_insert_Some; [done..|].
    by eapply (vi_inj _ Hi).
  - intros l' [n [_ Hl]%lookup_delete_Some]. apply (vi_fresh _ Hi). eauto.
  - intros c u fl l' [[<- <-]|[Hc Hcu]]%lookup_insert_Some; [done|]. intros E.
    rewrite lookup_delete_ne; [by eapply (vi_zero _ Hi)|]. symmetry. eapply (Hne c); [done..|]. by rewrite E.
  - intros p u Hp Hw. destruct (Hold _ _ Hp) as (u0 & Hp0 & E). unfold waits in *. rewrite <- E in *.
    destruct (vi_flag _ Hi p u0 Hp0 Hw) as (c & l' & Hc & Hv & Hl). exists c, l'.
    pose proof (Hno p u0 Hp0 Hw). rewrite lookup_insert_ne by congruence. rewrite lookup_delete_ne; [done|].
    symmetry. eapply Hne; [|exact Hc|by rewrite Hv]. done.
  - intros p q u v Hp Hq Hwu Hwv.
    destruct (Hold _ _ Hp) as (u0 & Hp0 & E), (Hold _ _ Hq) as (v0 & Hq0 & E'). unfold waits in *.
    rewrite <- E, <- E' in *. by eapply (vi_one _ Hi).
  - intros c u l' [[<- <-]|[Hc Hcu]]%lookup_insert_Some; [done|]. intros E.
    rewrite lookup_delete_ne by (symmetry; eapply Hne; [|exact Hcu|by rewrite E]; done).
    destruct (vi_wait _ Hi c u l' Hcu E) as [?|(? & p & v & Hp & Hw & Epar)]; [by left|right; split; [done|]].
    destruct (decide (p = cur)) as [->|].
    + assert (v = t) as -> by congruence. exists cur, (at_pc VUser t). by rewrite lookup_insert_eq.
    + exists p, v. by rewrite lookup_insert_ne.
Qed.

(** A child without the flag. *)
Lemma put_child_inv s p ch :
  vinv s → vtasks s !! p = None → waits ch = false → vat ch = VUser → vinv (put_task p ch s).
Proof.
  intros Hi Hp Hw Hv.
  assert (∀ c u, c ≠ p → vtasks s !! c = Some u → <[p:=ch]> (vtasks s) !! c = Some u) as Hin.
  { intros. by rewrite lookup_insert_ne. }
  assert (∀ c u, vtasks s !! c = Some u → c ≠ p) as Hnp by (intros c u Hc ->; congruence).
  constructor; cbn [put_task vtasks sems vfresh].
  - intros c u l [[<- <-]|[Hc Hcu]]%lookup_insert_Some; [by rewrite Hv|]. by eapply (vi_sem _ Hi).
  - intros c c' u u' l [[<- <-]|[Hc Hcu]]%lookup_insert_Some [[<- <-]|[Hc' Hcu']]%lookup_insert_Some; rewrite ?Hv; [done..|].
    by eapply (vi_inj _ Hi).
  - apply (vi_fresh _ Hi).
  - intros c u fl l [[<- <-]|[Hc Hcu]]%lookup_insert_Some; [by rewrite Hv|]. by eapply (vi_zero _ Hi).
  - intros q u [[<- <-]|[Hc Hcu]]%lookup_insert_Some; [by rewrite Hw|]. intros Hwu.
    destruct (vi_flag _ Hi q u Hcu Hwu) as (c & l & Hc' & ?). exists c, l. eauto.
  - intros q q' u u' [[<- <-]|[Hc Hcu]]%lookup_insert_Some [[<- <-]|[Hc' Hcu']]%lookup_insert_Some; rewrite ?Hw; [done..|].
    by eapply (vi_one _ Hi).
  - intros c u l [[<- <-]|[Hc Hcu]]%lookup_insert_Some; [by rewrite Hv|]. intros E.
    destruct (vi_wait _ Hi c u l Hcu E) as [?|(? & q & v & Hq & ?)]; [by left|right; split; [done|]].
    exists q, v. eauto.
Qed.

(** A child with the flag, and the parent waits for it. *)
Lemma put_vfork_child_inv s cur t fl l p ch :
  vinv s → vtasks s !! cur = Some t → vat t = VFork fl l → vtasks s !! p = None →
  waits ch = true → vat ch = VUser → fp_parent (vproc ch) = cur →
  vinv (put_task cur (at_pc (VDown l) t) (put_task p ch s)).
Proof.
  intros Hi Ht Hv Hp Hw Hch Hpar. assert (cur ≠ p) as Hcp by congruence.
  destruct (vi_sem _ Hi cur t l Ht) as [Hvs Hsl]; [by rewrite Hv|]. pose proof (vi_zero _ Hi cur t fl l Ht Hv) as Hz.
  assert (∀ q u, vtasks s !! q = Some u → waits u = true → fp_parent (vproc u) ≠ cur) as Hno.
  { intros q u Hq Hwu E. destruct (vi_flag _ Hi q u Hq Hwu) as (c & l' & Hc & Hd & _). congruence. }
  assert (∀ q u, <[cur:=at_pc (VDown l) t]> (<[p:=ch]> (vtasks s)) !! q = Some u →
    q = p ∧ u = ch ∨ q = cur ∧ u = at_pc (VDown l) t ∨ q ≠ p ∧ q ≠ cur ∧ vtasks s !! q = Some u) as Hold.
  { intros q u [[<- <-]|[Hq [[<- <-]|[Hq' Hu]]%lookup_insert_Some]]%lookup_insert_Some; auto 6. }
  assert (∀ q u, q ≠ p → q ≠ cur → vtasks s !! q = Some u → <[cur:=at_pc (VDown l) t]> (<[p:=ch]> (vtasks s)) !! q = Some u) as Hin.
  { intros. by rewrite !lookup_insert_ne. }
  constructor; cbn [put_task vtasks sems vfresh].
  - intros c u l' [[-> ->]|[[-> ->]|(Hc & Hc' & Hu)]]%Hold; [by rewrite Hch|by intros [= <-]|by eapply (vi_sem _ Hi)].
  - intros c c' u u' l' [[-> ->]|[[-> ->]|(Hc & Hc' & Hu)]]%Hold [[-> ->]|[[-> ->]|(Hd & Hd' & Hu')]]%Hold;
      rewrite ?Hch; try done.
    + intros [= <-] E. eapply (vi_inj _ Hi); [exact Ht|exact Hu'|by rewrite Hv|done].
    + intros E [= <-]. eapply (vi_inj _ Hi); [exact Hu|exact Ht|done|by rewrite Hv].
    + by eapply (vi_inj _ Hi).
  - apply (vi_fresh _ Hi).
  - intros c u fl' l' [[-> ->]|[[-> ->]|(Hc & Hc' & Hu)]]%Hold; [by rewrite Hch|done|by eapply (vi_zero _ Hi)].
  - intros q u [[-> ->]|[[-> ->]|(Hc & Hc' & Hu)]]%Hold Hwu.
    + rewrite Hpar. exists (at_pc (VDown l) t), l. by rewrite lookup_insert_eq.
    + destruct (vi_flag _ Hi cur t Ht Hwu) as (c & l' & Hc & Hd & ?). exists c, l'. split; [|done].
      apply Hin; cbn; [congruence..|done].
    + destruct (vi_flag _ Hi q u Hu Hwu) as (c & l' & Hcl & Hd & ?). exists c, l'. split; [|done].
      apply Hin; [congruence..|done].
  - assert (∀ q u, <[cur:=at_pc (VDown l) t]> (<[p:=ch]> (vtasks s)) !! q = Some u → waits u = true →
      q = p ∧ u = ch ∨ ∃ u0, vtasks s !! q = Some u0 ∧ waits u0 = true ∧ vproc u0 = vproc u) as Hflag.
    { intros q u [[-> ->]|[[-> ->]|(Hc & Hc' & Hu)]]%Hold Hwu; [by left|right; by exists t|right; by exists u]. }
    intros q q' u u' Hq Hq' Hwu Hwv E.
    destruct (Hflag _ _ Hq Hwu) as [[-> ->]|(u0 & Hu0 & Hw0 & E0)], (Hflag _ _ Hq' Hwv) as [[-> ->]|(v0 & Hv0 & Hw1 & E1)]; [done| | |].
    + exfalso. apply (Hno _ _ Hv0 Hw1). congruence.
    + exfalso. apply (Hno _ _ Hu0 Hw0). congruence.
    + eapply (vi_one _ Hi); [exact Hu0|exact Hv0|done..|congruence].
  - intros c u l' [[-> ->]|[[-> ->]|(Hc & Hc' & Hu)]]%Hold; [by rewrite Hch| |].
    + intros [= <-]. right. split; [done|]. exists p, ch. by rewrite lookup_insert_ne, lookup_insert_eq by done.
    + intros E. destruct (vi_wait _ Hi c u l' Hu E) as [?|(? & q & v & Hq & Hwv & Epar)]; [by left|right; split; [done|]].
      destruct (decide (q = cur)) as [->|].
      * assert (v = t) as -> by congruence. exists cur, (at_pc (VDown l) t). by rewrite lookup_insert_eq.
      * exists q, v. split; [|done]. apply Hin; [congruence|done..].
Qed.

(** The end of [do_fork]. *)
Lemma fork_ends_inv s cur t fl l p :
  vinv s → vtasks s !! cur = Some t → vat t = VFork fl l → vtasks s !! p = None → vinv (fork_ends cur t fl l p s).
Proof.
  intros Hi Ht Hv Hp. unfold fork_ends. destruct (has fl CLONE_VFORK) eqn:Hf.
  - eapply put_vfork_child_inv; [done|exact Ht|exact Hv|done|by rewrite waits_child|done|done].
  - assert (vinv (put_task p (vfork_child cur t fl) s)) as Hi' by (apply put_child_inv; [done|done|by rewrite waits_child|done]).
    apply (fork_returns_inv _ cur t l); [done| |by rewrite Hv|].
    + cbn. by rewrite lookup_insert_ne by congruence.
    + intros q u Hq Hw E. destruct (vi_flag _ Hi' q u Hq Hw) as (c & l' & Hc & Hd & _). rewrite E in Hc.
      cbn in Hc. rewrite lookup_insert_ne in Hc by congruence. congruence.
Qed.

(** ** [mm_release] *)

(** What [mm_release] does: nothing, or the flag is cleared and the parent is let go on. *)
Lemma mm_release_spec s p u :
  vinv s → vtasks s !! p = Some u →
  if waits u then
    ∃ c l, vtasks s !! fp_parent (vproc u) = Some c ∧ vat c = VDown l ∧ sems s !! l = Some 0 ∧
      mm_release p s = Ok (VKernel (<[p := clear_vfork u]> (vtasks s)) (<[l := 1]> (sems s)) (vfresh s)) ()
  else mm_release p s = Ok s ().
Proof.
  intros Hi Hp. unfold mm_release, mbind, M_bind, vderef. rewrite Hp. destruct (waits u) eqn:Hw; [|done].
  destruct (vi_flag _ Hi p u Hp Hw) as (c & l & Hc & Hd & Hl). exists c, l. split_and!; [done..|].
  destruct (vi_sem _ Hi _ c l Hc) as [Hs _]; [by rewrite Hd|]. cbn.
  assert (∃ c', <[p:=clear_vfork u]> (vtasks s) !! fp_parent (vproc u) = Some c' ∧ vfork_sem c' = Some l) as (c' & -> & Hc').
  { destruct (decide (p = fp_parent (vproc u))) as [E|Hne].
    - rewrite <- E, lookup_insert_eq. eexists. split; [done|]. cbn. congruence.
    - rewrite lookup_insert_ne by done. eauto. }
  rewrite Hc'. cbn. by rewrite Hl.
Qed.

Lemma mm_release_inv s p u l c :
  vinv s → vtasks s !! p = Some u → vat u = VUser → waits u = true →
  vtasks s !! fp_parent (vproc u) = Some c → vat c = VDown l → sems s !! l = Some 0 →
  vinv (VKernel (<[p := clear_vfork u]> (vtasks s)) (<[l := 1]> (sems s)) (vfresh s)).
Proof.
  intros Hi Hp Hu Hw Hc Hd Hl. set (par := fp_parent (vproc u)) in *.
  assert (∀ q v, <[p:=clear_vfork u]> (vtasks s) !! q = Some v → waits v = true → q ≠ p ∧ vtasks s !! q = Some v) as Hflag.
  { intros q v [[<- <-]|[Hq Hv]]%lookup_insert_Some Hwv; [by rewrite waits_clear in Hwv|done]. }
  assert (∀ q v, vat v ≠ VUser → <[p:=clear_vfork u]> (vtasks s) !! q = Some v → vtasks s !! q = Some v) as Hpc.
  { intros q v Hv [[<- <-]|[Hq Hq']]%lookup_insert_Some; [by destruct Hv|done]. }
  assert (∀ q v, q ≠ p → vtasks s !! q = Some v → <[p:=clear_vfork u]> (vtasks s) !! q = Some v) as Hin.
  { intros. by rewrite lookup_insert_ne. }
  assert (∀ q v l', vtasks s !! q = Some v → sem_of (vat v) = Some l' → q ≠ par → l' ≠ l) as Hne.
  { intros q v l' Hq E Hn ->. apply Hn. eapply (vi_inj _ Hi); [exact Hq|exact Hc|done|by rewrite Hd]. }
  constructor; cbn [vtasks sems vfresh].
  - intros q v l' Hq E. destruct (vi_sem _ Hi q v l') as [? [n Hn]]; [apply Hpc; [by intros X; rewrite X in E|done]|done|].
    split; [done|]. destruct (decide (l' = l)) as [->|]; [rewrite lookup_insert_eq|rewrite lookup_insert_ne by done]; eauto.
  - intros q q' v v' l' Hq Hq' E E'. eapply (vi_inj _ Hi q q' v v' l'); try done; apply Hpc; try done; intros X.
    + by rewrite X in E.
    + by rewrite X in E'.
  - intros l' [n [[<- _]|[_ Hl']]%lookup_insert_Some]; apply (vi_fresh _ Hi); eauto.
  - intros q v fl l' Hq E. apply Hpc in Hq; [|by rewrite E]. rewrite lookup_insert_ne; [by eapply (vi_zero _ Hi)|].
    symmetry. eapply Hne; [exact Hq|by rewrite E|]. intros ->. congruence.
  - intros q v Hq Hwv. destruct (Hflag _ _ Hq Hwv) as [Hqp Hq']. destruct (vi_flag _ Hi q v Hq' Hwv) as (c' & l' & Hc' & Hd' & Hl').
    assert (fp_parent (vproc v) ≠ par) as Hpar by (intros E; apply Hqp; by eapply (vi_one _ Hi)).
    exists c', l'. rewrite lookup_insert_ne by congruence. split_and!; [done..|].
    rewrite lookup_insert_ne; [done|]. symmetry. eapply Hne; [exact Hc'|by rewrite Hd'|done].
  - intros q q' v v' Hq Hq' Hwv Hwv'. destruct (Hflag _ _ Hq Hwv) as [_ ?], (Hflag _ _ Hq' Hwv') as [_ ?]. by eapply (vi_one _ Hi).
  - intros q v l' Hq E. apply Hpc in Hq; [|by rewrite E]. destruct (decide (q = par)) as [->|Hqp].
    + left. assert (v = c) as -> by congruence. assert (l' = l) as -> by congruence. by rewrite lookup_insert_eq.
    + rewrite lookup_insert_ne by (symmetry; eapply Hne; [exact Hq|by rewrite E|done]).
      destruct (vi_wait _ Hi q v l' Hq E) as [?|(? & r & w & Hr & Hwr & Er)]; [by left|right; split; [done|]].
      exists r, w. split; [|done]. apply Hin; [|done]. intros ->. apply Hqp. rewrite <- Er. unfold par. congruence.
Qed.

(** ** The exit of a task *)

Lemma exit_inv s cur t others :
  vinv s → vtasks s !! cur = Some t → vat t = VUser → waits t = false → (∀ u, keeps cur u (others u)) →
  vinv (VKernel (others <$> delete cur (vtasks s)) (sems s) (vfresh s)).
Proof.
  intros Hi Ht Hv Hw Hk.
  assert (∀ u, waits (others u) = waits u ∧ vat (others u) = vat u ∧
    vfork_sem (others u) = vfork_sem u) as Hsame.
  { intros u. destruct (Hk u) as (? & ? & E & _). unfold waits. by rewrite E. }
  assert (∀ c v, (others <$> delete cur (vtasks s)) !! c = Some v →
    ∃ u, vtasks s !! c = Some u ∧ waits v = waits u ∧ vat v = vat u ∧ vfork_sem v = vfork_sem u ∧
      (waits u = true → vproc v = vproc u)) as Hold.
  { intros c v. rewrite lookup_fmap. destruct (delete cur (vtasks s) !! c) as [u|] eqn:Hc; [|done]. intros [= <-].
    apply lookup_delete_Some in Hc as [_ Hc]. exists u. destruct (Hsame u) as (? & ? & ?). split_and!; [done..|].
    intros Hwu. destruct (vi_flag _ Hi c u Hc Hwu) as (d & l & Hd & Hdd & _). apply Hk.
    congruence. }
  assert (∀ c u, c ≠ cur → vtasks s !! c = Some u →
    (others <$> delete cur (vtasks s)) !! c = Some (others u)) as Hin.
  { intros c u Hc Hu. by rewrite lookup_fmap, lookup_delete_ne, Hu. }
  constructor; cbn [vtasks sems vfresh].
  - intros c v l (u & Hu & _ & -> & -> & _)%Hold. by eapply (vi_sem _ Hi).
  - intros c c' v v' l (u & Hu & _ & -> & _)%Hold (u' & Hu' & _ & -> & _)%Hold. by eapply (vi_inj _ Hi).
  - apply (vi_fresh _ Hi).
  - intros c v fl l (u & Hu & _ & -> & _)%Hold. by eapply (vi_zero _ Hi).
  - intros p v (u & Hu & -> & _ & _ & Hpr)%Hold Hwu. rewrite (Hpr Hwu).
    destruct (vi_flag _ Hi p u Hu Hwu) as (c & l & Hc & Hd & Hl). exists (others c), l.
    destruct (Hsame c) as (_ & -> & _). split; [|done]. apply Hin; [congruence|done].
  - intros p q v v' (u & Hu & -> & _ & _ & Hpr)%Hold (u' & Hu' & -> & _ & _ & Hpr')%Hold Hwu Hwu'.
    rewrite (Hpr Hwu), (Hpr' Hwu'). by eapply (vi_one _ Hi).
  - intros c v l (u & Hu & _ & -> & _)%Hold E.
    destruct (vi_wait _ Hi c u l Hu E) as [?|(? & p & w & Hp & Hwp & Epar)]; [by left|right; split; [done|]].
    assert (p ≠ cur) as Hpc by congruence. pose proof (Hin p w Hpc Hp) as Hp'.
    destruct (Hold _ _ Hp') as (w0 & Hw0 & E1 & _ & _ & Hpr). assert (w0 = w) as -> by congruence.
    exists p, (others w). split; [done|]. rewrite E1, (Hpr Hwp). done.
Qed.

Lemma vstep_inv s s' : vinv s → vstep s s' → vinv s'.
Proof.
  intros Hi Hs. destruct Hs as [s cur t fl Ht Hv|s cur t fl l Ht Hv|s cur t fl l p Ht Hv Hp|s cur t l n Ht Hv Hl Hn
    |s cur t s' Ht Hv Hr|s cur t others Ht Hv Hw Hk].
  - by apply fork_begins_inv.
  - apply (fork_returns_inv s cur t l Hi Ht); [by rewrite Hv|]. intros p u Hp Hw E.
    destruct (vi_flag _ Hi p u Hp Hw) as (c & l' & Hc & Hd & _). congruence.
  - by apply fork_ends_inv.
  - apply (fork_returns_inv s cur t l Hi Ht); [by rewrite Hv|]. intros p u Hp Hw E.
    destruct (vi_flag _ Hi p u Hp Hw) as (c & l' & Hc & Hd & Hz). rewrite E in Hc.
    assert (l' = l) as -> by congruence. assert (n = 0) as -> by congruence. lia.
  - pose proof (mm_release_spec s cur t Hi Ht) as Hm. destruct (waits t) eqn:Hw; [|congruence].
    destruct Hm as (c & l & Hc & Hd & Hl & Hm). rewrite Hm in Hr. injection Hr as <-. by eapply mm_release_inv.
  - by eapply exit_inv.
Qed.

Lemma vreach_inv s0 s : vfork_start s0 → vreach s0 s → vinv s.
Proof. intros H0. induction 1; [by apply vfork_start_inv|by eapply vstep_inv]. Qed.

(** C27: however calls of [do_fork] overlap with each other, with executions and with exits,
    [mm_release] never goes to a task that is gone or to a semaphore whose stack frame is
    gone; and a parent that waits for its child in vfork either has been let go on, and no
    child borrows its memory any more, or it has exactly one such child, it does not go on,
    and the [mm_release] of that child lets it go on. *)
Theorem vfork_handshake s0 s :
  vfork_start s0 → vreach s0 s →
  (∀ p u, vtasks s !! p = Some u → ∃ s', mm_release p s = Ok s' ()) ∧
  (∀ c t l, vtasks s !! c = Some t → vat t = VDown l →
    (sems s !! l = Some 1 ∧ ∀ p u, vtasks s !! p = Some u → waits u = true → fp_parent (vproc u) ≠ c) ∨
    (sems s !! l = Some 0 ∧ ∃ p u, vtasks s !! p = Some u ∧ waits u = true ∧ fp_parent (vproc u) = c ∧
      (∀ q v, vtasks s !! q = Some v → waits v = true → fp_parent (vproc v) = c → q = p) ∧
      runs (mm_release p) s (λ s' _, sems s' !! l = Some 1 ∧ ∃ t', vtasks s' !! c = Some t' ∧ vat t' = VDown l))).
Proof.
  intros H0 Hr. pose proof (vreach_inv s0 s H0 Hr) as Hi. split.
  - intros p u Hp. pose proof (mm_release_spec s p u Hi Hp) as Hm. destruct (waits u); [|eauto].
    destruct Hm as (c & l & _ & _ & _ & Hm). eauto.
  - intros c t l Hc Hd. destruct (vi_wait _ Hi c t l Hc Hd) as [Hl|(Hl & p & u & Hp & Hw & Epar)]; [left|right].
    + split; [done|]. intros p u Hp Hw E. destruct (vi_flag _ Hi p u Hp Hw) as (c' & l' & Hc' & Hd' & Hl').
      rewrite E in Hc'. congruence.
    + split; [done|]. exists p, u. split_and!; [done..| |].
      * intros q v Hq Hwv E. apply (vi_one _ Hi q p v u); [done..|congruence].
      * pose proof (mm_release_spec s p u Hi Hp) as Hm. rewrite Hw, Epar in Hm.
        destruct Hm as (c' & l' & Hc' & Hd' & _ & Hm). eapply runs_eq; [exact Hm|]. cbn.
        assert (l' = l) as -> by congruence. split; [apply lookup_insert_eq|].
        destruct (decide (p = c)) as [->|].
        -- exists (clear_vfork u). rewrite lookup_insert_eq. split; [done|]. cbn. congruence.
        -- exists t. by rewrite lookup_insert_ne.
Qed.

(** * Example: a vfork whose child executes a file *)

Definition vinit_task : vtask := VTask (FProc (PTask 1 1 1) 0 256 None None None 0 17 6) None VUser.
Definition vinit : vkernel := VKernel (<[1 := vinit_task]> ∅) ∅ 1.

Lemma vinit_start : vfork_start vinit.
Proof.
  unfold vinit. split; cbn.
  - intros c t H. apply lookup_insert_Some in H as [[<- <-]|[_ H]]; [split; reflexivity|done].
  - intros l [n H]. done.
Qed.

(** Task 1 calls vfork, and its child is task 2. *)
Definition vforking : vkernel := fork_begins 1 vinit_task 0x4100 vinit.
Definition vforked : vkernel := fork_ends 1 (VTask (vproc vinit_task) (Some 1%positive) (VFork 0x4100 1)) 0x4100 1 2 vforking.

Lemma vforked_reached : vreach vinit vforked.
Proof.
  eapply vr_step; [eapply vr_step; [apply vr_start|]|].
  - apply (v_begin vinit 1 vinit_task 0x4100); reflexivity.
  - apply v_ends; reflexivity.
Qed.

Lemma vfork_handshake_witness :
  sems vforked !! 1%positive = Some 0 ∧
  ∃ p u, vtasks vforked !! p = Some u ∧ waits u = true ∧ fp_parent (vproc u) = 1 ∧
    runs (mm_release p) vforked (λ s' _, sems s' !! 1%positive = Some 1).
Proof.
  destruct (vfork_handshake vinit vforked vinit_start vforked_reached) as [_ Hd].
  destruct (Hd 1 (VTask (vproc vinit_task) (Some 1%positive) (VDown 1)) 1%positive eq_refl eq_refl)
    as [[Hl _]|(Hl & p & u & Hp & Hw & Hpar & _ & Hr)].
  - exfalso. vm_compute in Hl. discriminate.
  - split; [exact Hl|]. exists p, u. split; [exact Hp|]. split; [exact Hw|]. split; [exact Hpar|].
    eapply runs_mono; [exact Hr|]. intros s' a [Hs _]. exact Hs.
Defined.
