(* ===== verification/ExecFlush.v ===== *)
(** [flush_old_exec] of src/src/dkmke/exec.c: the old program of a task goes, the task
    gets a signal table and a memory of its own, and the files that are marked are closed.

    Parameters: the memory manager (see ForkMm), [sys_close] of fs/open.c,
    [flush_signal_handlers] of kernel/signal.c, and the result of [permission].  The
    registers ([flush_thread]) and [mm_release] are not modelled. *)

From Stdlib Require Import ZArith Lia.
From stdpp Require Import base list gmap strings.
From S2P Require Import Prelude.
From S2P Require Import TaskRes.
From S2P Require Import ForkCopy.
From S2P Require Import ForkMm.

#[local] Open Scope Z_scope.

(** What the current task has besides; [comm] has 16 bytes. *)
Record xtask : Type := XTask {
  x_uid : Z; x_euid : Z; x_gid : Z; x_egid : Z;
  x_dumpable : bool; comm : list byte; self_exec_id : Z
}.

Record xsys : Type := XSys { xres : tres; xcur : xtask }.

Definition in_res {A} (m : M tres A) : M xsys A := λ s,
  match m (xres s) with Ok r a => Ok (XSys r (xcur s)) a | Stop e => Stop e end.

Definition set_dumpable (b : bool) (t : xtask) : xtask :=
  XTask (x_uid t) (x_euid t) (x_gid t) (x_egid t) b (comm t) (self_exec_id t).
Definition set_comm (c : list byte) (t : xtask) : xtask :=
  XTask (x_uid t) (x_euid t) (x_gid t) (x_egid t) (x_dumpable t) c (self_exec_id t).
Definition set_exec_id (n : Z) (t : xtask) : xtask :=
  XTask (x_uid t) (x_euid t) (x_gid t) (x_egid t) (x_dumpable t) (comm t) n.

Definition update_cur (g : xtask → xtask) : M xsys unit := modify (λ s, XSys (xres s) (g (xcur s))).

Definition COMM_LEN : nat := 16.

(** The loop over the file name. *)
Fixpoint comm_loop (name : cstr) (i : nat) (c : list byte) : nat * list byte :=
  match name with
  | [] => (i, c)
  | ch :: name =>
    if decide (ch = slash) then comm_loop name 0 c
    else if decide (i < 15)%nat then comm_loop name (S i) (<[i := ch]> c)
    else comm_loop name i c
  end.

Definition task_comm (name : cstr) (c : list byte) : list byte :=
  let '(i, c) := comm_loop name 0 c in <[i := NUL]> c.

(** The program: its name, the ids it will run with, whether its file may be read. *)
Record xbinprm : Type := XBin { xb_filename : cstr; xb_uid : Z; xb_gid : Z; xb_readable : bool }.

Section flush.
Context (new_page_tables : positive → M tres Z).
Context (exit_mmap free_page_tables : positive → M tres unit).
Context (sys_close : Z → M tres Z).
Context (flush_signal_handlers : M tres unit).

(** From the point of no return on. *)
Definition flush_tail (cur : Z) (oldsig : positive) (bprm : xbinprm) : M xsys Z :=
  _ ← in_res (release_old_signals cur oldsig);
  _ ← update_cur (λ t, if decide (x_euid t = x_uid t ∧ x_egid t = x_gid t) then set_dumpable true t else t);
  _ ← update_cur (λ t, set_comm (task_comm (xb_filename bprm) (comm t)) t);
  _ ← update_cur (λ t,
        if decide (xb_uid bprm ≠ x_euid t ∨ xb_gid bprm ≠ x_egid t ∨ xb_readable bprm = false)
        then set_dumpable false t else t);
  _ ← update_cur (λ t, set_exec_id (u32 (self_exec_id t + 1)) t);
  _ ← in_res flush_signal_handlers;
  t ← in_res (current_task cur);
  match t_files t with
  | None => stop NullDeref
  | Some l => _ ← in_res (flush_old_files sys_close l); mret 0
  end.

Definition flush_old_exec (cur : Z) (bprm : xbinprm) : M xsys Z :=
  t ← in_res (current_task cur);
  match t_sig t with
  | None => stop NullDeref
  | Some oldsig =>
    retval ← in_res (make_private_signals cur);
    if decide (retval ≠ 0) then
      _ ← in_res (set_current cur (set_sig (Some oldsig)));
      mret retval
    else
      retval ← in_res (exec_mmap new_page_tables exit_mmap free_page_tables cur);
      if decide (retval ≠ 0) then
        t ← in_res (current_task cur);
        _ ← match t_sig t with
            | Some l => if decide (l ≠ oldsig) then in_res (modify (λ s, with_sigs (delete l (sigs s)) s)) else mret ()
            | None => stop NullDeref
            end;
        _ ← in_res (set_current cur (set_sig (Some oldsig)));
        mret retval
      else flush_tail cur oldsig bprm
  end.
End flush.

Example comm_1 : take 5 (task_comm (lit "/usr/bin/make"%string) (replicate 16 NUL)) = lit "make"%string ++ [NUL].
Proof. reflexivity. Qed.
