(* ===== verification/ExecFlushProps.v ===== *)
(** [flush_old_exec]: the name of the task, its private signal table, the files that are
    closed; before the point of no return an error leaves everything as it was. *)

From Stdlib Require Import ZArith Lia.
From stdpp Require Import base list gmap fin_maps.
From S2P Require Import Prelude.
From S2P Require Import TaskRes.
From S2P Require Import ForkCopy.
From S2P Require Import ForkCopyProps.
From S2P Require Import ForkFilesProps.
From S2P Require Import ForkMm.
From S2P Require Import ForkMmProps.
From S2P Require Import ExecFlush.

#[local] Open Scope Z_scope.

(** * The name *)

Lemma comm_loop_app n1 n2 : ∀ i c,
  comm_loop (n1 ++ n2) i c = let '(i', c') := comm_loop n1 i c in comm_loop n2 i' c'.
Proof.
  induction n1 as [|ch n1 IH]; intros i c; cbn [app comm_loop]; [done|].
  repeat case_decide; apply IH.
Qed.

Lemma take_put (c : list byte) (i : nat) (ch : byte) : (i < length c)%nat → take (S i) (<[i := ch]> c) = take i c ++ [ch].
Proof. intros Hi. by rewrite (take_S_r _ _ ch), take_insert_ge by (by rewrite ?list_lookup_insert_eq). Qed.

(** Without a slash. *)
Lemma comm_loop_plain b : ∀ p c, slash ∉ b → length c = COMM_LEN → (length p ≤ 15)%nat → take (length p) c = p →
  let q := take 15 (p ++ b) in
  ∃ c', comm_loop b (length p) c = (length q, c') ∧ take (length q) c' = q ∧ length c' = COMM_LEN.
Proof.
  induction b as [|ch b IH]; intros p c Hb Hc Hp Htp; cbn [comm_loop].
  - exists c. cbn. rewrite app_nil_r, (take_ge p) by done. done.
  - apply not_elem_of_cons in Hb as [Hch Hb]. rewrite decide_False by done. unfold COMM_LEN in *. case_decide as H15.
    + destruct (IH (p ++ [ch]) (<[length p := ch]> c)) as (c' & E & Ht & Hl);
        [done|by rewrite length_insert|rewrite length_app; cbn; lia| |].
      { cbn [length]. rewrite length_app. cbn. rewrite Nat.add_1_r, take_put by lia. by rewrite Htp. }
      exists c'. rewrite <- app_assoc in E, Ht. cbn in E, Ht. rewrite length_app, Nat.add_1_r in E. done.
    + destruct (IH p c) as (c' & E & Ht & Hl); [done..|]. exists c'.
      assert (∀ k : list byte, take 15 (p ++ k) = p) as Hk.
      { intros k. rewrite take_app_le by lia. apply take_ge. lia. }
      rewrite !Hk in *. done.
Qed.

Lemma comm_loop_len b : ∀ i c, length c = COMM_LEN → (i ≤ 15)%nat →
  (fst (comm_loop b i c) ≤ 15)%nat ∧ length (snd (comm_loop b i c)) = COMM_LEN.
Proof.
  induction b as [|ch b IH]; intros i c Hc Hi; cbn [comm_loop]; [done|].
  repeat case_decide; apply IH; rewrite ?length_insert; done || lia.
Qed.

(** C34: The name of a task after exec is the part of the file name behind the last slash,
    cut to 15 bytes, with its NUL. *)
Theorem task_comm_spec pre b c :
  slash ∉ b → pre = [] ∨ (∃ p, pre = p ++ [slash]) → length c = COMM_LEN →
  let n := take 15 b in
  take (S (length n)) (task_comm (pre ++ b) c) = n ++ [NUL] ∧ length (task_comm (pre ++ b) c) = COMM_LEN.
Proof.
  intros Hb Hpre Hc n. unfold task_comm.
  assert (∃ c1, length c1 = COMM_LEN ∧ comm_loop (pre ++ b) 0 c = comm_loop b 0 c1) as (c1 & Hc1 & ->).
  { destruct Hpre as [->|[p ->]]; [by exists c|]. rewrite !comm_loop_app.
    pose proof (comm_loop_len p 0 c Hc (Nat.le_0_l _)) as [_ Hl]. destruct (comm_loop p 0 c) as [i c1]. by exists c1. }
  destruct (comm_loop_plain b [] c1 Hb Hc1) as (c' & E & Ht & Hl); [cbn; lia|done|]. cbn in E. rewrite E.
  change (take 15 ([] ++ b)) with n in *. assert (length n ≤ 15)%nat by (unfold n; rewrite length_take; lia).
  unfold COMM_LEN in *. rewrite length_insert. split; [|done].
  change (take 15 b) with n. by rewrite take_put, Ht by lia.
Qed.

(** * The private signal table *)

Lemma set_sig_same t : set_sig (t_sig t) t = t.
Proof. by destruct t. Qed.

Lemma set_current_eq cur g s t : rtasks s !! cur = Some t →
  set_current cur g s = Ok (with_rtasks (<[cur := g t]> (rtasks s)) s) ().
Proof. intros Hc. unfold set_current. by rewrite (bind_Ok _ _ s s t) by (by apply current_eq). Qed.

(** The old table is counted for [own] until it is released. *)
Definition private_sig (e : ext) (own : rtask) (s : tres) (cur : Z) (t : rtask) (l : positive) (x : signal_struct) (s' : tres) : Prop :=
  (sig_count x ≤ 1 ∧ s' = s) ∨
  (1 < sig_count x ∧ ∃ l' n, sigs s !! l' = None ∧
     s' = with_rtasks (<[cur := set_sig (Some l') t]> (rtasks s))
            (with_sigs (<[l' := Sig 1 (action x)]> (sigs s)) (with_fresh (Pos.succ l') (with_mem n s))) ∧
     rinv e (set_sig (Some l) own) s').

Lemma make_private_signals_spec e own s cur t l x :
  rinv e own s → t_sig own = None → rtasks s !! cur = Some t → t_sig t = Some l → sigs s !! l = Some x →
  runs (make_private_signals cur) s (λ s' r,
    (r = 0 ∧ private_sig e own s cur t l x s') ∨ (r ≠ 0 ∧ s' = s)).
Proof.
  intros Hi Ho Hc Hl Hx. unfold make_private_signals. runs_step. eapply runs_eq; [by apply current_eq|].
  runs_step. rewrite Hl. eapply runs_eq; [by apply (at_ptr_eq sigs)|]. case_decide as Hcnt; [runs_auto; by left; split; [|left]|].
  runs_step. eapply kalloc_spec; [done|runs_auto; by right|]. intros s1 Es1 Hi1 _ Hfree _ _.
  runs_step. eapply runs_eq; [reflexivity|]. runs_step.
  eapply runs_eq; [apply set_current_eq; cbn; by rewrite Es1|]. runs_auto. left. split; [done|]. right. split; [lia|].
  exists (rfresh s), (pred (mem s)). rewrite Es1 in Hfree. split; [done|]. split; [by rewrite Es1|].
  set (s2 := with_sigs _ s1). assert (rinv e (set_sig (Some (rfresh s)) own) s2) as Hi2.
  { apply (rinv_sigs e own); [done|done|..].
    - intros l'. cbn [t_sig set_sig]. rewrite default_insert, Ho, pt_some, pt_none.
      case_decide; [subst l'|lia]. rewrite Es1, (default_none _ _ _ Hfree). cbn. lia.
    - intros l' [<-|[_ H]]%lookup_insert_is_Some; [by rewrite Es1; cbn; lia|].
      apply (r_fresh _ _ _ Hi1). eauto. }
  apply (rinv_swap e (set_sig (Some (rfresh s)) own) _ s2 cur t); [done|unfold s2; cbn; by rewrite Es1|..]; intros k; cbn; rewrite ?Hl; lia.
Qed.

(** [release_old_signals] drops the reference of [own]. *)
Lemma release_old_signals_spec e own s cur t l l' :
  rinv e (set_sig (Some l) own) s → t_sig own = None → rtasks s !! cur = Some t → t_sig t = Some l' → l' ≠ l →
  runs (release_old_signals cur l) s (λ s' _, rinv e own s' ∧ s' = with_sigs (sigs s') s ∧
    (∀ k, k ≠ l → sigs s' !! k = sigs s !! k) ∧
    ∀ x, sigs s !! l = Some x → 1 < sig_count x → sigs s' !! l = Some (Sig (sig_count x - 1) (action x))).
Proof.
  intros Hi Ho Hc Hl Hne. unfold release_old_signals. runs_step. eapply runs_eq; [by apply current_eq|].
  rewrite decide_False by congruence.
  destruct (sig_alive _ _ _ l Hi (refs_own t_sig (set_sig (Some l) own) s l eq_refl)) as (x & Hx & Hpos).
  runs_step. eapply runs_eq; [by apply (at_ptr_eq sigs)|].
  assert (∀ k, pt (t_sig own) k - pt (t_sig (set_sig (Some l) own)) k = if decide (k = l) then -1 else 0) as Hpt.
  { intros k. cbn [t_sig set_sig]. rewrite Ho, pt_none, pt_some. case_decide; lia. }
  case_decide as H1; runs_auto; (split; [|split; [done|split; [intros k Hk|intros x' ? ?; simplify_eq]]]).
  - apply (rinv_sigs e (set_sig (Some l) own)); [done|done|..].
    + intros k. specialize (Hpt k). case_decide as Hk; [subst k|rewrite lookup_delete_ne by done; lia].
      rewrite lookup_delete_eq, Hx. cbn in *. lia.
    + intros k [y [_ Hy]%lookup_delete_Some]. apply (r_fresh _ _ _ Hi). eauto.
  - by rewrite lookup_delete_ne.
  - lia.
  - apply (rinv_sigs e (set_sig (Some l) own)); [done|done|..].
    + intros k. specialize (Hpt k). rewrite default_insert. case_decide; [subst k; rewrite Hx; cbn in *; lia|lia].
    + intros k [<-|[_ H]]%lookup_insert_is_Some; apply (r_fresh _ _ _ Hi); eauto.
  - cbn. by rewrite lookup_insert_ne.
  - cbn. by rewrite lookup_insert_eq.
Qed.

(** * Closing *)

(** The bit of the descriptor [i] in the set of those that exec closes. *)
Definition coe_bit (x : files_struct) (i : nat) : bool :=
  Z.testbit (default 0 (close_on_exec x !! (i / 32)%nat)) (Z.of_nat i mod 32).

(** [x] without the descriptor [i]. *)
Definition table_without (x y : files_struct) (i : nat) : Prop :=
  fd y = <[i := None]> (fd x) ∧ fl_count y = fl_count x ∧ max_fds y = max_fds x ∧ max_fdset y = max_fdset x ∧
  close_on_exec y = alter (λ w, Z.clearbit w (Z.of_nat i mod 32)) (i / 32)%nat (close_on_exec x).

(** What fs/open.c promises of [sys_close]: an open descriptor is closed and its file
    loses a reference; others are an error that changes nothing. *)
Definition sys_close_law (l : positive) (sys_close : Z → M tres Z) : Prop :=
  ∀ s x (i : nat), filess s !! l = Some x →
    match fd_entry x i with
    | None => ∃ r, sys_close (Z.of_nat i) s = Ok s r
    | Some g => is_Some (files s !! g) → ∃ r y fs n, table_without x y i ∧
        sys_close (Z.of_nat i) s = Ok (with_mem n (with_filess (<[l := y]> (filess s)) (with_files fs s))) r ∧
        (∀ f, default 0 (f_count <$> fs !! f) = default 0 (f_count <$> files s !! f) - pt (Some g) f) ∧
        (∀ f z, fs !! f = Some z → ∃ z', files s !! f = Some z' ∧ i_writecount z' = i_writecount z)
    end.

(** The state [s'] after descriptors of the table [x] at [l] were closed; [y] is what the
    table has become. *)
Record closed (e : ext) (own : rtask) (l : positive) (x y : files_struct) (s s' : tres) : Prop := {
  cl_inv : rinv e own s';
  cl_table : filess s' = <[l := y]> (filess s);
  cl_sizes : fl_count y = fl_count x ∧ max_fds y = max_fds x ∧ max_fdset y = max_fdset x ∧ length (fd y) = length (fd x);
  cl_state : s' = with_mem (mem s') (with_filess (filess s') (with_files (files s') s))
}.

Lemma closed_refl e own l x s : rinv e own s → filess s !! l = Some x → closed e own l x x s s.
Proof. intros Hi Hl. split; [done|by rewrite insert_id|done|by destruct s]. Qed.

Lemma closed_trans e own l x y z s1 s2 s3 :
  closed e own l x y s1 s2 → closed e own l y z s2 s3 → closed e own l x z s1 s3.
Proof.
  intros [? Et1 (? & ? & ? & ?) Es1] [? Et2 (? & ? & ? & ?) Es2]. split; [done|..].
  - by rewrite Et2, Et1, insert_insert_eq.
  - split_and!; congruence.
  - rewrite Es2 at 1. rewrite Es1. done.
Qed.

Lemma closed_lookup e own l x y s s' : closed e own l x y s s' → filess s' !! l = Some y.
Proof. intros []. rewrite cl_table0. apply lookup_insert_eq. Qed.

Lemma occ_insert_none f (fs : list (option positive)) i g :
  fs !! i = Some (Some g) → occ f (<[i := None]> fs) = occ f fs - pt (Some g) f.
Proof.
  revert i. induction fs as [|o fs IH]; intros [|i] Hi; simplify_eq/=.
  - rewrite pt_none. lia.
  - rewrite (IH _ Hi). lia.
Qed.

Lemma fd_entry_lookup x i g : fd_entry x i = Some g → fd x !! i = Some (Some g).
Proof. unfold fd_entry. destruct (fd x !! i) as [[h|]|]; cbn; [by intros [= ->]|done|done]. Qed.

(** A change of a table that keeps its entries and its count. *)
Lemma rinv_same_table e own s l x y :
  rinv e own s → filess s !! l = Some x → fd y = fd x → fl_count y = fl_count x →
  rinv e own (with_filess (<[l := y]> (filess s)) s).
Proof.
  intros Hi Hl Ef Ec.
  assert (with_filess (<[l := y]> (filess s)) s = with_filess (<[l := y]> (filess s)) (with_files (files s) s)) as -> by (by destruct s).
  apply (rinv_filess e own); [done|done|..].
  - intros k. rewrite default_insert, Ec. case_decide; [subst k; rewrite (default_lookup _ _ _ _ Hl); lia|lia].
  - intros k [<-|[_ H]]%lookup_insert_is_Some; apply (r_fresh _ _ _ Hi); eauto 6.
  - intros f. rewrite (msum_insert _ _ l x), Ef by done. lia.
  - intros f z Hz. by exists z.
Qed.

Section close.
Context (sys_close : Z → M tres Z) (l : positive) (Hclose : sys_close_law l sys_close).

Lemma sys_close_spec e own s x (i : nat) :
  rinv e own s → filess s !! l = Some x →
  runs (sys_close (Z.of_nat i)) s (λ s' _, ∃ y, closed e own l x y s s' ∧
    (y = x ∨ close_on_exec y = alter (λ w, Z.clearbit w (Z.of_nat i mod 32)) (i / 32)%nat (close_on_exec x)) ∧
    ∀ k, fd_entry y k = if decide (k = i) then None else fd_entry x k).
Proof.
  intros Hi Hl. pose proof (Hclose s x i Hl) as H. destruct (fd_entry x i) as [g|] eqn:Eg.
  - specialize (H (file_alive _ _ _ _ _ _ _ Hi Hl Eg)). destruct H as (r & y & fs & n & (Y1 & Y2 & Y3 & Y4 & Y5) & E & Hf & Hw). eapply runs_eq; [exact E|].
    exists y. split_and!; [|by right|].
    + split; [|done|by rewrite Y1, length_insert|done]. apply rinv_with_mem, (rinv_filess e own); [done|done|..].
      * intros k. rewrite default_insert, Y2. case_decide; [subst k; rewrite (default_lookup _ _ _ _ Hl); lia|lia].
      * intros k [<-|[_ H]]%lookup_insert_is_Some; apply (r_fresh _ _ _ Hi); eauto 6.
      * intros f. rewrite (msum_insert _ _ l x), Y1, (occ_insert_none f _ i g), Hf by (done || by apply fd_entry_lookup). lia.
      * done.
    + intros k. unfold fd_entry. rewrite Y1. case_decide as Hk.
      * subst k. destruct (decide (i < length (fd x))%nat); [by rewrite list_lookup_insert_eq|].
        by rewrite lookup_ge_None_2 by (rewrite length_insert; lia).
      * by rewrite list_lookup_insert_ne.
  - destruct H as [r E]. eapply runs_eq; [exact E|]. exists x. split_and!; [by apply closed_refl|by left|].
    intros k. case_decide; by subst.
Qed.

(** A word of the set: descriptors [i], [i + 1], ... are closed by the bits of [set]. *)
Definition word_closed (i : nat) (set : Z) (x y : files_struct) : Prop :=
  ∀ k, fd_entry y k = if (i <=? k)%nat && Z.testbit set (Z.of_nat k - Z.of_nat i) then None else fd_entry x k.

Lemma word_closed_step i set x y z :
  0 ≤ set → (∀ k, fd_entry y k = if Z.odd set && (k =? i)%nat then None else fd_entry x k) →
  word_closed (S i) (Z.shiftr set 1) y z → word_closed i set x z.
Proof.
  intros Hs Hy Hz k. rewrite (Hz k), (Hy k).
  destruct (Nat.leb_spec i k) as [Hik|Hik]; cbn [andb].
  - destruct (decide (k = i)) as [->|Hne].
    + rewrite Z.sub_diag, Z.bit0_odd, Nat.eqb_refl. destruct (Nat.leb_spec (S i) i); [lia|]. cbn. by destruct (Z.odd set).
    + destruct (Nat.leb_spec (S i) k); [|lia]. rewrite Z.shiftr_spec by lia.
      replace (Z.of_nat k - Z.of_nat (S i) + 1) with (Z.of_nat k - Z.of_nat i) by lia. cbn.
      destruct (Nat.eqb_spec k i); [done|]. by rewrite andb_false_r.
  - destruct (Nat.leb_spec (S i) k); [lia|]. destruct (Nat.eqb_spec k i); [lia|]. cbn. by rewrite andb_false_r.
Qed.

Lemma clear_zero_word i j (c : list Z) : c !! j = Some 0 → alter (λ w, Z.clearbit w i) j c = c.
Proof.
  intros Hj. apply list_eq. intros k. destruct (decide (k = j)) as [->|Hne]; [|by rewrite list_lookup_alter_ne].
  by rewrite list_lookup_alter_eq, Hj.
Qed.

Lemma close_word_spec e own n j : ∀ s x (i : nat) (set : Z), rinv e own s → filess s !! l = Some x →
  0 ≤ set < 2 ^ Z.of_nat n → (∀ k, (i ≤ k < i + n → k / 32 = j)%nat) → close_on_exec x !! j = Some 0 →
  runs (close_word sys_close (S n) set (Z.of_nat i)) s (λ s' _, ∃ y, closed e own l x y s s' ∧
    close_on_exec y = close_on_exec x ∧ word_closed i set x y).
Proof.
  induction n as [|n IH]; intros s x i set Hi Hl Hset Hj H0; cbn [close_word].
  { rewrite decide_True by (cbn in Hset; lia). runs_auto. exists x. split; [by apply closed_refl|]. split; [done|].
    intros k. replace set with 0 by (cbn in Hset; lia). rewrite Z.testbit_0_l. by rewrite andb_false_r. }
  case_decide as Hz.
  { runs_auto. exists x. split; [by apply closed_refl|]. split; [done|]. intros k. rewrite Hz, Z.testbit_0_l. by rewrite andb_false_r. }
  assert (runs (if Z.odd set then _ ← sys_close (Z.of_nat i); mret () else mret ()) s (λ s' _, ∃ y,
    closed e own l x y s s' ∧ close_on_exec y = close_on_exec x ∧
    ∀ k, fd_entry y k = if Z.odd set && (k =? i)%nat then None else fd_entry x k)) as Hone.
  { destruct (Z.odd set); [|runs_auto; exists x; split; [by apply closed_refl|done]].
    runs_step. eapply runs_mono; [by apply sys_close_spec|]. intros s' r (y & Hcl & Hc & He). runs_auto. exists y. split; [done|].
    split; [|intros k; rewrite He; case_decide; destruct (Nat.eqb_spec k i); done].
    destruct Hc as [->| ->]; [done|]. rewrite (Hj i) by lia. by apply clear_zero_word. }
  runs_step. eapply runs_mono; [exact Hone|]. intros s1 _ (y & Hcl & Hc & He).
  replace (Z.of_nat i + 1) with (Z.of_nat (S i)) by lia.
  eapply runs_mono; [apply (IH s1 y (S i) (Z.shiftr set 1))|].
  - by destruct Hcl.
  - by eapply closed_lookup.
  - rewrite Z.shiftr_div_pow2 by lia. rewrite Nat2Z.inj_succ, Z.pow_succ_r in Hset by lia.
    change (2 ^ 1) with 2. split; [apply Z.div_pos; lia|apply Z.div_lt_upper_bound; lia].
  - intros k Hk. apply Hj. lia.
  - by rewrite Hc.
  - intros s2 _ (z & Hcl2 & Hc2 & Hw). exists z. split; [by eapply closed_trans|]. split; [congruence|].
    by eapply word_closed_step; [lia| |].
Qed.

(** ** All words *)

(** The words below [j] are done. *)
Record flushed_to (j : nat) (x y : files_struct) : Prop := {
  ft_low k : (k < j)%nat → default 0 (close_on_exec y !! k) = 0;
  ft_high k : (j ≤ k)%nat → close_on_exec y !! k = close_on_exec x !! k;
  ft_fd k : fd_entry y k = if (k / 32 <? j)%nat && coe_bit x k then None else fd_entry x k
}.

(** The marked descriptors are closed, the others stay; no descriptor is marked. *)
Definition flushed (x y : files_struct) : Prop :=
  (∀ k, fd_entry y k = if coe_bit x k then None else fd_entry x k) ∧
  (∀ k : nat, Z.of_nat k < max_fds x → coe_bit y k = false).

Definition words_ok (x : files_struct) : Prop := Forall (λ w, 0 ≤ w < 2 ^ 32) (close_on_exec x).

Lemma flushed_to_end j x y :
  table_wf x → flushed_to j x y → 32 * Z.of_nat j >= max_fds x ∨ 32 * Z.of_nat j >= max_fdset x → flushed x y.
Proof.
  intros Hw [] Hj.
  assert (∀ k, (j ≤ k / 32)%nat → 32 * Z.of_nat j ≤ Z.of_nat k) as Hk.
  { intros k Hk. pose proof (Nat.div_mod_eq k 32). lia. }
  assert (∀ k, (j ≤ k / 32)%nat → Z.of_nat k < max_fds x → close_on_exec x !! (k / 32)%nat = None) as Hnone.
  { intros k H1 H2. destruct Hj as [|Hj]; [specialize (Hk k H1); lia|]. apply lookup_ge_None.
    rewrite (tw_coe _ Hw) in Hj. unfold LONG_BITS in Hj. lia. }
  split; intros k; destruct (Nat.ltb_spec (k / 32) j) as [Hlt|Hge].
  - rewrite ft_fd0. destruct (Nat.ltb_spec (k / 32) j); [done|lia].
  - rewrite ft_fd0. destruct (Nat.ltb_spec (k / 32) j); [lia|]. cbn. destruct (decide (Z.of_nat k < max_fds x)) as [Hm|Hm].
    + unfold coe_bit. rewrite (Hnone k) by done. cbn. by rewrite Z.testbit_0_l.
    + unfold fd_entry. rewrite (lookup_ge_None_2 (fd x)) by (rewrite (tw_fds _ Hw) in Hm; lia). by destruct (coe_bit x k).
  - intros _. unfold coe_bit. rewrite ft_low0 by done. apply Z.testbit_0_l.
  - intros Hm. unfold coe_bit. rewrite ft_high0, (Hnone k) by done. cbn. apply Z.testbit_0_l.
Qed.

Lemma flushed_to_step j x y0 y1 y2 w :
  flushed_to j x y0 → close_on_exec x !! j = Some w → 0 ≤ w < 2 ^ 32 →
  fd y1 = fd y0 → close_on_exec y1 = <[j := 0]> (close_on_exec y0) →
  close_on_exec y2 = close_on_exec y1 → word_closed (32 * j) w y1 y2 → flushed_to (S j) x y2.
Proof.
  intros [] Hj Hw Ef Ec Ec2 Hwc. assert (j < length (close_on_exec y0))%nat as Hlen.
  { apply lookup_lt_is_Some. rewrite ft_high0 by done. by rewrite Hj. }
  split; intros k.
  - intros Hk. rewrite Ec2, Ec. destruct (decide (k = j)) as [->|Hne]; [by rewrite list_lookup_insert_eq|].
    rewrite list_lookup_insert_ne by done. apply ft_low0. lia.
  - intros Hk. rewrite Ec2, Ec, list_lookup_insert_ne by lia. apply ft_high0. lia.
  - assert (fd_entry y1 k = fd_entry y0 k) as E1 by (unfold fd_entry; by rewrite Ef).
    rewrite (Hwc k), E1, ft_fd0. pose proof (Nat.div_mod_eq k 32) as Hdm. pose proof (Nat.mod_upper_bound k 32 ltac:(lia)) as Hmod.
    destruct (Nat.ltb_spec (k / 32) (S j)) as [H1|H1], (Nat.ltb_spec (k / 32) j) as [H2|H2]; try lia; cbn [andb].
    + destruct (Nat.leb_spec (32 * j) k); [lia|done].
    + assert (k / 32 = j)%nat as Ek by lia. destruct (Nat.leb_spec (32 * j) k); [|lia]. cbn [andb].
      replace (coe_bit x k) with (Z.testbit w (Z.of_nat k - Z.of_nat (32 * j))); [done|].
      unfold coe_bit. rewrite Ek, Hj. cbn [default from_option id]. f_equal.
      rewrite <- Ek in *. change 32 with (Z.of_nat 32). rewrite <- Nat2Z.inj_mod. lia.
    + destruct (Nat.leb_spec (32 * j) k); [|done]. cbn [andb]. rewrite Z.bits_above_log2; [done|lia|].
      destruct (decide (w = 0)) as [->|]; [cbn; lia|]. apply Z.log2_lt_pow2; [lia|].
      eapply Z.lt_le_trans; [apply Hw|]. apply Z.pow_le_mono_r; lia.
Qed.

Lemma flush_loop_spec e own x0 fuel : ∀ s x (j : nat), rinv e own s → filess s !! l = Some x →
  table_wf x0 → words_ok x0 → flushed_to j x0 x → max_fds x = max_fds x0 → max_fdset x = max_fdset x0 →
  Z.of_nat j ≤ max_fds x0 < Z.of_nat (fuel + j) →
  runs (flush_loop sys_close fuel l (Z.of_nat j)) s (λ s' _, ∃ y, closed e own l x y s s' ∧ flushed x0 y).
Proof.
  induction fuel as [|fuel IH]; intros s x j Hi Hl Hw Hok Hft E1 E2 Hfuel; cbn [flush_loop]; [lia|].
  runs_step. eapply runs_eq; [by apply (at_ptr_eq filess)|]. cbv zeta. rewrite E1, E2. unfold LONG_BITS. case_decide as Hend.
  { runs_auto. exists x. split; [by apply closed_refl|]. eapply flushed_to_end; [done..|]. lia. }
  assert (∃ w, close_on_exec x0 !! j = Some w) as [w Hwj].
  { apply lookup_lt_is_Some. pose proof (tw_coe _ Hw). unfold LONG_BITS in *. lia. }
  assert (0 ≤ w < 2 ^ 32) as Hwr by (exact (Forall_lookup_1 _ _ _ _ Hok Hwj)).
  rewrite Nat2Z.id. runs_step. eapply runs_eq.
  { rewrite (ft_high _ _ _ Hft j), Hwj by done. reflexivity. }
  runs_step. eapply runs_eq; [reflexivity|]. set (x1 := Files _ _ _ _ _ _ _). set (s1 := with_filess _ s).
  assert (rinv e own s1) as Hi1 by (by apply (rinv_same_table e own s l x x1)).
  assert (filess s1 !! l = Some x1) as Hl1 by (by apply lookup_insert_eq).
  assert (close_on_exec x1 !! j = Some 0) as H0.
  { cbn. apply list_lookup_insert_eq. apply lookup_lt_is_Some. by rewrite (ft_high _ _ _ Hft j), Hwj. }
  replace (Z.of_nat j * 32) with (Z.of_nat (32 * j)) by lia. runs_step.
  eapply runs_mono; [apply (close_word_spec e own 32 j s1 x1 (32 * j) w); try done|].
  { intros k Hk. symmetry. apply (Nat.div_unique k 32 j (k - 32 * j)); lia. }
  intros s2 _ (y & Hcl & Hc & Hwc). replace (Z.of_nat j + 1) with (Z.of_nat (S j)) by lia.
  eapply runs_mono; [apply (IH s2 y (S j)); try done|].
  - by destruct Hcl.
  - by eapply closed_lookup.
  - by eapply (flushed_to_step j x0 x x1 y w).
  - destruct (cl_sizes _ _ _ _ _ _ _ Hcl) as (? & -> & _). done.
  - destruct (cl_sizes _ _ _ _ _ _ _ Hcl) as (? & _ & -> & _). done.
  - lia.
  - intros s3 _ (z & Hcl2 & Hf). exists z. split; [|done]. eapply closed_trans; [|exact (closed_trans _ _ _ _ _ _ _ _ _ Hcl Hcl2)].
    split; [done|done|done|]. by destruct s.
Qed.

Lemma flush_old_files_spec e own s x :
  rinv e own s → filess s !! l = Some x → table_wf x → words_ok x →
  runs (flush_old_files sys_close l) s (λ s' _, ∃ y, closed e own l x y s s' ∧ flushed x y).
Proof.
  intros Hi Hl Hw Hok. unfold flush_old_files. runs_step. eapply runs_eq; [by apply (at_ptr_eq filess)|].
  pose proof (tw_min _ Hw). unfold NR_OPEN_DEFAULT in *.
  apply (flush_loop_spec e own x _ s x 0); try done; [|lia]. split; [lia|done|intros k; by destruct (Nat.ltb_spec (k / 32) 0); [lia|]].
Qed.
End close.

(** * [flush_old_exec] *)

(** kernel/signal.c resets the handlers of the current task. *)
Definition flush_signal_handlers_law (cur : Z) (flush_signal_handlers : M tres unit) : Prop :=
  ∀ s t l x, rtasks s !! cur = Some t → t_sig t = Some l → sigs s !! l = Some x →
    ∃ acts, flush_signal_handlers s = Ok (with_sigs (<[l := Sig (sig_count x) acts]> (sigs s)) s) ().

Lemma runs_in_res {A} (m : M tres A) s (Q : xsys → A → Prop) :
  runs m (xres s) (λ r a, Q (XSys r (xcur s)) a) → runs (in_res m) s Q.
Proof. unfold runs, in_res. by destruct (m (xres s)). Qed.

(** What the task has of its own after exec. *)
Definition fresh_task (s : tres) (cur : Z) (t : rtask) (s' : tres) : Prop :=
  ∃ lsig lmm, rtasks s' = <[cur := RTask (t_files t) (t_fs t) (Some lsig) (Some lmm)]> (rtasks s) ∧
    (∃ x, sigs s' !! lsig = Some x ∧ sig_count x = 1) ∧
    (∃ m, mms s' !! lmm = Some m ∧ mm_count m = 1 ∧ mm_mmap m = []).

(** The fields of the task that [flush_old_exec] sets. *)
Definition exec_fields (bprm : xbinprm) (x x' : xtask) : Prop :=
  x_uid x' = x_uid x ∧ x_euid x' = x_euid x ∧ x_gid x' = x_gid x ∧ x_egid x' = x_egid x ∧
  comm x' = task_comm (xb_filename bprm) (comm x) ∧ self_exec_id x' = u32 (self_exec_id x + 1) ∧
  x_dumpable x' =
    if decide (xb_uid bprm ≠ x_euid x ∨ xb_gid bprm ≠ x_egid x ∨ xb_readable bprm = false) then false
    else if decide (x_euid x = x_uid x ∧ x_egid x = x_gid x) then true else x_dumpable x.

Section flush.
Context (new_page_tables : positive → M tres Z) (Hnew : new_page_tables_law new_page_tables).
Context (exit_mmap : positive → M tres unit) (Hexit : exit_mmap_law exit_mmap).
Context (free_page_tables : positive → M tres unit) (Hfree : free_page_tables_law free_page_tables).
Context (cur : Z) (lfl : positive).
Context (sys_close : Z → M tres Z) (Hclose : sys_close_law lfl sys_close).
Context (flush_signal_handlers : M tres unit) (Hflush : flush_signal_handlers_law cur flush_signal_handlers).

(** From the point of no return on: [own'] still holds the old signal table, if the task has
    a new one. *)
Lemma flush_tail_spec e own own' s t t0 oldsig lsig lmm x m fx bprm :
  rinv e own' (xres s) → t_sig own = None →
  (own' = own ∧ lsig = oldsig ∨ own' = set_sig (Some oldsig) own ∧ lsig ≠ oldsig) →
  rtasks (xres s) !! cur = Some t → t = RTask (Some lfl) (t_fs t0) (Some lsig) (Some lmm) →
  sigs (xres s) !! lsig = Some x → sig_count x = 1 →
  mms (xres s) !! lmm = Some m → mm_count m = 1 → mm_mmap m = [] →
  filess (xres s) !! lfl = Some fx → table_wf fx → words_ok fx →
  runs (flush_tail sys_close flush_signal_handlers cur oldsig bprm) s (λ s' r, r = 0 ∧ rinv e own (xres s') ∧
    rtasks (xres s') = rtasks (xres s) ∧ (∃ x', sigs (xres s') !! lsig = Some x' ∧ sig_count x' = 1) ∧
    mms (xres s') !! lmm = Some m ∧
    (∃ y, filess (xres s') = <[lfl := y]> (filess (xres s)) ∧ flushed fx y) ∧ exec_fields bprm (xcur s) (xcur s')).
Proof.
  intros Hi Ho Hown Hc Ht Hx Hx1 Hm Hm1 Hm0 Hfx Hwf Hok. unfold flush_tail.
  assert (runs (release_old_signals cur oldsig) (xres s) (λ s' _, rinv e own s' ∧ s' = with_sigs (sigs s') (xres s) ∧
    sigs s' !! lsig = Some x)) as Hrel.
  { destruct Hown as [[-> ->]|[-> Hne]].
    - unfold release_old_signals. runs_step. eapply runs_eq; [by apply current_eq|]. rewrite decide_True by (by subst t).
      runs_auto. split; [done|]. split; [by destruct (xres s)|done].
    - eapply runs_mono; [eapply (release_old_signals_spec e own _ cur t oldsig lsig); try done; by subst t|].
      intros s' _ (Hi' & Es & Hk & _). split; [done|]. split; [done|]. by rewrite Hk. }
  runs_step. apply runs_in_res. eapply runs_mono; [exact Hrel|]. intros s1 _ (Hi1 & Es1 & Hx'). clear Hrel Hi Hown.
  assert (rtasks s1 = rtasks (xres s) ∧ mms s1 = mms (xres s) ∧ filess s1 = filess (xres s)) as (E1 & E2 & E3) by (by rewrite Es1).
  clear Es1. do 4 (runs_step; unfold update_cur; runs_step). cbn [xres xcur].
  runs_step. apply runs_in_res. cbn [xres xcur]. destruct (Hflush s1 t lsig x) as [acts E]; [by rewrite E1|by subst t|done|].
  eapply runs_eq; [exact E|]. clear E.
  runs_step. apply runs_in_res. cbn [xres xcur]. eapply runs_eq; [apply current_eq; cbn; by rewrite E1|].
  rewrite Ht. cbn [t_files]. runs_step. apply runs_in_res. cbn [xres xcur]. set (s2 := with_sigs _ s1).
  assert (rinv e own s2) as Hi2.
  { apply (rinv_sigs e own); [done|done|..].
    - intros k. rewrite default_insert. case_decide; [subst k; rewrite Hx'; cbn; lia|lia].
    - intros k [<-|[_ H]]%lookup_insert_is_Some; apply (r_fresh _ _ _ Hi1); eauto. }
  eapply runs_mono; [apply (flush_old_files_spec sys_close lfl Hclose e own s2 fx); try done; cbn; by rewrite E3|].
  intros s3 _ (y & [] & Hfl). runs_auto. split; [done|]. rewrite cl_state0. cbn. rewrite E1, E2.
  split; [by rewrite <- cl_state0|]. split; [done|].
  split; [by eexists; rewrite lookup_insert_eq|]. split; [done|]. split; [exists y; by rewrite cl_table0; cbn; rewrite E3|].
  unfold exec_fields. repeat case_decide; done.
Qed.

Lemma with_rtasks_id s : with_rtasks (rtasks s) s = s.
Proof. by destruct s. Qed.

(** The private table that [make_private_signals] made is freed again. *)
Lemma drop_private e own s t l l' x :
  rinv e (set_sig (Some l) own) s → t_sig own = None → rtasks s !! cur = Some t → t_sig t = Some l' → l' ≠ l →
  sigs s !! l' = Some x → sig_count x = 1 →
  rinv e own (with_rtasks (<[cur := set_sig (Some l) t]> (rtasks s)) (with_sigs (delete l' (sigs s)) s)).
Proof.
  intros Hi Ho Hc Ht Hne Hx H1.
  assert (rinv e (set_sig (Some l') own) (with_rtasks (<[cur := set_sig (Some l) t]> (rtasks s)) s)) as Hi2.
  { apply (rinv_swap e (set_sig (Some l) own) _ s cur t); [done|done|..]; intros k; cbn; rewrite ?Ht; lia. }
  refine (rinv_sigs e (set_sig (Some l') own) own _ (delete l' (sigs s)) Hi2 _ _ _); [done|..].
  - intros k. cbn. rewrite Ho, pt_some, pt_none. case_decide as Hk; [subst k|rewrite lookup_delete_ne by done; lia].
    rewrite lookup_delete_eq, Hx. cbn. lia.
  - intros k [y [_ Hy]%lookup_delete_Some]. apply (r_fresh _ _ _ Hi). eauto.
Qed.

(** C28: [flush_old_exec] of a task with the open files [fx]: before the point of no return
    an error leaves the task, its signal table, its memory and its files as they were.
    Else the task has a signal table and an empty memory that no other task shares, the
    marked descriptors are closed, the others open, and the name, the execution id and the
    dumpable flag are set.  The reference counts are right on every path. *)
Theorem flush_old_exec_spec e own s t oldsig lmm fx bprm :
  rinv e own (xres s) → t_sig own = None → t_mm own = None →
  rtasks (xres s) !! cur = Some t → t_files t = Some lfl → t_sig t = Some oldsig → t_mm t = Some lmm →
  filess (xres s) !! lfl = Some fx → table_wf fx → words_ok fx →
  runs (flush_old_exec new_page_tables exit_mmap free_page_tables sys_close flush_signal_handlers cur bprm) s
    (λ s' r, rinv e own (xres s') ∧
      ((r ≠ 0 ∧ xcur s' = xcur s ∧ rtasks (xres s') = rtasks (xres s) ∧ filess (xres s') = filess (xres s) ∧
        sigs (xres s') !! oldsig = sigs (xres s) !! oldsig ∧ mms (xres s') !! lmm = mms (xres s) !! lmm) ∨
       (r = 0 ∧ exec_fields bprm (xcur s) (xcur s') ∧ fresh_task (xres s) cur t (xres s') ∧
        ∃ y, filess (xres s') = <[lfl := y]> (filess (xres s)) ∧ flushed fx y))).
Proof.
  intros Hi Ho Hom Hc Hfl Hs Hm Hfx Hwf Hok. unfold flush_old_exec.
  destruct (sig_alive e own (xres s) oldsig Hi) as (x & Hx & Hxpos); [by eapply refs_task|].
  destruct (mm_alive e own (xres s) lmm Hi) as (cm & Hcm & Hcnt); [by eapply refs_task|].
  runs_step. apply runs_in_res. eapply runs_eq; [by apply current_eq|]. rewrite Hs.
  runs_step. apply runs_in_res. eapply runs_mono; [by eapply make_private_signals_spec|]. cbn [xres xcur].
  intros s1 r [[-> Hp]|[Hr ->]]; cycle 1.
  { rewrite decide_True by done. runs_step. apply runs_in_res. cbn [xres]. eapply runs_eq; [by apply set_current_eq|].
    runs_auto. rewrite <- Hs, set_sig_same, insert_id, with_rtasks_id by done. split; [done|left; by split_and!]. }
  rewrite decide_False by auto. destruct Hp as [[Hx1 ->]|(Hx1 & l' & n & Hl' & -> & Hi1)].
  - runs_step. apply runs_in_res. cbn [xres]. eapply runs_mono; [by eapply exec_mmap_spec|]. cbn [xcur].
    intros s2 r (Hi2 & _ & (Es & _ & Ef & _) & [(-> & lm & m & Et & Em & ? & ? & _)|(Hr & _ & Et & Em)]).
    + rewrite decide_False by auto. eapply runs_mono.
      { apply (flush_tail_spec e own own (XSys s2 (xcur s)) (RTask (Some lfl) (t_fs t) (Some oldsig) (Some lm)) t oldsig oldsig lm x m fx bprm);
          cbn [xres]; rewrite ?Es, ?Ef; try done; [by left| |lia].
        rewrite Et, lookup_insert_eq. destruct t; cbn in *. by simplify_eq. }
      cbn [xres xcur]. intros s3 r (-> & Hi3 & E1 & Hsig & E2 & (y & E3 & Hfl3) & Hex). split; [done|]. right.
      split; [done|]. split; [done|]. split; [|exists y; by rewrite <- Ef].
      exists oldsig, lm. rewrite E1, Et. split; [destruct t; cbn in *; by simplify_eq|]. split; [done|]. exists m. by rewrite E2.
    + rewrite decide_True by done. runs_step. apply runs_in_res. cbn [xres]. rewrite <- Et in Hc.
      eapply runs_eq; [by apply current_eq|]. rewrite Hs, decide_False by auto. runs_step. runs_step. runs_step.
      apply runs_in_res. cbn [xres xcur]. eapply runs_eq; [by apply set_current_eq|]. runs_auto.
      rewrite <- Hs, set_sig_same, insert_id, with_rtasks_id, Es, Ef, Em by done. split; [done|left; by split_and!].
  - runs_step. apply runs_in_res. cbn [xres xcur]. set (s1 := with_rtasks _ _) in *.
    assert (l' ≠ oldsig) as Hne by (intros ->; congruence).
    assert (rtasks s1 !! cur = Some (set_sig (Some l') t)) as Hc1 by (by apply lookup_insert_eq).
    eapply runs_mono; [by apply (exec_mmap_spec _ Hnew _ Hexit _ Hfree e (set_sig (Some oldsig) own) s1 cur (set_sig (Some l') t) lmm cm)|].
    intros s2 r (Hi2 & _ & (Es & _ & Ef & _) & [(-> & lm & m & Et & Em & ? & ? & _)|(Hr & _ & Et & Em)]).
    + rewrite decide_False by auto. eapply runs_mono.
      { apply (flush_tail_spec e own (set_sig (Some oldsig) own) (XSys s2 (xcur s))
          (RTask (Some lfl) (t_fs t) (Some l') (Some lm)) t oldsig l' lm (Sig 1 (action x)) m fx bprm);
          cbn [xres]; rewrite ?Es, ?Ef; try done; [by right| |by apply lookup_insert_eq].
        rewrite Et, lookup_insert_eq. destruct t; cbn in *. by simplify_eq. }
      cbn [xres xcur]. intros s3 r (-> & Hi3 & E1 & Hsig & E2 & (y & E3 & Hfl3) & Hex). split; [done|]. right.
      split; [done|]. split; [done|]. split; [|exists y; by rewrite Ef in E3].
      exists l', lm. rewrite E1, Et. split; [cbn; rewrite insert_insert_eq; destruct t; cbn in *; by simplify_eq|].
      split; [done|]. exists m. by rewrite E2.
    + rewrite decide_True by done. runs_step. apply runs_in_res. cbn [xres]. rewrite <- Et in Hc1.
      eapply runs_eq; [by apply current_eq|]. cbn [t_sig set_sig]. rewrite decide_True by done. runs_step. apply runs_in_res.
      runs_step. runs_step. apply runs_in_res. cbn [xres xcur]. eapply runs_eq; [by apply set_current_eq|]. runs_auto.
      split.
      * apply (drop_private e own s2 (set_sig (Some l') t) oldsig l' (Sig 1 (action x))); try done.
        rewrite Es. by apply lookup_insert_eq.
      * left. rewrite Et, Ef, Em. split; [done|]. split; [done|]. split; [|split; [done|split; [|done]]].
        -- cbn. rewrite insert_insert_eq, insert_id; [done|]. rewrite Hc. f_equal. destruct t; cbn in *. by rewrite Hs.
        -- rewrite Es. cbn. by rewrite lookup_delete_ne, lookup_insert_ne.
Qed.
End flush.
