(* ===== verification/Exec.v ===== *)
(** [do_execve] of src/src/dkmke/exec.c, lines 807-875: the pieces that ExecArgs,
    ExecCreds, ExecBinfmt and Dkmctl model, in their order.

    The call has three parts, because the process may sleep in [dkm_execve]: [exec_head]
    up to there, [exec_resume] when it is scheduled, [exec_tail] after it. *)

From Stdlib Require Import ZArith Lia.
From stdpp Require Import base list gmap.
From S2P Require Import Prelude.
From S2P Require Import Cbuf.
From S2P Require Import Dkmctl.
From S2P Require Import ExecArgs.
From S2P Require Import ExecBinfmt.
From S2P Require Import ExecCreds.

#[local] Open Scope Z_scope.

(** The argument pages, the binary formats with the dentry, and the state of Dkmctl. *)
Record esys : Type := ESys { e_args : astate; e_bin : bstate; e_kern : kernel }.

Definition in_args {A} (m : M astate A) : M esys A := λ s,
  match m (e_args s) with Ok x a => Ok (ESys x (e_bin s) (e_kern s)) a | Stop e => Stop e end.
Definition in_bin {A} (m : M bstate A) : M esys A := λ s,
  match m (e_bin s) with Ok x a => Ok (ESys (e_args s) x (e_kern s)) a | Stop e => Stop e end.
Definition in_dkm {A} (m : M kernel A) : M esys A := λ s,
  match m (e_kern s) with Ok x a => Ok (ESys (e_args s) (e_bin s) x) a | Stop e => Stop e end.

(** The call has returned, or the process sleeps; [retval] is then the result of the
    checks so far. *)
Inductive exec_at : Type := Done (retval : Z) | Asleep (retval : Z) (pc : exec_pc).

Definition with_buf (b : buf) (s : bstate) : bstate :=
  BState (formats s) (fmts s) true b (did_exec s) (dputs s) (modules s).

(** [free_page] of every slot of [bprm.page]. *)
Definition free_arg_pages (s : astate) : astate := AState ∅ (free_pages s + size (apages s)).

(** The arguments of the call: [km] and [um] are the memories of the kernel and of the
    process, [fnp] the address of [bprm.filename], which is the string [filename]. *)
Record exec_args : Type := EArgs {
  km : umem; um : umem; fnp : Z; filename : cstr; argv : Z; envp : Z
}.

(** What the file system says of the file: [open_namei] fails with an error, or gives the
    inode; [permission] and [read_exec]. *)
Record exec_file : Type := EFile { open_err : option Z; inode_of : inode; may_exec : Z; head_bytes : Z * buf }.

Section execve.
Context (run_binary : Z → M bstate Z) (request_module : buf → M bstate unit) (kmod : bool) (fuel : nat).

Definition exec_tail (cur retval : Z) : M esys exec_at :=
  _ ← in_dkm (do_execve_dkm cur (Returned 0));
  retval ← (if decide (retval >= 0) then in_bin (search_binary_handler run_binary request_module kmod fuel) else mret retval);
  if decide (retval >= 0) then mret (Done retval)
  else
    _ ← in_bin (modify (λ s, if bdentry s then dput_bprm s else s));
    _ ← in_args (modify free_arg_pages);
    mret (Done retval).

Definition exec_went (cur retval : Z) (pc : exec_pc) : M esys exec_at :=
  match pc with Returned _ => exec_tail cur retval | _ => mret (Asleep retval pc) end.

Definition exec_resume (cur retval : Z) (pc : exec_pc) : M esys exec_at :=
  pc ← in_dkm (dkm_resume cur pc);
  exec_went cur retval pc.

Definition count_args (m : umem) (a : Z) : M esys Z :=
  match count m a (bprm_p0 / 4) with Some n => mret n | None => stop OutOfFuel end.

(** [prepare_binprm] and the copy of the strings. *)
Definition exec_checks (noroot : bool) (c : cred) (f : exec_file) (b : bcred) (a : exec_args) (argc envc : Z) : M esys Z :=
  let r := prepare_binprm noroot c (inode_of f) (may_exec f) (head_bytes f) b in
  _ ← in_bin (modify (with_buf (b_buf r.2)));
  if decide (r.1 >= 0) then
    pe ← in_args (exec_copy_strings (km a) (um a) (fnp a) argc (argv a) envc (envp a));
    mret (if decide (s32 pe.1 < 0) then s32 pe.1 else r.1)
  else mret r.1.

Definition exec_head (cur : Z) (jf jr jo : buf) (noroot : bool) (c : cred) (f : exec_file) (b : bcred) (a : exec_args) : M esys exec_at :=
  _ ← in_args (modify (with_apages ∅));
  match open_err f with
  | Some e => mret (Done e)
  | None =>
    _ ← in_bin (modify (with_buf (b_buf b)));
    argc ← count_args (um a) (argv a);
    if decide (argc < 0) then _ ← in_bin (modify dput_bprm); mret (Done argc)
    else
      envc ← count_args (um a) (envp a);
      if decide (envc < 0) then _ ← in_bin (modify dput_bprm); mret (Done envc)
      else
        retval ← exec_checks noroot c f b a argc envc;
        pc ← in_dkm (dkm_execve cur jf jr jo (filename a));
        exec_went cur retval pc
  end.
End execve.
