(* ===== verification/ExecProps.v ===== *)
(** [do_execve]: its errors, and what [dkm_execve] does to a call that fails. *)

From Stdlib Require Import ZArith Lia.
From stdpp Require Import base list gmap.
From S2P Require Import Prelude.
From S2P Require Import Cbuf.
From S2P Require Import Dkmctl.
From S2P Require Import DkmctlInv.
From S2P Require Import DkmctlProps.
From S2P Require Import ExecArgs.
From S2P Require Import ExecBinfmt.
From S2P Require Import ExecCreds.
From S2P Require Import Exec.

#[local] Open Scope Z_scope.

Lemma runs_in_args {A} (m : M astate A) s (Q : esys → A → Prop) :
  runs m (e_args s) (λ x a, Q (ESys x (e_bin s) (e_kern s)) a) → runs (in_args m) s Q.
Proof. unfold runs, in_args. by destruct (m (e_args s)). Qed.
Lemma runs_in_bin {A} (m : M bstate A) s (Q : esys → A → Prop) :
  runs m (e_bin s) (λ x a, Q (ESys (e_args s) x (e_kern s)) a) → runs (in_bin m) s Q.
Proof. unfold runs, in_bin. by destruct (m (e_bin s)). Qed.
Lemma runs_in_dkm {A} (m : M kernel A) s (Q : esys → A → Prop) :
  runs m (e_kern s) (λ x a, Q (ESys (e_args s) (e_bin s) x) a) → runs (in_dkm m) s Q.
Proof. unfold runs, in_dkm. by destruct (m (e_kern s)). Qed.

(** [do_execve] looks at the [dkm_struct] of the task without changing it. *)
Lemma kstr_keeps b k k' n : kstr b k = Ok k' n → k' = k.
Proof. destruct b as [m|]; cbn; [|done]. unfold access. by destruct (buf_str m 0) as [?|]; [intros [= -> _]|]. Qed.

Lemma print_keeps b k k' : (match b with Some _ => _ ← kstr b; mret () | None => mret () end : M kernel unit) k = Ok k' () → k' = k.
Proof.
  destruct b as [m|]; [|by intros [= ->]]. unfold mbind, M_bind. destruct (kstr (Some m) k) as [k1 n|] eqn:E; [|done].
  apply kstr_keeps in E as ->. by intros [= ->].
Qed.

Lemma do_execve_dkm_keeps cur pc k k' : do_execve_dkm cur pc k = Ok k' () → k' = k.
Proof.
  unfold do_execve_dkm. intros H. unfold mbind at 1, M_bind, current_dkm in H.
  destruct (find_task_by_pid cur k) as [t|]; [|done]. unfold mbind at 1, M_bind, kderef in H.
  destruct (dkm t) as [l|]; [|done]. destruct (dkms k !! l) as [d|]; [|done]. unfold mbind at 1, M_bind in H.
  match type of H with match ?m k with _ => _ end = _ => destruct (m k) as [k1 []|] eqn:E; [|done] end.
  apply print_keeps in E as ->. by apply print_keeps in H.
Qed.

Section execve.
Context (run_binary : Z → M bstate Z) (request_module : buf → M bstate unit) (kmod : bool) (fuel : nat).

(** A call that failed before the program was started. *)
Definition failed_exec (s s' : esys) : Prop :=
  e_kern s' = e_kern s ∧ e_args s' = free_arg_pages (e_args s) ∧ e_bin s' = (if bdentry (e_bin s) then dput_bprm (e_bin s) else e_bin s).

Lemma exec_tail_failed cur retval s :
  retval < 0 → runs (do_execve_dkm cur (Returned 0)) (e_kern s) (λ _ _, True) →
  runs (exec_tail run_binary request_module kmod fuel cur retval) s (λ s' v, v = Done retval ∧ failed_exec s s').
Proof.
  intros Hr Hd. unfold exec_tail. runs_step. apply runs_in_dkm. destruct (runs_inv _ _ _ Hd) as (k' & [] & E & _).
  eapply runs_eq; [exact E|]. apply do_execve_dkm_keeps in E as ->. rewrite decide_False by lia. runs_step. runs_step.
  rewrite decide_False by lia. runs_step. apply runs_in_bin. runs_step. runs_step. apply runs_in_args. runs_auto.
  by split.
Qed.

(** Before the program can be opened and its arguments counted nothing is asked of ikcd. *)
Lemma exec_head_open cur jf jr jo noroot c f b a e s :
  open_err f = Some e →
  runs (exec_head run_binary request_module kmod fuel cur jf jr jo noroot c f b a) s (λ s' v, v = Done e ∧ e_kern s' = e_kern s).
Proof. intros Hf. unfold exec_head. runs_step. apply runs_in_args. runs_step. rewrite Hf. by runs_auto. Qed.

Lemma count_args_eq m a n s : count m a (bprm_p0 / 4) = Some n → count_args m a s = Ok s n.
Proof. intros H. unfold count_args. by rewrite H. Qed.

Lemma exec_checks_refused noroot c f b a argc envc r b' s :
  prepare_binprm noroot c (inode_of f) (may_exec f) (head_bytes f) b = (r, b') → r < 0 →
  runs (exec_checks noroot c f b a argc envc) s (λ s' v, v = r ∧ e_kern s' = e_kern s ∧ e_args s' = e_args s ∧ bdentry (e_bin s') = true).
Proof.
  intros Hp Hr. unfold exec_checks. rewrite Hp. runs_step. apply runs_in_bin. runs_step. cbn [fst snd].
  rewrite decide_False by lia. by runs_auto.
Qed.

(** C31: A file that may not be executed (or not by this process) is still asked for:
    [dkm_execve] runs before the result of the checks is looked at, so the process sends
    a request to ikcd and sleeps until ikcd answers, only to return the error then. *)
Theorem exec_refused_asks cur jf jr jo noroot c f b a argc envc r b' s k l d :
  e_kern s = at_dkm k l d → owns k cur l → served k cur →
  length jf = S (length (filename a)) → length jr = Z.to_nat NODE_LEN → length jo = Z.to_nat NODE_LEN →
  (length (nodename k) < Z.to_nat NODE_LEN)%nat →
  open_err f = None → count (um a) (argv a) (bprm_p0 / 4) = Some argc → 0 ≤ argc →
  count (um a) (envp a) (bprm_p0 / 4) = Some envc → 0 ≤ envc →
  prepare_binprm noroot c (inode_of f) (may_exec f) (head_bytes f) b = (r, b') → r < 0 →
  runs (exec_head run_binary request_module kmod fuel cur jf jr jo noroot c f b a) s (λ s1 v,
    v = Asleep r InMap ∧
    (∃ d', e_kern s1 = at_dkm (signalled cur k) l d' ∧ asks MAP_REQ d' ∧ names (filename a) (nodename k) d') ∧
    ∀ k' k'' v', dkm_resume cur InMap k' = Ok k'' (Returned v') →
      runs (do_execve_dkm cur (Returned 0)) k'' (λ _ _, True) →
      runs (exec_resume run_binary request_module kmod fuel cur r InMap) (ESys (e_args s1) (e_bin s1) k') (λ s2 v2,
        v2 = Done r ∧ e_kern s2 = k'' ∧ apages (e_args s2) = ∅ ∧ bdentry (e_bin s2) = false)).
Proof.
  intros Hk Ho Hs Hf Hr Hj Hn Hopen Hargc H0 Henvc H1 Hp Hneg. unfold exec_head.
  runs_step. apply runs_in_args. runs_step. rewrite Hopen. runs_step. apply runs_in_bin. runs_step.
  runs_step. eapply runs_eq; [by apply count_args_eq|]. rewrite decide_False by lia.
  runs_step. eapply runs_eq; [by apply count_args_eq|]. rewrite decide_False by lia.
  runs_step. eapply runs_mono; [by eapply exec_checks_refused|]. cbn [e_kern e_args e_bin]. intros s1 ? (-> & Ek & Ea & Eb).
  runs_step. apply runs_in_dkm. rewrite Ek, Hk. eapply runs_mono; [by apply execve_runs|].
  intros k1 pc (-> & d' & -> & Hask & Hnames). unfold exec_went. runs_auto. split; [done|]. split; [by exists d'|].
  intros k' k'' v' Hres Hdkm. unfold exec_resume. runs_step. apply runs_in_dkm. cbn [e_kern e_args e_bin].
  eapply runs_eq; [exact Hres|]. unfold exec_went. eapply runs_mono; [by apply exec_tail_failed|].
  intros s2 v2 (-> & E1 & E2 & E3). cbn in *. rewrite E1, E2, E3, Eb. done.
Qed.
End execve.
