(* ===== verification/Examples.v ===== *)
(** The properties of the csd component and of the packets at concrete inputs: databases
    that are built by operations, and packets in buffers of the sizes of the source. *)

From Stdlib Require Import ZArith Lia.
From stdpp Require Import base list gmap strings.
From S2P Require Import Prelude.
From S2P Require Import Cbuf.
From S2P Require Import Ctext.
From S2P Require Import CsdbKey.
From S2P Require Import CsdbState.
From S2P Require Import Csdb.
From S2P Require Import CsdbSpec.
From S2P Require Import CsdbRep.
From S2P Require Import CsdbUpdate.
From S2P Require Import CsdbStore.
From S2P Require Import CsdbTrace.
From S2P Require Import Csp.
From S2P Require Import Csd.
From S2P Require Import CsdProps.
From S2P Require Import Csc.
From S2P Require Import CscProps.
From S2P Require Import Csda.
From S2P Require Import CsdaProps.
From S2P Require Import Ikcp.
From S2P Require Import Csm.
From S2P Require Import CsmProps.
From S2P Require Import CsdLoop.
From S2P Require Import CsdNet.
From S2P Require Import CsdaMsq.
From S2P Require Ikcd.
Import Ikcd(ikcr_best_node_for_app).

(** A buffer of [n] zeros. *)
Definition zbuf (n : Z) : buf := replicate (Z.to_nat n) NUL.

Lemma length_zbuf n : (0 ≤ n)%Z → Z.of_nat (length (zbuf n)) = n.
Proof. intros. unfold zbuf. rewrite length_replicate. by apply Z2Nat.id. Qed.

Lemma maxpacket : Z.of_nat (length (zbuf CSP_MAXPACKET_SIZE)) = CSP_MAXPACKET_SIZE.
Proof. by apply length_zbuf. Qed.

Lemma maxline : Z.of_nat (length (zbuf MAXLINE)) = MAXLINE.
Proof. by apply length_zbuf. Qed.

(** * Databases *)

Definition built (ops : list db_op) : csdb :=
  match (csdb_init ≫= λ _, exec_ops ops) (csdb_empty 0) with Ok s _ => s | Stop _ => csdb_empty 0 end.
Definition built_tree (ops : list db_op) : tree :=
  match exec_ops ops (adb_init 0) with Ok a _ => atree a | Stop _ => atree (adb_init 0) end.
Definition builds (ops : list db_op) : bool :=
  match exec_ops ops (adb_init 0) with Ok a _ => negb (alocked a) | Stop _ => false end.

Lemma built_at ops : builds ops = true → db_at (built ops) (built_tree ops).
Proof.
  intros Hb. destruct (csdb_init_holds 0) as (s & Hs & Hh).
  pose proof (exec_ops_refines ops s (adb_init 0) Hh) as Hr.
  unfold built, built_tree, builds in *. rewrite (bind_Ok _ _ _ _ _ Hs).
  destruct (exec_ops ops (adb_init 0)) as [a rs|f]; [|done].
  destruct Hr as (s' & -> & (? & Hm & _)). split; [done|]. rewrite Hm. by destruct (alocked a).
Qed.

(** * csp.c *)

Lemma csp_resp_roundtrip_witness :
  ∃ m' n r', csp_pack_resp_packet (zbuf CSP_MAXPACKET_SIZE) CS_RESP_WDATA 0 (Some (lit "0.5")) =
      Some (m', Z.of_nat n) ∧
    csp_unpack_resp_packet (take n m' ++ drop n (zbuf 100)) = Some (r', (CS_RESP_WDATA, 0%Z, Some 5%Z)) ∧
    buf_str r' 5 = Some (lit "0.5").
Proof.
  exact (csp_resp_roundtrip (zbuf CSP_MAXPACKET_SIZE) (zbuf 100) 0 (lit "0.5") maxpacket
    ltac:(by_decision) ltac:(lia) ltac:(vm_compute; done) ltac:(vm_compute; lia)).
Defined.

Lemma csp_resp_overflow_witness :
  csp_pack_resp_packet (zbuf CSP_MAXPACKET_SIZE) CS_RESP_WDATA 0 (Some (zbuf 65533)) = None.
Proof.
  apply csp_resp_overflow; [apply maxpacket|]. unfold strlen. rewrite length_zbuf by lia.
  vm_compute. discriminate.
Defined.

(** * csd.c *)

Lemma cs_set_get_requests_witness :
  ∃ b1 n1 b2 n2,
    csp_pack_dbreq_packet (zbuf MAXLINE) (Some (lit ".config.x")) (Some (lit "1")) CS_SET = Some (b1, Z.of_nat n1) ∧
    csp_pack_dbreq_packet (zbuf MAXLINE) (Some (lit ".config.x")) None CS_GET = Some (b2, Z.of_nat n2) ∧
    runs (cs_receive_packets (zbuf CSP_MAXPACKET_SIZE) (zbuf MAXLINE) [Some (take n1 b1); Some (take n2 b2)]) example_db
      (λ s' outs,
         outs = [resp_ndata CS_RESP_SUCC; resp_bytes CS_RESP_WDATA CS_RESP_SUCC (lit "1")] ∧
         db_rep s' (nset (key_path (lit ".config.x")) (lit "1") (clock example_db) example_tree)).
Proof.
  apply cs_set_get_requests; [apply example_at|apply maxpacket|apply maxline..|reflexivity| | |done|vm_compute; done];
    by_decision.
Defined.

(** A request of an unknown type. *)
Lemma cs_db_request_uninit_witness : ∃ m,
  buf_get m 2 = Some (byte_of 99) ∧ cs_proceed_db_request (zbuf 100) m 2 example_db = Stop Uninit.
Proof.
  set (m := byte_of 1 :: byte_of 2 :: byte_of 99 :: drop 3 (dbreq_bytes CS_GET (lit ".config") None ++ zbuf 16)).
  exists m. split; [reflexivity|].
  destruct (csp_unpack_dbreq_request m 3 (schar (byte_of 99))) as [[m' [k v]]|] eqn:E; [|by vm_compute in E].
  apply (cs_db_request_uninit example_db (zbuf 100) m 2 (byte_of 99) m' k v (lit ".config")); [reflexivity|exact E| |].
  - vm_compute in E. injection E as <- <- <-. vm_compute. reflexivity.
  - right. right. vm_compute. done.
Defined.

Lemma cs_proceed_hello_overflow_witness :
  cs_proceed_hello (byte_of 1 :: byte_of 1 :: byte_of 200 :: zbuf 300) 2 example_db = Stop OutOfBounds.
Proof.
  apply (cs_proceed_hello_overflow _ _ (byte_of 200)); [reflexivity|]. left. vm_compute. reflexivity.
Defined.

Lemma cs_hello_roundtrip_witness :
  ∃ b n, csp_pack_hello_packet (zbuf 1024) (lit "defiant") (Some (lit "0.5")) (Some (lit "0.4")) (Some (lit "0.3")) =
      Some (b, Z.of_nat n) ∧
    runs (cs_receive_packet (zbuf 100) (zbuf MAXLINE) (Some (take n b))) example_db (λ s' _,
      csdb_get_value_for_key (lit ".alive." ++ lit "defiant" ++ lit ".loadavg5") s' = Ok s' (0%Z, Some (lit "0.4"))).
Proof.
  destruct (cs_hello_roundtrip example_db example_tree (zbuf 100) (zbuf MAXLINE) (zbuf 1024) (lit "defiant")
    (lit "0.5") (lit "0.4") (lit "0.3") example_at maxline) as (b & n & H1 & H2);
    [unfold zbuf; apply length_replicate|by_decision..|].
  exists b, n. split; [exact H1|]. eapply runs_mono; [exact H2|]. by intros s' a (_ & _ & H & _).
Defined.

Definition lib_db : list db_op := [OpSet (lit ".lib.libc_so_6") (lit "(libc6)")].

Lemma csc_cap_to_exec_spec_witness :
  ∃ s', csc_cap_to_exec (lit "libc.so.6 libm.so.6 ") (built lib_db) = Ok s' false ∧ db_at s' (built_tree lib_db).
Proof.
  destruct (csc_cap_to_exec_spec (built lib_db) (built_tree lib_db) (lit "libc.so.6 libm.so.6 "))
    as (s' & H1 & H2); [apply built_at; reflexivity|by_decision|].
  exists s'. split; [|exact H2]. rewrite H1. f_equal; vm_compute; reflexivity.
Defined.

Lemma csc_cap_to_exec_overflow_witness :
  csc_cap_to_exec (lit "libc.so.6") example_db = Stop OutOfBounds.
Proof. apply csc_cap_to_exec_overflow. by_decision. Defined.

(** * csc.c *)

Definition dump_text : cstr :=
  match csc_dump_db_to_file true [dot] example_db with Ok _ (_, t) => t | Stop _ => [] end.

Definition example_world : world :=
  World (λ _ _, NetTimeout) (lit "defiant")
    (λ path, if decide (path = lit "/proc/loadavg") then Some (lit "0.50 0.40 0.30 1/60 412" ++ [NL])
             else if decide (path = lit "csd.db") then Some dump_text else None)
    (λ _, []) [] (zbuf 100) [].

#[export] Instance data_ok_dec d : Decision (data_ok d).
Proof. unfold data_ok, has_value. apply _. Defined.

#[export] Instance fall_dec (P : edata → Prop) `{!∀ d, Decision (P d)} f : Decision (fall P f).
Proof. induction f; cbn; apply _. Defined.

Lemma csc_dump_restore_witness :
  csc_dump_db_to_file true [dot] example_db = Ok example_db (0%Z, dump_text) ∧
  runs (csdb_init ≫= λ _, csc_read_db_from_file example_world (lit "csd.db")) (csdb_empty 0) (λ s' ret,
    ret = 0%Z ∧ csdb_get_value_for_key (lit ".alive.defiant.loadavg1") s' = Ok s' (0%Z, Some (lit "0.5"))).
Proof.
  destruct (csc_dump_restore example_db example_tree example_world (lit "csd.db") 0 example_at) as (text & H1 & H2);
    [by_decision|].
  assert (dump_text = text) as Ht by (unfold dump_text; by rewrite H1).
  split; [by rewrite Ht|]. eapply runs_mono.
  - apply H2; rewrite <- Ht; [reflexivity|]. vm_compute. done.
  - intros s' ret [-> H]. split; [done|].
    apply (H (lit ".alive.defiant.loadavg1") (lit "0.5")); [reflexivity|done|]. vm_compute. reflexivity.
Defined.

Lemma csc_set_load_values_witness :
  runs (csc_set_load example_world) example_db (λ s' ret, ret = 0%Z ∧
    csdb_get_value_for_key (lit ".node." ++ lit "defiant" ++ lit ".load.avg1") s' = Ok s' (0%Z, Some (lit "0.50"))).
Proof.
  eapply runs_mono.
  - apply (csc_set_load_values example_db example_tree example_world (lit "0.50") (lit "0.40") (lit "0.30")
      (lit "1") (lit "60") (lit "412") example_at); [by_decision|vm_compute; lia|reflexivity|by_decision..].
  - by intros s' ret (H1 & _ & H2).
Defined.

(** * csda.c *)

Definition load_ops (n l : cstr) : list db_op :=
  [OpSet (lit ".alive." ++ n) (lit "1"); OpSet (lit ".node." ++ n ++ lit ".load.avg1") l;
   OpSet (lit ".node." ++ n ++ lit ".load.avg5") l; OpSet (lit ".node." ++ n ++ lit ".load.avg15") l].
Definition arbiter_ops : list db_op :=
  load_ops (lit "a") (lit "0.9") ++ load_ops (lit "b") (lit "0.1") ++
  [OpSet (lit ".app.sh.capnodes") (lit "a b ")].

Lemma arbiter_loads n : n ∈ [lit "a"; lit "b"] → loads_known (built_tree arbiter_ops) n.
Proof.
  intros Hn f Hf. rewrite !elem_of_cons, elem_of_nil in Hn. rewrite !elem_of_cons, elem_of_nil in Hf.
  destruct Hn as [->|[->|[]]], Hf as [->|[->|[->|[]]]]; vm_compute; by eexists.
Qed.

Lemma csda_best_node_max_witness :
  runs (csda_best_node_for_app NODE_SIZE (lit "sh") []) (built arbiter_ops) (λ s' r,
    db_at s' (built_tree arbiter_ops) ∧
    ∃ m, r.1 = Some m ∧ ∀ n, n ∈ [lit "a"; lit "b"] → alive (built_tree arbiter_ops) n →
      d_gt (bench (built_tree arbiter_ops) n) m = false).
Proof.
  eapply runs_mono.
  - apply (csda_best_node_max (built arbiter_ops) (built_tree arbiter_ops) (lit "sh") [] (lit "a b "));
      [apply built_at; reflexivity|by_decision|vm_compute; lia|vm_compute; reflexivity|].
    change (strtok [space] (lit "a b ")) with [lit "a"; lit "b"].
    repeat constructor; try by_decision; intros _; apply arbiter_loads; by_decision.
  - intros s' r (Hat & m & Hm & _ & H). split; [done|]. exists m. split; [done|]. intros n Hn. by apply H.
Defined.

Definition silent_ops : list db_op :=
  [OpSet (lit ".alive.a") (lit "1"); OpSet (lit ".app.sh.capnodes") (lit "a b ")].

Lemma csda_best_node_hangs_witness :
  csda_best_node_for_app NODE_SIZE (lit "sh") [] (built silent_ops) = Stop Deadlock.
Proof.
  apply (csda_best_node_hangs (built silent_ops) (built_tree silent_ops) (lit "sh") [] (lit "a") (lit "b") []);
    [apply built_at; reflexivity|by_decision|vm_compute; lia|vm_compute; reflexivity|by_decision|by_decision| |].
  - vm_compute. by eexists.
  - vm_compute. reflexivity.
Defined.

Lemma bn_request_roundtrip_witness :
  scan_request (decimal 6877 ++ lit " " ++ lit "/bin/ls") 0 [] = (6877%Z, lit "/bin/ls").
Proof. apply bn_request_roundtrip; [lia|by_decision]. Defined.

Lemma arbiter_unsigned n : n ∈ [lit "a"; lit "b"] → loads_unsigned (built_tree arbiter_ops) n.
Proof.
  intros Hn f l Hf. rewrite !elem_of_cons, elem_of_nil in Hn. rewrite !elem_of_cons, elem_of_nil in Hf.
  destruct Hn as [->|[->|[]]], Hf as [->|[->|[->|[]]]]; vm_compute; by intros [= <-].
Qed.

Lemma ikcd_gets_best_node_witness :
  ∃ node, ikcr_best_node_for_app (lit "here") 3 6877
      (csd_answers (lit "a") (Vars 0 [] []) (built arbiter_ops)) (lit "sh") () = Ok () (0%Z, node) ∧
    best_or_host (built_tree arbiter_ops) (lit "a") [lit "a"; lit "b"] node.
Proof.
  apply (ikcd_gets_best_node (built arbiter_ops) (built_tree arbiter_ops) (lit "a") (lit "sh") (lit "a b "));
    [apply built_at; reflexivity|by_decision|by_decision|by_decision|vm_compute; lia|vm_compute; reflexivity|..].
  - change (strtok [space] (lit "a b ")) with [lit "a"; lit "b"].
    repeat constructor; try by_decision; intros _; apply arbiter_loads; by_decision.
  - change (strtok [space] (lit "a b ")) with [lit "a"; lit "b"].
    repeat constructor; apply arbiter_unsigned; by_decision.
  - vm_compute. done.
  - lia.
  - lia.
  - vm_compute. done.
Defined.

(** * ikcp.c and ikcr.c *)

Lemma ikcr_request_number_roundtrip_witness :
  ikcr_unpack_thread_id (ikcr_pack_request_number 42 (ikcr_pack_request_id 3 9)) = 3%Z ∧
  ikcr_unpack_seq_number (ikcr_pack_request_number 42 (ikcr_pack_request_id 3 9)) = 9%Z.
Proof.
  destruct (ikcr_request_number_roundtrip 42 3 9 42 3 10) as (_ & H1 & H2 & _); [lia..|]. by split.
Defined.

Lemma ikcp_proc_creat_req_roundtrip_witness :
  ∃ p, ikcp_pack_proc_creat_req 7 300 (lit "here") (lit "/bin/ls") [] = Some (p, strlen p) ∧
    ikcp_unpack_proc_creat_req p = Some (7%Z, 300%Z, lit "here", lit "/bin/ls", []).
Proof.
  apply ikcp_proc_creat_req_roundtrip; [lia|lia|by_decision|by_decision|by_decision|vm_compute; done|vm_compute; done].
Defined.

Lemma ikcp_pack_req_overflow_witness :
  ikcp_pack_proc_creat_req 7 300 (lit "here") (zbuf 65530) [] = None.
Proof.
  apply ikcp_pack_req_overflow; unfold strlen; rewrite ?length_zbuf by lia; vm_compute; done.
Defined.

Lemma ikcp_proc_creat_resp_roundtrip_witness :
  ∃ p, ikcp_pack_proc_creat_resp 7 76 = Some (p, strlen p) ∧ ikcp_unpack_proc_creat_resp p = Some (7%Z, 76%Z).
Proof. apply ikcp_proc_creat_resp_roundtrip; lia. Defined.

(** * csm.c *)

(** A client before its first command; its arrays happen to hold zeros. *)
Definition new_csm : csm := Csm (zbuf MAXLINE) (zbuf MAXLINE) (zbuf MAXLINE) (zbuf MAXLINE) (zbuf MAXLINE) None.

Lemma new_csm_sized : csm_sized new_csm.
Proof. repeat constructor; apply maxline. Qed.

Ltac by_typed := split; [split; [done|]|]; by_decision.

Lemma csm_session_witness :
  runs (csd_cli (CsdCall0 := csd_server (zbuf CSP_MAXPACKET_SIZE))
    (lit "get .config.def_db_req" ++ [NL] ++ lit "set .config.x 1 2" ++ [NL] ++ lit "get .config.x" ++ [NL])
    new_csm) (example_db, zbuf MAXLINE) (λ _ out,
    out = prompt ++ (lit ".load.avg1" ++ prompt) ++ prompt ++ (lit "1 2" ++ prompt)).
Proof.
  eapply runs_mono.
  - apply (csm_session example_db example_tree (zbuf CSP_MAXPACKET_SIZE) (zbuf MAXLINE) new_csm []
      (lit ".config.def_db_req") (EData (lit "def_db_req") (Some (lit ".load.avg1")) true 0 0)
      (lit ".load.avg1") (lit ".config.x") (lit "1 2")); [apply example_at|apply maxpacket|apply maxline
      |apply new_csm_sized|by vm_compute|by_typed|reflexivity|by vm_compute|by vm_compute|done|done
      |by_decision|by vm_compute|by_typed|reflexivity| |by vm_compute].
    split; [by do 2 eexists|]. by_decision.
  - by intros s' out [H _].
Defined.

Lemma csm_first_set_witness :
  csd_cli (CsdCall0 := csd_server (zbuf CSP_MAXPACKET_SIZE)) (lit "set .config.x 1" ++ [NL] ++ lit "quit")
    new_csm (example_db, zbuf MAXLINE) = Stop Uninit.
Proof.
  apply (csm_first_set example_db example_tree (zbuf CSP_MAXPACKET_SIZE) (zbuf MAXLINE) new_csm []
    (lit ".config.x") (lit "1") (lit "quit")); [apply example_at|apply maxpacket|apply maxline
    |apply new_csm_sized|by vm_compute|done|done|by_typed|reflexivity| |by vm_compute].
  split; [by do 2 eexists|]. by_decision.
Defined.

(** A server that refuses every request. *)
Lemma csd_cli_total_witness :
  csd_cli (CsdCall0 := λ _ s, Ok s (Some (resp_ndata CS_RESP_ERR))) (lit "get .a" ++ [NL] ++ lit "what") new_csm ()
    ≠ Stop OutOfFuel.
Proof. apply csd_cli_total. done. Defined.

(** * Daemons that talk to each other *)

Lemma cs_load_reaches_peer_witness :
  runs (_ ← csc_set_load example_world; cs_send_hello example_world (zbuf 1024)) example_db (λ _ r,
    ∃ bytes, r.2 = Some bytes ∧
      runs (cs_receive_packet (zbuf CSP_MAXPACKET_SIZE) (zbuf MAXLINE) (Some bytes)) example_db (λ s' _,
        csdb_get_value_for_key (lit ".alive." ++ lit "defiant" ++ lit ".loadavg1") s' =
          Ok s' (0%Z, Some (lit "0.50")))).
Proof.
  eapply runs_mono.
  - apply (cs_load_reaches_peer example_world example_db example_tree example_db example_tree
      (zbuf CSP_MAXPACKET_SIZE) (zbuf MAXLINE) (zbuf 1024) (lit "0.50") (lit "0.40") (lit "0.30")
      (lit "1") (lit "60") (lit "412") example_at example_at);
      [by_decision|by_decision|by_decision|apply length_replicate|apply maxline|reflexivity|by_decision..].
  - intros s' [c sent] (bytes & H & Hr). exists bytes. split; [exact H|].
    eapply runs_mono; [exact Hr|]. by intros s'' ? (_ & H1 & _).
Defined.

(** The node [defiant] with its load, as the node [voyager] asks it. *)
Definition defiant_ops : list db_op := [OpSet (lit ".node.defiant.load.avg1") (lit "0.7")].
Definition voyager_world : world :=
  World (λ node, if decide (node = lit "defiant")
                 then csd_answer (zbuf CSP_MAXPACKET_SIZE) (zbuf MAXLINE) (built defiant_ops)
                 else λ _, NetNoHost)
    (lit "voyager") (λ _, None) (λ _, []) [] (zbuf MAXLINE) [].

Lemma csc_do_def_req_copies_witness :
  runs (csc_do_def_req_for_alive_nodes voyager_world) example_db (λ s' ret, ret = 0%Z ∧
    csdb_get_value_for_key (lit ".node.defiant.load.avg1") s' = Ok s' (0%Z, Some (lit "0.7"))).
Proof.
  set (c := default (new_data [] 0, FNil) (nlookup [lit "alive"] example_tree)).
  eapply runs_mono.
  - apply (csc_do_def_req_copies example_db example_tree voyager_world c.1 c.2 (lit ".load.avg1")
      (λ _ _, lit "0.7") example_at); [apply maxline|by vm_compute|by vm_compute|by vm_compute|by vm_compute|].
    change (fnames c.2) with [lit "defiant"].
    change (strtok [space] (lit ".load.avg1")) with [lit ".load.avg1"].
    constructor; [|done]. intros _.
    exists (zbuf CSP_MAXPACKET_SIZE), (zbuf MAXLINE), (built defiant_ops), (built_tree defiant_ops).
    split; [reflexivity|]. split.
    { split; [apply maxpacket|]. split; [apply maxline|]. apply built_at. reflexivity. }
    constructor; [|done]. split_and!; [reflexivity|by_decision|by vm_compute|by vm_compute|by_decision|by vm_compute].
  - intros s' ret [-> Hat]. split; [done|]. eapply get_leaf_at; [exact Hat|reflexivity|].
    by vm_compute.
Defined.
