(* ===== verification/ExamplesKernel.v ===== *)
(** The theorems of the kernel files at concrete inputs: their hypotheses hold there. *)

From Stdlib Require Import ZArith Lia.
From stdpp Require Import base list gmap fin_maps strings.
From S2P Require Import Prelude.
From S2P Require Import ForkPid.
From S2P Require Import ForkUid.
From S2P Require Import ForkUidRep.
From S2P Require Import ForkUidProps.
From S2P Require Import ExecArgs.
From S2P Require Import ExecArgsProps.
From S2P Require Import ExecBinfmt.
From S2P Require Import ExecBinfmtProps.
From S2P Require Import ExecCreds.
From S2P Require Import Cbuf.
From S2P Require Import Dkmctl.
From S2P Require Import DkmctlInv.
From S2P Require Import DkmctlProps.
From S2P Require Import Exec.
From S2P Require Import ExecProps.

#[local] Open Scope Z_scope.

(** * Process ids: init forks *)
Definition init_task : ptask := PTask 1 1 1.
Definition init_pids : pids := Pids 300 PID_MAX [init_task].

Lemma init_pids_inv : pid_inv init_pids.
Proof.
  assert (∀ x, used [init_task] x → x = 1) as Hu.
  { intros x [t [Ht Hx]]. apply list_elem_of_singleton in Ht as ->. apply in_task_ids in Hx. cbn in Hx. lia. }
  split; cbn; [unfold PID_MAX; lia|done| |]; intros x ->%Hu; unfold PID_MAX; lia.
Qed.

Lemma pid_reach_unique_witness :
  pids_unique (link_task (PTask 301 1 1) (Pids 301 PID_MAX [init_task])) ∧
  pid_inv (link_task (PTask 301 1 1) (Pids 301 PID_MAX [init_task])).
Proof.
  apply (pid_reach_unique init_pids).
  - exact init_pids_inv.
  - apply NoDup_singleton.
  - eapply pid_reach_step; [apply pid_reach_refl|].
    apply (pid_fork init_task 0 init_pids (Pids 301 PID_MAX [init_task]) 301);
      [left|reflexivity|vm_compute; discriminate|reflexivity].
Defined.

(** * Users: a task of the user 1000 forks *)
Definition user_tasks : gmap Z utask := {[100 := UTask 1000 None]}.
Definition user_1 : usys := match alloc_uid true 100 (uinit user_tasks) with Ok s _ => s | Stop _ => uinit user_tasks end.
Definition user_2 : usys := match fork_user 100 101 8 user_1 with Ok s _ => s | Stop _ => user_1 end.

Lemma uid_counts_witness : ∃ u, users user_2 !! 1%positive = Some u ∧ ucount u = 2.
Proof.
  destruct (uid_counts user_tasks user_2) as (_ & H & _).
  - intros p t Hp. unfold user_tasks in Hp. apply lookup_singleton_Some in Hp as [<- <-]. cbn. split; [done|lia].
  - apply (ureach_step _ user_1 user_2); [apply (ureach_step _ (uinit user_tasks) user_1); [apply ureach_refl|]|].
    + by apply (u_alloc _ _ true 100 (UTask 1000 None) 0).
    + by apply (u_fork _ _ 100 101 8 0).
  - destruct (H 101 (UTask 1000 (Some 1%positive)) 1%positive) as (u & Hu & _ & Hc); [reflexivity|reflexivity|].
    exists u. split; [exact Hu|]. rewrite Hc. reflexivity.
Defined.

(** * The arguments of ls *)
Definition mem_at (base : Z) (l : list byte) : umem :=
  λ a, if decide (base ≤ a) then l !! Z.to_nat (a - base) else None.

(** A pointer, little endian, of small addresses. *)
Definition ptr_bytes (a : Z) : list byte := [byte_of (a `mod` 256); byte_of (a / 256); NUL; NUL].
Definition ls_kernel : umem := mem_at 1000 (ptr_bytes 1004 ++ lit "/bin/ls"%string ++ [NUL]).
Definition ls_user : umem :=
  mem_at 2000 (ptr_bytes 2016 ++ ptr_bytes 2019 ++ ptr_bytes 2022 ++ [NUL; NUL; NUL; NUL]
    ++ lit "ls"%string ++ [NUL] ++ lit "-l"%string ++ [NUL] ++ lit "TERM=vt"%string ++ [NUL]).

Lemma uargv_check am sm argv l :
  Forall (λ '(i, s), ∃ p, get_user am (argv + 4 * i) = Some p ∧ ustring sm p s) (zip (seqZ 0 (Z.of_nat (length l))) l) →
  uargv am sm argv l.
Proof.
  intros H i s Hi. eapply (Forall_lookup_1 _ _ i (Z.of_nat i, s)) in H; [done|].
  apply lookup_zip_Some. split; [|done]. apply lookup_seqZ. split; [lia|]. apply lookup_lt_Some in Hi. lia.
Qed.

Lemma ustring_check um a s :
  a ≠ 0 → NUL ∉ s → (λ k, um (a + k)) <$> seqZ 0 (Z.of_nat (S (length s))) = Some <$> (s ++ [NUL]) → ustring um a s.
Proof.
  intros Ha Hn H. split; [done|]. split; [done|]. intros k b Hk.
  assert ((Some <$> (s ++ [NUL])) !! k = Some (Some b)) as E by (by rewrite list_lookup_fmap, Hk).
  rewrite <- H, list_lookup_fmap in E. destruct (seqZ 0 _ !! k) as [z|] eqn:Ez; [|done].
  apply lookup_seqZ in Ez as [-> _]. by injection E.
Qed.

Ltac args_check :=
  apply uargv_check; repeat constructor; (eexists; split; [reflexivity|apply ustring_check; [done|by_decision|reflexivity]]).

Lemma exec_args_reach_program_witness :
  runs (exec_copy_strings ls_kernel ls_user 1000 2 2000 1 2008) (fresh_args 32) (λ s r,
    let t := setup_arg_pages true (apages s) (BinPtrs r.1 0 r.2) (NewMm [] ∅ 0 0) in
    pstring t.2 (bp t.1) (lit "ls"%string) ∧ pstring t.2 (bp t.1 + 3) (lit "-l"%string) ∧
    bexec t.1 = bp t.1 + 14).
Proof.
  eapply runs_mono.
  - apply (exec_args_reach_program ls_kernel ls_user (lit "/bin/ls"%string) [lit "ls"%string; lit "-l"%string]
      [lit "TERM=vt"%string] 1000 2000 2008 32 (NewMm [] ∅ 0 0)); [vm_compute; discriminate|done|args_check|args_check|args_check| |].
    + vm_compute. discriminate.
    + apply Forall_forall; by_decision.
  - intros s r (H & Hx & _). cbv zeta. split; [|split].
    + specialize (H 0%nat _ eq_refl). by rewrite Z.add_0_r in H.
    + exact (H 1%nat _ eq_refl).
    + exact Hx.
Defined.

(** * Binary formats: 1 is registered, 2 is not *)
Definition two_formats : gmap positive linux_binfmt :=
  {[1%positive := Binfmt None (Some 7) None; 2%positive := Binfmt None (Some 8) None]}.
Definition one_listed : bstate := BState (Some 1%positive) two_formats true [] 0 0 [].

Lemma binfmt_list_refines_witness :
  runs (register_binfmt (Some 2%positive)) one_listed (λ s' r, r = 0 ∧ fmt_list s' [2%positive; 1%positive]).
Proof.
  assert (fmt_list one_listed [1%positive]) as Hl.
  { split; [|apply NoDup_singleton]. split; [done|]. exists (Binfmt None (Some 7) None). by split. }
  destruct (binfmt_list_refines one_listed [1%positive] 2 (Binfmt None (Some 8) None) Hl eq_refl) as [H _].
  eapply runs_mono; [exact H|]. cbv beta. intros s' r. rewrite decide_False by by_decision. done.
Defined.

(** Both are listed, and only the second knows the file. *)
Definition both_listed : bstate :=
  BState (Some 1%positive) {[1%positive := Binfmt (Some 2%positive) (Some 7) None; 2%positive := Binfmt None (Some 8) None]} true [] 0 0 [].
Definition handler (fn : Z) : M bstate Z := if decide (fn = 8) then mret 0 else mret (- ENOEXEC).

Lemma search_first_handler_witness :
  search_binary_handler handler (λ _, mret ()) true 3 both_listed = Ok (with_did_exec 1 (dput_bprm both_listed)) 0.
Proof.
  rewrite (search_first_handler handler (λ _, mret ()) true both_listed [1%positive; 2%positive] 8 [7] [] 3).
  - reflexivity.
  - split; [|by_decision]. split; [done|]. eexists. split; [reflexivity|]. split; [done|]. eexists. by split.
  - cbn. lia.
  - reflexivity.
  - reflexivity.
  - intros fn ->%list_elem_of_singleton. reflexivity.
  - intros s' v. cbn. by intros [= <- <-].
Defined.

(** * Credentials: a traced task runs a set-uid program of its own user *)
Definition user_cred : cred :=
  Cred 100 1000 1000 1000 1000 100 100 100 100 [] 0 0 0 (Some 0) 1 1 1 1.
Definition setuid_file : inode := Inode 0x89ED 1000 0 false false true 0.
Definition user_bprm : bcred := BCred 0 0 0 0 0 [].

(** The same for a set-uid file of root and a tracer that has CAP_SYS_PTRACE. *)
Definition debugged_cred : cred :=
  Cred 100 1000 1000 1000 1000 100 100 100 100 [] 0 0 0 (Some (2 ^ CAP_SYS_PTRACE)) 1 1 1 1.
Definition root_file : inode := Inode 0x89ED 0 0 false false true 0.

Lemma exec_gain_checked_witness :
  (let c' := compute_creds (prepare_binprm false user_cred setuid_file 0 (128, []) user_bprm).2 user_cred in
   euid c' = 1000 ∧ cap_issubset (cap_permitted c') 0 = true) ∧
  (let c' := compute_creds (prepare_binprm false debugged_cred root_file 0 (128, []) user_bprm).2 debugged_cred in
   euid c' = 0 ∧ suid c' = euid c').
Proof.
  destruct (prepare_binprm false user_cred setuid_file 0 (128, []) user_bprm) as [r b'] eqn:E.
  destruct (prepare_binprm false debugged_cred root_file 0 (128, []) user_bprm) as [r2 b2] eqn:E2.
  assert (r = 128) as Hr by (vm_compute in E; by injection E).
  assert (r2 = 128) as Hr2 by (vm_compute in E2; by injection E2).
  destruct (exec_gain_checked false user_cred setuid_file 0 (128, []) user_bprm r b' ltac:(done) E ltac:(lia) ltac:(done))
    as (_ & _ & _ & _ & _ & _ & _ & _ & H1 & H2 & _).
  destruct (exec_gain_checked false debugged_cred root_file 0 (128, []) user_bprm r2 b2 ltac:(done) E2 ltac:(lia) ltac:(done))
    as (H3 & _ & H4 & _).
  split; split; [by apply H1|by apply H2|exact H3|exact H4].
Defined.

(** * A file that may not be executed: 10 asks ikcd for it *)
Definition no_memory : umem := λ _, None.
Definition plain_file : exec_file := EFile None (Inode 0x81A4 0 0 false false true 0) 0 (128, []).
Definition plain_args : exec_args := EArgs no_memory no_memory 4 (lit "/etc/motd"%string) 0 0.
Definition exec_state : esys := ESys (AState ∅ 0) one_listed example_kernel.

Lemma exec_refused_asks_witness :
  runs (exec_head handler (λ _, mret ()) true 3 10 (zeros 10) (zeros 65) (zeros 65) false user_cred plain_file user_bprm plain_args)
    exec_state (λ s v, v = Asleep (- EACCES) InMap ∧ ∃ l d, dkms (e_kern s) !! l = Some d ∧ asks MAP_REQ d).
Proof.
  eapply runs_mono.
  - apply (exec_refused_asks handler (λ _, mret ()) true 3 10 (zeros 10) (zeros 65) (zeros 65) false user_cred plain_file user_bprm
      plain_args 0 0 (- EACCES) user_bprm exec_state example_kernel 2 new_dkm);
      [by rewrite at_dkm_id|exact example_owns|exact example_served|reflexivity|reflexivity|reflexivity|vm_compute; lia|reflexivity
      |reflexivity|lia|reflexivity|lia|reflexivity|reflexivity].
  - intros s v (-> & (d' & E & Ha & _) & _). split; [done|]. exists 2%positive, d'. split; [|exact Ha].
    rewrite E. apply lookup_insert_eq.
Defined.
