(* ===== verification/ExamplesFork.v ===== *)
(** A fork and an exec of one process: functions that keep the promises of the memory
    manager, of the file system and of kernel/exit.c, a state in which the hypotheses of
    [do_fork_spec] and [flush_old_exec_spec] hold, and what the definitions compute. *)

From Stdlib Require Import ZArith Lia.
From stdpp Require Import base list gmap fin_maps strings.
From S2P Require Import Prelude.
From S2P Require Import Dkmctl.
From S2P Require Import DkmctlInv.
From S2P Require Import ForkPid.
From S2P Require Import ForkUid.
From S2P Require Import ForkUidRep.
From S2P Require Import ForkUidProps.
From S2P Require Import TaskRes.
From S2P Require Import ForkCopy.
From S2P Require Import ForkCopyProps.
From S2P Require Import ForkFilesProps.
From S2P Require Import ForkMm.
From S2P Require Import ForkMmProps.
From S2P Require Import ForkExit.
From S2P Require Import Fork.
From S2P Require Import ForkParts.
From S2P Require Import ForkProps.
From S2P Require Import ExecFlush.
From S2P Require Import ExecFlushProps.

#[local] Open Scope Z_scope.

(** * The rest of the kernel *)

Definition my_new_page_tables (l : positive) : M tres Z := λ s,
  match mms s !! l with
  | None => Ok s (-1)
  | Some m =>
    let g := fresh (dom (pgds s)) in
    Ok (with_mms (<[l := set_pgd (Some g) m]> (mms s)) (with_pgds (<[g := ()]> (pgds s)) s)) 0
  end.

Lemma with_mem_id s : with_mem (mem s) s = s.
Proof. by destruct s. Qed.

Lemma my_new_page_tables_ok : new_page_tables_law my_new_page_tables.
Proof.
  intros l s m Hl. unfold my_new_page_tables. rewrite Hl. do 2 eexists. exists (mem s). split; [reflexivity|].
  right. split; [done|]. eexists. split; [|by destruct s]. apply not_elem_of_dom, is_fresh.
Qed.

(** The files without some references. *)
Definition put_files (g w : positive → Z) (fs : gmap positive file) : gmap positive file :=
  map_imap (λ f x, Some (File (f_count x - g f) (i_writecount x + w f))) fs.

Lemma put_files_count g w fs f :
  (fs !! f = None → g f = 0) → default 0 (f_count <$> put_files g w fs !! f) = default 0 (f_count <$> fs !! f) - g f.
Proof. unfold put_files. rewrite map_lookup_imap. destruct (fs !! f); cbn; [done|]. intros H. rewrite H by done. done. Qed.

Lemma put_files_write g w fs f x :
  put_files g w fs !! f = Some x → ∃ y, fs !! f = Some y ∧ i_writecount x = i_writecount y + w f.
Proof.
  unfold put_files. rewrite map_lookup_imap. destruct (fs !! f) as [y|]; cbn; [|done]. intros [= <-]. by exists y.
Qed.

Lemma occ_zero f (l : list (option positive)) : Some f ∉ l → occ f l = 0.
Proof.
  induction l as [|o l IH]; [done|]. intros [Ho Hl]%not_elem_of_cons. cbn. rewrite IH by done.
  unfold pt. by rewrite decide_False.
Qed.

Definition my_exit_mmap (l : positive) : M tres unit := λ s,
  match mms s !! l with
  | None => Stop BadPtr
  | Some m => Ok (with_files (put_files (λ f, occ f (mm_files m)) (λ f, mm_denies f m) (files s))
                    (with_mms (<[l := set_mmap [] 0 m]> (mms s)) s)) ()
  end.

Lemma my_exit_mmap_ok : exit_mmap_law my_exit_mmap.
Proof.
  intros l s m Hl Hal. unfold my_exit_mmap. rewrite Hl. exists (put_files (λ f, occ f (mm_files m)) (λ f, mm_denies f m) (files s)), (share s), (mem s).
  split; [by destruct s|]. split; [|by intros f x ?%put_files_write].
  intros f. apply put_files_count. intros Hn. apply occ_zero. intros (v & Hv & Hin)%list_elem_of_fmap.
  destruct (Hal v f Hin (eq_sym Hv)) as [? E]. congruence.
Qed.

Definition my_free_page_tables (l : positive) : M tres unit := λ s,
  match mms s !! l with
  | None => Stop BadPtr
  | Some m => Ok (with_pgds (match mm_pgd m with Some g => delete g (pgds s) | None => pgds s end) s) ()
  end.

Lemma my_free_page_tables_ok : free_page_tables_law my_free_page_tables.
Proof. intros l s m Hl. unfold my_free_page_tables. rewrite Hl. exists (mem s). by destruct s. Qed.

Definition my_vm_open (v : vma) : M tres unit := mret ().

Lemma my_vm_open_ok : vm_open_law my_vm_open.
Proof. intros v s. exists (mem s). by rewrite with_mem_id. Qed.

(** ** kernel/exit.c *)

Definition my_exit_sighand : M tres unit := λ s,
  match t_sig (newp s) with
  | None => Ok s ()
  | Some l =>
    match sigs s !! l with
    | None => Stop BadPtr
    | Some x => Ok (with_newp (set_sig None (newp s)) (with_sigs
        (if decide (sig_count x = 1) then delete l (sigs s) else <[l := Sig (sig_count x - 1) (action x)]> (sigs s)) s)) ()
    end
  end.

Lemma my_exit_sighand_ok : exit_sighand_law my_exit_sighand.
Proof. intros s l x Hl Hx. unfold my_exit_sighand. rewrite Hl, Hx. exists (mem s). by destruct s. Qed.

(** [dput] *)
Definition drop_dentry (d : positive) (m : gmap positive Z) : gmap positive Z := <[d := default 0 (m !! d) - 1]> m.

Definition my_exit_fs : M tres unit := λ s,
  match t_fs (newp s) with
  | None => Ok s ()
  | Some l =>
    match fss s !! l with
    | None => Stop BadPtr
    | Some x => Ok (with_newp (set_fs None (newp s)) (with_fss
        (if decide (fs_count x = 1) then delete l (fss s)
         else <[l := Fs (fs_count x - 1) (umask x) (fs_root x) (fs_pwd x)]> (fss s))
        (with_dentries (if decide (fs_count x = 1) then drop_dentry (fs_root x) (drop_dentry (fs_pwd x) (dentries s))
                        else dentries s) s))) ()
    end
  end.

Lemma drop_dentry_count d m k : default 0 (drop_dentry d m !! k) = default 0 (m !! k) - pt (Some d) k.
Proof.
  unfold drop_dentry. rewrite lookup_insert, pt_some. destruct (decide (d = k)) as [->|Hne].
  - by rewrite decide_True.
  - rewrite decide_False by done. lia.
Qed.

Lemma my_exit_fs_ok : exit_fs_law my_exit_fs.
Proof.
  intros s l x Hl Hx. unfold my_exit_fs. rewrite Hl, Hx. eexists (mem s), _. split; [by destruct s|].
  intros d. case_decide; [|lia]. rewrite !drop_dentry_count. lia.
Qed.

Definition my_exit_files : M tres unit := λ s,
  match t_files (newp s) with
  | None => Ok s ()
  | Some l =>
    match filess s !! l with
    | None => Stop BadPtr
    | Some x => Ok (with_newp (set_files None (newp s)) (with_filess
        (if decide (fl_count x = 1) then delete l (filess s)
         else <[l := Files (fl_count x - 1) (next_fd x) (max_fds x) (max_fdset x) (close_on_exec x) (open_fds x) (fd x)]> (filess s))
        (with_files (if decide (fl_count x = 1) then put_files (λ f, occ f (fd x)) (λ _, 0) (files s) else files s) s))) ()
    end
  end.

Lemma my_exit_files_ok : exit_files_law my_exit_files.
Proof.
  intros s l x Hl Hx Hal. unfold my_exit_files. rewrite Hl, Hx. eexists (mem s), _. split; [by destruct s|]. split.
  - intros f. case_decide; [|lia]. apply put_files_count. intros Hn. apply occ_zero. intros [i Hi]%list_elem_of_lookup.
    destruct (Hal i f) as [? E]; [|congruence]. unfold fd_entry. by rewrite Hi.
  - intros f z. case_decide; [|by exists z]. intros (y & Hy & E)%put_files_write. exists y. split; [done|]. lia.
Qed.

(** The free slots are a list. *)
Definition my_get_slot (l : list Z) : option (Z * list Z) := match l with [] => None | n :: l => Some (n, l) end.

Lemma my_slots_ok : slots_law my_get_slot cons.
Proof. split; [|done]. by intros [|m l] n l' [= -> ->]. Qed.

(** ** fs/open.c, fs/file.c, kernel/signal.c *)

Definition my_sys_close (l : positive) (i : Z) : M tres Z := λ s,
  match filess s !! l with
  | None => Stop BadPtr
  | Some x =>
    match fd_entry x (Z.to_nat i) with
    | None => Ok s (-9)
    | Some g =>
      let k := (Z.to_nat i / 32)%nat in
      Ok (with_filess (<[l := Files (fl_count x) (next_fd x) (max_fds x) (max_fdset x)
             (alter (λ w, Z.clearbit w (i mod 32)) k (close_on_exec x)) (alter (λ w, Z.clearbit w (i mod 32)) k (open_fds x))
             (<[Z.to_nat i := None]> (fd x))]> (filess s))
            (with_files (put_files (λ f, pt (Some g) f) (λ _, 0) (files s)) s)) 0
    end
  end.

Lemma my_sys_close_ok l : sys_close_law l (my_sys_close l).
Proof.
  intros s x i Hl. unfold my_sys_close. rewrite Hl, Nat2Z.id. destruct (fd_entry x i) as [g|]; [|by eexists].
  intros [y Hg]. eexists _, _, _, (mem s). split; [|split; [|split]]; cycle 1.
  - reflexivity.
  - intros f. apply put_files_count. intros Hn. rewrite pt_some. apply decide_False. congruence.
  - intros f z (w & Hw & E)%put_files_write. exists w. split; [done|]. lia.
  - by repeat split.
Qed.

Definition my_flush_signal_handlers (cur : Z) : M tres unit := λ s,
  match rtasks s !! cur ≫= t_sig with
  | None => Ok s ()
  | Some l => Ok (with_sigs (alter (λ x, Sig (sig_count x) ((λ _, 0) <$> action x)) l (sigs s)) s) ()
  end.

Lemma my_flush_signal_handlers_ok cur : flush_signal_handlers_law cur (my_flush_signal_handlers cur).
Proof.
  intros s t l x Hc Ht Hx. unfold my_flush_signal_handlers. rewrite Hc. cbn. rewrite Ht.
  exists ((λ _, 0) <$> action x). do 2 f_equal. apply map_eq. intros k. destruct (decide (k = l)) as [->|Hne].
  - by rewrite lookup_alter_eq, lookup_insert_eq, Hx.
  - by rewrite lookup_alter_ne, lookup_insert_ne.
Qed.

Definition grow {A} (a : A) (n : nat) (l : list A) : list A := l ++ replicate (n - length l) a.

Lemma length_grow {A} (a : A) n l : length (grow a n l) = Nat.max n (length l).
Proof. unfold grow. rewrite length_app, length_replicate. lia. Qed.

Definition my_expand_fdset (x : files_struct) (n : Z) : Z * files_struct :=
  let k := Z.to_nat ((n + 31) / 32) in
  let o := grow 0 k (open_fds x) in
  (0, Files (fl_count x) (next_fd x) (max_fds x) (LONG_BITS * Z.of_nat (length o)) (take (length o) (grow 0 (length o) (close_on_exec x))) o (fd x)).

Lemma my_expand_fdset_ok : expand_fdset_law my_expand_fdset.
Proof.
  intros x n y. unfold my_expand_fdset. intros [= <-]. cbn. split_and!; try done.
  - rewrite length_grow. unfold LONG_BITS. pose proof (Z.div_mod (n + 31) 32). pose proof (Z.mod_pos_bound (n + 31) 32). lia.
  - rewrite length_take, !length_grow. lia.
Qed.

Definition my_expand_fd_array (x : files_struct) (n : Z) : Z * files_struct :=
  let f := grow None (Z.to_nat n) (fd x) in
  (0, Files (fl_count x) (next_fd x) (Z.of_nat (length f)) (max_fdset x) (close_on_exec x) (open_fds x) f).

Lemma my_expand_fd_array_ok : expand_fd_array_law my_expand_fd_array.
Proof.
  intros x n y. unfold my_expand_fd_array. intros [= <-]. cbn. split_and!; try done. rewrite length_grow. lia.
Qed.

(** * One process: a file is open as 0 and marked for exec, and mapped *)

Definition one_task : rtask := RTask (Some 1%positive) (Some 2%positive) (Some 3%positive) (Some 4%positive).
Definition one_files : files_struct :=
  Files 1 1 32 1024 (1 :: replicate 31 0) (1 :: replicate 31 0) (Some 1%positive :: replicate 31 None).
Definition one_res : tres :=
  TRes {[4%positive := Mm 1 (Some 1%positive) [Vma 1 0 (Some 1%positive)] 1 false]} {[1%positive := ()]}
    {[3%positive := Sig 1 [7; 8]]} {[2%positive := Fs 1 18 1 1]} {[1%positive := one_files]}
    {[1%positive := 2]} {[1%positive := File 2 0]} {[1%positive := [1%positive]]} 5 20 {[1 := one_task]} no_refs.
Definition no_ext : ext := Ext (λ _, 0) (λ _, 0) (λ _, 0).

Lemma one_refs field l : refs field no_refs one_res l = pt (field one_task) l + pt (field no_refs) l.
Proof. unfold refs, one_res. cbn [rtasks]. by rewrite msum_singleton. Qed.

Lemma default_singleton {A} (g : A → Z) k (x : A) l :
  default 0 (g <$> ({[k := x]} : gmap positive A) !! l) = if decide (l = k) then g x else 0.
Proof. case_decide; [subst; by rewrite lookup_singleton_eq|by rewrite lookup_singleton_ne]. Qed.

Lemma one_rinv : rinv no_ext no_refs one_res.
Proof.
  split; cbn [sigs fss filess mms dentries files one_res x_file x_write x_dentry no_ext pgds rfresh].
  1-4: intros l; rewrite one_refs, default_singleton; cbn; rewrite pt_some, pt_none; case_decide; lia.
  - intros f. rewrite default_singleton. unfold file_refs. cbn [filess mms one_res]. rewrite !msum_singleton. cbn.
    rewrite !pt_some, !pt_none. case_decide; lia.
  - intros f x [<- <-]%lookup_singleton_Some. unfold deny_refs. cbn [mms one_res]. rewrite msum_singleton. reflexivity.
  - intros d. unfold dentry_refs. cbn [fss one_res]. rewrite msum_singleton. cbn [fs_root fs_pwd]. rewrite !pt_some.
    rewrite lookup_singleton. repeat case_decide; subst; cbn; congruence || lia.
  - done.
  - intros l m g [<- <-]%lookup_singleton_Some [= <-]. by rewrite lookup_singleton_eq.
  - intros l1 l2 m1 m2 g [<- <-]%lookup_singleton_Some [<- <-]%lookup_singleton_Some. done.
  - intros l [[x [<- _]%lookup_singleton_Some]|[[x [<- _]%lookup_singleton_Some]|[[x [<- _]%lookup_singleton_Some]|[x [<- _]%lookup_singleton_Some]]]]; lia.
Qed.

Lemma one_table_wf : table_wf one_files.
Proof.
  split; cbn [max_fds max_fdset one_files fd open_fds close_on_exec]; [reflexivity|reflexivity|reflexivity|unfold NR_OPEN_DEFAULT; lia|..].
  - intros [|i] w; [intros [= <-] _; unfold LONG_BITS; lia|]. intros Hw Hn.
    change (replicate 31 0 !! i = Some w) in Hw. apply lookup_replicate in Hw. lia.
  - intros [|i] f; [intros _; exists 1; split; [reflexivity|lia]|]. unfold fd_entry.
    change (default None (replicate 31 None !! i) = Some f → ∃ w, one_files.(open_fds) !! Z.to_nat (Z.of_nat (S i) / LONG_BITS) = Some w ∧ w ≠ 0).
    destruct (replicate 31 None !! i) as [o|] eqn:E; [|done]. by apply lookup_replicate in E as [-> _].
Qed.

(** * exec *)

Definition exec_xsys : xsys := XSys one_res (XTask 1000 1000 100 100 false (replicate 16 NUL) 5).
Definition exec_bprm : xbinprm := XBin (lit "/usr/bin/make"%string) 1000 100 true.

Lemma flush_old_exec_spec_witness :
  runs (flush_old_exec my_new_page_tables my_exit_mmap my_free_page_tables (my_sys_close 1) (my_flush_signal_handlers 1) 1 exec_bprm)
    exec_xsys (λ s' r, rinv no_ext no_refs (xres s') ∧
      (r = 0 → x_dumpable (xcur s') = true ∧ fresh_task one_res 1 one_task (xres s') ∧
        ∃ y, filess (xres s') = {[1%positive := y]} ∧ fd_entry y 0 = None)).
Proof.
  eapply runs_mono.
  - apply (flush_old_exec_spec _ my_new_page_tables_ok _ my_exit_mmap_ok _ my_free_page_tables_ok 1 1 _ (my_sys_close_ok 1)
      _ (my_flush_signal_handlers_ok 1) no_ext no_refs exec_xsys one_task 3 4 one_files exec_bprm);
      [exact one_rinv|reflexivity..|exact one_table_wf|]. repeat constructor; lia.
  - intros s' r [Hi H]. split; [exact Hi|]. intros ->. destruct H as [[? _]|(_ & Hx & Hf & y & Hy & Hfl & _)]; [done|].
    split; [|split; [exact Hf|]].
    + destruct Hx as (_ & _ & _ & _ & _ & _ & Hd). rewrite Hd. reflexivity.
    + exists y. split; [rewrite Hy; reflexivity|]. rewrite (Hfl 0%nat). reflexivity.
Defined.

(** The program was started, and its file with the mark is closed. *)
Example flush_old_exec_runs :
  match flush_old_exec my_new_page_tables my_exit_mmap my_free_page_tables (my_sys_close 1) (my_flush_signal_handlers 1) 1 exec_bprm exec_xsys with
  | Ok s' r => r = 0 ∧ f_count <$> files (xres s') !! 1%positive = Some 0 ∧ self_exec_id (xcur s') = 6
  | Stop _ => False
  end.
Proof. vm_compute. done. Qed.

Lemma task_comm_spec_witness :
  take 16 (task_comm (lit "/usr/local/bin/a-rather-long-program-name"%string) (replicate 16 NUL)) =
    lit "a-rather-long-p"%string ++ [NUL].
Proof.
  destruct (task_comm_spec (lit "/usr/local/bin/"%string) (lit "a-rather-long-program-name"%string) (replicate 16 NUL)) as [H _].
  - by_decision.
  - right. exists (lit "/usr/local/bin"%string). reflexivity.
  - reflexivity.
  - exact H.
Defined.

(** * fork *)

Definition fork_ids : ptask := PTask 10 10 10.
Definition fork_proc : fproc := FProc fork_ids 0 8 None (Some 1%positive) (Some 5) 0 17 10.
Definition fork_users : gmap Z utask := {[1 := UTask 1000 None]}.
Definition one_user : usys := match alloc_uid true 1 (uinit fork_users) with Ok s _ => s | Stop _ => uinit fork_users end.
Definition fork_state : fsys :=
  FSys one_res one_user (Pids 300 PID_MAX [fork_ids]) example_kernel {[1 := fork_proc]} [7; 6] 1 {[1%positive := 1]} 3.

Lemma one_user_inv : uinv one_user.
Proof.
  apply (ustep_inv (uinit fork_users)); [by apply (u_alloc _ _ true 1 (UTask 1000 None) 0)|].
  apply uinit_inv. intros p t Hp. unfold fork_users in Hp. apply lookup_singleton_Some in Hp as [<- <-]. cbn. split; [done|lia].
Qed.

Lemma fork_pids_inv : pid_inv (Pids 300 PID_MAX [fork_ids]).
Proof.
  assert (∀ x, used [fork_ids] x → x = 10) as Hu.
  { intros x [t [Ht Hx]]. apply list_elem_of_singleton in Ht as ->. apply in_task_ids in Hx. cbn in Hx. lia. }
  split; cbn; [unfold PID_MAX; lia|done| |]; intros x ->%Hu; unfold PID_MAX; lia.
Qed.

Definition fork_junk_open : list Z := replicate 32 3.

Lemma one_can_fork : can_fork no_ext fork_state 1 2 fork_proc (UTask 1000 (Some 1%positive)) one_task one_files (Task 10 (Some 2%positive)).
Proof.
  split; cbn [f_res f_users f_pids fork_state].
  - exact one_rinv.
  - exact one_user_inv.
  - split; [exact fork_pids_inv|]. split; [left|vm_compute; discriminate].
  - reflexivity.
  - reflexivity.
  - split; [reflexivity|]. by repeat split; eexists.
  - split; [|exact one_table_wf]. intros l [= <-]. reflexivity.
  - reflexivity.
  - done.
Qed.

Lemma do_fork_spec_witness :
  runs (do_fork my_get_slot cons my_exit_files my_exit_fs my_exit_sighand 0 my_new_page_tables (λ _ _, 0) my_vm_open
          my_exit_mmap my_free_page_tables my_expand_fdset my_expand_fd_array fork_junk_open fork_junk_open (replicate 32 None) 0 17 1 (Some 2))
    fork_state (fork_post 0 no_ext fork_state 1 2 fork_proc (UTask 1000 (Some 1%positive)) one_task 17).
Proof.
  apply (do_fork_spec my_get_slot cons my_slots_ok _ _ _ my_exit_files_ok my_exit_fs_ok my_exit_sighand_ok 0 (Z.le_refl 0)
    _ my_new_page_tables_ok (λ _ _, 0) _ my_vm_open_ok _ my_exit_mmap_ok _ my_free_page_tables_ok _ _ my_expand_fdset_ok
    my_expand_fd_array_ok fork_junk_open fork_junk_open (replicate 32 None) ltac:(by repeat split) 0
    no_ext fork_state 1 2 fork_proc _ one_task one_files (Task 10 (Some 2%positive)) 17 one_can_fork). reflexivity.
Defined.

(** The fork succeeds; with one page of memory less it fails and the use count of the
    module is as before. *)
Definition run_fork (n : nat) : option (fork_result * option Z * list Z) :=
  match do_fork my_get_slot cons my_exit_files my_exit_fs my_exit_sighand 0 my_new_page_tables (λ _ _, 0) my_vm_open
          my_exit_mmap my_free_page_tables my_expand_fdset my_expand_fd_array fork_junk_open fork_junk_open (replicate 32 None) 0 17 1 (Some 2)
          (with_res (with_mem n one_res) fork_state) with
  | Ok s v => Some (v, f_mods s !! 1%positive, f_slots s)
  | Stop _ => None
  end.

Example fork_runs :
  run_fork 6 = Some (Forked 301 false, Some 2, [6]) ∧ run_fork 5 = Some (Panic, Some 2, [6]) ∧
  run_fork 4 = Some (Forked (- ENOMEM) false, Some 1, [7; 6]) ∧ run_fork 0 = Some (Forked (- ENOMEM) false, Some 1, [7; 6]).
Proof. vm_compute. done. Qed.
