(* ===== verification/ExamplesMain.v ===== *)
(** The main thread of ikcd on a concrete host (IkcdMain.v): process 10 executes
    [/bin/ls] before and while the thread waits. *)

From Stdlib Require Import ZArith Lia Strings.Byte.
From stdpp Require Import base list gmap strings relations.
From S2P Require Import Prelude.
From S2P Require Import Cbuf.
From S2P Require Import Ctext.
From S2P Require Import Ikcq.
From S2P Require Import IkcState.
From S2P Require Import Ikcd.
From S2P Require Import IkcdCollect.
From S2P Require Import IkcdOut.
From S2P Require Import Dkmctl.
From S2P Require Import DkmctlInv.
From S2P Require Import DkmctlProps.
From S2P Require Import DkmctlSignal.
From S2P Require Import IkcdMain.

Local Abbreviation mstep := (main_step (lit "here") 1 2 answers_far 5).
Local Abbreviation lstep := (loop_step (lit "here") 1 2 answers_far 5).

Definition booted : sys := Sys example_kernel ∅.

Lemma booted_registered : registered 5 (kern booted).
Proof. split; [by left|by eexists]. Qed.

(** After [dkm_execve] of process 10. *)
Definition after_execve : kernel :=
  match dkm_execve 10 (zeros 8) (zeros 65) (zeros 65) (lit "/bin/ls") example_kernel with
  | Ok k _ => k | Stop _ => example_kernel end.

Lemma execve_run :
  dkm_execve 10 (zeros 8) (zeros 65) (zeros 65) (lit "/bin/ls") example_kernel = Ok after_execve InMap.
Proof. vm_compute. reflexivity. Qed.

Lemma after_execve_ikcd :
  dkm_ikcd_pid after_execve = dkm_ikcd_pid example_kernel ∧ is_Some (find_task_by_pid 5 after_execve).
Proof. vm_compute. by split; [|eexists]. Qed.

Definition asking : sys := Sys after_execve {[10%Z := InMap]}.

Lemma booted_asks q b ar f : world_step 5 (Main q b ar f booted) (Main q b true f asking).
Proof.
  assert (Main q b true f asking = Main q b (ar || bool_decide (sigusr2 (kern asking) ≠ sigusr2 (kern booted))) f asking) as ->.
  { f_equal. rewrite bool_decide_eq_true_2 by (vm_compute; done). by rewrite orb_true_r. }
  apply (w_kernel 5 (Main q b ar f booted)); [|apply after_execve_ikcd..].
  by apply (k_execve 10 (zeros 8) (zeros 65) (zeros 65) (lit "/bin/ls") example_kernel after_execve InMap ∅),
    execve_run.
Qed.

(** The process asks between the registration and the first [sigsuspend]. *)
Definition too_early : mainloop := Main BeforeSuspend false true false asking.

Lemma reach_too_early : rtc lstep (main_init false booted) too_early.
Proof.
  eapply rtc_l; [left; by eapply m_register|]. eapply rtc_l; [left; by apply m_unmask|].
  eapply rtc_l; [right; apply booted_asks|]. apply rtc_refl.
Qed.

Lemma ikc_first_signal_lost_witness :
  rtc lstep (main_init false booted) too_early ∧ pending (kern (others too_early)) = [(10, MAP_REQ)%Z] ∧
  ∃ s', rtc mstep too_early s' ∧ pc s' = InSuspend ∧ sig_usr2_flag s' = true ∧
    others s' = others too_early ∧ ∀ s'', ¬ mstep s' s''.
Proof.
  split; [exact reach_too_early|]. split; [vm_compute; reflexivity|].
  exact (ikc_first_signal_lost (lit "here") 1 2 answers_far 5 too_early eq_refl eq_refl eq_refl).
Defined.

(** It asks while the thread sleeps, which then blocks SIGUSR2. *)
Definition before_get : mainloop := Main GetRequest true false false asking.

Lemma reach_before_get : rtc lstep (main_init false booted) before_get.
Proof.
  eapply rtc_l; [left; by eapply m_register|]. eapply rtc_l; [left; by apply m_unmask|].
  eapply rtc_l; [left; by apply m_suspend|]. eapply rtc_l; [right; apply booted_asks|].
  eapply rtc_l; [left; by apply m_deliver|]. eapply rtc_l; [left; by apply m_test|].
  eapply rtc_l; [left; by apply m_clear|]. eapply rtc_l; [left; by apply m_block|]. apply rtc_refl.
Qed.

Lemma ikc_waiting_request_taken_witness :
  ∃ s' p rq, rtc mstep before_get s' ∧ pc s' = Serving p rq ∧
    pending (kern (others before_get)) = (p, rq) :: pending (kern (others s')).
Proof.
  apply (ikc_waiting_request_taken (lit "here") 1 2 answers_far 5 false booted before_get); try done.
  - exact example_kinv.
  - exact booted_registered.
  - exact reach_before_get.
Defined.

(** The kernel after the answer to the request. *)
Definition taken_kernel : kernel :=
  match sys_dkmctl 5 DKM_GET_REQ 0 0 (Argv (UInt 0) (UInt 0)) after_execve with Ok k _ => k | Stop _ => after_execve end.

Definition serve_now : outcome (ikcd * kernel) (bool * buf) :=
  ikc_serve_request (DkmctlCall0 := kernel_dkmctl 5) (lit "here") 1 2 answers_far
    (zeros 257) junk_request (zeros 257) junk_elem 10 MAP_REQ (ikcd_init, taken_kernel).

Definition served_kernel : kernel := match serve_now with Ok s _ => s.2 | Stop _ => taken_kernel end.

Lemma taken_run :
  sys_dkmctl 5 DKM_GET_REQ 0 0 (Argv (UInt 0) (UInt 0)) after_execve =
    Ok taken_kernel (Return 0 (Argv (UInt 10) (UInt MAP_REQ))).
Proof. vm_compute. reflexivity. Qed.

Lemma serve_now_run : serve_now = Ok (ikcd_init, served_kernel) (true, lit "/bin/ls" ++ zeros 250).
Proof. vm_compute. reflexivity. Qed.

Lemma served_no_more :
  sys_dkmctl 5 DKM_GET_REQ 0 0 (Argv (UInt 0) (UInt 0)) served_kernel =
    Ok served_kernel (Return 1 (Argv (UInt (-1)) (UInt (-1)))).
Proof. vm_compute. reflexivity. Qed.

Definition asleep_again : mainloop := Main InSuspend true false false (Sys served_kernel {[10%Z := InMap]}).

Lemma reach_asleep_again : rtc lstep (main_init false booted) asleep_again.
Proof.
  etrans; [exact reach_before_get|].
  eapply rtc_l; [left; exact (m_get _ _ _ _ _ before_get taken_kernel 0 10 MAP_REQ eq_refl taken_run)|].
  eapply rtc_l.
  { left. exact (m_serve _ _ _ _ _ (Main (Serving 10 MAP_REQ) true false false (Sys taken_kernel {[10%Z := InMap]}))
      ikcd_init ikcd_init served_kernel (zeros 257) (lit "/bin/ls" ++ zeros 250) junk_request (zeros 257) junk_elem
      10 MAP_REQ true
      eq_refl serve_now_run). }
  eapply rtc_l; [left; exact (m_get _ _ _ _ _ (Main GetRequest true false false (Sys served_kernel {[10%Z := InMap]})) served_kernel 1 (-1) (-1)
    eq_refl served_no_more)|].
  eapply rtc_l; [left; by apply m_suspend|]. apply rtc_refl.
Qed.

Lemma ikc_no_request_forgotten_witness : pending (kern (others asleep_again)) = [].
Proof.
  apply (ikc_no_request_forgotten (lit "here") 1 2 answers_far 5 false booted asleep_again); try done.
  - exact example_kinv.
  - exact booted_registered.
  - exact reach_asleep_again.
Defined.
